(** * Block-template assembly of the Zcash miner (miner.cpp)

    A shallow embedding of the coinbase builder, the transaction
    selection loop, the header commitment branch, the extra-nonce update
    and the miner-address extraction of [src/miner.cpp], together with
    the properties the specification states about them.

    The second part of the development covers the rest of the path from
    the mempool to a mined block: the scan of the mempool that feeds the
    selection loop, [UpdateTime] and the clock of [util/time.cpp], the
    nonce search of [BitcoinMiner], [ProcessBlockFound] and
    [GetMinerAddress]; and the hex dump of [test/alert_tests.cpp].  Its
    properties are read from the code.

    Conventions.
    - [CAmount] is C++ [int64_t].  Signed overflow is undefined behaviour
      in C++, so amounts are embedded as unbounded [Z]: the model
      describes the executions in which no signed amount overflows.
    - Unsigned and narrowing conversions are defined behaviour and are
      written out ([to_uint32], [to_uint64], [to_int32]).
    - [double] is IEEE binary64 and embedded as the primitive [float].
    - Collaborators that live outside miner.cpp (consensus parameters,
      coin view, proof system, hashing) are fields of records that the
      functions take as arguments, as the C++ code takes [chainparams]
      and [view]. *)

From Stdlib Require Import ZArith Lia String Ascii.
From Stdlib Require Import Floats.PrimFloat.
From Stdlib Require Floats.SpecFloat Floats.FloatOps Floats.FloatAxioms.
From stdpp Require Import base list gmap.

Local Open Scope Z_scope.

(** ** Machine integers *)

Definition to_uint32 (z : Z) : Z := z mod 2^32.
Definition to_uint64 (z : Z) : Z := z mod 2^64.
Definition to_uint8 (z : Z) : Z := z mod 2^8.

(** Conversion of an [unsigned int] value to [int] (two's complement). *)
Definition to_int32 (z : Z) : Z :=
  let u := to_uint32 z in if u <? 2^31 then u else u - 2^32.

Definition CAmount : Type := Z.
(** A 256-bit value; the null value of [uint256] is zero. *)
Definition uint256 : Type := N.
Definition uint256_null : uint256 := 0%N.

(** ** Scripts

    A [CScript] is a byte vector. *)

Definition CScript : Type := list Z.

Module Script.

Definition OP_0 : Z := 0x00.
Definition OP_PUSHDATA1 : Z := 0x4c.
Definition OP_PUSHDATA2 : Z := 0x4d.
Definition OP_PUSHDATA4 : Z := 0x4e.
Definition OP_1 : Z := 0x51.
Definition OP_DUP : Z := 0x76.
Definition OP_EQUALVERIFY : Z := 0x88.
Definition OP_HASH160 : Z := 0xa9.
Definition OP_CHECKSIG : Z := 0xac.

(** The loop [while (absvalue) { push_back(absvalue & 0xff); absvalue >>= 8; }]
    over a 64-bit magnitude: at most eight rounds. *)
Fixpoint magnitude_bytes (rounds : nat) (absvalue : Z) : list Z :=
  match rounds with
  | O => []
  | S r =>
      if absvalue =? 0 then []
      else Z.land absvalue 0xff :: magnitude_bytes r (Z.shiftr absvalue 8)
  end.

(** Modelled from the spec: script.h is not among the sources.  The spec
    says the coinbase scriptSig holds the height "encoded as a
    CScriptNum", then the extra nonce as a CScriptNum; this is
    [CScriptNum::serialize], the minimal little-endian sign-magnitude
    encoding of a 64-bit integer. *)
Definition CScriptNum_serialize (value : Z) : list Z :=
  if value =? 0 then []
  else
    let neg := value <? 0 in
    let absvalue := to_uint64 (if neg then - value else value) in
    let result := magnitude_bytes 8 absvalue in
    let back := List.last result 0 in
    if negb (Z.land back 0x80 =? 0) then
      result ++ [if neg then 0x80 else 0]
    else if neg then
      removelast result ++ [Z.lor back 0x80]
    else result.

Definition le_bytes (count : nat) (v : Z) : list Z :=
  List.map (fun i => Z.land (Z.shiftr v (8 * Z.of_nat i)) 0xff) (seq 0 count).

(** Modelled from the spec: script.h is not among the sources.  This is
    [CScript::operator<<(const std::vector<unsigned char>&)], the data
    push with its length prefix. *)
Definition push_data (s : CScript) (b : list Z) : CScript :=
  let size := Z.of_nat (length b) in
  let prefix :=
    if size <? OP_PUSHDATA1 then [to_uint8 size]
    else if size <=? 0xff then [OP_PUSHDATA1; to_uint8 size]
    else if size <=? 0xffff then OP_PUSHDATA2 :: le_bytes 2 size
    else OP_PUSHDATA4 :: le_bytes 4 size in
  s ++ prefix ++ b.

(** Modelled from the spec: script.h is not among the sources.  This is
    [CScript::operator<<(int64_t)] ([push_int64]): the small integers
    -1 and 1..16 are single opcodes, everything else is pushed as a
    serialized script number. *)
Definition push_int64 (s : CScript) (n : Z) : CScript :=
  if (n =? -1) || ((1 <=? n) && (n <=? 16)) then s ++ [n + (OP_1 - 1)]
  else push_data s (CScriptNum_serialize n).

(** Modelled from the spec: script.h is not among the sources.  This is
    [CScript::operator<<(const CScriptNum&)], which pushes the serialized
    number as data. *)
Definition push_scriptnum (s : CScript) (n : Z) : CScript :=
  push_data s (CScriptNum_serialize n).

(** Modelled from the spec: script.h is not among the sources.  This is
    [CScript::operator<<(opcodetype)], which appends the opcode's byte. *)
Definition push_opcode (s : CScript) (op : Z) : CScript := s ++ [op].

End Script.

(** ** Addresses *)

Definition CKeyID : Type := list Z.          (* 20 bytes *)
Definition CScriptID : Type := list Z.
Definition SproutPaymentAddress : Type := N.
Definition SaplingPaymentAddress : Type := N.
Definition OrchardRawAddress : Type := N.

(** [CReserveScript]: the only member miner.cpp reads is [reserveScript]. *)
Record CReserveScript := { reserveScript : CScript }.

(** [MinerAddress] is
    [std::variant<OrchardRawAddress, SaplingPaymentAddress, shared_ptr<CReserveScript>>]. *)
Inductive MinerAddress :=
| MinerOrchard (to : OrchardRawAddress)
| MinerSapling (pa : SaplingPaymentAddress)
| MinerScript (coinbaseScript : CReserveScript).

Definition IsShieldedMinerAddress (minerAddr : MinerAddress) : bool :=
  negb (match minerAddr with MinerScript _ => true | _ => false end).

(** [libzcash::RecipientAddress] is
    [std::variant<CKeyID, CScriptID, SaplingPaymentAddress, OrchardRawAddress>]. *)
Inductive RecipientAddress :=
| RecipientKeyID (keyID : CKeyID)
| RecipientScriptID (scriptID : CScriptID)
| RecipientSapling (pa : SaplingPaymentAddress)
| RecipientOrchard (to : OrchardRawAddress).

(** A receiver of a Unified Address; typecodes this node does not know
    are kept with their raw bytes. *)
Inductive Receiver :=
| ReceiverKnown (r : RecipientAddress)
| ReceiverUnknown (typecode : Z) (data : list Z).

Definition UnifiedAddress : Type := list Receiver.

(** [libzcash::PaymentAddress], what [KeyIO::DecodePaymentAddress] yields. *)
Inductive PaymentAddress :=
| PaymentKeyID (keyID : CKeyID)
| PaymentScriptID (scriptID : CScriptID)
| PaymentSprout (addr : SproutPaymentAddress)
| PaymentSapling (addr : SaplingPaymentAddress)
| PaymentUnified (addr : UnifiedAddress).

(** Recipient of a funding stream: the two alternatives that
    [AddFundingStreamValueToTx] visits. *)
Inductive FundingStreamAddress :=
| FSSapling (pa : SaplingPaymentAddress)
| FSScript (scriptPubKey : CScript).

Definition FundingStreamElement : Type := FundingStreamAddress * CAmount.

(** ** Transactions *)

Record COutPoint := { prevout_hash : uint256; prevout_n : Z }.

(** Modelled from the spec: primitives/transaction.h is not among the
    sources.  The spec requires of a coinbase that [vin[0].prevout] "is
    null"; this is [COutPoint::SetNull]: hash zero, index [(uint32_t) -1]. *)
Definition COutPoint_null : COutPoint :=
  {| prevout_hash := uint256_null; prevout_n := to_uint32 (-1) |}.

Record CTxIn := { prevout : COutPoint; scriptSig : CScript; nSequence : Z }.

(** The value-initialised [CTxIn] that [vin.resize(1)] creates. *)
Definition CTxIn_default : CTxIn :=
  {| prevout := COutPoint_null; scriptSig := []; nSequence := to_uint32 (-1) |}.

Record CTxOut := { nValue : CAmount; scriptPubKey : CScript }.

(** [CTxOut()] calls [SetNull]: value -1, empty script. *)
Definition CTxOut_default : CTxOut := {| nValue := -1; scriptPubKey := [] |}.

Inductive Zip212Enabled := BeforeZip212 | AfterZip212.

Record SaplingNote := {
  note_address : SaplingPaymentAddress;
  note_value : CAmount;
  note_zip212 : Zip212Enabled
}.

(** [OutputDescriptionInfo(ovk, note, memo)]; the memo is always [NO_MEMO]. *)
Record OutputDescriptionInfo := {
  odi_ovk : uint256;
  odi_note : SaplingNote
}.

(** A Sapling output description.  Only its note commitment [cmu] is read
    by miner.cpp; the rest (proof, ciphertexts) is kept as one opaque value. *)
Record OutputDescription := { cmu : uint256; od_rest : N }.

Record JSDescription := { vpub_old : Z; vpub_new : Z }.

(** One output handed to [orchard::Builder::AddOutput] (the memo is
    always absent). *)
Record OrchardOutput := {
  oo_ovk : uint256;
  oo_to : OrchardRawAddress;
  oo_value : CAmount
}.

Record OrchardBuilder := {
  ob_spendsEnabled : bool;
  ob_outputsEnabled : bool;
  ob_anchor : uint256;
  ob_outputs : list OrchardOutput
}.

(** Modelled from the spec: [orchard::Builder] is not among the sources;
    a builder is represented by its flags, its anchor and the outputs
    added to it, in order. *)
Definition OrchardBuilder_AddOutput (b : OrchardBuilder) (ovk : uint256)
    (to : OrchardRawAddress) (value : CAmount) : OrchardBuilder :=
  {| ob_spendsEnabled := ob_spendsEnabled b;
     ob_outputsEnabled := ob_outputsEnabled b;
     ob_anchor := ob_anchor b;
     ob_outputs := ob_outputs b ++ [{| oo_ovk := ovk; oo_to := to; oo_value := value |}] |}.

(** An Orchard bundle as carried by a transaction.  Only its value
    balance is read by miner.cpp; the actions are kept as the outputs
    they pay, the proof and signatures as one opaque value. *)
Record OrchardBundle := {
  bundle_outputs : list OrchardOutput;
  bundle_valueBalance : CAmount;
  bundle_authorization : option N
}.

(** [tx.GetOrchardBundle().GetValueBalance()]; a transaction without
    Orchard component has balance zero. *)
Definition OrchardBundle_GetValueBalance (b : option OrchardBundle) : CAmount :=
  match b with
  | None => 0
  | Some b => bundle_valueBalance b
  end.

Definition sum_orchard_outputs (l : list OrchardOutput) : CAmount :=
  foldr (fun o acc => oo_value o + acc) 0 l.

Record CMutableTransaction := {
  fOverwintered : bool;
  nVersion : Z;
  nVersionGroupId : Z;
  nConsensusBranchId : option Z;
  vin : list CTxIn;
  vout : list CTxOut;
  nLockTime : Z;
  nExpiryHeight : Z;
  valueBalanceSapling : CAmount;
  vShieldedOutput : list OutputDescription;
  vJoinSplit : list JSDescription;
  orchardBundle : option OrchardBundle;
  bindingSig : option N
}.

(** Field updates of a mutable transaction. *)
Definition set_vin (v : list CTxIn) (m : CMutableTransaction) :=
  {| fOverwintered := fOverwintered m; nVersion := nVersion m;
     nVersionGroupId := nVersionGroupId m; nConsensusBranchId := nConsensusBranchId m;
     vin := v; vout := vout m; nLockTime := nLockTime m;
     nExpiryHeight := nExpiryHeight m; valueBalanceSapling := valueBalanceSapling m;
     vShieldedOutput := vShieldedOutput m; vJoinSplit := vJoinSplit m;
     orchardBundle := orchardBundle m; bindingSig := bindingSig m |}.

Definition set_vout (v : list CTxOut) (m : CMutableTransaction) :=
  {| fOverwintered := fOverwintered m; nVersion := nVersion m;
     nVersionGroupId := nVersionGroupId m; nConsensusBranchId := nConsensusBranchId m;
     vin := vin m; vout := v; nLockTime := nLockTime m;
     nExpiryHeight := nExpiryHeight m; valueBalanceSapling := valueBalanceSapling m;
     vShieldedOutput := vShieldedOutput m; vJoinSplit := vJoinSplit m;
     orchardBundle := orchardBundle m; bindingSig := bindingSig m |}.

Definition set_nExpiryHeight (h : Z) (m : CMutableTransaction) :=
  {| fOverwintered := fOverwintered m; nVersion := nVersion m;
     nVersionGroupId := nVersionGroupId m; nConsensusBranchId := nConsensusBranchId m;
     vin := vin m; vout := vout m; nLockTime := nLockTime m;
     nExpiryHeight := h; valueBalanceSapling := valueBalanceSapling m;
     vShieldedOutput := vShieldedOutput m; vJoinSplit := vJoinSplit m;
     orchardBundle := orchardBundle m; bindingSig := bindingSig m |}.

Definition set_valueBalanceSapling (v : CAmount) (m : CMutableTransaction) :=
  {| fOverwintered := fOverwintered m; nVersion := nVersion m;
     nVersionGroupId := nVersionGroupId m; nConsensusBranchId := nConsensusBranchId m;
     vin := vin m; vout := vout m; nLockTime := nLockTime m;
     nExpiryHeight := nExpiryHeight m; valueBalanceSapling := v;
     vShieldedOutput := vShieldedOutput m; vJoinSplit := vJoinSplit m;
     orchardBundle := orchardBundle m; bindingSig := bindingSig m |}.

Definition set_vShieldedOutput (v : list OutputDescription) (m : CMutableTransaction) :=
  {| fOverwintered := fOverwintered m; nVersion := nVersion m;
     nVersionGroupId := nVersionGroupId m; nConsensusBranchId := nConsensusBranchId m;
     vin := vin m; vout := vout m; nLockTime := nLockTime m;
     nExpiryHeight := nExpiryHeight m; valueBalanceSapling := valueBalanceSapling m;
     vShieldedOutput := v; vJoinSplit := vJoinSplit m;
     orchardBundle := orchardBundle m; bindingSig := bindingSig m |}.

Definition set_orchardBundle (b : option OrchardBundle) (m : CMutableTransaction) :=
  {| fOverwintered := fOverwintered m; nVersion := nVersion m;
     nVersionGroupId := nVersionGroupId m; nConsensusBranchId := nConsensusBranchId m;
     vin := vin m; vout := vout m; nLockTime := nLockTime m;
     nExpiryHeight := nExpiryHeight m; valueBalanceSapling := valueBalanceSapling m;
     vShieldedOutput := vShieldedOutput m; vJoinSplit := vJoinSplit m;
     orchardBundle := b; bindingSig := bindingSig m |}.

Definition set_bindingSig (b : option N) (m : CMutableTransaction) :=
  {| fOverwintered := fOverwintered m; nVersion := nVersion m;
     nVersionGroupId := nVersionGroupId m; nConsensusBranchId := nConsensusBranchId m;
     vin := vin m; vout := vout m; nLockTime := nLockTime m;
     nExpiryHeight := nExpiryHeight m; valueBalanceSapling := valueBalanceSapling m;
     vShieldedOutput := vShieldedOutput m; vJoinSplit := vJoinSplit m;
     orchardBundle := orchardBundle m; bindingSig := b |}.

(** [std::vector::resize(n)] with value-initialised new elements. *)
Definition vector_resize {A} (n : nat) (d : A) (v : list A) : list A :=
  take n v ++ replicate (n - length v) d.

(** Sum of the transparent output values ([GetValueOut] without the
    shielded part). *)
Definition sum_vout (v : list CTxOut) : CAmount :=
  foldr (fun o acc => nValue o + acc) 0 v.

(** ** Collaborators of the coinbase builder *)

Inductive UpgradeIndex :=
| BASE_SPROUT | UPGRADE_TESTDUMMY | UPGRADE_OVERWINTER | UPGRADE_SAPLING
| UPGRADE_BLOSSOM | UPGRADE_HEARTWOOD | UPGRADE_CANOPY | UPGRADE_NU5.

(** Version header of a freshly created transaction. *)
Record TxVersionInfo := {
  tvi_fOverwintered : bool;
  tvi_nVersion : Z;
  tvi_nVersionGroupId : Z;
  tvi_nConsensusBranchId : option Z;
  tvi_nExpiryHeight : Z
}.

(** The consensus parameter oracle ([chainparams] and
    [chainparams.GetConsensus()]): answers about a height. *)
Record CChainParams := {
  NetworkUpgradeActive : Z -> UpgradeIndex -> bool;
  IsActivationHeight : Z -> UpgradeIndex -> bool;
  CurrentEpochBranchId : Z -> Z;
  GetBlockSubsidy : Z -> CAmount;
  GetActiveFundingStreamElements : Z -> CAmount -> list FundingStreamElement;
  GetLastFoundersRewardBlockHeight : Z -> Z;
  GetFoundersRewardScriptAtHeight : Z -> CScript;
  ZIP209Enabled : bool;
  ContextualTxVersion : Z -> bool -> TxVersionInfo;
  (* UnifiedAddress::GetPreferredRecipientAddress(consensus, height) *)
  GetPreferredRecipientAddress : UnifiedAddress -> Z -> option RecipientAddress
}.

(** Modelled from the spec: [CreateNewContextualCMutableTransaction]
    (main.cpp) is not among the sources.  By the spec's data model a
    transaction is its input and output vectors, its shielded bundles
    with their value balances, a lock time, an expiry height and a
    version; a newly created one has empty vectors and zero balances,
    and version fields chosen for the height. *)
Definition CreateNewContextualCMutableTransaction
    (chainparams : CChainParams) (nHeight : Z) (requireV4 : bool) : CMutableTransaction :=
  let v := ContextualTxVersion chainparams nHeight requireV4 in
  {| fOverwintered := tvi_fOverwintered v; nVersion := tvi_nVersion v;
     nVersionGroupId := tvi_nVersionGroupId v;
     nConsensusBranchId := tvi_nConsensusBranchId v;
     vin := []; vout := []; nLockTime := 0;
     nExpiryHeight := tvi_nExpiryHeight v; valueBalanceSapling := 0;
     vShieldedOutput := []; vJoinSplit := [];
     orchardBundle := None; bindingSig := None |}.

(** What happens to the Sapling proving context, in program order. *)
Inductive CtxEvent :=
| CtxInit
| CtxBuild (output : OutputDescriptionInfo)
| CtxBindingSig
| CtxFree.

(** The proof system and the signature hashes.  A proving context is
    represented by the events it has seen; every operation that can fail
    in the source returns an [option]. *)
Record Prover := {
  (* OutputDescriptionInfo::Build(ctx) *)
  OutputDescriptionInfo_Build : list CtxEvent -> OutputDescriptionInfo -> option OutputDescription;
  (* librustzcash_sapling_binding_sig(ctx, valueBalance, sighash, out) *)
  sapling_binding_sig : list CtxEvent -> CAmount -> uint256 -> option N;
  (* SignatureHash(...); None when it throws std::logic_error *)
  SignatureHash : CMutableTransaction -> Z -> option uint256;
  (* ProduceZip244SignatureHash(...); None when it throws std::logic_error *)
  ProduceZip244SignatureHash : CMutableTransaction -> OrchardBundle -> option uint256;
  (* orchard::Builder::Build() succeeds *)
  OrchardBuilder_Build_ok : OrchardBuilder -> bool;
  (* UnauthorizedBundle::ProveAndSign(keys, sighash) *)
  ProveAndSign : OrchardBundle -> uint256 -> option N;
  (* the address derived from the 32 random bytes of GetRandBytes *)
  RandomDummyOrchardAddress : OrchardRawAddress;
  (* the globals nPreferredTxVersion and ZIP225_MIN_TX_VERSION *)
  nPreferredTxVersion : Z;
  ZIP225_MIN_TX_VERSION : Z
}.

(** Modelled from the spec: [orchard::Builder::Build] (transaction_builder.h
    and the Rust library behind it) is not among the sources.  The spec's
    data model gives an Orchard bundle "its own value balance" and says
    the coinbase decreases the Orchard value balance by the miner's
    share: the bundle of a builder without spends has as value balance
    minus the sum of the values of its outputs. *)
Definition OrchardBuilder_Build (prover : Prover) (b : OrchardBuilder) : option OrchardBundle :=
  if OrchardBuilder_Build_ok prover b
  then Some {| bundle_outputs := ob_outputs b;
               bundle_valueBalance := - sum_orchard_outputs (ob_outputs b);
               bundle_authorization := None |}
  else None.

(** ** The builder monad: a mutable transaction, the context trace, and
    C++ exceptions *)

Inductive Exception :=
| RuntimeErrorPtr (what : string)   (* throw new std::runtime_error(what) *)
| RuntimeError (what : string)      (* throw std::runtime_error(what) *)
| LogicError.                       (* a std::logic_error, rethrown by value *)

Inductive Outcome (A : Type) :=
| Returned (a : A)
| Threw (e : Exception).
Arguments Returned {A} a.
Arguments Threw {A} e.

Record World := { w_mtx : CMutableTransaction; w_trace : list CtxEvent }.

Definition Builder (A : Type) : Type := World -> Outcome A * World.

Definition ret {A} (a : A) : Builder A := fun w => (Returned a, w).

Definition bind {A B} (m : Builder A) (k : A -> Builder B) : Builder B :=
  fun w => match m w with
           | (Returned a, w') => k a w'
           | (Threw e, w') => (Threw e, w')
           end.

Definition throw {A} (e : Exception) : Builder A := fun w => (Threw e, w).

Notation "x <- m ;; k" := (bind m (fun x => k))
  (at level 100, m at next level, right associativity).
Notation "m ;; k" := (bind m (fun _ => k))
  (at level 100, right associativity).

Definition get_mtx : Builder CMutableTransaction := fun w => (Returned (w_mtx w), w).
Definition get_trace : Builder (list CtxEvent) := fun w => (Returned (w_trace w), w).
Definition modify_mtx (f : CMutableTransaction -> CMutableTransaction) : Builder unit :=
  fun w => (Returned tt, {| w_mtx := f (w_mtx w); w_trace := w_trace w |}).
Definition emit (e : CtxEvent) : Builder unit :=
  fun w => (Returned tt, {| w_mtx := w_mtx w; w_trace := w_trace w ++ [e] |}).

Definition librustzcash_sapling_proving_ctx_init : Builder unit := emit CtxInit.
Definition librustzcash_sapling_proving_ctx_free : Builder unit := emit CtxFree.

(** [output.Build(ctx)]: uses the context. *)
Definition Build_output (prover : Prover) (output : OutputDescriptionInfo)
    : Builder (option OutputDescription) :=
  tr <- get_trace ;;
  emit (CtxBuild output) ;;
  ret (OutputDescriptionInfo_Build prover tr output).

(** [librustzcash_sapling_binding_sig]: uses the context and, on
    success, writes [mtx.bindingSig]. *)
Definition librustzcash_sapling_binding_sig (prover : Prover)
    (valueBalance : CAmount) (dataToBeSigned : uint256) : Builder bool :=
  tr <- get_trace ;;
  emit CtxBindingSig ;;
  match sapling_binding_sig prover tr valueBalance dataToBeSigned with
  | Some sig => modify_mtx (set_bindingSig (Some sig)) ;; ret true
  | None => ret false
  end.

(** ** The coinbase builder *)

Section CoinbaseBuilder.

Variable chainparams : CChainParams.
Variable prover : Prover.
Variable nHeight : Z.
Variable nFees : CAmount.

(** class AddFundingStreamValueToTx *)
Definition AddFundingStreamValueToTx (fundingStreamValue : CAmount)
    (zip212Enabled : Zip212Enabled) (recipient : FundingStreamAddress) : Builder bool :=
  match recipient with
  | FSSapling pa =>
      let ovk := uint256_null in
      let note := {| note_address := pa; note_value := fundingStreamValue;
                     note_zip212 := zip212Enabled |} in
      let output := {| odi_ovk := ovk; odi_note := note |} in
      odesc <- Build_output prover output ;;
      match odesc with
      | Some od =>
          modify_mtx (fun m => set_vShieldedOutput (vShieldedOutput m ++ [od]) m) ;;
          modify_mtx (fun m => set_valueBalanceSapling
                                 (valueBalanceSapling m - fundingStreamValue) m) ;;
          ret true
      | None => ret false
      end
  | FSScript scriptPubKey =>
      modify_mtx (fun m => set_vout
        (vout m ++ [{| nValue := fundingStreamValue; scriptPubKey := scriptPubKey |}]) m) ;;
      ret true
  end.

Definition GetZip212Flag : Zip212Enabled :=
  if NetworkUpgradeActive chainparams nHeight UPGRADE_CANOPY
  then AfterZip212 else BeforeZip212.

(** The [for] loop over the funding stream elements. *)
Fixpoint add_funding_streams (fundingStreamElements : list FundingStreamElement)
    (miner_reward : CAmount) : Builder CAmount :=
  match fundingStreamElements with
  | [] => ret miner_reward
  | fselem :: rest =>
      let miner_reward := miner_reward - fselem.2 in
      added <- AddFundingStreamValueToTx fselem.2 GetZip212Flag fselem.1 ;;
      if negb added then
        librustzcash_sapling_proving_ctx_free ;;
        throw (RuntimeErrorPtr "Failed to add funding stream output.")
      else add_funding_streams rest miner_reward
  end.

Definition SetFoundersRewardAndGetMinerValue : Builder CAmount :=
  let block_subsidy := GetBlockSubsidy chainparams nHeight in
  let miner_reward := block_subsidy in
  miner_reward <-
    (if nHeight >? 0 then
       if NetworkUpgradeActive chainparams nHeight UPGRADE_CANOPY then
         let fundingStreamElements :=
           GetActiveFundingStreamElements chainparams nHeight block_subsidy in
         add_funding_streams fundingStreamElements miner_reward
       else if nHeight <=? GetLastFoundersRewardBlockHeight chainparams nHeight then
         (* Founders reward is 20% of the block subsidy *)
         let vFoundersReward := miner_reward ÷ 5 in
         let miner_reward := miner_reward - vFoundersReward in
         modify_mtx (fun m => set_vout
           (vout m ++ [{| nValue := vFoundersReward;
                          scriptPubKey := GetFoundersRewardScriptAtHeight chainparams nHeight |}]) m) ;;
         ret miner_reward
       else ret miner_reward
     else ret miner_reward) ;;
  ret (miner_reward + nFees).

(** The [try] block of [ComputeBindingSig]: the signature hash, or the
    [std::logic_error] it throws. *)
Definition compute_dataToBeSigned (orchardBundle : option OrchardBundle) : Builder uint256 :=
  mtx <- get_mtx ;;
  let hash :=
    match orchardBundle with
    | Some b => ProduceZip244SignatureHash prover mtx b
    | None => SignatureHash prover mtx (CurrentEpochBranchId chainparams nHeight)
    end in
  match hash with
  | Some h => ret h
  | None => throw LogicError
  end.

(** [try { body } catch (std::logic_error ex) { handler }] *)
Definition catch_logic_error {A} (body : Builder A) (handler : Builder A) : Builder A :=
  fun w => match body w with
           | (Threw LogicError, w') => handler w'
           | r => r
           end.

Definition ComputeBindingSig (orchardBundle : option OrchardBundle) : Builder unit :=
  dataToBeSigned <-
    catch_logic_error (compute_dataToBeSigned orchardBundle)
      (librustzcash_sapling_proving_ctx_free ;; throw LogicError) ;;
  (match orchardBundle with
   | Some b =>
       match ProveAndSign prover b dataToBeSigned with
       | Some auth =>
           modify_mtx (set_orchardBundle
             (Some {| bundle_outputs := bundle_outputs b;
                      bundle_valueBalance := bundle_valueBalance b;
                      bundle_authorization := Some auth |}))
       | None =>
           librustzcash_sapling_proving_ctx_free ;;
           throw (RuntimeErrorPtr "Failed to create Orchard proof or signatures")
       end
   | None => ret tt
   end) ;;
  mtx <- get_mtx ;;
  success <- librustzcash_sapling_binding_sig prover (valueBalanceSapling mtx) dataToBeSigned ;;
  if negb success then
    librustzcash_sapling_proving_ctx_free ;;
    throw (RuntimeErrorPtr "An error occurred computing the binding signature.")
  else ret tt.

(** Create Orchard output: [operator()(const libzcash::OrchardRawAddress &to)] *)
Definition AddOutputs_Orchard (to : OrchardRawAddress) : Builder unit :=
  librustzcash_sapling_proving_ctx_init ;;
  let orchardAnchor := uint256_null in
  let builder := {| ob_spendsEnabled := false; ob_outputsEnabled := true;
                    ob_anchor := orchardAnchor; ob_outputs := [] |} in
  let ovk := uint256_null in
  miner_reward <- SetFoundersRewardAndGetMinerValue ;;
  let builder := OrchardBuilder_AddOutput builder ovk to miner_reward in
  let dummyTo := RandomDummyOrchardAddress prover in
  let builder := OrchardBuilder_AddOutput builder ovk dummyTo 0 in
  match OrchardBuilder_Build prover builder with
  | None =>
      librustzcash_sapling_proving_ctx_free ;;
      throw (RuntimeErrorPtr "Failed to create shielded output for miner")
  | Some bundle =>
      ComputeBindingSig (Some bundle) ;;
      librustzcash_sapling_proving_ctx_free
  end.

(** Create shielded output: [operator()(const libzcash::SaplingPaymentAddress &pa)] *)
Definition AddOutputs_Sapling (pa : SaplingPaymentAddress) : Builder unit :=
  librustzcash_sapling_proving_ctx_init ;;
  miner_reward <- SetFoundersRewardAndGetMinerValue ;;
  modify_mtx (fun m => set_valueBalanceSapling (valueBalanceSapling m - miner_reward) m) ;;
  let ovk := uint256_null in
  let note := {| note_address := pa; note_value := miner_reward;
                 note_zip212 := GetZip212Flag |} in
  let output := {| odi_ovk := ovk; odi_note := note |} in
  odesc <- Build_output prover output ;;
  match odesc with
  | None =>
      librustzcash_sapling_proving_ctx_free ;;
      throw (RuntimeErrorPtr "Failed to create shielded output for miner")
  | Some od =>
      modify_mtx (fun m => set_vShieldedOutput (vShieldedOutput m ++ [od]) m) ;;
      ComputeBindingSig None ;;
      librustzcash_sapling_proving_ctx_free
  end.

(** Create transparent output:
    [operator()(const boost::shared_ptr<CReserveScript> &coinbaseScript)] *)
Definition AddOutputs_Transparent (coinbaseScript : CReserveScript) : Builder unit :=
  librustzcash_sapling_proving_ctx_init ;;
  modify_mtx (fun m => set_vout (vector_resize 1 CTxOut_default (vout m)) m) ;;
  value <- SetFoundersRewardAndGetMinerValue ;;
  modify_mtx (fun m => set_vout
    (<[0%nat := {| nValue := value; scriptPubKey := reserveScript coinbaseScript |}]> (vout m)) m) ;;
  mtx <- get_mtx ;;
  (if (0 <? length (vShieldedOutput mtx))%nat then ComputeBindingSig None else ret tt) ;;
  librustzcash_sapling_proving_ctx_free.

(** [std::visit(AddOutputsToCoinbaseTxAndSign(mtx, chainparams, nHeight, nFees), minerAddress)] *)
Definition AddOutputsToCoinbaseTxAndSign (minerAddress : MinerAddress) : Builder unit :=
  match minerAddress with
  | MinerOrchard to => AddOutputs_Orchard to
  | MinerSapling pa => AddOutputs_Sapling pa
  | MinerScript coinbaseScript => AddOutputs_Transparent coinbaseScript
  end.

End CoinbaseBuilder.

(** [mtx.vin[0].field = ...]; the vector has an element 0 after
    [vin.resize(1)]. *)
Definition update_vin0 (f : CTxIn -> CTxIn) (m : CMutableTransaction) : CMutableTransaction :=
  match vin m with
  | i :: rest => set_vin (f i :: rest) m
  | [] => m
  end.

Definition CreateCoinbaseTransaction_body (chainparams : CChainParams) (prover : Prover)
    (nFees : CAmount) (minerAddress : MinerAddress) (nHeight : Z)
    : Builder CMutableTransaction :=
  modify_mtx (fun m => set_vin (vector_resize 1 CTxIn_default (vin m)) m) ;;
  modify_mtx (update_vin0 (fun i =>
    {| prevout := COutPoint_null; scriptSig := scriptSig i; nSequence := nSequence i |})) ;;
  (if NetworkUpgradeActive chainparams nHeight UPGRADE_NU5 then
     (* ZIP 203: From NU5 onwards, nExpiryHeight is set to the block height *)
     modify_mtx (set_nExpiryHeight (to_uint32 nHeight))
   else
     modify_mtx (set_nExpiryHeight 0)) ;;
  AddOutputsToCoinbaseTxAndSign chainparams prover nHeight nFees minerAddress ;;
  modify_mtx (update_vin0 (fun i =>
    {| prevout := prevout i;
       scriptSig := Script.push_opcode (Script.push_int64 [] nHeight) Script.OP_0;
       nSequence := nSequence i |})) ;;
  get_mtx.

(** [CreateCoinbaseTransaction]: the transaction it returns or the
    exception it throws, and what it did with the proving context. *)
Definition CreateCoinbaseTransaction (chainparams : CChainParams) (prover : Prover)
    (nFees : CAmount) (minerAddress : MinerAddress) (nHeight : Z)
    : Outcome CMutableTransaction * list CtxEvent :=
  let requireV4 :=
    negb (match minerAddress with MinerOrchard _ => true | _ => false end)
    && (nPreferredTxVersion prover <? ZIP225_MIN_TX_VERSION prover) in
  let mtx := CreateNewContextualCMutableTransaction chainparams nHeight requireV4 in
  let r := CreateCoinbaseTransaction_body chainparams prover nFees minerAddress nHeight
             {| w_mtx := mtx; w_trace := [] |} in
  (r.1, w_trace r.2).

(** ** Transaction selection ([CreateNewBlock], the [while] loop) *)

(** A [CTransaction] has the fields of a [CMutableTransaction]; what is
    derived from them by serialization, hashing and script inspection is
    asked from [TxOracle]. *)
Definition CTransaction : Type := CMutableTransaction.

Definition CTransaction_default : CTransaction :=
  {| fOverwintered := false; nVersion := 1; nVersionGroupId := 0;
     nConsensusBranchId := None; vin := []; vout := []; nLockTime := 0;
     nExpiryHeight := 0; valueBalanceSapling := 0; vShieldedOutput := [];
     vJoinSplit := []; orchardBundle := None; bindingSig := None |}.

Record TxOracle := {
  GetHash : CTransaction -> uint256;
  GetSerializeSize : CTransaction -> Z;       (* size_t *)
  GetLegacySigOpCount : CTransaction -> Z;    (* unsigned int *)
  GetValueOut : CTransaction -> CAmount
}.

(** Modelled from the spec: coins.h is not among the sources.  By the
    spec the coin view is a snapshot that [apply(tx, height)] updates in
    place for the duration of the assembly; its state is represented by
    the transactions applied to it so far, and what it answers is asked
    from [CoinsOracle]. *)
Definition CCoinsViewCache : Type := list CTransaction.

Record CoinsOracle := {
  HaveInputs : CCoinsViewCache -> CTransaction -> bool;
  GetValueIn : CCoinsViewCache -> CTransaction -> CAmount;
  GetP2SHSigOpCount : CTransaction -> CCoinsViewCache -> Z;   (* unsigned int *)
  ContextualCheckInputs : CTransaction -> CCoinsViewCache -> Z -> bool;
  GetHistoryRoot : CCoinsViewCache -> Z -> uint256
}.

(** Modelled from the spec: [UpdateCoins] (main.cpp) is not among the
    sources; it is the spec's [coin_view.apply(tx, height)]. *)
Definition UpdateCoins (tx : CTransaction) (view : CCoinsViewCache) (nHeight : Z)
    : CCoinsViewCache := view ++ [tx].

Definition CFeeRate : Type := Z.   (* nSatoshisPerK *)

(** Constants and globals defined outside miner.cpp. *)
Record Policy := {
  MAX_BLOCK_SIZE : Z;
  MAX_BLOCK_SIGOPS : Z;
  DEFAULT_FEE : CAmount;
  minRelayTxFee : CFeeRate;
  AllowFree : float -> bool;
  COINBASE_FLAGS : CScript;
  (* the administrator's deltas, CTxMemPool::mapDeltas *)
  mapDeltas : gmap N (float * CAmount)
}.

(** Command-line arguments as [GetArg] returns them ([int64_t]). *)
Record Args := {
  arg_blockmaxsize : Z;
  arg_blockprioritysize : Z;
  arg_blockminsize : Z
}.

(** Modelled from the spec: [CTxMemPool::ApplyDeltas] (txmempool.cpp) is
    not among the sources.  The spec's mempool entry carries "an
    administrator-applied priority delta and fee delta"; they are added
    to the two in-out arguments when the transaction has any. *)
Definition ApplyDeltas (policy : Policy) (hash : uint256)
    (dPriorityDelta : float) (nFeeDelta : CAmount) : float * CAmount :=
  match mapDeltas policy !! hash with
  | None => (dPriorityDelta, nFeeDelta)
  | Some deltas => (PrimFloat.add dPriorityDelta deltas.1, nFeeDelta + deltas.2)
  end.

(** [boost::tuple<double, CFeeRate, CAmount, const CTransaction*>] *)
Record TxPriority := {
  prio_dPriority : float;
  prio_feeRate : CFeeRate;
  prio_feePaid : CAmount;
  prio_tx : CTransaction
}.

(** [TxPriorityCompare::operator()] *)
Definition TxPriorityCompare (byFee : bool) (a b : TxPriority) : bool :=
  if byFee then
    if prio_feeRate a =? prio_feeRate b
    then PrimFloat.ltb (prio_dPriority a) (prio_dPriority b)
    else prio_feeRate a <? prio_feeRate b
  else
    if PrimFloat.eqb (prio_dPriority a) (prio_dPriority b)
    then prio_feeRate a <? prio_feeRate b
    else PrimFloat.ltb (prio_dPriority a) (prio_dPriority b).

(** The vector [vecPriority] is kept as a heap under [comparer]; the
    model keeps its elements and finds the front on demand.  Which of
    several equivalent maxima the standard heap yields is left to the
    library; the model takes the earliest.  This stands in for
    [std::make_heap], [std::push_heap] and [std::pop_heap], which are
    not part of the sources: it does not reproduce the arrangement of the
    library's heap, and where the comparator is no strict weak ordering
    on the queue (a NaN priority) the library's front need not be a
    maximum, while this one is.  The properties proved of the selection
    loop use of the entry taken only that it is an entry of the queue
    and that the queue loses it. *)
Fixpoint heap_front_index (comparer : TxPriority -> TxPriority -> bool)
    (best : TxPriority) (ibest : nat) (i : nat) (l : list TxPriority) : nat :=
  match l with
  | [] => ibest
  | x :: rest =>
      if comparer best x then heap_front_index comparer x i (S i) rest
      else heap_front_index comparer best ibest (S i) rest
  end.

(** [vecPriority.front()], then [std::pop_heap] and [pop_back]. *)
Definition pop_heap (comparer : TxPriority -> TxPriority -> bool)
    (vec : list TxPriority) : option (TxPriority * list TxPriority) :=
  match vec with
  | [] => None
  | x :: rest =>
      let i := heap_front_index comparer x 0 1 rest in
      match vec !! i with
      | Some front => Some (front, take i vec ++ drop (S i) vec)
      | None => None
      end
  end.

Record COrphan := {
  ptx : CTransaction;
  setDependsOn : gset N;
  feeRate : CFeeRate;
  feePaid : CAmount;
  dPriority : float
}.

(** The running state of the selection loop.  [vOrphan] is the store the
    [COrphan*] pointers of [mapDependers] point into, by position. *)
Record SelState := {
  vecPriority : list TxPriority;
  vOrphan : list COrphan;
  mapDependers : gmap N (list nat);
  fSortedByFee : bool;
  view : CCoinsViewCache;
  nBlockSize : Z;      (* uint64_t *)
  nBlockTx : Z;        (* uint64_t *)
  nBlockSigOps : Z;    (* int *)
  nFees : CAmount;
  sproutValue : CAmount;
  saplingValue : CAmount;
  orchardValue : CAmount;
  vtx : list CTransaction;
  vTxFees : list CAmount;
  vTxSigOps : list Z
}.

Definition set_vecPriority (v : list TxPriority) (s : SelState) : SelState :=
  {| vecPriority := v; vOrphan := vOrphan s; mapDependers := mapDependers s;
     fSortedByFee := fSortedByFee s; view := view s; nBlockSize := nBlockSize s;
     nBlockTx := nBlockTx s; nBlockSigOps := nBlockSigOps s; nFees := nFees s;
     sproutValue := sproutValue s; saplingValue := saplingValue s;
     orchardValue := orchardValue s; vtx := vtx s; vTxFees := vTxFees s;
     vTxSigOps := vTxSigOps s |}.

Definition set_fSortedByFee (b : bool) (s : SelState) : SelState :=
  {| vecPriority := vecPriority s; vOrphan := vOrphan s; mapDependers := mapDependers s;
     fSortedByFee := b; view := view s; nBlockSize := nBlockSize s;
     nBlockTx := nBlockTx s; nBlockSigOps := nBlockSigOps s; nFees := nFees s;
     sproutValue := sproutValue s; saplingValue := saplingValue s;
     orchardValue := orchardValue s; vtx := vtx s; vTxFees := vTxFees s;
     vTxSigOps := vTxSigOps s |}.

(** Why an iteration of the loop ended. *)
Inductive Verdict :=
| SkipSize              (* exceeded maximum block size *)
| SkipLegacySigOps      (* exceeds legacy max sigops *)
| SkipFree              (* skipping free tx *)
| SkipMissingInputs     (* not including tx; missing inputs *)
| SkipP2SHSigOps        (* exceeds p2sh max sigops *)
| SkipContextualCheck   (* failed contextual inputs check *)
| SkipSproutTurnstile
| SkipSaplingTurnstile
| SkipOrchardTurnstile
| Added.

#[global] Instance Verdict_eq_dec : EqDecision Verdict.
Proof. solve_decision. Defined.

(** The inner loop [for (auto js : tx.vJoinSplit)]. *)
Definition sprout_after (sproutValueDummy : CAmount) (js : list JSDescription) : CAmount :=
  foldl (fun acc j => acc + vpub_old j - vpub_new j) sproutValueDummy js.

(** One round of [for (COrphan* porphan : mapDependers[hash])]. *)
Definition promote_orphan (hash : uint256)
    (acc : list COrphan * list TxPriority) (porphan : nat)
    : list COrphan * list TxPriority :=
  match acc.1 !! porphan with
  | None => acc
  | Some o =>
      if decide (setDependsOn o = ∅) then acc
      else
        let o' := {| ptx := ptx o; setDependsOn := setDependsOn o ∖ {[hash]};
                     feeRate := feeRate o; feePaid := feePaid o;
                     dPriority := dPriority o |} in
        let orphans := <[porphan := o']> acc.1 in
        if decide (setDependsOn o' = ∅) then
          (orphans, acc.2 ++ [{| prio_dPriority := dPriority o'; prio_feeRate := feeRate o';
                                 prio_feePaid := feePaid o'; prio_tx := ptx o' |}])
        else (orphans, acc.2)
  end.

Section Selection.

Variable chainparams : CChainParams.
Variable policy : Policy.
Variable txo : TxOracle.
Variable coins : CoinsOracle.
Variable nHeight : Z.
Variable consensusBranchId : Z.
Variable nBlockMaxSize nBlockPrioritySize nBlockMinSize : Z.  (* unsigned int *)
Variable monitoring_pool_balances : bool.

(** The free-transaction gate: the condition of the [if] at
    "Skip free transactions if we're past the minimum block size". *)
Definition free_tx_gate (fSortedByFee : bool) (dPriorityDelta : float)
    (nFeeDelta : CAmount) (feeRate : CFeeRate) (feePaid : CAmount)
    (nBlockSize nTxSize : Z) : bool :=
  fSortedByFee
  && PrimFloat.leb dPriorityDelta 0
  && (nFeeDelta <=? 0)
  && (feeRate <? minRelayTxFee policy)
  && (feePaid <? DEFAULT_FEE policy)
  && (nBlockMinSize <=? to_uint64 (nBlockSize + nTxSize)).

(** The body of the [while] loop for the entry just taken off the
    queue; [s] is the state after [pop_back]. *)
Definition select_tx (s : SelState) (e : TxPriority) : Verdict * SelState :=
  let dPriority := prio_dPriority e in
  let feeRate := prio_feeRate e in
  let feePaid := prio_feePaid e in
  let tx := prio_tx e in
  let hash := GetHash txo tx in
  (* Size limits *)
  let nTxSize := to_uint32 (GetSerializeSize txo tx) in
  if nBlockMaxSize <=? to_uint64 (nBlockSize s + nTxSize) then (SkipSize, s) else
  (* Legacy limits on sigOps *)
  let nTxSigOps := to_uint32 (GetLegacySigOpCount txo tx) in
  if MAX_BLOCK_SIGOPS policy <=? to_uint32 (nBlockSigOps s + nTxSigOps)
  then (SkipLegacySigOps, s) else
  (* Skip free transactions if we're past the minimum block size *)
  let deltas := ApplyDeltas policy hash 0 0 in
  if free_tx_gate (fSortedByFee s) deltas.1 deltas.2 feeRate feePaid (nBlockSize s) nTxSize
  then (SkipFree, s) else
  (* Prioritise by fee once past the priority size or we run out of
     high-priority transactions *)
  let s :=
    if negb (fSortedByFee s)
       && ((nBlockPrioritySize <=? to_uint64 (nBlockSize s + nTxSize))
           || negb (AllowFree policy dPriority))
    then set_fSortedByFee true s else s in
  if negb (HaveInputs coins (view s) tx) then (SkipMissingInputs, s) else
  let nTxFees := GetValueIn coins (view s) tx - GetValueOut txo tx in
  let nTxSigOps := to_uint32 (nTxSigOps + GetP2SHSigOpCount coins tx (view s)) in
  if MAX_BLOCK_SIGOPS policy <=? to_uint32 (nBlockSigOps s + nTxSigOps)
  then (SkipP2SHSigOps, s) else
  if negb (ContextualCheckInputs coins tx (view s) consensusBranchId)
  then (SkipContextualCheck, s) else
  let monitored := ZIP209Enabled chainparams && monitoring_pool_balances in
  let sproutValueDummy := sprout_after (sproutValue s) (vJoinSplit tx) in
  let saplingValueDummy := saplingValue s + - valueBalanceSapling tx in
  let orchardValueDummy :=
    orchardValue s + - OrchardBundle_GetValueBalance (orchardBundle tx) in
  if monitored && (sproutValueDummy <? 0) then (SkipSproutTurnstile, s) else
  if monitored && (saplingValueDummy <? 0) then (SkipSaplingTurnstile, s) else
  if monitored && (orchardValueDummy <? 0) then (SkipOrchardTurnstile, s) else
  (* Added *)
  let promoted :=
    match mapDependers s !! hash with
    | Some dependers => foldl (promote_orphan hash) (vOrphan s, vecPriority s) dependers
    | None => (vOrphan s, vecPriority s)
    end in
  (Added,
   {| vecPriority := promoted.2;
      vOrphan := promoted.1;
      mapDependers := mapDependers s;
      fSortedByFee := fSortedByFee s;
      view := UpdateCoins tx (view s) nHeight;
      nBlockSize := to_uint64 (nBlockSize s + nTxSize);
      nBlockTx := to_uint64 (nBlockTx s + 1);
      nBlockSigOps := to_int32 (nBlockSigOps s + nTxSigOps);
      nFees := nFees s + nTxFees;
      sproutValue := if monitored then sproutValueDummy else sproutValue s;
      saplingValue := if monitored then saplingValueDummy else saplingValue s;
      orchardValue := if monitored then orchardValueDummy else orchardValue s;
      vtx := vtx s ++ [tx];
      vTxFees := vTxFees s ++ [nTxFees];
      vTxSigOps := vTxSigOps s ++ [nTxSigOps] |}).

(** One iteration of [while (!vecPriority.empty())]; [None] when the
    queue is empty and the loop exits. *)
Definition selection_step (s : SelState) : option (Verdict * SelState) :=
  match pop_heap (TxPriorityCompare (fSortedByFee s)) (vecPriority s) with
  | None => None
  | Some (e, rest) => Some (select_tx (set_vecPriority rest s) e)
  end.

Fixpoint selection_loop (fuel : nat) (s : SelState) : SelState :=
  match fuel with
  | O => s
  | S fuel' =>
      match selection_step s with
      | None => s
      | Some (_, s') => selection_loop fuel' s'
      end
  end.

End Selection.

(** Number of iterations that certainly drain the queue: every entry is
    taken off once, and every orphan is pushed at most once. *)
Definition selection_fuel (s : SelState) : nat :=
  (length (vecPriority s) + length (vOrphan s))%nat.

(** ** The block template and its header ([CreateNewBlock]) *)

Record CBlockIndex := {
  bi_nHeight : Z;
  bi_hash : uint256;      (* GetBlockHash() *)
  nChainSproutValue : option CAmount;
  nChainSaplingValue : option CAmount;
  nChainOrchardValue : option CAmount
}.

(** The header fields the commitment branch writes, and the transactions.
    [nTime], [nBits], [nNonce] and [nSolution] are set from the clock,
    the difficulty rule and the random source and are not embedded. *)
Record CBlock := {
  hashPrevBlock : uint256;
  hashMerkleRoot : uint256;
  hashBlockCommitments : uint256;
  blk_vtx : list CTransaction
}.

Record CBlockTemplate := {
  block : CBlock;
  tmpl_vTxFees : list CAmount;
  tmpl_vTxSigOps : list Z;
  hashChainHistoryRoot : uint256;
  hashAuthDataRoot : uint256
}.

(** Modelled from the spec: the incremental Merkle tree is not among the
    sources.  A Sapling commitment tree is determined by the commitments
    appended to it, "starting from the tip's Sapling anchor"; [append]
    adds one at the end, and the root is asked from [HashOracle]. *)
Definition SaplingMerkleTree : Type := list uint256.
Definition SaplingMerkleTree_append (t : SaplingMerkleTree) (cm : uint256)
    : SaplingMerkleTree := t ++ [cm].

Record HashOracle := {
  BuildMerkleTree : list CTransaction -> uint256;
  BuildAuthDataMerkleTree : list CTransaction -> uint256;
  DeriveBlockCommitmentsHash : uint256 -> uint256 -> uint256;
  SaplingMerkleTree_root : SaplingMerkleTree -> uint256;
  TestBlockValidity : CBlock -> CBlockIndex -> bool
}.

(** What the scan of the mempool (the [for] loop over [mempool.mapTx])
    leaves for the selection. *)
Record MempoolScan := {
  scan_vecPriority : list TxPriority;
  scan_vOrphan : list COrphan;
  scan_mapDependers : gmap N (list nat)
}.

Definition MempoolScan_empty : MempoolScan :=
  {| scan_vecPriority := []; scan_vOrphan := []; scan_mapDependers := ∅ |}.

(** "Update the Sapling commitment tree": every [cmu] of every output
    description of every transaction, in order. *)
Definition append_block_commitments (sapling_tree : SaplingMerkleTree)
    (vtx : list CTransaction) : SaplingMerkleTree :=
  foldl (fun tree tx =>
           foldl (fun tree odesc => SaplingMerkleTree_append tree (cmu odesc))
                 tree (vShieldedOutput tx))
        sapling_tree vtx.

Section CreateNewBlock.

Variable chainparams : CChainParams.
Variable prover : Prover.
Variable policy : Policy.
Variable txo : TxOracle.
Variable coins : CoinsOracle.
Variable hashes : HashOracle.
Variable args : Args.

Definition get_nBlockMaxSize : Z :=
  let nBlockMaxSize := to_uint32 (arg_blockmaxsize args) in
  (* Limit to between 1K and MAX_BLOCK_SIZE-1K for sanity *)
  Z.max 1000 (Z.min (to_uint32 (MAX_BLOCK_SIZE policy - 1000)) nBlockMaxSize).

Definition get_nBlockPrioritySize : Z :=
  Z.min get_nBlockMaxSize (to_uint32 (arg_blockprioritysize args)).

Definition get_nBlockMinSize : Z :=
  Z.min get_nBlockMaxSize (to_uint32 (arg_blockminsize args)).

(** [monitoring_pool_balances] after the three tests on the tip. *)
Definition get_monitoring_pool_balances (pindexPrev : CBlockIndex) : bool :=
  if ZIP209Enabled chainparams then
    match nChainSproutValue pindexPrev, nChainSaplingValue pindexPrev,
          nChainOrchardValue pindexPrev with
    | Some _, Some _, Some _ => true
    | _, _, _ => false
    end
  else true.

Definition initial_pool_value (tip_value : option CAmount) : CAmount :=
  if ZIP209Enabled chainparams then
    match tip_value with Some v => v | None => 0 end
  else 0.

(** The state in which the [while] loop is entered. *)
Definition selection_start (pindexPrev : CBlockIndex) (scan : MempoolScan) : SelState :=
  {| vecPriority := scan_vecPriority scan;
     vOrphan := scan_vOrphan scan;
     mapDependers := scan_mapDependers scan;
     fSortedByFee := get_nBlockPrioritySize <=? 0;
     view := [];
     nBlockSize := 1000;
     nBlockTx := 0;
     nBlockSigOps := 100;
     nFees := 0;
     sproutValue := initial_pool_value (nChainSproutValue pindexPrev);
     saplingValue := initial_pool_value (nChainSaplingValue pindexPrev);
     orchardValue := initial_pool_value (nChainOrchardValue pindexPrev);
     (* Add dummy coinbase tx as first transaction *)
     vtx := [CTransaction_default];
     vTxFees := [-1];
     vTxSigOps := [-1] |}.

(** The state in which the [while] loop is left. *)
Definition selection_result (pindexPrev : CBlockIndex) (scan : MempoolScan) : SelState :=
  let nHeight := bi_nHeight pindexPrev + 1 in
  let s0 := selection_start pindexPrev scan in
  selection_loop chainparams policy txo coins nHeight
    (CurrentEpochBranchId chainparams nHeight)
    get_nBlockMaxSize get_nBlockPrioritySize get_nBlockMinSize
    (get_monitoring_pool_balances pindexPrev)
    (selection_fuel s0) s0.

(** "Fill in header": the three roots, by upgrade. *)
Definition fill_commitments (nHeight : Z) (prevConsensusBranchId : Z)
    (view : CCoinsViewCache) (vtx : list CTransaction)
    (sapling_tree : SaplingMerkleTree) : uint256 * uint256 * uint256 :=
  if NetworkUpgradeActive chainparams nHeight UPGRADE_NU5 then
    let hashChainHistoryRoot := GetHistoryRoot coins view prevConsensusBranchId in
    let hashAuthDataRoot := BuildAuthDataMerkleTree hashes vtx in
    (hashChainHistoryRoot, hashAuthDataRoot,
     DeriveBlockCommitmentsHash hashes hashChainHistoryRoot hashAuthDataRoot)
  else if IsActivationHeight chainparams nHeight UPGRADE_HEARTWOOD then
    (uint256_null, uint256_null, uint256_null)
  else if NetworkUpgradeActive chainparams nHeight UPGRADE_HEARTWOOD then
    let hashChainHistoryRoot := GetHistoryRoot coins view prevConsensusBranchId in
    (hashChainHistoryRoot, uint256_null, hashChainHistoryRoot)
  else
    (uint256_null, uint256_null, SaplingMerkleTree_root hashes sapling_tree).

(** [CreateNewBlock].  [sapling_tree0] is the tree at the view's best
    Sapling anchor; [scan] is what the mempool scan collected (the scan
    is skipped when a precomputed coinbase is given). *)
Definition CreateNewBlock (pindexPrev : CBlockIndex) (sapling_tree0 : SaplingMerkleTree)
    (scan : MempoolScan) (minerAddress : MinerAddress)
    (next_cb_mtx : option CMutableTransaction) : Outcome CBlockTemplate :=
  let nHeight := bi_nHeight pindexPrev + 1 in
  let scan := match next_cb_mtx with Some _ => MempoolScan_empty | None => scan end in
  let s := selection_result pindexPrev scan in
  (* Create coinbase tx *)
  let coinbase :=
    match next_cb_mtx with
    | Some cb => Returned cb
    | None => (CreateCoinbaseTransaction chainparams prover (nFees s) minerAddress nHeight).1
    end in
  match coinbase with
  | Threw e => Threw e
  | Returned cb =>
      let vtx := <[0%nat := cb]> (vtx s) in
      let vTxFees := <[0%nat := - nFees s]> (vTxFees s) in
      (* Update the Sapling commitment tree *)
      let sapling_tree := append_block_commitments sapling_tree0 vtx in
      let prevConsensusBranchId :=
        CurrentEpochBranchId chainparams (bi_nHeight pindexPrev) in
      let roots := fill_commitments nHeight prevConsensusBranchId (view s) vtx sapling_tree in
      let pblock :=
        {| hashPrevBlock := bi_hash pindexPrev;
           hashMerkleRoot := uint256_null;
           hashBlockCommitments := roots.2;
           blk_vtx := vtx |} in
      let vTxSigOps :=
        <[0%nat := GetLegacySigOpCount txo (hd CTransaction_default vtx)]> (vTxSigOps s) in
      if negb (TestBlockValidity hashes pblock pindexPrev) then
        Threw (RuntimeError "CreateNewBlock(): TestBlockValidity failed")
      else
        Returned {| block := pblock; tmpl_vTxFees := vTxFees;
                    tmpl_vTxSigOps := vTxSigOps;
                    hashChainHistoryRoot := roots.1.1;
                    hashAuthDataRoot := roots.1.2 |}
  end.

(** ** The extra nonce *)

(** The function-local [static uint256 hashPrevBlock] and the caller's
    [nExtraNonce]. *)
Record ExtraNonceState := {
  static_hashPrevBlock : uint256;
  nExtraNonce : Z     (* unsigned int *)
}.

Inductive ExtraNonceResult :=
| NonceUpdated (pblocktemplate : CBlockTemplate) (st : ExtraNonceState)
| AssertionFailed         (* assert(scriptSig.size() <= 100) *)
| NoCoinbase.             (* vtx[0] or vin[0] does not exist *)

(** The scriptSig that [IncrementExtraNonce] writes. *)
Definition extra_nonce_scriptSig (nHeight : Z) (nExtraNonce : Z) : CScript :=
  Script.push_scriptnum (Script.push_int64 [] nHeight) nExtraNonce
    ++ COINBASE_FLAGS policy.

Definition IncrementExtraNonce (pblocktemplate : CBlockTemplate)
    (pindexPrev : CBlockIndex) (st : ExtraNonceState) : ExtraNonceResult :=
  let pblock := block pblocktemplate in
  (* Update nExtraNonce *)
  let st :=
    if negb (N.eqb (static_hashPrevBlock st) (hashPrevBlock pblock)) then
      {| static_hashPrevBlock := hashPrevBlock pblock; nExtraNonce := 0 |}
    else st in
  let nExtraNonce := to_uint32 (nExtraNonce st + 1) in
  let st := {| static_hashPrevBlock := static_hashPrevBlock st;
               nExtraNonce := nExtraNonce |} in
  let nHeight := to_uint32 (bi_nHeight pindexPrev + 1) in
  match blk_vtx pblock with
  | [] => NoCoinbase
  | txCoinbase :: rest =>
      match vin txCoinbase with
      | [] => NoCoinbase
      | in0 :: ins =>
          let scriptSig := extra_nonce_scriptSig nHeight nExtraNonce in
          let txCoinbase :=
            set_vin ({| prevout := prevout in0; scriptSig := scriptSig;
                        nSequence := nSequence in0 |} :: ins) txCoinbase in
          if negb (Z.of_nat (length scriptSig) <=? 100) then AssertionFailed
          else
            let vtx := txCoinbase :: rest in
            let nu5 := NetworkUpgradeActive chainparams (to_int32 nHeight) UPGRADE_NU5 in
            let hashAuthDataRoot' :=
              if nu5 then BuildAuthDataMerkleTree hashes vtx
              else hashAuthDataRoot pblocktemplate in
            let pblock :=
              {| hashPrevBlock := hashPrevBlock pblock;
                 hashMerkleRoot := BuildMerkleTree hashes vtx;
                 hashBlockCommitments :=
                   if nu5 then
                     DeriveBlockCommitmentsHash hashes
                       (hashChainHistoryRoot pblocktemplate) hashAuthDataRoot'
                   else hashBlockCommitments pblock;
                 blk_vtx := vtx |} in
            NonceUpdated
              {| block := pblock;
                 tmpl_vTxFees := tmpl_vTxFees pblocktemplate;
                 tmpl_vTxSigOps := tmpl_vTxSigOps pblocktemplate;
                 hashChainHistoryRoot := hashChainHistoryRoot pblocktemplate;
                 hashAuthDataRoot := hashAuthDataRoot' |}
              st
      end
  end.

End CreateNewBlock.

(** ** The miner address ([ExtractMinerAddress], [std::visit] over a
    decoded payment address) *)

Section ExtractMinerAddress.

Variable consensus : CChainParams.
Variable height : Z.

Definition ExtractMinerAddress_KeyID (keyID : CKeyID) : option MinerAddress :=
  let script :=
    Script.push_opcode
      (Script.push_opcode
         (Script.push_data
            (Script.push_opcode (Script.push_opcode [] Script.OP_DUP) Script.OP_HASH160)
            keyID)
         Script.OP_EQUALVERIFY)
      Script.OP_CHECKSIG in
  Some (MinerScript {| reserveScript := script |}).

Definition ExtractMinerAddress (addr : PaymentAddress) : option MinerAddress :=
  match addr with
  | PaymentKeyID keyID => ExtractMinerAddress_KeyID keyID
  | PaymentScriptID _ => None
  | PaymentSprout _ => None
  | PaymentSapling addr => Some (MinerSapling addr)
  | PaymentUnified addr =>
      let preferred := GetPreferredRecipientAddress consensus addr height in
      match preferred with
      | Some (RecipientOrchard addr) => Some (MinerOrchard addr)
      | Some (RecipientSapling addr) => Some (MinerSapling addr)
      | Some (RecipientKeyID keyID) => ExtractMinerAddress_KeyID keyID
      | Some _ => None
      | None => None
      end
  end.

End ExtractMinerAddress.

(** ** Sample collaborators, for evaluating the model on concrete inputs *)

Module Sample.

(** Canopy from height 100, NU5 from 200, Heartwood from 50; founders'
    reward up to height 150; two funding streams under Canopy. *)
Definition chainparams : CChainParams :=
  {| NetworkUpgradeActive := fun h u =>
       match u with
       | UPGRADE_HEARTWOOD => 50 <=? h
       | UPGRADE_CANOPY => 100 <=? h
       | UPGRADE_NU5 => 200 <=? h
       | _ => 0 <=? h
       end;
     IsActivationHeight := fun h u =>
       match u with UPGRADE_HEARTWOOD => h =? 50 | _ => false end;
     CurrentEpochBranchId := fun h => if 200 <=? h then 3 else if 100 <=? h then 2 else 1;
     GetBlockSubsidy := fun h => 1250000000;
     GetActiveFundingStreamElements := fun h s =>
       [(FSScript [0x51], s ÷ 10); (FSSapling 5%N, s ÷ 20)];
     GetLastFoundersRewardBlockHeight := fun _ => 150;
     GetFoundersRewardScriptAtHeight := fun h => [0xa9; h mod 256];
     ZIP209Enabled := true;
     ContextualTxVersion := fun h requireV4 =>
       {| tvi_fOverwintered := true; tvi_nVersion := if requireV4 then 4 else 5;
          tvi_nVersionGroupId := 0; tvi_nConsensusBranchId := None;
          tvi_nExpiryHeight := h + 40 |};
     GetPreferredRecipientAddress := fun ua h =>
       match ua with
       | ReceiverKnown r :: _ => Some r
       | _ => None
       end |}.

(** A proof system in which every operation succeeds. *)
Definition prover : Prover :=
  {| OutputDescriptionInfo_Build := fun tr o =>
       Some {| cmu := N.of_nat (length tr); od_rest := 0%N |};
     sapling_binding_sig := fun _ _ _ => Some 3%N;
     SignatureHash := fun _ _ => Some 4%N;
     ProduceZip244SignatureHash := fun _ _ => Some 5%N;
     OrchardBuilder_Build_ok := fun _ => true;
     ProveAndSign := fun _ _ => Some 6%N;
     RandomDummyOrchardAddress := 77%N;
     nPreferredTxVersion := 5;
     ZIP225_MIN_TX_VERSION := 5 |}.

(** A proof system in which the chosen operations fail. *)
Definition prover_with (output_ok sighash_ok orchard_build_ok prove_ok binding_ok : bool)
    : Prover :=
  {| OutputDescriptionInfo_Build := fun tr o =>
       if output_ok then Some {| cmu := N.of_nat (length tr); od_rest := 0%N |} else None;
     sapling_binding_sig := fun _ _ _ => if binding_ok then Some 3%N else None;
     SignatureHash := fun _ _ => if sighash_ok then Some 4%N else None;
     ProduceZip244SignatureHash := fun _ _ => if sighash_ok then Some 5%N else None;
     OrchardBuilder_Build_ok := fun _ => orchard_build_ok;
     ProveAndSign := fun _ _ => if prove_ok then Some 6%N else None;
     RandomDummyOrchardAddress := 77%N;
     nPreferredTxVersion := 5;
     ZIP225_MIN_TX_VERSION := 5 |}.

Definition policy : Policy :=
  {| MAX_BLOCK_SIZE := 2000000;
     MAX_BLOCK_SIGOPS := 20000;
     DEFAULT_FEE := 1000;
     minRelayTxFee := 100;
     AllowFree := fun d => PrimFloat.ltb 57600000 d;
     COINBASE_FLAGS := [];
     mapDeltas := ∅ |}.

(** The same policy, with a fee delta of -1 recorded for transaction 7. *)
Definition policy_with_delta : Policy :=
  {| MAX_BLOCK_SIZE := 2000000;
     MAX_BLOCK_SIGOPS := 20000;
     DEFAULT_FEE := 1000;
     minRelayTxFee := 100;
     AllowFree := fun d => PrimFloat.ltb 57600000 d;
     COINBASE_FLAGS := [];
     mapDeltas := {[ 7%N := (0%float, -1) ]} |}.

(** Sample transactions carry their identity in [nLockTime], their size
    in [nVersion] and their legacy sigops in [nVersionGroupId]. *)
Definition txo : TxOracle :=
  {| GetHash := fun tx => Z.to_N (nLockTime tx);
     GetSerializeSize := fun tx => nVersion tx;
     GetLegacySigOpCount := fun tx => nVersionGroupId tx;
     GetValueOut := fun tx => sum_vout (vout tx) |}.

Definition coins : CoinsOracle :=
  {| HaveInputs := fun _ _ => true;
     GetValueIn := fun _ tx => sum_vout (vout tx) + 500;
     GetP2SHSigOpCount := fun _ _ => 1;
     ContextualCheckInputs := fun _ _ _ => true;
     GetHistoryRoot := fun view branch => (N.of_nat (length view) + 1000 * Z.to_N branch)%N |}.

Definition hashes : HashOracle :=
  {| BuildMerkleTree := fun vtx => N.of_nat (length vtx);
     BuildAuthDataMerkleTree := fun vtx => (500 + N.of_nat (length vtx))%N;
     DeriveBlockCommitmentsHash := fun a b => (7 * a + b)%N;
     SaplingMerkleTree_root := fun t => (900 + N.of_nat (length t))%N;
     TestBlockValidity := fun _ _ => true |}.

Definition args : Args :=
  {| arg_blockmaxsize := 2000000; arg_blockprioritysize := 0; arg_blockminsize := 0 |}.

Definition mk_tx (id size sigops : Z) (vbSapling : CAmount) : CTransaction :=
  {| fOverwintered := true; nVersion := size; nVersionGroupId := sigops;
     nConsensusBranchId := None; vin := []; vout := []; nLockTime := id;
     nExpiryHeight := 0; valueBalanceSapling := vbSapling; vShieldedOutput := [];
     vJoinSplit := []; orchardBundle := None; bindingSig := None |}.

Definition mk_entry (tx : CTransaction) (rate : CFeeRate) (paid : CAmount) : TxPriority :=
  {| prio_dPriority := 0%float; prio_feeRate := rate; prio_feePaid := paid; prio_tx := tx |}.

Definition tip (h : Z) : CBlockIndex :=
  {| bi_nHeight := h; bi_hash := 42%N;
     nChainSproutValue := Some 10; nChainSaplingValue := Some 0;
     nChainOrchardValue := Some 0 |}.

Definition miner_script : MinerAddress := MinerScript {| reserveScript := [0x76] |}.

(** A mempool scan: four entries in the queue and one orphan waiting for
    transaction 1 (registered twice, as for two inputs spending it).
    Transaction 2 carries 19990 legacy sigops, transaction 3 takes one
    unit out of the Sapling pool, transaction 7 pays next to nothing. *)
Definition scan : MempoolScan :=
  {| scan_vecPriority :=
       [mk_entry (mk_tx 1 300 5 0) 2000 600;
        mk_entry (mk_tx 2 400 19990 0) 5000 2000;
        mk_entry (mk_tx 3 200 1 1) 9000 1800;
        mk_entry (mk_tx 7 250 1 0) 50 10];
     scan_vOrphan :=
       [{| ptx := mk_tx 4 100 1 0; setDependsOn := {[ 1%N ]};
           feeRate := 1; feePaid := 1; dPriority := 0%float |}];
     scan_mapDependers := {[ 1%N := [0%nat; 0%nat] ]} |}.

(** A template on top of [tip h]: a coinbase with one input and nothing else. *)
Definition template : CBlockTemplate :=
  {| block := {| hashPrevBlock := 42%N; hashMerkleRoot := 0%N;
                 hashBlockCommitments := 0%N;
                 blk_vtx := [set_vin [CTxIn_default] CTransaction_default] |};
     tmpl_vTxFees := [0]; tmpl_vTxSigOps := [0];
     hashChainHistoryRoot := 0%N; hashAuthDataRoot := 0%N |}.

End Sample.

(** ** The clock (util/time.cpp) and the block time ([UpdateTime]) *)

(** [GetTime]: the mock time when one is set, the system clock
    otherwise.  [nMockTime] is the [static int64_t] of util/time.cpp,
    [time_NULL] what [time(NULL)] returns at the call. *)
Definition GetTime (time_NULL : Z) (nMockTime : Z) : Z :=
  if negb (nMockTime =? 0) then nMockTime else time_NULL.

(** [SetMockTime]: the new value of [nMockTime]. *)
Definition SetMockTime (nMockTimeIn : Z) (nMockTime : Z) : Z := nMockTimeIn.

(** The two header fields [UpdateTime] writes. *)
Record CBlockHeader := {
  nTime : Z;      (* uint32_t *)
  nBits : Z       (* uint32_t *)
}.

(** What [UpdateTime] asks of the consensus parameters, the block index
    and pow.cpp. *)
Record TimeParams := {
  GetMedianTimePast : CBlockIndex -> Z;                      (* int64_t *)
  FutureTimestampSoftForkActive : Z -> bool;
  nPowAllowMinDifficultyBlocksAfterHeight : option Z;
  MAX_FUTURE_BLOCK_TIME_MTP : Z;                             (* int64_t constant *)
  GetNextWorkRequired : CBlockIndex -> CBlockHeader -> Z     (* unsigned int *)
}.

(** [UpdateTime].  The time is computed in [int64_t] and narrowed to the
    [uint32_t] field when it is stored. *)
Definition UpdateTime (consensusParams : TimeParams) (time_NULL nMockTime : Z)
    (pblock : CBlockHeader) (pindexPrev : CBlockIndex) : CBlockHeader :=
  let medianTimePast := GetMedianTimePast consensusParams pindexPrev in
  let nTime := Z.max (medianTimePast + 1) (GetTime time_NULL nMockTime) in
  (* See the comment in ContextualCheckBlockHeader() for background. *)
  let nTime :=
    if FutureTimestampSoftForkActive consensusParams (bi_nHeight pindexPrev + 1)
    then Z.min nTime (medianTimePast + MAX_FUTURE_BLOCK_TIME_MTP consensusParams)
    else nTime in
  let pblock := {| nTime := to_uint32 nTime; nBits := nBits pblock |} in
  (* Updating time can change work required on testnet: *)
  match nPowAllowMinDifficultyBlocksAfterHeight consensusParams with
  | Some _ =>
      {| nTime := to_uint32 nTime;
         nBits := to_uint32 (GetNextWorkRequired consensusParams pindexPrev pblock) |}
  | None => pblock
  end.

(** ** The nonce ([CreateNewBlock], "Randomise nonce") and the search
    loop of [BitcoinMiner] *)

(** Modelled from the spec: arith_uint256.h is not among the sources.
    An [arith_uint256] is an unsigned 256-bit integer; the spec's "draw
    a uniformly random 256-bit nonce" and "nonce += 1" are its
    arithmetic modulo 2^256, and the shifts drop the bits that leave the
    256-bit range. *)
Definition to_uint256 (z : Z) : Z := z mod 2^256.

(** The three statements after "Randomise nonce": [GetRandHash] is the
    random 256-bit value. *)
Definition randomise_nonce (GetRandHash : Z) : Z :=
  let nonce := to_uint256 GetRandHash in
  (* Clear the top and bottom 16 bits (for local use as thread flags and counters) *)
  let nonce := to_uint256 (Z.shiftl nonce 32) in
  let nonce := Z.shiftr nonce 16 in
  nonce.

(** [-equihashsolver]: the assertion at the start of [BitcoinMiner]
    admits these two. *)
Inductive Solver := SolverTromp | SolverDefault.

(** What one pass of the inner [while (true)] of [BitcoinMiner] learns
    from the solver and from the node.  The Equihash solver itself and
    [ProcessBlockFound] are outside; a pass sees whether a solution was
    a valid block, and the state of the node at the checks that follow
    the solver. *)
Record PassObservation := {
  (* validBlock returned true for a solution: it met the target *)
  obs_block_found : bool;
  (* boost::this_thread::interruption_point() throws *)
  obs_interruption_requested : bool;
  obs_vNodes_empty : bool;            (* vNodes.empty() *)
  obs_transactions_updated : Z;       (* mempool.GetTransactionsUpdated() *)
  (* time(NULL) at the GetTime() of the mempool check *)
  obs_time_NULL_check : Z;
  (* time(NULL) at the GetTime() of UpdateTime *)
  obs_time_NULL_update : Z;
  obs_tip_is_pindexPrev : bool        (* pindexPrev == chainActive.Tip() *)
}.

(** Why the inner loop was left. *)
Inductive SearchExit :=
| ThreadInterrupted       (* boost::thread_interrupted leaves BitcoinMiner *)
| BlockFound              (* default solver: if (found) break *)
| NoPeers                 (* vNodes.empty() && MiningRequiresPeers() *)
| NonceCounterFull        (* (nNonce & 0xffff) == 0xffff *)
| MempoolUpdated          (* transactions updated and more than 60 s *)
| TipChanged.             (* pindexPrev != chainActive.Tip() *)

Section SearchLoop.

Variable consensusParams : TimeParams.
Variable solver : Solver.
Variable MineBlocksOnDemand : bool.           (* chainparams.MineBlocksOnDemand() *)
Variable MiningRequiresPeers : bool.          (* chainparams.MiningRequiresPeers() *)
Variable pindexPrev : CBlockIndex.
Variable nTransactionsUpdatedLast : Z.
Variable nStart : Z.                          (* GetTime() when the search began *)
Variable nMockTime : Z.

(** One pass of the inner loop after the solver has run: the exit taken,
    or the nonce and the header for the next pass. *)
Definition search_pass (obs : PassObservation) (nNonce : Z) (pblock : CBlockHeader)
    : SearchExit + Z * CBlockHeader :=
  (* In regression test mode, stop mining after a block is found. *)
  if obs_block_found obs && MineBlocksOnDemand then inl ThreadInterrupted else
  if match solver with SolverDefault => obs_block_found obs | SolverTromp => false end
  then inl BlockFound else
  (* Check for stop or if block needs to be rebuilt *)
  if obs_interruption_requested obs then inl ThreadInterrupted else
  (* Regtest mode doesn't require peers *)
  if obs_vNodes_empty obs && MiningRequiresPeers then inl NoPeers else
  if Z.land nNonce 0xffff =? 0xffff then inl NonceCounterFull else
  if negb (obs_transactions_updated obs =? nTransactionsUpdatedLast)
     && (GetTime (obs_time_NULL_check obs) nMockTime - nStart >? 60)
  then inl MempoolUpdated else
  if negb (obs_tip_is_pindexPrev obs) then inl TipChanged else
  (* Update nNonce and nTime *)
  let nNonce := to_uint256 (nNonce + 1) in
  inr (nNonce,
       UpdateTime consensusParams (obs_time_NULL_update obs) nMockTime pblock pindexPrev).

(** The inner loop over the passes the observations describe: how it was
    left, if it was, with the nonce and the header it had then. *)
Fixpoint search (observations : list PassObservation) (nNonce : Z) (pblock : CBlockHeader)
    : option SearchExit * Z * CBlockHeader :=
  match observations with
  | [] => (None, nNonce, pblock)
  | obs :: rest =>
      match search_pass obs nNonce pblock with
      | inl why => (Some why, nNonce, pblock)
      | inr (nNonce', pblock') => search rest nNonce' pblock'
      end
  end.

End SearchLoop.

(** ** The mining driver: [ProcessBlockFound], [GetMinerAddress] *)

(** What [ProcessBlockFound] writes to the log and asks of the node, in
    program order. *)
Inductive MinerEvent :=
| LogBlock                              (* LogPrintf("%s\n", pblock->ToString()) *)
| LogGenerated (nValue : CAmount)       (* LogPrintf("generated %s\n", FormatMoney(...)) *)
| LogError (what : string)              (* return error(what) *)
| SignalBlockFound (hash : uint256)     (* GetMainSignals().BlockFound(hash) *)
| CallProcessNewBlock                   (* ProcessNewBlock(state, chainparams, NULL, pblock, true, NULL) *)
| CallTrackMinedBlock (hash : uint256). (* TrackMinedBlock(hash) *)

Record NodeOracle := {
  CBlock_GetHash : CBlock -> uint256;
  ProcessNewBlock : CBlock -> bool
}.

(** [ProcessBlockFound]; [tip_hash] is [chainActive.Tip()->GetBlockHash()].
    The second log line reads [pblock->vtx[0].vout[0]]: the result is
    [None] where this element does not exist (the access is undefined
    in C++). *)
Definition ProcessBlockFound (node : NodeOracle) (tip_hash : uint256) (pblock : CBlock)
    : option (bool * list MinerEvent) :=
  match blk_vtx pblock with
  | [] => None
  | coinbase :: _ =>
      match vout coinbase with
      | [] => None
      | out0 :: _ =>
          let log := [LogBlock; LogGenerated (nValue out0)] in
          (* Found a solution *)
          if negb (N.eqb (hashPrevBlock pblock) tip_hash) then
            Some (false, log ++ [LogError "ZcashMiner: generated block is stale"])
          else
            (* Inform about the new block *)
            let log := log ++ [SignalBlockFound (CBlock_GetHash node pblock)] in
            (* Process this block the same as if we had received it from another node *)
            if negb (ProcessNewBlock node pblock) then
              Some (false, log ++ [CallProcessNewBlock;
                                   LogError "ZcashMiner: ProcessNewBlock, block not accepted"])
            else
              Some (true, log ++ [CallProcessNewBlock;
                                  CallTrackMinedBlock (CBlock_GetHash node pblock)])
      end
  end.

(** [GetMinerAddress]: the value of the in-out argument [minerAddress]
    after the call.  [DecodePaymentAddress] is [KeyIO::DecodePaymentAddress],
    [chain_height] is [chainActive.Height()], [mAddrArg] the value of
    [-mineraddress]. *)
Definition GetMinerAddress (consensus : CChainParams)
    (DecodePaymentAddress : string -> option PaymentAddress)
    (chain_height : Z) (mAddrArg : string)
    (minerAddress : option MinerAddress) : option MinerAddress :=
  (* If the user sets a UA miner address with an Orchard component, we want to
     ensure we start using it once we reach that height. *)
  let height := chain_height + 1 in
  let zaddr0 := DecodePaymentAddress mAddrArg in
  match zaddr0 with
  | Some zaddr0 =>
      let zaddr := ExtractMinerAddress consensus height zaddr0 in
      match zaddr with
      | Some zaddr => Some zaddr
      | None => minerAddress
      end
  | None => minerAddress
  end.
(** ** The hex dump of the alert test generator (test/alert_tests.cpp) *)

Definition hexmap : list ascii :=
  ["0"; "1"; "2"; "3"; "4"; "5"; "6"; "7"; "8"; "9"; "a"; "b"; "c"; "d"; "e"; "f"]%char.

(** [hexmap[i]] for [i] below 16. *)
Definition hexmap_at (i : Z) : ascii := nth (Z.to_nat i) hexmap "0"%char.

(** The body of the [for] loop of [HexStrArray], from the element at
    position [i] on; [first] tells whether [it == itbegin].  The result
    is [None] when [i % lineLength] divides by zero. *)
Fixpoint HexStrArray_from (lineLength : Z) (first : bool) (i : Z) (data : list Z)
    (rv : list ascii) : option (list ascii) :=
  match data with
  | [] => Some rv
  | x :: rest =>
      let val := to_uint8 x in
      let separator :=
        if first then Some []
        else if lineLength =? 0 then None
        else if Z.rem i lineLength =? 0 then Some ["010"%char]
        else Some [" "%char] in
      match separator with
      | None => None
      | Some sep =>
          HexStrArray_from lineLength false (i + 1) rest
            (rv ++ sep ++ ["0"; "x"; hexmap_at (Z.shiftr val 4);
                           hexmap_at (Z.land val 15); ","]%char)
      end
  end.

(** [HexStrArray(itbegin, itend, lineLength)] over the elements between
    the two iterators. *)
Definition HexStrArray (data : list Z) (lineLength : Z) : option (list ascii) :=
  HexStrArray_from lineLength true 0 data [].

(** ** The scan of the mempool ([CreateNewBlock], the [for] loop over
    [mempool.mapTx]) *)

(** [(double) n] for an integer [n]: the nearest binary64 value, ties to
    even. *)
Definition double_of_int (n : Z) : float :=
  FloatOps.SF2Prim (SpecFloat.binary_normalize FloatOps.prec FloatOps.emax n 0 false).

(** [CCoins]: the two members the scan reads. *)
Record CCoins := {
  coins_vout : list CTxOut;
  coins_nHeight : Z          (* int *)
}.

(** The mempool and the chain state, as the scan reads them. *)
Record MempoolView := {
  (* mempool.mapTx, in the order of its iteration *)
  mapTx : list CTransaction;
  IsCoinBase : CTransaction -> bool;
  IsFinalTx : CTransaction -> Z -> Z -> bool;
  IsExpiredTx : CTransaction -> Z -> bool;
  (* view.HaveCoins(hash) and view.AccessCoins(hash), on the view of the tip *)
  HaveCoins : uint256 -> bool;
  AccessCoins : uint256 -> option CCoins;
  GetShieldedValueIn : CTransaction -> CAmount;
  ComputePriority : CTransaction -> float -> Z -> float;
  (* the constructor CFeeRate(feePaid, nTxSize) *)
  CFeeRate_of : CAmount -> Z -> CFeeRate;
  fDebug : bool;
  (* STANDARD_LOCKTIME_VERIFY_FLAGS & LOCKTIME_MEDIAN_TIME_PAST *)
  locktime_median_time_past : bool;
  nMedianTimePast : Z;       (* pindexPrev->GetMedianTimePast() *)
  GetBlockTime : Z           (* pblock->GetBlockTime() *)
}.

(** Where the scan stops instead of going on. *)
Inductive ScanFault :=
| AssertMissingInput     (* assert("mempool transaction missing input" == 0), under fDebug *)
| AssertCoins            (* assert(coins) *)
| VoutOutOfRange.        (* vout[txin.prevout.n] beyond the end of the vector *)

(** The locals of the loop over the inputs of one transaction, with the
    two containers it writes.  [porphan] points into [vOrphan] by
    position. *)
Record InputLoop := {
  il_porphan : option nat;
  il_dPriority : float;
  il_nTotalIn : CAmount;
  il_fMissingInputs : bool;
  il_vOrphan : list COrphan;
  il_mapDependers : gmap N (list nat)
}.

(** [COrphan(&tx)] *)
Definition COrphan_new (tx : CTransaction) : COrphan :=
  {| ptx := tx; setDependsOn := ∅; feeRate := 0; feePaid := 0; dPriority := 0%float |}.

(** [porphan->setDependsOn.insert(hash)] *)
Definition COrphan_depend (hash : uint256) (o : COrphan) : COrphan :=
  {| ptx := ptx o; setDependsOn := {[hash]} ∪ setDependsOn o;
     feeRate := feeRate o; feePaid := feePaid o; dPriority := dPriority o |}.

Section MempoolScan.

Variable policy : Policy.
Variable txo : TxOracle.
Variable mp : MempoolView.
Variable nHeight : Z.

(** [mempool.mapTx.find(hash)]; [count(hash)] is whether it finds one. *)
Definition mapTx_find (hash : uint256) : option CTransaction :=
  List.find (fun tx => N.eqb (GetHash txo tx) hash) (mapTx mp).

(** The body of [for (const CTxIn& txin : tx.vin)]: the fault it stops
    at, or whether it leaves the loop with [break], and the state. *)
Definition scan_input (tx : CTransaction) (txin : CTxIn) (st : InputLoop)
    : ScanFault + bool * InputLoop :=
  let hash := prevout_hash (prevout txin) in
  let n := Z.to_nat (prevout_n (prevout txin)) in
  (* Read prev transaction *)
  if negb (HaveCoins mp hash) then
    (* This should never happen; all transactions in the memory
       pool should connect to either transactions in the chain
       or other transactions in the memory pool. *)
    match mapTx_find hash with
    | None =>
        if fDebug mp then inl AssertMissingInput
        else
          inr (true,
               {| il_porphan := il_porphan st;
                  il_dPriority := il_dPriority st;
                  il_nTotalIn := il_nTotalIn st;
                  il_fMissingInputs := true;
                  il_vOrphan :=
                    match il_porphan st with
                    | Some _ => removelast (il_vOrphan st)   (* vOrphan.pop_back() *)
                    | None => il_vOrphan st
                    end;
                  il_mapDependers := il_mapDependers st |})
    | Some parent =>
        (* Has to wait for dependencies *)
        let created :=
          match il_porphan st with
          | Some porphan => (porphan, il_vOrphan st)
          | None =>
              (* Use list for automatic deletion *)
              (length (il_vOrphan st), il_vOrphan st ++ [COrphan_new tx])
          end in
        let porphan := created.1 in
        let mapDependers :=
          <[hash := default [] (il_mapDependers st !! hash) ++ [porphan]]>
            (il_mapDependers st) in
        let vOrphan := alter (COrphan_depend hash) porphan created.2 in
        match vout parent !! n with
        | None => inl VoutOutOfRange
        | Some out =>
            inr (false,
                 {| il_porphan := Some porphan;
                    il_dPriority := il_dPriority st;
                    il_nTotalIn := il_nTotalIn st + nValue out;
                    il_fMissingInputs := il_fMissingInputs st;
                    il_vOrphan := vOrphan;
                    il_mapDependers := mapDependers |})
        end
    end
  else
    match AccessCoins mp hash with
    | None => inl AssertCoins
    | Some coins =>
        match coins_vout coins !! n with
        | None => inl VoutOutOfRange
        | Some out =>
            let nValueIn := nValue out in
            let nConf := nHeight - coins_nHeight coins in
            inr (false,
                 {| il_porphan := il_porphan st;
                    il_dPriority :=
                      PrimFloat.add (il_dPriority st)
                        (PrimFloat.mul (double_of_int nValueIn) (double_of_int nConf));
                    il_nTotalIn := il_nTotalIn st + nValueIn;
                    il_fMissingInputs := il_fMissingInputs st;
                    il_vOrphan := il_vOrphan st;
                    il_mapDependers := il_mapDependers st |})
        end
    end.

(** The loop over the inputs, up to its end or its [break]. *)
Fixpoint scan_inputs (tx : CTransaction) (inputs : list CTxIn) (st : InputLoop)
    : ScanFault + InputLoop :=
  match inputs with
  | [] => inr st
  | txin :: rest =>
      match scan_input tx txin st with
      | inl fault => inl fault
      | inr (true, st') => inr st'
      | inr (false, st') => scan_inputs tx rest st'
      end
  end.

(** The condition of the first [continue]. *)
Definition scan_skips (tx : CTransaction) : bool :=
  let nLockTimeCutoff :=
    if locktime_median_time_past mp then nMedianTimePast mp else GetBlockTime mp in
  IsCoinBase mp tx || negb (IsFinalTx mp tx nHeight nLockTimeCutoff)
  || IsExpiredTx mp tx nHeight.

(** The body of the loop over [mempool.mapTx]. *)
Definition scan_tx (s : MempoolScan) (tx : CTransaction) : ScanFault + MempoolScan :=
  if scan_skips tx then inr s else
  match scan_inputs tx (vin tx)
          {| il_porphan := None; il_dPriority := 0%float; il_nTotalIn := 0;
             il_fMissingInputs := false;
             il_vOrphan := scan_vOrphan s; il_mapDependers := scan_mapDependers s |} with
  | inl fault => inl fault
  | inr st =>
      let nTotalIn := il_nTotalIn st + GetShieldedValueIn mp tx in
      if il_fMissingInputs st then
        inr {| scan_vecPriority := scan_vecPriority s;
               scan_vOrphan := il_vOrphan st;
               scan_mapDependers := il_mapDependers st |}
      else
        (* Priority is sum(valuein * age) / modified_txsize *)
        let nTxSize := to_uint32 (GetSerializeSize txo tx) in
        let dPriority := ComputePriority mp tx (il_dPriority st) nTxSize in
        let hash := GetHash txo tx in
        let deltas := ApplyDeltas policy hash dPriority nTotalIn in
        let dPriority := deltas.1 in
        let nTotalIn := deltas.2 in
        let feePaid := nTotalIn - GetValueOut txo tx in
        let feeRate := CFeeRate_of mp feePaid nTxSize in
        match il_porphan st with
        | Some porphan =>
            inr {| scan_vecPriority := scan_vecPriority s;
                   scan_vOrphan :=
                     alter (fun o => {| ptx := ptx o; setDependsOn := setDependsOn o;
                                        feeRate := feeRate; feePaid := feePaid;
                                        dPriority := dPriority |})
                       porphan (il_vOrphan st);
                   scan_mapDependers := il_mapDependers st |}
        | None =>
            inr {| scan_vecPriority :=
                     scan_vecPriority s
                     ++ [{| prio_dPriority := dPriority; prio_feeRate := feeRate;
                            prio_feePaid := feePaid; prio_tx := tx |}];
                   scan_vOrphan := il_vOrphan st;
                   scan_mapDependers := il_mapDependers st |}
        end
  end.

(** The loop over the transactions of the mempool, from a state on. *)
Fixpoint scan_from (s : MempoolScan) (txs : list CTransaction) : ScanFault + MempoolScan :=
  match txs with
  | [] => inr s
  | tx :: rest =>
      match scan_tx s tx with
      | inl fault => inl fault
      | inr s' => scan_from s' rest
      end
  end.

(** The whole scan. *)
Definition scan_mempool : ScanFault + MempoolScan :=
  scan_from MempoolScan_empty (mapTx mp).

End MempoolScan.

(** ** Further sample collaborators *)

Module Sample2.

(** The sample chain with other funding streams. *)
Definition chainparams_with
    (streams : Z -> CAmount -> list FundingStreamElement) : CChainParams :=
  {| NetworkUpgradeActive := NetworkUpgradeActive Sample.chainparams;
     IsActivationHeight := IsActivationHeight Sample.chainparams;
     CurrentEpochBranchId := CurrentEpochBranchId Sample.chainparams;
     GetBlockSubsidy := GetBlockSubsidy Sample.chainparams;
     GetActiveFundingStreamElements := streams;
     GetLastFoundersRewardBlockHeight := GetLastFoundersRewardBlockHeight Sample.chainparams;
     GetFoundersRewardScriptAtHeight := GetFoundersRewardScriptAtHeight Sample.chainparams;
     ZIP209Enabled := ZIP209Enabled Sample.chainparams;
     ContextualTxVersion := ContextualTxVersion Sample.chainparams;
     GetPreferredRecipientAddress := GetPreferredRecipientAddress Sample.chainparams |}.

(** After the funding streams have ended. *)
Definition chainparams_no_streams : CChainParams := chainparams_with (fun _ _ => []).

(** With one funding stream, paid to a script. *)
Definition chainparams_script_stream : CChainParams :=
  chainparams_with (fun h s => [(FSScript [0x51], s ÷ 10)]).

End Sample2.

Module SampleTime.

(** Median time past 1000000 at every block, the future-timestamp soft
    fork active from height 100, no minimum-difficulty rule. *)
Definition params : TimeParams :=
  {| GetMedianTimePast := fun _ => 1000000;
     FutureTimestampSoftForkActive := fun h => 100 <=? h;
     nPowAllowMinDifficultyBlocksAfterHeight := None;
     MAX_FUTURE_BLOCK_TIME_MTP := 5400;
     GetNextWorkRequired := fun _ _ => 7 |}.

Definition header : CBlockHeader := {| nTime := 0; nBits := 5 |}.

End SampleTime.

Module SampleNode.

(** A node that accepts every block and takes the Merkle root for the
    block hash. *)
Definition node : NodeOracle :=
  {| CBlock_GetHash := fun b => hashMerkleRoot b; ProcessNewBlock := fun _ => true |}.

(** A decoder that knows three addresses. *)
Definition DecodePaymentAddress (s : string) : option PaymentAddress :=
  if String.eqb s "t1key" then Some (PaymentKeyID [1; 2; 3])
  else if String.eqb s "t3script" then Some (PaymentScriptID [4; 5; 6])
  else if String.eqb s "zs1sapling" then Some (PaymentSapling 9%N)
  else None.

End SampleNode.

Module SampleMempool.

Definition spend (hash : uint256) (n : Z) : CTxIn :=
  {| prevout := {| prevout_hash := hash; prevout_n := n |};
     scriptSig := []; nSequence := 0 |}.

Definition pay (v : CAmount) : CTxOut := {| nValue := v; scriptPubKey := [0x51] |}.

(** Under [Sample.txo]: the hash is [id], the size 250 bytes, one legacy
    sigop. *)
Definition mk_tx (id : Z) (inputs : list CTxIn) (outputs : list CTxOut) : CTransaction :=
  {| fOverwintered := true; nVersion := 250; nVersionGroupId := 1;
     nConsensusBranchId := None; vin := inputs; vout := outputs; nLockTime := id;
     nExpiryHeight := 0; valueBalanceSapling := 0; vShieldedOutput := [];
     vJoinSplit := []; orchardBundle := None; bindingSig := None |}.

(** Transaction 1 spends an output of the chain, 2 spends 1, and 3
    spends 2 and another output of the chain. *)
Definition tx1 : CTransaction := mk_tx 1 [spend 100%N 0] [pay 4000].
Definition tx2 : CTransaction := mk_tx 2 [spend 1%N 0] [pay 3000].
Definition tx3 : CTransaction := mk_tx 3 [spend 2%N 0; spend 100%N 1] [pay 3500].

(** Transaction 4 spends 1 and an output nobody knows. *)
Definition tx4 : CTransaction := mk_tx 4 [spend 1%N 0; spend 999%N 0] [pay 10].

(** A mempool that iterates over the transactions [txs]; the chain has
    the two outputs of transaction 100, confirmed at height 10. *)
Definition mempool_of (txs : list CTransaction) : MempoolView :=
  {| mapTx := txs;
     IsCoinBase := fun _ => false;
     IsFinalTx := fun _ _ _ => true;
     IsExpiredTx := fun _ _ => false;
     HaveCoins := fun h => N.eqb h 100%N;
     AccessCoins := fun h =>
       if N.eqb h 100%N
       then Some {| coins_vout := [pay 5000; pay 1000]; coins_nHeight := 10 |}
       else None;
     GetShieldedValueIn := fun _ => 0;
     ComputePriority := fun _ d size => PrimFloat.div d (double_of_int size);
     CFeeRate_of := fun fee size => fee * 1000 / size;
     fDebug := false;
     locktime_median_time_past := true;
     nMedianTimePast := 1000000;
     GetBlockTime := 1000001 |}.

Definition mempool : MempoolView := mempool_of [tx3; tx1; tx2].

End SampleMempool.

(** * Properties *)

(** ** The coinbase builder *)

Definition ctx_use (e : CtxEvent) : bool :=
  match e with CtxBuild _ | CtxBindingSig => true | _ => false end.

Definition is_free (e : CtxEvent) : bool :=
  match e with CtxFree => true | _ => false end.

(** How often a trace frees the proving context. *)
Definition count_frees (tr : list CtxEvent) : nat := length (List.filter is_free tr).

(** The trace grew by uses of the context only. *)
Definition used (w w' : World) : Prop :=
  exists uses, w_trace w' = w_trace w ++ uses /\ forallb ctx_use uses = true.

(** The trace grew by uses of the context and then one free. *)
Definition freed (w w' : World) : Prop :=
  exists uses, w_trace w' = w_trace w ++ uses ++ [CtxFree] /\ forallb ctx_use uses = true.

(** Value leaving through transparent outputs and into the Sapling pool. *)
Definition paid_out (m : CMutableTransaction) : CAmount :=
  sum_vout (vout m) - valueBalanceSapling m.

(** The step from [w] to [w'] paid [out] more, appended the transparent
    outputs [extra] and kept the inputs, the expiry height and the
    Orchard bundle. *)
Record pays (out : CAmount) (extra : list CTxOut) (w w' : World) : Prop := {
  pays_vin : vin (w_mtx w') = vin (w_mtx w);
  pays_expiry : nExpiryHeight (w_mtx w') = nExpiryHeight (w_mtx w);
  pays_orchard : orchardBundle (w_mtx w') = orchardBundle (w_mtx w);
  pays_vout : vout (w_mtx w') = vout (w_mtx w) ++ extra;
  pays_value : paid_out (w_mtx w') = paid_out (w_mtx w) + out;
  pays_used : used w w'
}.

Lemma used_refl w : used w w.
Proof. exists []. split; [by rewrite app_nil_r | done]. Qed.

Lemma used_trans w1 w2 w3 : used w1 w2 -> used w2 w3 -> used w1 w3.
Proof.
  intros (u1 & H1 & F1) (u2 & H2 & F2). exists (u1 ++ u2). split.
  - by rewrite H2, H1, app_assoc.
  - rewrite forallb_app. by rewrite F1, F2.
Qed.

Lemma used_freed w1 w2 w3 : used w1 w2 -> freed w2 w3 -> freed w1 w3.
Proof.
  intros (u1 & H1 & F1) (u2 & H2 & F2). exists (u1 ++ u2). split.
  - by rewrite H2, H1, <- !app_assoc.
  - rewrite forallb_app. by rewrite F1, F2.
Qed.

Lemma used_emit w e : ctx_use e = true ->
  used w {| w_mtx := w_mtx w; w_trace := w_trace w ++ [e] |}.
Proof. intros He. exists [e]. split; [done | by simpl; rewrite He]. Qed.

Lemma used_same_trace w w' : w_trace w' = w_trace w -> used w w'.
Proof. intros H. exists []. by rewrite H, app_nil_r. Qed.

Lemma freed_now w w' : w_trace w' = w_trace w ++ [CtxFree] -> freed w w'.
Proof. intros H. exists []. by rewrite H. Qed.

Lemma pays_refl w : pays 0 [] w w.
Proof.
  split; try done.
  - by rewrite app_nil_r.
  - lia.
  - apply used_refl.
Qed.

Lemma pays_trans a b x y w1 w2 w3 :
  pays a x w1 w2 -> pays b y w2 w3 -> pays (a + b) (x ++ y) w1 w3.
Proof.
  intros [V1 E1 O1 X1 P1 U1] [V2 E2 O2 X2 P2 U2]. split.
  - congruence.
  - congruence.
  - congruence.
  - by rewrite X2, X1, app_assoc.
  - lia.
  - eapply used_trans; eauto.
Qed.

Lemma sum_vout_app a b : sum_vout (a ++ b) = sum_vout a + sum_vout b.
Proof. induction a as [|x a IH]; simpl; [done | rewrite IH; lia]. Qed.

Lemma count_frees_app a b : count_frees (a ++ b) = (count_frees a + count_frees b)%nat.
Proof. unfold count_frees. by rewrite List.filter_app, length_app. Qed.

Lemma count_frees_uses uses : forallb ctx_use uses = true -> count_frees uses = 0%nat.
Proof.
  induction uses as [|e uses IH]; [done |]. simpl. intros H.
  apply andb_true_iff in H as [He H]. unfold count_frees in *. simpl.
  destruct e; simpl in *; try discriminate; auto.
Qed.

Section CoinbaseBuilderFacts.

Variable chainparams : CChainParams.
Variable prover : Prover.
Variable nHeight : Z.
Variable nFees : CAmount.

(** Sum of the amounts of a list of funding stream elements. *)
Definition sum_funding (elems : list FundingStreamElement) : CAmount :=
  foldr (fun e acc => e.2 + acc) 0 elems.

(** The transparent output a funding stream element adds, if any. *)
Definition funding_vout1 (e : FundingStreamElement) : list CTxOut :=
  match e.1 with
  | FSSapling _ => []
  | FSScript scriptPubKey => [{| nValue := e.2; scriptPubKey := scriptPubKey |}]
  end.

Definition funding_vout (elems : list FundingStreamElement) : list CTxOut :=
  flat_map funding_vout1 elems.

(** Adding one funding stream output never throws; when it succeeds it
    pays the stream's value, when it fails it leaves the transaction. *)
Lemma AddFundingStreamValueToTx_spec v z r w :
  exists added w',
    AddFundingStreamValueToTx prover v z r w = (Returned added, w')
    /\ (if added then pays v (funding_vout1 (r, v)) w w'
        else w_mtx w' = w_mtx w /\ used w w').
Proof.
  destruct r as [pa | script]; unfold AddFundingStreamValueToTx.
  - unfold Build_output, bind, get_trace, emit, ret, modify_mtx. simpl.
    destruct (OutputDescriptionInfo_Build prover (w_trace w) _) as [od|]; simpl.
    + eexists true, _. split; [reflexivity |]. split; simpl; try done.
      * by rewrite app_nil_r.
      * unfold paid_out. simpl. lia.
      * by apply used_emit.
    + eexists false, _. split; [reflexivity |]. split; [done |]. by apply used_emit.
  - unfold bind, ret, modify_mtx. simpl.
    eexists true, _. split; [reflexivity |]. split; simpl; try done.
    + unfold paid_out. simpl. rewrite sum_vout_app. simpl. lia.
    + by apply used_same_trace.
Qed.

(** The loop over the funding streams: it returns the reward less all
    stream amounts, having paid them; or it throws after freeing the
    context once. *)
Lemma add_funding_streams_spec elems : forall miner_reward w,
  match add_funding_streams chainparams prover nHeight elems miner_reward w with
  | (Returned r, w') =>
      r = miner_reward - sum_funding elems
      /\ pays (sum_funding elems) (funding_vout elems) w w'
  | (Threw e, w') => freed w w'
  end.
Proof.
  induction elems as [|[addr v] elems IH]; intros miner_reward w; simpl.
  - unfold ret. split; [lia | apply pays_refl].
  - unfold bind at 1.
    destruct (AddFundingStreamValueToTx_spec v (GetZip212Flag chainparams nHeight) addr w)
      as (added & w1 & -> & Hadd).
    destruct added; simpl.
    + specialize (IH (miner_reward - v) w1).
      destruct (add_funding_streams _ _ _ elems (miner_reward - v) w1) as [[r|e] w2].
      * destruct IH as [-> Hp]. split; [lia |].
        apply (pays_trans _ _ _ _ w w1 w2 Hadd Hp).
      * eapply used_freed; [apply Hadd | done].
    + destruct Hadd as [_ Hu].
      unfold bind, librustzcash_sapling_proving_ctx_free, emit, throw. simpl.
      eapply used_freed; [apply Hu |]. by apply freed_now.
Qed.

(** What the founders' reward or the funding streams take from the
    subsidy at this height. *)
Definition coinbase_deductions : CAmount :=
  let block_subsidy := GetBlockSubsidy chainparams nHeight in
  if nHeight >? 0 then
    if NetworkUpgradeActive chainparams nHeight UPGRADE_CANOPY then
      sum_funding (GetActiveFundingStreamElements chainparams nHeight block_subsidy)
    else if nHeight <=? GetLastFoundersRewardBlockHeight chainparams nHeight then
      block_subsidy ÷ 5
    else 0
  else 0.

(** The transparent outputs that go with these deductions. *)
Definition deduction_outputs : list CTxOut :=
  let block_subsidy := GetBlockSubsidy chainparams nHeight in
  if nHeight >? 0 then
    if NetworkUpgradeActive chainparams nHeight UPGRADE_CANOPY then
      funding_vout (GetActiveFundingStreamElements chainparams nHeight block_subsidy)
    else if nHeight <=? GetLastFoundersRewardBlockHeight chainparams nHeight then
      [{| nValue := block_subsidy ÷ 5;
          scriptPubKey := GetFoundersRewardScriptAtHeight chainparams nHeight |}]
    else []
  else [].

Lemma SetFoundersRewardAndGetMinerValue_spec w :
  match SetFoundersRewardAndGetMinerValue chainparams prover nHeight nFees w with
  | (Returned r, w') =>
      r = GetBlockSubsidy chainparams nHeight - coinbase_deductions + nFees
      /\ pays coinbase_deductions deduction_outputs w w'
  | (Threw e, w') => freed w w'
  end.
Proof.
  unfold SetFoundersRewardAndGetMinerValue, coinbase_deductions, deduction_outputs.
  unfold bind at 1.
  destruct (nHeight >? 0).
  - destruct (NetworkUpgradeActive chainparams nHeight UPGRADE_CANOPY).
    + pose proof (add_funding_streams_spec
        (GetActiveFundingStreamElements chainparams nHeight (GetBlockSubsidy chainparams nHeight))
        (GetBlockSubsidy chainparams nHeight) w) as H.
      destruct (add_funding_streams _ _ _ _ _ w) as [[r|e] w1]; [|done].
      destruct H as [-> Hp]. unfold ret. split; [lia | done].
    + destruct (nHeight <=? GetLastFoundersRewardBlockHeight chainparams nHeight).
      * unfold bind, modify_mtx, ret. simpl. split; [lia |].
        split; simpl; try done.
        -- unfold paid_out. simpl. rewrite sum_vout_app. simpl. lia.
        -- by apply used_same_trace.
      * unfold ret. split; [lia | apply pays_refl].
  - unfold ret. split; [lia | apply pays_refl].
Qed.

End CoinbaseBuilderFacts.

(** Unfolds the monad and the context primitives, so that a builder
    applied to a world reduces to the pair it yields. *)
Ltac run_builder :=
  cbv [bind ret throw get_mtx get_trace modify_mtx emit Build_output
       librustzcash_sapling_proving_ctx_init librustzcash_sapling_proving_ctx_free
       librustzcash_sapling_binding_sig];
  cbn [w_mtx w_trace fst snd].

Section BindingSigFacts.

Variable chainparams : CChainParams.
Variable prover : Prover.
Variable nHeight : Z.
Variable nFees : CAmount.

(** What [ComputeBindingSig] leaves of the transaction when it returns:
    only the Orchard bundle (installed when one was given) and the
    binding signature change. *)
Record signed (ob : option OrchardBundle) (w w' : World) : Prop := {
  signed_vin : vin (w_mtx w') = vin (w_mtx w);
  signed_expiry : nExpiryHeight (w_mtx w') = nExpiryHeight (w_mtx w);
  signed_vout : vout (w_mtx w') = vout (w_mtx w);
  signed_balance : valueBalanceSapling (w_mtx w') = valueBalanceSapling (w_mtx w);
  signed_orchard :
    match ob with
    | Some b => exists auth,
        orchardBundle (w_mtx w') =
          Some {| bundle_outputs := bundle_outputs b;
                  bundle_valueBalance := bundle_valueBalance b;
                  bundle_authorization := Some auth |}
    | None => orchardBundle (w_mtx w') = orchardBundle (w_mtx w)
    end;
  signed_trace : w_trace w' = w_trace w ++ [CtxBindingSig]
}.

Lemma signed_used ob w w' : signed ob w w' -> used w w'.
Proof. intros H. exists [CtxBindingSig]. split; [apply H | done]. Qed.

(** The [try] block with its handler: the hash, or one free and the
    rethrown error. *)
Lemma dataToBeSigned_spec ob w :
  match catch_logic_error (compute_dataToBeSigned chainparams prover nHeight ob)
          (librustzcash_sapling_proving_ctx_free ;; throw LogicError) w with
  | (Returned _, w') => w' = w
  | (Threw e, w') => freed w w'
  end.
Proof.
  unfold catch_logic_error, compute_dataToBeSigned, bind, get_mtx.
  destruct ob as [b|].
  - destruct (ProduceZip244SignatureHash prover (w_mtx w) b); unfold ret, throw; [done |].
    unfold librustzcash_sapling_proving_ctx_free, emit. simpl. by apply freed_now.
  - destruct (SignatureHash prover (w_mtx w) _); unfold ret, throw; [done |].
    unfold librustzcash_sapling_proving_ctx_free, emit. simpl. by apply freed_now.
Qed.

Lemma ComputeBindingSig_spec ob w :
  match ComputeBindingSig chainparams prover nHeight ob w with
  | (Returned _, w') => signed ob w w'
  | (Threw e, w') => freed w w'
  end.
Proof.
  unfold ComputeBindingSig. unfold bind at 1.
  pose proof (dataToBeSigned_spec ob w) as Hh.
  destruct (catch_logic_error _ _ w) as [[h|e] w0]; [subst w0 | done].
  destruct ob as [b|].
  - destruct (ProveAndSign prover b h) as [auth|]; run_builder.
    + destruct (sapling_binding_sig prover (w_trace w) _ h); simpl.
      * split; simpl; try done. by eexists.
      * exists [CtxBindingSig]. simpl. by rewrite <- app_assoc.
    + by apply freed_now.
  - run_builder.
    destruct (sapling_binding_sig prover (w_trace w) _ h); simpl.
    + split; simpl; done.
    + exists [CtxBindingSig]. simpl. by rewrite <- app_assoc.
Qed.

(** An exit of one of the three variants: the context was initialised
    first, then used, then freed once, and that is all the trace holds. *)
Definition init_then_freed (w w' : World) : Prop :=
  exists uses, w_trace w' = w_trace w ++ CtxInit :: uses ++ [CtxFree]
               /\ forallb ctx_use uses = true.

Lemma init_used_free w w1 w2 w3 :
  w_trace w1 = w_trace w ++ [CtxInit] -> used w1 w2 ->
  w_trace w3 = w_trace w2 ++ [CtxFree] -> init_then_freed w w3.
Proof.
  intros H1 (u & H2 & F) H3. exists u. split; [|done].
  rewrite H3, H2, H1. by rewrite <- !app_assoc.
Qed.

Lemma init_freed w w1 w2 :
  w_trace w1 = w_trace w ++ [CtxInit] -> freed w1 w2 -> init_then_freed w w2.
Proof.
  intros H1 (u & H2 & F). exists u. split; [|done].
  rewrite H2, H1. by rewrite <- !app_assoc.
Qed.

Lemma init_then_freed_count w w' :
  init_then_freed w w' -> count_frees (w_trace w') = S (count_frees (w_trace w)).
Proof.
  intros (u & -> & F).
  change (CtxInit :: u ++ [CtxFree]) with ([CtxInit] ++ u ++ [CtxFree]).
  rewrite !count_frees_app, (count_frees_uses u F). unfold count_frees. simpl. lia.
Qed.

(** The fresh state of a builder variant: no output yet, nothing shielded. *)
Definition fresh (w : World) : Prop :=
  vout (w_mtx w) = [] /\ valueBalanceSapling (w_mtx w) = 0
  /\ vShieldedOutput (w_mtx w) = [] /\ orchardBundle (w_mtx w) = None.

(** All value leaving the transaction: transparent outputs, and what the
    Sapling and Orchard value balances put into the shielded pools. *)
Definition value_out (m : CMutableTransaction) : CAmount :=
  sum_vout (vout m) - valueBalanceSapling m
  - OrchardBundle_GetValueBalance (orchardBundle m).

(** The miner's own output, per variant. *)
Definition miner_output (minerAddress : MinerAddress) (value : CAmount) (w' : World) : Prop :=
  match minerAddress with
  | MinerScript coinbaseScript =>
      exists rest, vout (w_mtx w') =
        {| nValue := value; scriptPubKey := reserveScript coinbaseScript |} :: rest
  | MinerSapling pa =>
      exists uses, w_trace w' = uses ++ [CtxBindingSig; CtxFree]
        /\ List.last uses CtxInit =
             CtxBuild {| odi_ovk := uint256_null;
                         odi_note := {| note_address := pa; note_value := value;
                                        note_zip212 := GetZip212Flag chainparams nHeight |} |}
  | MinerOrchard to =>
      exists auth, orchardBundle (w_mtx w') =
        Some {| bundle_outputs :=
                  [{| oo_ovk := uint256_null; oo_to := to; oo_value := value |};
                   {| oo_ovk := uint256_null; oo_to := RandomDummyOrchardAddress prover;
                      oo_value := 0 |}];
                bundle_valueBalance := - (value + (0 + 0));
                bundle_authorization := Some auth |}
  end.

(** What a variant has done when it returns. *)
Record built (minerAddress : MinerAddress) (w w' : World) : Prop := {
  built_vin : vin (w_mtx w') = vin (w_mtx w);
  built_expiry : nExpiryHeight (w_mtx w') = nExpiryHeight (w_mtx w);
  built_value : fresh w ->
    value_out (w_mtx w') = GetBlockSubsidy chainparams nHeight + nFees;
  built_vout : fresh w ->
    vout (w_mtx w') =
      match minerAddress with
      | MinerScript coinbaseScript =>
          [{| nValue := GetBlockSubsidy chainparams nHeight
                        - coinbase_deductions chainparams nHeight + nFees;
              scriptPubKey := reserveScript coinbaseScript |}]
      | _ => []
      end ++ deduction_outputs chainparams nHeight;
  built_miner : fresh w ->
    miner_output minerAddress
      (GetBlockSubsidy chainparams nHeight - coinbase_deductions chainparams nHeight + nFees) w';
  built_trace : init_then_freed w w'
}.

Lemma bind_run {A B} (m : Builder A) (k : A -> Builder B) w :
  bind m k w = match m w with
               | (Returned a, w') => k a w'
               | (Threw e, w') => (Threw e, w')
               end.
Proof. reflexivity. Qed.

(** Case analysis on a call of [SetFoundersRewardAndGetMinerValue] or
    [ComputeBindingSig] in the goal, with its specification. *)
Ltac call_founders H r w2 :=
  match goal with
  | |- context [SetFoundersRewardAndGetMinerValue ?c ?p ?h ?f ?w1] =>
      pose proof (SetFoundersRewardAndGetMinerValue_spec c p h f w1) as H;
      destruct (SetFoundersRewardAndGetMinerValue c p h f w1) as [[r|?] w2]
  end.

Ltac call_bindingsig H w3 :=
  match goal with
  | |- context [ComputeBindingSig ?c ?p ?h ?ob ?w2] =>
      pose proof (ComputeBindingSig_spec ob w2) as H;
      destruct (ComputeBindingSig c p h ob w2) as [[?|?] w3]
  end.

Lemma AddOutputs_Orchard_spec to w :
  match AddOutputs_Orchard chainparams prover nHeight nFees to w with
  | (Returned _, w') => built (MinerOrchard to) w w'
  | (Threw e, w') => init_then_freed w w'
  end.
Proof.
  unfold AddOutputs_Orchard. rewrite bind_run.
  unfold librustzcash_sapling_proving_ctx_init, emit.
  set (w1 := {| w_mtx := w_mtx w; w_trace := w_trace w ++ [CtxInit] |}).
  rewrite bind_run. call_founders Hf r w2.
  2: { apply (init_freed w w1); [reflexivity | exact Hf]. }
  destruct Hf as [Hr Hp].
  unfold OrchardBuilder_Build, OrchardBuilder_AddOutput. cbn [ob_outputs app].
  destruct (OrchardBuilder_Build_ok prover _).
  2: { run_builder. apply (init_used_free w w1 w2); [reflexivity | apply Hp | reflexivity]. }
  rewrite bind_run. call_bindingsig Hs w3.
  2: { apply (init_freed w w1); [reflexivity |]. eapply used_freed; [apply Hp | exact Hs]. }
  run_builder. pose proof (signed_used _ _ _ Hs) as U2.
  destruct Hp as [V1 E1 O1 X1 P1 U1], Hs as [V2 E2 X2 B2 (auth & O2) T2].
  split; cbn [w_mtx w_trace].
  - by rewrite V2, V1.
  - by rewrite E2, E1.
  - intros (F1 & F2 & F3 & F4). unfold value_out. rewrite O2, X2, B2.
    unfold paid_out in P1. subst w1. cbn [w_mtx] in P1. rewrite F1, F2 in P1.
    unfold sum_orchard_outputs. cbn. cbn in P1. lia.
  - intros (F1 & _). rewrite X2, X1. subst w1. cbn. by rewrite F1.
  - intros _. cbn. exists auth. rewrite O2. unfold sum_orchard_outputs. cbn.
    by rewrite Hr.
  - apply (init_used_free w w1 w3);
      [reflexivity | eapply used_trans; [apply U1 | apply U2] | reflexivity].
Qed.

Lemma AddOutputs_Sapling_spec pa w :
  match AddOutputs_Sapling chainparams prover nHeight nFees pa w with
  | (Returned _, w') => built (MinerSapling pa) w w'
  | (Threw e, w') => init_then_freed w w'
  end.
Proof.
  unfold AddOutputs_Sapling. rewrite bind_run.
  unfold librustzcash_sapling_proving_ctx_init, emit.
  set (w1 := {| w_mtx := w_mtx w; w_trace := w_trace w ++ [CtxInit] |}).
  rewrite bind_run. call_founders Hf r w2.
  2: { apply (init_freed w w1); [reflexivity | exact Hf]. }
  destruct Hf as [Hr Hp].
  rewrite bind_run. unfold modify_mtx at 1.
  rewrite bind_run. unfold Build_output at 1. run_builder.
  set (output := {| odi_ovk := uint256_null; odi_note := _ |}).
  set (w3 := {| w_mtx := set_valueBalanceSapling _ _;
                w_trace := w_trace w2 ++ [CtxBuild output] |}).
  assert (U3 : used w2 w3) by (by apply used_emit).
  destruct (OutputDescriptionInfo_Build prover (w_trace w2) output) as [od|].
  2: { apply (init_used_free w w1 w3);
         [reflexivity | eapply used_trans; [apply Hp | exact U3] | reflexivity]. }
  set (w4 := {| w_mtx := set_vShieldedOutput _ _; w_trace := w_trace w3 |}).
  assert (U4 : used w2 w4) by (by apply used_emit).
  call_bindingsig Hs w5.
  2: { apply (init_freed w w1); [reflexivity |].
       eapply used_freed; [eapply used_trans; [apply Hp | exact U4] | exact Hs]. }
  pose proof (signed_used _ _ _ Hs) as U5.
  destruct Hp as [V1 E1 O1 X1 P1 U1], Hs as [V2 E2 X2 B2 O2 T2].
  subst w4 w3. cbn in V2, E2, X2, B2, O2, T2.
  split; cbn [w_mtx w_trace].
  - by rewrite V2, V1.
  - by rewrite E2, E1.
  - intros (F1 & F2 & F3 & F4). unfold value_out. rewrite O2, X2, B2, O1.
    unfold paid_out in P1. subst w1. cbn in P1. cbn. rewrite F4. rewrite F1, F2 in P1.
    cbn in P1. cbn. lia.
  - intros (F1 & _). rewrite X2, X1. subst w1. cbn. by rewrite F1.
  - intros _. cbn. exists (w_trace w2 ++ [CtxBuild output]). split.
    + rewrite T2. by rewrite <- !app_assoc.
    + rewrite last_last. subst output. by rewrite Hr.
  - apply (init_used_free w w1 w5); [reflexivity | | reflexivity].
    eapply used_trans; [apply U1 |]. eapply used_trans; [apply U4 | apply U5].
Qed.

Lemma AddOutputs_Transparent_spec coinbaseScript w :
  match AddOutputs_Transparent chainparams prover nHeight nFees coinbaseScript w with
  | (Returned _, w') => built (MinerScript coinbaseScript) w w'
  | (Threw e, w') => init_then_freed w w'
  end.
Proof.
  unfold AddOutputs_Transparent. rewrite bind_run.
  unfold librustzcash_sapling_proving_ctx_init, emit.
  rewrite bind_run. unfold modify_mtx at 1. cbn [w_mtx w_trace].
  set (w1 := {| w_mtx := set_vout _ (w_mtx w); w_trace := w_trace w ++ [CtxInit] |}).
  rewrite bind_run. call_founders Hf r w2.
  2: { apply (init_freed w w1); [reflexivity | exact Hf]. }
  destruct Hf as [Hr Hp].
  rewrite bind_run. unfold modify_mtx at 1.
  rewrite bind_run. unfold get_mtx at 1. cbn [w_mtx w_trace].
  set (w3 := {| w_mtx := set_vout _ (w_mtx w2); w_trace := w_trace w2 |}).
  assert (U3 : used w2 w3) by (by apply used_same_trace).
  destruct Hp as [V1 E1 O1 X1 P1 U1].
  set (extra := deduction_outputs chainparams nHeight) in *.
  assert (Hfresh : fresh w ->
            vout (w_mtx w3) =
              {| nValue := r; scriptPubKey := reserveScript coinbaseScript |} :: extra
            /\ sum_vout extra - valueBalanceSapling (w_mtx w3)
               = coinbase_deductions chainparams nHeight
            /\ orchardBundle (w_mtx w3) = None).
  { intros (F1 & F2 & F3 & F4). subst w3 w1. cbn [w_mtx set_vout vout] in *.
    rewrite F1 in X1. cbn in X1. rewrite X1. cbn. split; [done |].
    unfold paid_out in P1. cbn in P1. rewrite X1, F1, F2 in P1. cbn in P1.
    cbn in O1. split; [unfold sum_vout; lia | by rewrite O1]. }
  rewrite bind_run.
  destruct (0 <? length _)%nat; cbv beta iota.
  - call_bindingsig Hs w4.
    2: { apply (init_freed w w1); [reflexivity |].
         eapply used_freed; [eapply used_trans; [apply U1 | exact U3] | exact Hs]. }
    run_builder. pose proof (signed_used _ _ _ Hs) as U4.
    destruct Hs as [V2 E2 X2 B2 O2 T2].
    split; cbn [w_mtx w_trace].
    + rewrite V2. subst w3. cbn. by rewrite V1.
    + rewrite E2. subst w3. cbn. by rewrite E1.
    + intros F. destruct (Hfresh F) as (H1 & H2 & H3).
      unfold value_out. rewrite O2, X2, B2, H1, H3. subst w3. cbn in H2 |- *.
      unfold sum_vout in *. lia.
    + intros F. destruct (Hfresh F) as (H1 & H2 & H3).
      rewrite X2, H1. by rewrite Hr.
    + intros F. destruct (Hfresh F) as (H1 & H2 & H3).
      cbn. exists extra. by rewrite X2, H1, Hr.
    + apply (init_used_free w w1 w4); [reflexivity | | reflexivity].
      eapply used_trans; [apply U1 |]. eapply used_trans; [apply U3 | apply U4].
  - run_builder.
    split; cbn [w_mtx w_trace].
    + subst w3. cbn. by rewrite V1.
    + subst w3. cbn. by rewrite E1.
    + intros F. destruct (Hfresh F) as (H1 & H2 & H3).
      unfold value_out. subst w3. cbn in H1, H2, H3 |- *. rewrite H1, H3.
      unfold sum_vout in *. cbn. lia.
    + intros F. destruct (Hfresh F) as (H1 & H2 & H3).
      subst w3. cbn in H1 |- *. by rewrite H1, Hr.
    + intros F. destruct (Hfresh F) as (H1 & H2 & H3).
      subst w3. cbn in H1 |- *. exists extra. by rewrite H1, Hr.
    + apply (init_used_free w w1 w3); [reflexivity | | reflexivity].
      eapply used_trans; [apply U1 | apply U3].
Qed.

(** Every variant: it returns having built the coinbase outputs, or it
    throws; either way the context was initialised, used and freed once. *)
Lemma AddOutputsToCoinbaseTxAndSign_spec minerAddress w :
  match AddOutputsToCoinbaseTxAndSign chainparams prover nHeight nFees minerAddress w with
  | (Returned _, w') => built minerAddress w w'
  | (Threw e, w') => init_then_freed w w'
  end.
Proof.
  destruct minerAddress as [to | pa | coinbaseScript]; simpl.
  - apply AddOutputs_Orchard_spec.
  - apply AddOutputs_Sapling_spec.
  - apply AddOutputs_Transparent_spec.
Qed.

End BindingSigFacts.

(** The whole of [CreateCoinbaseTransaction]: what it returns, and what
    it did with the proving context whether it returned or threw. *)
Record coinbase_built (chainparams : CChainParams) (prover : Prover) (nFees : CAmount)
    (minerAddress : MinerAddress) (nHeight : Z)
    (mtx : CMutableTransaction) (tr : list CtxEvent) : Prop := {
  cb_vin : vin mtx =
    [{| prevout := COutPoint_null;
        scriptSig := Script.push_opcode (Script.push_int64 [] nHeight) Script.OP_0;
        nSequence := to_uint32 (-1) |}];
  cb_expiry : nExpiryHeight mtx =
    if NetworkUpgradeActive chainparams nHeight UPGRADE_NU5 then to_uint32 nHeight else 0;
  cb_value : value_out mtx = GetBlockSubsidy chainparams nHeight + nFees;
  cb_vout : vout mtx =
    match minerAddress with
    | MinerScript coinbaseScript =>
        [{| nValue := GetBlockSubsidy chainparams nHeight
                      - coinbase_deductions chainparams nHeight + nFees;
            scriptPubKey := reserveScript coinbaseScript |}]
    | _ => []
    end ++ deduction_outputs chainparams nHeight;
  cb_miner : miner_output chainparams prover nHeight minerAddress
    (GetBlockSubsidy chainparams nHeight - coinbase_deductions chainparams nHeight + nFees)
    {| w_mtx := mtx; w_trace := tr |}
}.

Definition context_freed_once (tr : list CtxEvent) : Prop :=
  exists uses, tr = CtxInit :: uses ++ [CtxFree] /\ forallb ctx_use uses = true.

Lemma CreateCoinbaseTransaction_body_spec chainparams prover nFees minerAddress nHeight
    requireV4 :
  match CreateCoinbaseTransaction_body chainparams prover nFees minerAddress nHeight
          {| w_mtx := CreateNewContextualCMutableTransaction chainparams nHeight requireV4;
             w_trace := [] |} with
  | (Returned mtx, w') =>
      coinbase_built chainparams prover nFees minerAddress nHeight mtx (w_trace w')
      /\ context_freed_once (w_trace w')
  | (Threw e, w') => context_freed_once (w_trace w')
  end.
Proof.
  unfold CreateCoinbaseTransaction_body.
  rewrite bind_run. unfold modify_mtx at 1. cbn [w_mtx w_trace].
  rewrite bind_run. unfold modify_mtx at 1. cbn [w_mtx w_trace].
  rewrite bind_run.
  set (m0 := update_vin0 _ _).
  set (expiry := if NetworkUpgradeActive chainparams nHeight UPGRADE_NU5
                 then to_uint32 nHeight else 0).
  set (w0 := {| w_mtx := set_nExpiryHeight expiry m0; w_trace := [] |}).
  assert (Hstep :
    (if NetworkUpgradeActive chainparams nHeight UPGRADE_NU5
     then modify_mtx (set_nExpiryHeight (to_uint32 nHeight))
     else modify_mtx (set_nExpiryHeight 0)) {| w_mtx := m0; w_trace := [] |}
    = (Returned tt, w0)).
  { subst w0 expiry. by destruct (NetworkUpgradeActive chainparams nHeight UPGRADE_NU5). }
  rewrite Hstep. clear Hstep.
  assert (Hfresh : fresh w0) by (by subst w0 m0; cbn).
  rewrite bind_run.
  pose proof (AddOutputsToCoinbaseTxAndSign_spec chainparams prover nHeight nFees
                minerAddress w0) as Hb.
  destruct (AddOutputsToCoinbaseTxAndSign _ _ _ _ _ w0) as [[[]|e] w1]; cbn [fst snd].
  2: { destruct Hb as (u & Hu & Fu). exists u. by rewrite Hu. }
  run_builder.
  destruct Hb as [V E Hval Hvout Hminer (u & Hu & Fu)].
  specialize (Hval Hfresh). specialize (Hvout Hfresh). specialize (Hminer Hfresh).
  assert (Hvin : vin (w_mtx w1) = [{| prevout := COutPoint_null; scriptSig := [];
                                      nSequence := to_uint32 (-1) |}]).
  { rewrite V. by subst w0 m0. }
  split; [| exists u; by rewrite Hu].
  unfold update_vin0. rewrite Hvin. split; cbn.
  - done.
  - rewrite E. by subst w0.
  - exact Hval.
  - exact Hvout.
  - destruct minerAddress; cbn in Hminer |- *; exact Hminer.
Qed.

Lemma CreateCoinbaseTransaction_spec chainparams prover nFees minerAddress nHeight :
  match CreateCoinbaseTransaction chainparams prover nFees minerAddress nHeight with
  | (Returned mtx, tr) =>
      coinbase_built chainparams prover nFees minerAddress nHeight mtx tr
      /\ context_freed_once tr
  | (Threw e, tr) => context_freed_once tr
  end.
Proof.
  unfold CreateCoinbaseTransaction.
  match goal with
  | |- context [CreateCoinbaseTransaction_body ?c ?p ?f ?m ?h
                  {| w_mtx := CreateNewContextualCMutableTransaction _ _ ?r; w_trace := [] |}] =>
      pose proof (CreateCoinbaseTransaction_body_spec c p f m h r) as H;
      destruct (CreateCoinbaseTransaction_body c p f m h _) as [[mtx|e] w']
  end; exact H.
Qed.

(** *** The shielded outputs of the coinbase *)

(** The output descriptions [Build] returned for the [CtxBuild] events
    of [tr], in order, when the context had seen [ctx] before them. *)
Fixpoint descriptions_built (prover : Prover) (ctx tr : list CtxEvent)
    : list OutputDescription :=
  match tr with
  | [] => []
  | ev :: rest =>
      match ev with
      | CtxBuild output =>
          match OutputDescriptionInfo_Build prover ctx output with
          | Some od => [od]
          | None => []
          end
      | _ => []
      end ++ descriptions_built prover (ctx ++ [ev]) rest
  end.

Lemma descriptions_built_app prover : forall a ctx b,
  descriptions_built prover ctx (a ++ b)
  = descriptions_built prover ctx a ++ descriptions_built prover (ctx ++ a) b.
Proof.
  induction a as [|ev a IH]; intros ctx b; cbn [app descriptions_built].
  - by rewrite app_nil_r.
  - rewrite IH, <- !app_assoc. reflexivity.
Qed.

(** The shielded outputs of the transaction are the descriptions built
    so far. *)
Definition shielded_as_built (prover : Prover) (w : World) : Prop :=
  vShieldedOutput (w_mtx w) = descriptions_built prover [] (w_trace w).

(** A computation that returns leaves [P] as it found it. *)
Definition keeps {A} (P : World -> Prop) (m : Builder A) : Prop :=
  forall w a w', P w -> m w = (Returned a, w') -> P w'.

(** A computation that returns, returns the transaction. *)
Definition yields_mtx (m : Builder CMutableTransaction) : Prop :=
  forall w a w', m w = (Returned a, w') -> a = w_mtx w'.

Lemma keeps_ret {A} P (a : A) : keeps P (ret a).
Proof. intros w a' w' HP [= _ <-]. exact HP. Qed.

Lemma keeps_throw {A} P e : keeps P (@throw A e).
Proof. intros w a w' HP H. discriminate. Qed.

Lemma keeps_get_mtx P : keeps P get_mtx.
Proof. intros w a w' HP [= _ <-]. exact HP. Qed.

Lemma keeps_get_trace P : keeps P get_trace.
Proof. intros w a w' HP [= _ <-]. exact HP. Qed.

Lemma keeps_bind {A B} P (m : Builder A) (k : A -> Builder B) :
  keeps P m -> (forall a, keeps P (k a)) -> keeps P (bind m k).
Proof.
  intros Hm Hk w b w' HP H. rewrite bind_run in H.
  destruct (m w) as [[a|e] w1] eqn:E; [| discriminate].
  exact (Hk a w1 b w' (Hm w a w1 HP E) H).
Qed.

Lemma keeps_catch_logic_error {A} P (body handler : Builder A) :
  keeps P body -> (forall w a w', handler w <> (Returned a, w')) ->
  keeps P (catch_logic_error body handler).
Proof.
  intros Hb Hh w a w' HP H. unfold catch_logic_error in H.
  destruct (body w) as [[r|e] w1] eqn:E.
  - injection H as <- <-. exact (Hb w r w1 HP E).
  - destruct e; try discriminate. by destruct (Hh w1 a w').
Qed.

Lemma shielded_modify prover f :
  (forall m, vShieldedOutput (f m) = vShieldedOutput m) ->
  keeps (shielded_as_built prover) (modify_mtx f).
Proof.
  intros Hf w a w' HP [= _ <-]. unfold shielded_as_built in *.
  cbn [w_mtx w_trace]. by rewrite Hf.
Qed.

Lemma shielded_emit prover ev :
  match ev with CtxBuild _ => False | _ => True end ->
  keeps (shielded_as_built prover) (emit ev).
Proof.
  intros Hev w a w' HP [= _ <-]. unfold shielded_as_built in *.
  cbn [w_mtx w_trace]. rewrite descriptions_built_app, <- HP.
  destruct ev; cbn; [| done | |]; by rewrite ?app_nil_r.
Qed.

Lemma yields_mtx_bind {A} (m : Builder A) (k : A -> Builder CMutableTransaction) :
  (forall a, yields_mtx (k a)) -> yields_mtx (bind m k).
Proof.
  intros Hk w b w' H. rewrite bind_run in H.
  destruct (m w) as [[a|e] w1]; [| discriminate]. exact (Hk a w1 b w' H).
Qed.

(** Decomposes a goal [keeps (shielded_as_built _) m] along the structure
    of [m], trying [known] on every part first. *)
Ltac keeps_shielded known :=
  repeat first
    [ known
    | apply keeps_ret
    | apply keeps_throw
    | apply keeps_get_mtx
    | apply keeps_get_trace
    | apply shielded_modify; intros ?; reflexivity
    | apply shielded_emit; exact I
    | apply keeps_bind; [| intros ?]
    | match goal with
      | |- keeps _ (match ?x with _ => _ end) => destruct x
      end ].

Section ShieldedOutputs.

Variable chainparams : CChainParams.
Variable prover : Prover.
Variable nHeight : Z.
Variable nFees : CAmount.

Lemma AddFundingStreamValueToTx_shielded v z r :
  keeps (shielded_as_built prover) (AddFundingStreamValueToTx prover v z r).
Proof.
  destruct r as [pa|script]; unfold AddFundingStreamValueToTx.
  - intros w a w' HP H. revert H. run_builder.
    unfold shielded_as_built in *.
    destruct (OutputDescriptionInfo_Build prover (w_trace w) _) as [od|] eqn:Hb;
      intros [= _ <-]; cbn [w_mtx w_trace vShieldedOutput set_vShieldedOutput
                            set_valueBalanceSapling];
      rewrite descriptions_built_app, <- HP; cbn [descriptions_built app];
      rewrite Hb; by rewrite ?app_nil_r.
  - keeps_shielded fail.
Qed.

Lemma add_funding_streams_shielded elems : forall miner_reward,
  keeps (shielded_as_built prover)
    (add_funding_streams chainparams prover nHeight elems miner_reward).
Proof.
  induction elems as [|fselem rest IH]; intros miner_reward; cbn [add_funding_streams].
  - apply keeps_ret.
  - apply keeps_bind; [apply AddFundingStreamValueToTx_shielded |].
    intros added. destruct (negb added); [| apply IH].
    keeps_shielded fail.
Qed.

Lemma SetFoundersRewardAndGetMinerValue_shielded :
  keeps (shielded_as_built prover)
    (SetFoundersRewardAndGetMinerValue chainparams prover nHeight nFees).
Proof.
  unfold SetFoundersRewardAndGetMinerValue. cbv zeta.
  keeps_shielded ltac:(apply add_funding_streams_shielded).
Qed.

Lemma ComputeBindingSig_shielded ob :
  keeps (shielded_as_built prover) (ComputeBindingSig chainparams prover nHeight ob).
Proof.
  unfold ComputeBindingSig, compute_dataToBeSigned, librustzcash_sapling_binding_sig.
  apply keeps_bind.
  - apply keeps_catch_logic_error; [keeps_shielded fail |].
    intros w a w'. by run_builder.
  - intros h. keeps_shielded fail.
Qed.

(** The Sapling variant, when it returns: the last use of the context
    before the binding signature built the description of the miner's
    note, and this description is the last shielded output of the
    transaction. *)
Lemma AddOutputs_Sapling_output pa w r w' :
  AddOutputs_Sapling chainparams prover nHeight nFees pa w = (Returned r, w') ->
  shielded_as_built prover w ->
  let note :=
    {| odi_ovk := uint256_null;
       odi_note := {| note_address := pa;
                      note_value := GetBlockSubsidy chainparams nHeight
                                    - coinbase_deductions chainparams nHeight + nFees;
                      note_zip212 := GetZip212Flag chainparams nHeight |} |} in
  exists ctx od,
    w_trace w' = ctx ++ [CtxBuild note; CtxBindingSig; CtxFree]
    /\ OutputDescriptionInfo_Build prover ctx note = Some od
    /\ vShieldedOutput (w_mtx w') = descriptions_built prover [] ctx ++ [od]
    /\ orchardBundle (w_mtx w') = orchardBundle (w_mtx w).
Proof.
  intros Hrun HP note. revert Hrun.
  unfold AddOutputs_Sapling. rewrite bind_run.
  unfold librustzcash_sapling_proving_ctx_init, emit.
  set (w1 := {| w_mtx := w_mtx w; w_trace := w_trace w ++ [CtxInit] |}).
  assert (HP1 : shielded_as_built prover w1).
  { apply (shielded_emit prover CtxInit I w tt w1 HP eq_refl). }
  rewrite bind_run.
  pose proof (SetFoundersRewardAndGetMinerValue_spec chainparams prover nHeight nFees w1)
    as Hf.
  pose proof (SetFoundersRewardAndGetMinerValue_shielded w1) as Hk.
  destruct (SetFoundersRewardAndGetMinerValue chainparams prover nHeight nFees w1)
    as [[v|e] w2]; [| discriminate].
  destruct Hf as [-> [_ _ O1 _ _ _]]. specialize (Hk _ _ HP1 eq_refl).
  rewrite bind_run. unfold modify_mtx at 1.
  rewrite bind_run. unfold Build_output at 1. run_builder. fold note.
  destruct (OutputDescriptionInfo_Build prover (w_trace w2) note) as [od|] eqn:Hb;
    [| discriminate].
  match goal with
  | |- context [ComputeBindingSig ?c ?p ?h None ?w4] =>
      pose proof (ComputeBindingSig_spec c p h None w4) as Hs;
      pose proof (ComputeBindingSig_shielded None w4) as Hk4;
      assert (HP4 : shielded_as_built prover w4);
      [| destruct (ComputeBindingSig c p h None w4) as [[u|e] w5]; [| discriminate]]
  end.
  { unfold shielded_as_built in *. cbn [w_mtx w_trace vShieldedOutput set_vShieldedOutput
                                        set_valueBalanceSapling].
    rewrite descriptions_built_app, <- Hk. cbn [descriptions_built app].
    by rewrite Hb, app_nil_r. }
  specialize (Hk4 _ _ HP4 eq_refl). destruct Hs as [_ _ _ _ O2 T2].
  cbn [w_mtx w_trace orchardBundle set_vShieldedOutput set_valueBalanceSapling] in O2, T2.
  intros [= _ <-]. cbn [w_mtx w_trace].
  exists (w_trace w2), od. split; [| split; [exact Hb | split]].
  - rewrite T2. by rewrite <- !app_assoc.
  - unfold shielded_as_built in Hk4. rewrite Hk4, T2.
    rewrite <- app_assoc, descriptions_built_app. cbn [descriptions_built app].
    by rewrite Hb, app_nil_r.
  - rewrite O2, O1. reflexivity.
Qed.

Lemma AddOutputsToCoinbaseTxAndSign_shielded minerAddress :
  keeps (shielded_as_built prover)
    (AddOutputsToCoinbaseTxAndSign chainparams prover nHeight nFees minerAddress).
Proof.
  destruct minerAddress as [to|pa|coinbaseScript]; cbn [AddOutputsToCoinbaseTxAndSign].
  - unfold AddOutputs_Orchard. cbv zeta.
    keeps_shielded ltac:(first [ apply SetFoundersRewardAndGetMinerValue_shielded
                               | apply ComputeBindingSig_shielded ]).
  - intros w a w' HP H.
    destruct (AddOutputs_Sapling_output pa w a w' H HP) as (ctx & od & Ht & Hb & Hv & _).
    unfold shielded_as_built. rewrite Hv, Ht, descriptions_built_app.
    cbn [descriptions_built app]. by rewrite Hb, app_nil_r.
  - unfold AddOutputs_Transparent.
    keeps_shielded ltac:(first [ apply SetFoundersRewardAndGetMinerValue_shielded
                               | apply ComputeBindingSig_shielded ]).
Qed.

End ShieldedOutputs.

Lemma CreateCoinbaseTransaction_body_shielded chainparams prover nFees minerAddress
    nHeight :
  keeps (shielded_as_built prover)
    (CreateCoinbaseTransaction_body chainparams prover nFees minerAddress nHeight)
  /\ yields_mtx
       (CreateCoinbaseTransaction_body chainparams prover nFees minerAddress nHeight).
Proof.
  unfold CreateCoinbaseTransaction_body. split.
  - keeps_shielded ltac:(first
      [ apply AddOutputsToCoinbaseTxAndSign_shielded
      | apply shielded_modify; intros m; unfold update_vin0; destruct (vin m);
        reflexivity ]).
  - repeat (apply yields_mtx_bind; intros ?). by intros w0 res w' [= <- <-].
Qed.

(** The transaction [CreateCoinbaseTransaction] returns holds, as its
    shielded outputs, the descriptions built on the proving context, in
    the order they were built. *)
Lemma CreateCoinbaseTransaction_shielded chainparams prover nFees minerAddress nHeight
    mtx tr :
  CreateCoinbaseTransaction chainparams prover nFees minerAddress nHeight
  = (Returned mtx, tr) ->
  vShieldedOutput mtx = descriptions_built prover [] tr.
Proof.
  unfold CreateCoinbaseTransaction. cbv zeta.
  destruct (CreateCoinbaseTransaction_body_shielded chainparams prover nFees minerAddress
              nHeight) as [Hk Hy].
  match goal with
  | |- context [CreateCoinbaseTransaction_body ?c ?p ?f ?m ?h ?w0] =>
      specialize (Hk w0); specialize (Hy w0);
      destruct (CreateCoinbaseTransaction_body c p f m h w0) as [[res|e] w'];
      [| discriminate]
  end.
  cbn [fst snd]. intros [= <- <-].
  rewrite (Hy res w' eq_refl). by apply (Hk res w').
Qed.

(** The miner's output of a Sapling coinbase, in the transaction
    returned: its last shielded output is the description built from the
    note that pays [value] to the miner's address, the last thing built
    on the context before the binding signature; the Sapling value
    balance is down by [value] and by the deductions that went to
    Sapling addresses; and there is no Orchard bundle. *)
Definition sapling_miner_output (chainparams : CChainParams) (prover : Prover)
    (nHeight : Z) (pa : SaplingPaymentAddress) (value : CAmount)
    (mtx : CMutableTransaction) (tr : list CtxEvent) : Prop :=
  let note :=
    {| odi_ovk := uint256_null;
       odi_note := {| note_address := pa; note_value := value;
                      note_zip212 := GetZip212Flag chainparams nHeight |} |} in
  exists ctx od,
    tr = ctx ++ [CtxBuild note; CtxBindingSig; CtxFree]
    /\ OutputDescriptionInfo_Build prover ctx note = Some od
    /\ vShieldedOutput mtx = descriptions_built prover [] ctx ++ [od]
    /\ valueBalanceSapling mtx
       = - value - (coinbase_deductions chainparams nHeight
                    - sum_vout (deduction_outputs chainparams nHeight))
    /\ orchardBundle mtx = None.

Lemma CreateCoinbaseTransaction_sapling chainparams prover nFees pa nHeight mtx tr :
  CreateCoinbaseTransaction chainparams prover nFees (MinerSapling pa) nHeight
  = (Returned mtx, tr) ->
  sapling_miner_output chainparams prover nHeight pa
    (GetBlockSubsidy chainparams nHeight - coinbase_deductions chainparams nHeight + nFees)
    mtx tr.
Proof.
  intros Hrun.
  pose proof (CreateCoinbaseTransaction_spec chainparams prover nFees (MinerSapling pa)
                nHeight) as Hspec.
  rewrite Hrun in Hspec. destruct Hspec as [[_ _ Hval Hvout _] _].
  unfold CreateCoinbaseTransaction in Hrun. cbv zeta in Hrun.
  destruct (CreateCoinbaseTransaction_body _ _ _ _ _ _) as [[res|e] wend] eqn:Hbody;
    [| discriminate].
  cbn [fst snd] in Hrun. injection Hrun as <- <-.
  revert Hbody. unfold CreateCoinbaseTransaction_body.
  rewrite bind_run. unfold modify_mtx at 1. cbn [w_mtx w_trace].
  rewrite bind_run. unfold modify_mtx at 1. cbn [w_mtx w_trace].
  rewrite bind_run.
  match goal with
  | |- context [(if ?c then modify_mtx ?f else modify_mtx ?g) ?w] =>
      replace ((if c then modify_mtx f else modify_mtx g) w)
        with (Returned tt, {| w_mtx := (if c then f else g) (w_mtx w); w_trace := [] |})
        by (by destruct c)
  end.
  rewrite bind_run. cbn [AddOutputsToCoinbaseTxAndSign].
  match goal with
  | |- context [AddOutputs_Sapling ?c ?p ?h ?f ?a ?w] => set (w0 := w)
  end.
  assert (HP0 : shielded_as_built prover w0).
  { unfold shielded_as_built. subst w0. cbn [w_trace w_mtx descriptions_built].
    destruct (NetworkUpgradeActive chainparams nHeight UPGRADE_NU5);
      unfold update_vin0; cbn; reflexivity. }
  assert (HO0 : orchardBundle (w_mtx w0) = None).
  { subst w0. cbn [w_mtx].
    destruct (NetworkUpgradeActive chainparams nHeight UPGRADE_NU5);
      unfold update_vin0; cbn; reflexivity. }
  destruct (AddOutputs_Sapling chainparams prover nHeight nFees pa w0) as [[r|e] w1]
    eqn:Hrun1; [| discriminate].
  destruct (AddOutputs_Sapling_output chainparams prover nHeight nFees pa w0 r w1
              Hrun1 HP0) as (ctx & od & Ht & Hb & Hv & Ho).
  run_builder. intros [= <- <-].
  assert (Hshield : forall f m, vShieldedOutput (update_vin0 f m) = vShieldedOutput m)
    by (intros f m; unfold update_vin0; by destruct (vin m)).
  assert (Horch : forall f m, orchardBundle (update_vin0 f m) = orchardBundle m)
    by (intros f m; unfold update_vin0; by destruct (vin m)).
  assert (Hnone : orchardBundle (update_vin0
            (fun i => {| prevout := prevout i;
                         scriptSig := Script.push_opcode (Script.push_int64 [] nHeight)
                                        Script.OP_0;
                         nSequence := nSequence i |}) (w_mtx w1)) = None).
  { by rewrite Horch, Ho. }
  exists ctx, od. split; [exact Ht |]. split; [exact Hb |].
  split; [by rewrite Hshield |]. split; [| exact Hnone].
  unfold value_out in Hval. rewrite Hnone, Hvout in Hval.
  cbn [app OrchardBundle_GetValueBalance] in Hval. lia.
Qed.

(** The value a transaction pays out of the shielded pools, as the
    value balances record it: positive when value leaves a pool, negative
    when the transaction pays into it. *)
Definition shielded_value_flowing_out (mtx : CMutableTransaction) : CAmount :=
  valueBalanceSapling mtx + OrchardBundle_GetValueBalance (orchardBundle mtx).

(** C1.  Coinbase value conservation: for every height, fee total and
    miner address variant, the coinbase transaction that
    [CreateCoinbaseTransaction] returns has transparent output values
    whose sum, minus the shielded value flowing out of the transaction
    (its Sapling and Orchard value balances, decremented by what it pays
    into the pools), equals the block subsidy plus the fees; and the
    miner's own output is worth the subsidy minus all founders' reward or
    funding stream deductions, plus the fees.  The miner's output is the
    first transparent output for a script, the first output of the
    Orchard bundle for an Orchard address, and for a Sapling address the
    last shielded output of the transaction, which is the description
    built from the note of this value to the address, with the Sapling
    value balance down by the value.  The shielded outputs of the
    transaction are the descriptions built on the proving context, in
    the order they were built. *)
Theorem C1_coinbase_conserves_value chainparams prover nFees minerAddress nHeight mtx tr :
  CreateCoinbaseTransaction chainparams prover nFees minerAddress nHeight = (Returned mtx, tr) ->
  sum_vout (vout mtx) - shielded_value_flowing_out mtx
    = GetBlockSubsidy chainparams nHeight + nFees
  /\ miner_output chainparams prover nHeight minerAddress
       (GetBlockSubsidy chainparams nHeight - coinbase_deductions chainparams nHeight + nFees)
       {| w_mtx := mtx; w_trace := tr |}
  /\ vShieldedOutput mtx = descriptions_built prover [] tr
  /\ match minerAddress with
     | MinerSapling pa =>
         sapling_miner_output chainparams prover nHeight pa
           (GetBlockSubsidy chainparams nHeight - coinbase_deductions chainparams nHeight
            + nFees) mtx tr
     | _ => True
     end.
Proof.
  intros Hrun.
  pose proof (CreateCoinbaseTransaction_spec chainparams prover nFees minerAddress nHeight) as H.
  rewrite Hrun in H. destruct H as [[_ _ Hval _ Hminer] _].
  split; [unfold value_out in Hval; unfold shielded_value_flowing_out; lia |].
  split; [exact Hminer |].
  split; [exact (CreateCoinbaseTransaction_shielded _ _ _ _ _ _ _ Hrun) |].
  destruct minerAddress as [to|pa|coinbaseScript]; [exact I | | exact I].
  exact (CreateCoinbaseTransaction_sapling _ _ _ _ _ _ _ Hrun).
Qed.

(** C1 at a sample input: a Sapling miner under Canopy, with one
    transparent and one Sapling funding stream.  The transaction has two
    shielded outputs, the funding stream's and then the miner's. *)
Lemma C1_coinbase_conserves_value_witness :
  let r := CreateCoinbaseTransaction Sample.chainparams Sample.prover 1000
             (MinerSapling 9%N) 120 in
  exists mtx, r.1 = Returned mtx
    /\ sum_vout (vout mtx) - shielded_value_flowing_out mtx = 1250000000 + 1000
    /\ vShieldedOutput mtx = [{| cmu := 1%N; od_rest := 0%N |};
                              {| cmu := 2%N; od_rest := 0%N |}]
    /\ sapling_miner_output Sample.chainparams Sample.prover 120 9%N
         (1250000000 - coinbase_deductions Sample.chainparams 120 + 1000) mtx r.2.
Proof.
  cbv zeta.
  destruct (CreateCoinbaseTransaction Sample.chainparams Sample.prover 1000
              (MinerSapling 9%N) 120) as [[mtx|e] tr] eqn:Hrun;
    [| vm_compute in Hrun; discriminate].
  exists mtx. cbn [fst snd].
  destruct (C1_coinbase_conserves_value Sample.chainparams Sample.prover 1000
              (MinerSapling 9%N) 120 mtx tr Hrun) as (Hsum & _ & Hshielded & Hminer).
  split; [reflexivity |]. split; [exact Hsum |]. split; [| exact Hminer].
  rewrite Hshielded. vm_compute in Hrun. injection Hrun as _ <-.
  vm_compute. reflexivity.
Defined.

(** Modelled from the spec: [COutPoint::IsNull] (primitives/transaction.h)
    is not among the sources; it is the spec's [prevout.is_null()], the
    test for the value [SetNull] writes. *)
Definition COutPoint_IsNull (o : COutPoint) : bool :=
  N.eqb (prevout_hash o) uint256_null && (prevout_n o =? to_uint32 (-1)).

(** C5.  For every target height, the coinbase transaction produced by
    [CreateCoinbaseTransaction] has [nExpiryHeight] equal to that height
    if NU5 is active at the height and equal to 0 otherwise; in both
    cases it has exactly one input, whose previous outpoint is null. *)
Theorem C5_coinbase_expiry_and_input chainparams prover nFees minerAddress nHeight mtx tr :
  0 <= nHeight < 2^31 ->
  CreateCoinbaseTransaction chainparams prover nFees minerAddress nHeight = (Returned mtx, tr) ->
  nExpiryHeight mtx =
    (if NetworkUpgradeActive chainparams nHeight UPGRADE_NU5 then nHeight else 0)
  /\ exists txin, vin mtx = [txin] /\ COutPoint_IsNull (prevout txin) = true.
Proof.
  intros Hh Hrun.
  pose proof (CreateCoinbaseTransaction_spec chainparams prover nFees minerAddress nHeight) as H.
  rewrite Hrun in H. destruct H as [[Hvin Hexp _ _ _] _]. split.
  - rewrite Hexp. destruct (NetworkUpgradeActive chainparams nHeight UPGRADE_NU5); [|done].
    unfold to_uint32. apply Z.mod_small. lia.
  - eexists. split; [exact Hvin | reflexivity].
Qed.

(** C5 at sample inputs: an Orchard miner at height 220, where NU5 is
    active, so the expiry height is 220. *)
Lemma C5_coinbase_expiry_and_input_witness :
  let r := CreateCoinbaseTransaction Sample.chainparams Sample.prover 1000
             (MinerOrchard 9%N) 220 in
  exists mtx, r.1 = Returned mtx
    /\ nExpiryHeight mtx = 220
    /\ exists txin, vin mtx = [txin] /\ COutPoint_IsNull (prevout txin) = true.
Proof.
  eexists. split; [vm_compute; reflexivity |].
  eapply (C5_coinbase_expiry_and_input Sample.chainparams Sample.prover 1000
            (MinerOrchard 9%N) 220).
  - lia.
  - vm_compute. reflexivity.
Defined.





(** C7.  Every execution path through each of the three coinbase-builder
    variants frees the Sapling proving context exactly once: whatever the
    proof system answers (a failed funding stream output, a failed miner
    output or Orchard bundle build, a signature hash that throws
    [std::logic_error], a failed Orchard prove-and-sign, a rejected
    binding signature, or success throughout), the context is
    initialised, then only used, then freed, and the run ends there. *)
Theorem C7_context_freed_exactly_once chainparams prover nHeight nFees minerAddress w :
  let r := AddOutputsToCoinbaseTxAndSign chainparams prover nHeight nFees minerAddress w in
  count_frees (w_trace r.2) = S (count_frees (w_trace w))
  /\ init_then_freed w r.2.
Proof.
  intros r.
  pose proof (AddOutputsToCoinbaseTxAndSign_spec chainparams prover nHeight nFees
                minerAddress w) as H.
  fold r in H. destruct r as [[[]|e] w'].
  - destruct H as [_ _ _ _ _ Ht]. split; [by apply init_then_freed_count | done].
  - split; [by apply init_then_freed_count | done].
Qed.

(** The exits of the builder, one by one, on sample inputs: each throws
    what the source throws and has freed the context once. *)
Example funding_stream_output_fails :
  exists tr,
    CreateCoinbaseTransaction Sample.chainparams (Sample.prover_with false true true true true)
      1000 Sample.miner_script 120
    = (Threw (RuntimeErrorPtr "Failed to add funding stream output."), tr)
    /\ count_frees tr = 1%nat.
Proof. eexists. split; vm_compute; reflexivity. Qed.

Example miner_output_fails :
  exists tr,
    CreateCoinbaseTransaction Sample.chainparams (Sample.prover_with false true true true true)
      1000 (MinerSapling 9%N) 20
    = (Threw (RuntimeErrorPtr "Failed to create shielded output for miner"), tr)
    /\ count_frees tr = 1%nat.
Proof. eexists. split; vm_compute; reflexivity. Qed.

Example orchard_bundle_build_fails :
  exists tr,
    CreateCoinbaseTransaction Sample.chainparams (Sample.prover_with true true false true true)
      1000 (MinerOrchard 9%N) 220
    = (Threw (RuntimeErrorPtr "Failed to create shielded output for miner"), tr)
    /\ count_frees tr = 1%nat.
Proof. eexists. split; vm_compute; reflexivity. Qed.

Example signature_hash_throws :
  exists tr,
    CreateCoinbaseTransaction Sample.chainparams (Sample.prover_with true false true true true)
      1000 (MinerSapling 9%N) 20
    = (Threw LogicError, tr)
    /\ count_frees tr = 1%nat.
Proof. eexists. split; vm_compute; reflexivity. Qed.

Example orchard_prove_and_sign_fails :
  exists tr,
    CreateCoinbaseTransaction Sample.chainparams (Sample.prover_with true true true false true)
      1000 (MinerOrchard 9%N) 220
    = (Threw (RuntimeErrorPtr "Failed to create Orchard proof or signatures"), tr)
    /\ count_frees tr = 1%nat.
Proof. eexists. split; vm_compute; reflexivity. Qed.

Example binding_signature_rejected :
  exists tr,
    CreateCoinbaseTransaction Sample.chainparams (Sample.prover_with true true true true false)
      1000 Sample.miner_script 120
    = (Threw (RuntimeErrorPtr "An error occurred computing the binding signature."), tr)
    /\ count_frees tr = 1%nat.
Proof. eexists. split; vm_compute; reflexivity. Qed.

Example builder_succeeds :
  exists mtx tr,
    CreateCoinbaseTransaction Sample.chainparams Sample.prover 1000 (MinerOrchard 9%N) 220
    = (Returned mtx, tr)
    /\ count_frees tr = 1%nat
    /\ value_out mtx = 1250000000 + 1000.
Proof. eexists _, _. split; [| split]; vm_compute; reflexivity. Qed.

(** ** The coinbase scriptSig *)

Lemma magnitude_bytes_length rounds : forall (k : nat) v,
  0 <= v < 2 ^ (8 * Z.of_nat k) ->
  (length (Script.magnitude_bytes rounds v) <= k)%nat.
Proof.
  induction rounds as [|rounds IH]; intros k v Hv; simpl; [lia |].
  destruct (Z.eqb_spec v 0) as [|Hnz]; simpl; [lia |].
  destruct k as [|k].
  - simpl in Hv. lia.
  - apply le_n_S, IH. rewrite Z.shiftr_div_pow2 by lia.
    replace (8 * Z.of_nat (S k)) with (8 + 8 * Z.of_nat k) in Hv by lia.
    rewrite Z.pow_add_r in Hv by lia. split.
    + apply Z.div_pos; lia.
    + apply Z.div_lt_upper_bound; lia.
Qed.

(** A script number below 2^32 serializes to at most five bytes: four of
    magnitude and one more when the top bit is taken. *)
Lemma CScriptNum_serialize_length v :
  0 <= v < 2^32 -> (length (Script.CScriptNum_serialize v) <= 5)%nat.
Proof.
  intros Hv. unfold Script.CScriptNum_serialize.
  destruct (Z.eqb_spec v 0); [cbn [length]; lia |].
  destruct (Z.ltb_spec v 0); [lia |].
  assert (Hu : to_uint64 v = v) by (unfold to_uint64; apply Z.mod_small; lia).
  rewrite Hu.
  assert (Hl : (length (Script.magnitude_bytes 8 v) <= 4)%nat).
  { apply magnitude_bytes_length. change (8 * Z.of_nat 4) with 32. lia. }
  destruct (negb _).
  - rewrite length_app. cbn [length]. lia.
  - lia.
Qed.

Lemma push_data_length s b :
  (length b < 76)%nat ->
  length (Script.push_data s b) = (length s + 1 + length b)%nat.
Proof.
  intros Hb. unfold Script.push_data.
  destruct (Z.ltb_spec (Z.of_nat (length b)) Script.OP_PUSHDATA1) as [|Hge].
  - rewrite !length_app. cbn [length]. lia.
  - unfold Script.OP_PUSHDATA1 in Hge. lia.
Qed.

Lemma push_int64_length s n :
  0 <= n < 2^32 -> (length (Script.push_int64 s n) <= length s + 6)%nat.
Proof.
  intros Hn. unfold Script.push_int64.
  pose proof (CScriptNum_serialize_length n Hn).
  destruct (_ || _).
  - rewrite length_app. cbn [length]. lia.
  - rewrite push_data_length by lia. lia.
Qed.

Lemma push_scriptnum_length s n :
  0 <= n < 2^32 -> (length (Script.push_scriptnum s n) <= length s + 6)%nat.
Proof.
  intros Hn. unfold Script.push_scriptnum.
  pose proof (CScriptNum_serialize_length n Hn).
  rewrite push_data_length by lia. lia.
Qed.

Lemma to_uint32_range z : 0 <= to_uint32 z < 2^32.
Proof. unfold to_uint32. apply Z.mod_pos_bound. lia. Qed.

(** The scriptSig of [IncrementExtraNonce] takes at most twelve bytes
    besides the flags. *)
Lemma extra_nonce_scriptSig_length policy nHeight nExtraNonce :
  0 <= nHeight < 2^32 -> 0 <= nExtraNonce < 2^32 ->
  (length (extra_nonce_scriptSig policy nHeight nExtraNonce)
   <= 12 + length (COINBASE_FLAGS policy))%nat.
Proof.
  intros Hh Hn. unfold extra_nonce_scriptSig. rewrite length_app.
  pose proof (push_scriptnum_length (Script.push_int64 [] nHeight) nExtraNonce Hn).
  pose proof (push_int64_length [] nHeight Hh). cbn [length] in *. lia.
Qed.

(** C8.  [CreateCoinbaseTransaction] sets the scriptSig of the coinbase
    input to the script pushing the height followed by [OP_0]; each call
    of [IncrementExtraNonce] rewrites it to the height, then the
    incremented extra nonce as a [CScriptNum], then [COINBASE_FLAGS];
    and for every height and extra nonce the rewritten scriptSig is at
    most 100 bytes, so the assertion never fails.  [COINBASE_FLAGS] is a
    global defined outside miner.cpp: the bound holds whenever the flags
    take at most 88 bytes, the height and the nonce taking at most 12. *)
Theorem C8_coinbase_scriptSig chainparams prover policy hashes :
  (length (COINBASE_FLAGS policy) <= 88)%nat ->
  (forall nFees minerAddress nHeight mtx tr,
     CreateCoinbaseTransaction chainparams prover nFees minerAddress nHeight
       = (Returned mtx, tr) ->
     exists txin, vin mtx = [txin]
       /\ scriptSig txin = Script.push_opcode (Script.push_int64 [] nHeight) Script.OP_0)
  /\ (forall pblocktemplate pindexPrev st,
        match IncrementExtraNonce chainparams policy hashes pblocktemplate pindexPrev st with
        | NonceUpdated t' st' =>
            let nHeight := to_uint32 (bi_nHeight pindexPrev + 1) in
            nExtraNonce st' =
              to_uint32 ((if N.eqb (static_hashPrevBlock st) (hashPrevBlock (block pblocktemplate))
                          then nExtraNonce st else 0) + 1)
            /\ exists txCoinbase rest in0 ins,
                 blk_vtx (block t') = txCoinbase :: rest
                 /\ vin txCoinbase = in0 :: ins
                 /\ scriptSig in0 =
                      Script.push_scriptnum (Script.push_int64 [] nHeight) (nExtraNonce st')
                        ++ COINBASE_FLAGS policy
                 /\ (length (scriptSig in0) <= 100)%nat
        | AssertionFailed => False
        | NoCoinbase =>
            match blk_vtx (block pblocktemplate) with
            | [] => True
            | txCoinbase :: _ => vin txCoinbase = []
            end
        end).
Proof.
  intros Hflags. split.
  - intros nFees minerAddress nHeight mtx tr Hrun.
    pose proof (CreateCoinbaseTransaction_spec chainparams prover nFees minerAddress nHeight) as H.
    rewrite Hrun in H. destruct H as [[Hvin _ _ _ _] _].
    eexists. split; [exact Hvin | reflexivity].
  - intros t pindexPrev st. unfold IncrementExtraNonce.
    destruct (blk_vtx (block t)) as [|txCoinbase rest]; [done |].
    destruct (vin txCoinbase) as [|in0 ins]; [done |].
    set (st1 := if negb _ then _ else st).
    assert (Hst1 : nExtraNonce st1 =
              if N.eqb (static_hashPrevBlock st) (hashPrevBlock (block t))
              then nExtraNonce st else 0).
    { subst st1. by destruct (N.eqb _ _). }
    set (nonce := to_uint32 (nExtraNonce st1 + 1)).
    set (h := to_uint32 (bi_nHeight pindexPrev + 1)).
    pose proof (extra_nonce_scriptSig_length policy h nonce
                  (to_uint32_range _) (to_uint32_range _)) as Hlen.
    destruct (Z.leb_spec (Z.of_nat (length (extra_nonce_scriptSig policy h nonce))) 100)
      as [Hle|Hgt]; cbn [negb].
    + split; [cbn [nExtraNonce]; subst nonce; by rewrite Hst1 |].
      eexists _, _, _, _. split; [reflexivity |]. split; [reflexivity |].
      split; [reflexivity |]. cbn [scriptSig nExtraNonce].
      fold (extra_nonce_scriptSig policy h nonce). lia.
    + lia.
Qed.

(** C8 at a sample input: no flags; the coinbase of height 120, and a
    first extra nonce on a template on top of height 120. *)
Lemma C8_coinbase_scriptSig_witness :
  (length (COINBASE_FLAGS Sample.policy) <= 88)%nat
  /\ (exists mtx tr txin,
        CreateCoinbaseTransaction Sample.chainparams Sample.prover 1000
          Sample.miner_script 120 = (Returned mtx, tr)
        /\ vin mtx = [txin] /\ scriptSig txin = [1; 120; 0])
  /\ (exists t' st' txCoinbase rest in0 ins,
        IncrementExtraNonce Sample.chainparams Sample.policy Sample.hashes
          Sample.template (Sample.tip 120)
          {| static_hashPrevBlock := 0%N; nExtraNonce := 7 |} = NonceUpdated t' st'
        /\ nExtraNonce st' = 1
        /\ blk_vtx (block t') = txCoinbase :: rest
        /\ vin txCoinbase = in0 :: ins
        /\ scriptSig in0 = [1; 121; 1; 1]
        /\ (length (scriptSig in0) <= 100)%nat).
Proof.
  assert (Hflags : (length (COINBASE_FLAGS Sample.policy) <= 88)%nat) by (cbn; lia).
  pose proof (C8_coinbase_scriptSig Sample.chainparams Sample.prover Sample.policy
                Sample.hashes Hflags) as [H1 H2].
  split; [exact Hflags |]. split.
  - specialize (H1 1000 Sample.miner_script 120).
    destruct (CreateCoinbaseTransaction _ _ _ _ _) as [[mtx|e] tr] eqn:E.
    + destruct (H1 mtx tr eq_refl) as (txin & Hvin & Hsig).
      exists mtx, tr, txin. split; [reflexivity |]. split; [exact Hvin |].
      rewrite Hsig. vm_compute. reflexivity.
    + vm_compute in E. discriminate.
  - specialize (H2 Sample.template (Sample.tip 120)
                  {| static_hashPrevBlock := 0%N; nExtraNonce := 7 |}).
    destruct (IncrementExtraNonce _ _ _ _ _ _) as [t' st'| |] eqn:E.
    + destruct H2 as (Hn & cb & rest & in0 & ins & Hv & Hi & Hs & Hl).
      exists t', st', cb, rest, in0, ins.
      split; [reflexivity |]. split; [rewrite Hn; vm_compute; reflexivity |].
      split; [exact Hv |]. split; [exact Hi |]. split; [| exact Hl].
      rewrite Hs, Hn. vm_compute. reflexivity.
    + destruct H2.
    + vm_compute in E. discriminate.
Defined.

(** ** The miner address *)

(** The pay-to-public-key-hash script of a key id:
    [OP_DUP OP_HASH160 <keyID> OP_EQUALVERIFY OP_CHECKSIG]. *)
Definition P2PKH_script (keyID : CKeyID) : CScript :=
  [Script.OP_DUP; Script.OP_HASH160] ++ Script.push_data [] keyID
    ++ [Script.OP_EQUALVERIFY; Script.OP_CHECKSIG].

Lemma ExtractMinerAddress_KeyID_script keyID :
  ExtractMinerAddress_KeyID keyID = Some (MinerScript {| reserveScript := P2PKH_script keyID |}).
Proof.
  unfold ExtractMinerAddress_KeyID, P2PKH_script, Script.push_opcode, Script.push_data.
  do 3 f_equal. cbn [app]. by rewrite <- !app_assoc.
Qed.

(** The script of a 20-byte key id, byte by byte. *)
Lemma P2PKH_script_bytes keyID :
  length keyID = 20%nat ->
  P2PKH_script keyID = [0x76; 0xa9; 0x14] ++ keyID ++ [0x88; 0xac].
Proof.
  intros Hl. unfold P2PKH_script, Script.push_data. rewrite Hl. reflexivity.
Qed.

(** C10.  [ExtractMinerAddress] is a total case analysis on decoded
    payment addresses: a transparent key id yields its P2PKH reserve
    script, a Sapling payment address yields itself, a Unified Address
    yields a miner address exactly when its preferred recipient at the
    height is an Orchard, Sapling or key-id recipient (and then that
    recipient's miner address), and every other input (a P2SH script id,
    a Sprout address, a Unified Address with another preferred recipient
    or none) yields no miner address. *)
Theorem C10_ExtractMinerAddress consensus height :
  (forall keyID,
     ExtractMinerAddress consensus height (PaymentKeyID keyID)
     = Some (MinerScript {| reserveScript := P2PKH_script keyID |}))
  /\ (forall pa,
        ExtractMinerAddress consensus height (PaymentSapling pa) = Some (MinerSapling pa))
  /\ (forall ua,
        ExtractMinerAddress consensus height (PaymentUnified ua) =
          match GetPreferredRecipientAddress consensus ua height with
          | Some (RecipientOrchard to) => Some (MinerOrchard to)
          | Some (RecipientSapling pa) => Some (MinerSapling pa)
          | Some (RecipientKeyID keyID) =>
              Some (MinerScript {| reserveScript := P2PKH_script keyID |})
          | Some (RecipientScriptID _) => None
          | None => None
          end)
  /\ (forall addr,
        ExtractMinerAddress consensus height addr = None <->
        match addr with
        | PaymentScriptID _ | PaymentSprout _ => True
        | PaymentUnified ua =>
            match GetPreferredRecipientAddress consensus ua height with
            | Some (RecipientScriptID _) | None => True
            | Some _ => False
            end
        | PaymentKeyID _ | PaymentSapling _ => False
        end).
Proof.
  split; [| split; [| split]].
  - intros keyID. apply ExtractMinerAddress_KeyID_script.
  - reflexivity.
  - intros ua. simpl.
    destruct (GetPreferredRecipientAddress consensus ua height) as [[k|sid|pa|to]|];
      try reflexivity.
    apply ExtractMinerAddress_KeyID_script.
  - intros [keyID|sid|sprout|pa|ua]; simpl; try (split; [discriminate | tauto]);
      try tauto.
    destruct (GetPreferredRecipientAddress consensus ua height) as [[k|sid|pa|to]|];
      try (split; [discriminate | tauto]); tauto.
Qed.

(** ** The header commitment *)

Lemma append_outputs_flat tree (outs : list OutputDescription) :
  foldl (fun tree odesc => SaplingMerkleTree_append tree (cmu odesc)) tree outs
  = tree ++ List.map cmu outs.
Proof.
  revert tree. induction outs as [|o outs IH]; intros tree; simpl.
  - by rewrite app_nil_r.
  - rewrite IH. unfold SaplingMerkleTree_append. by rewrite <- app_assoc.
Qed.

(** Updating the tree appends the commitments of all outputs of all
    transactions, in transaction order and then output order. *)
Lemma append_block_commitments_flat tree (vtx : list CTransaction) :
  append_block_commitments tree vtx
  = tree ++ flat_map (fun tx => List.map cmu (vShieldedOutput tx)) vtx.
Proof.
  unfold append_block_commitments. revert tree.
  induction vtx as [|tx vtx IH]; intros tree; simpl.
  - by rewrite app_nil_r.
  - rewrite IH, append_outputs_flat. by rewrite <- app_assoc.
Qed.

(** C4.  [CreateNewBlock] sets [hashBlockCommitments] by the first
    matching of four cases at the target height: if NU5 is active, the
    block commitments hash derived from the chain history root at the
    branch id of the previous block's epoch and the auth data Merkle
    root of the template; else, exactly at the Heartwood activation
    height, zero; else, if Heartwood is active, the chain history root;
    otherwise the root of the Sapling commitment tree after appending
    every output commitment of the template's transactions. *)
Theorem C4_hashBlockCommitments chainparams prover policy txo coins hashes args
    pindexPrev sapling_tree0 scan minerAddress next_cb_mtx pblocktemplate :
  CreateNewBlock chainparams prover policy txo coins hashes args
    pindexPrev sapling_tree0 scan minerAddress next_cb_mtx = Returned pblocktemplate ->
  let nHeight := bi_nHeight pindexPrev + 1 in
  let nu5 := NetworkUpgradeActive chainparams nHeight UPGRADE_NU5 in
  let at_heartwood := IsActivationHeight chainparams nHeight UPGRADE_HEARTWOOD in
  let heartwood := NetworkUpgradeActive chainparams nHeight UPGRADE_HEARTWOOD in
  let view :=
    view (selection_result chainparams policy txo coins args pindexPrev
            (match next_cb_mtx with Some _ => MempoolScan_empty | None => scan end)) in
  let history :=
    GetHistoryRoot coins view (CurrentEpochBranchId chainparams (bi_nHeight pindexPrev)) in
  let vtx := blk_vtx (block pblocktemplate) in
  let commitments := hashBlockCommitments (block pblocktemplate) in
  (nu5 = true ->
     commitments = DeriveBlockCommitmentsHash hashes history (BuildAuthDataMerkleTree hashes vtx))
  /\ (nu5 = false -> at_heartwood = true -> commitments = uint256_null)
  /\ (nu5 = false -> at_heartwood = false -> heartwood = true -> commitments = history)
  /\ (nu5 = false -> at_heartwood = false -> heartwood = false ->
        commitments =
          SaplingMerkleTree_root hashes
            (sapling_tree0 ++ flat_map (fun tx => List.map cmu (vShieldedOutput tx)) vtx)).
Proof.
  unfold CreateNewBlock. intros Hrun. cbv zeta.
  set (s := selection_result _ _ _ _ _ _ _) in *.
  destruct (match next_cb_mtx with
            | Some cb => Returned cb
            | None => _
            end) as [cb|e]; [| discriminate].
  destruct (negb (TestBlockValidity hashes _ pindexPrev)); [discriminate |].
  injection Hrun as <-. cbn [block hashBlockCommitments blk_vtx].
  unfold fill_commitments. rewrite append_block_commitments_flat.
  destruct (NetworkUpgradeActive chainparams (bi_nHeight pindexPrev + 1) UPGRADE_NU5),
    (IsActivationHeight chainparams (bi_nHeight pindexPrev + 1) UPGRADE_HEARTWOOD),
    (NetworkUpgradeActive chainparams (bi_nHeight pindexPrev + 1) UPGRADE_HEARTWOOD);
    cbn [fst snd]; repeat split; intros; try discriminate; reflexivity.
Qed.

(** ** Transaction selection *)

Lemma heap_front_index_bound comparer l : forall best ibest i,
  (ibest < i)%nat -> (heap_front_index comparer best ibest i l < i + length l)%nat.
Proof.
  induction l as [|x l IH]; intros best ibest i Hi; simpl; [lia |].
  destruct (comparer best x).
  - specialize (IH x i (S i)). lia.
  - specialize (IH best ibest (S i)). lia.
Qed.

(** The queue yields an entry exactly when it is not empty, and is one
    shorter afterwards. *)
Lemma pop_heap_some comparer vec :
  vec <> [] -> exists e rest, pop_heap comparer vec = Some (e, rest).
Proof.
  destruct vec as [|x rest]; [done |]. intros _. unfold pop_heap.
  pose proof (heap_front_index_bound comparer rest x 0%nat 1%nat ltac:(lia)) as Hi.
  assert (Hlt : (heap_front_index comparer x 0 1 rest < length (x :: rest))%nat)
    by (cbn [length]; lia).
  destruct (lookup_lt_is_Some_2 _ _ Hlt) as [front Hf].
  rewrite Hf. eauto.
Qed.

Lemma pop_heap_length comparer vec e rest :
  pop_heap comparer vec = Some (e, rest) -> length vec = S (length rest).
Proof.
  unfold pop_heap. destruct vec as [|x l]; [done |].
  set (i := heap_front_index comparer x 0 1 l).
  destruct ((x :: l) !! i) as [front|] eqn:Hf; [| done].
  intros [= <- <-]. apply lookup_lt_Some in Hf.
  rewrite length_app, length_take, length_drop. cbn [length] in *. lia.
Qed.

Lemma pop_heap_none comparer vec : pop_heap comparer vec = None -> vec = [].
Proof.
  intros H. destruct vec as [|x l]; [done |].
  destruct (pop_heap_some comparer (x :: l)) as (e & rest & He); [done | congruence].
Qed.

(** Orphans that still wait for a parent. *)
Definition waits (o : COrphan) : nat :=
  if decide (setDependsOn o = ∅) then 0%nat else 1%nat.

Definition waiting (orphans : list COrphan) : nat :=
  foldr (fun o n => (waits o + n)%nat) 0%nat orphans.

Lemma waiting_length orphans : (waiting orphans <= length orphans)%nat.
Proof.
  induction orphans as [|o l IH]; simpl; [lia |].
  unfold waits. destruct (decide _); lia.
Qed.

Lemma waiting_insert l : forall (i : nat) o o',
  l !! i = Some o ->
  (waiting (<[i := o']> l) + waits o = waiting l + waits o')%nat.
Proof.
  induction l as [|x l IH]; intros i o o' Hi; [done |].
  destruct i as [|i]; simpl in *.
  - injection Hi as ->. lia.
  - specialize (IH i o o' Hi). lia.
Qed.

(** Promoting an orphan moves it from the waiting ones to the queue, or
    leaves both. *)
Lemma promote_orphan_measure hash acc porphan :
  let acc' := promote_orphan hash acc porphan in
  (length acc'.2 + waiting acc'.1 <= length acc.2 + waiting acc.1)%nat.
Proof.
  unfold promote_orphan. destruct (acc.1 !! porphan) as [o|] eqn:Ho; [| simpl; lia].
  destruct (decide (setDependsOn o = ∅)) as [Hempty|Hwait]; [simpl; lia |].
  set (o' := {| ptx := ptx o; setDependsOn := _; feeRate := _; feePaid := _;
                dPriority := _ |}).
  pose proof (waiting_insert acc.1 porphan o o' Ho) as Hw.
  assert (Hwo : waits o = 1%nat) by (unfold waits; by destruct (decide _)).
  destruct (decide (setDependsOn o' = ∅)) as [Hempty'|Hwait']; cbn [fst snd].
  - assert (waits o' = 0%nat) by (unfold waits; by destruct (decide _)).
    rewrite length_app. cbn [length]. lia.
  - assert (waits o' = 1%nat) by (unfold waits; by destruct (decide _)).
    lia.
Qed.

Lemma promote_all_measure hash dependers : forall acc,
  let acc' := foldl (promote_orphan hash) acc dependers in
  (length acc'.2 + waiting acc'.1 <= length acc.2 + waiting acc.1)%nat.
Proof.
  induction dependers as [|i l IH]; intros acc; simpl; [lia |].
  specialize (IH (promote_orphan hash acc i)).
  pose proof (promote_orphan_measure hash acc i). simpl in *. lia.
Qed.

(** What bounds the number of iterations still to come. *)
Definition queue_measure (s : SelState) : nat :=
  (length (vecPriority s) + waiting (vOrphan s))%nat.

Section SelectionFacts.

Variable chainparams : CChainParams.
Variable policy : Policy.
Variable txo : TxOracle.
Variable coins : CoinsOracle.
Variable nHeight : Z.
Variable consensusBranchId : Z.
Variable nBlockMaxSize nBlockPrioritySize nBlockMinSize : Z.
Variable monitoring_pool_balances : bool.

Let select := select_tx chainparams policy txo coins nHeight consensusBranchId
                nBlockMaxSize nBlockPrioritySize nBlockMinSize monitoring_pool_balances.
Let step := selection_step chainparams policy txo coins nHeight consensusBranchId
              nBlockMaxSize nBlockPrioritySize nBlockMinSize monitoring_pool_balances.
Let loop := selection_loop chainparams policy txo coins nHeight consensusBranchId
              nBlockMaxSize nBlockPrioritySize nBlockMinSize monitoring_pool_balances.

(** The quantities of an entry the gates look at. *)
Definition entry_size (e : TxPriority) : Z :=
  to_uint32 (GetSerializeSize txo (prio_tx e)).
Definition entry_legacy_sigops (e : TxPriority) : Z :=
  to_uint32 (GetLegacySigOpCount txo (prio_tx e)).
Definition entry_p2sh_sigops (s : SelState) (e : TxPriority) : Z :=
  to_uint32 (GetP2SHSigOpCount coins (prio_tx e) (view s)).
(** [nTxSigOps] after [nTxSigOps += GetP2SHSigOpCount(tx, view)]. *)
Definition entry_sigops (s : SelState) (e : TxPriority) : Z :=
  to_uint32 (entry_legacy_sigops e + GetP2SHSigOpCount coins (prio_tx e) (view s)).
Definition entry_deltas (e : TxPriority) : float * CAmount :=
  ApplyDeltas policy (GetHash txo (prio_tx e)) 0 0.

(** Whether the turnstile is watched in this run. *)
Definition monitored : bool := ZIP209Enabled chainparams && monitoring_pool_balances.

(** The pool balances a transaction would leave. *)
Definition sprout_if_added (s : SelState) (tx : CTransaction) : CAmount :=
  sprout_after (sproutValue s) (vJoinSplit tx).
Definition sapling_if_added (s : SelState) (tx : CTransaction) : CAmount :=
  saplingValue s + - valueBalanceSapling tx.
Definition orchard_if_added (s : SelState) (tx : CTransaction) : CAmount :=
  orchardValue s + - OrchardBundle_GetValueBalance (orchardBundle tx).

(** The comparator switch of an iteration leaves everything but
    [fSortedByFee]. *)
Definition same_but_comparator (s s' : SelState) : Prop :=
  s' = s \/ s' = set_fSortedByFee true s.

(** What an iteration that ended with [Added] has checked and done. *)
Record added_step (s : SelState) (e : TxPriority) (s' : SelState) : Prop := {
  added_size_ok : to_uint64 (nBlockSize s + entry_size e) < nBlockMaxSize;
  added_legacy_ok :
    to_uint32 (nBlockSigOps s + entry_legacy_sigops e) < MAX_BLOCK_SIGOPS policy;
  added_sigops_ok : to_uint32 (nBlockSigOps s + entry_sigops s e) < MAX_BLOCK_SIGOPS policy;
  added_free_gate :
    free_tx_gate policy nBlockMinSize (fSortedByFee s) (entry_deltas e).1 (entry_deltas e).2
      (prio_feeRate e) (prio_feePaid e) (nBlockSize s) (entry_size e) = false;
  added_turnstile : monitored = true ->
    0 <= sprout_if_added s (prio_tx e) /\ 0 <= sapling_if_added s (prio_tx e)
    /\ 0 <= orchard_if_added s (prio_tx e);
  added_nBlockSize : nBlockSize s' = to_uint64 (nBlockSize s + entry_size e);
  added_nBlockSigOps : nBlockSigOps s' = to_int32 (nBlockSigOps s + entry_sigops s e);
  added_nBlockTx : nBlockTx s' = to_uint64 (nBlockTx s + 1);
  added_sprout : sproutValue s' =
    if monitored then sprout_if_added s (prio_tx e) else sproutValue s;
  added_sapling : saplingValue s' =
    if monitored then sapling_if_added s (prio_tx e) else saplingValue s;
  added_orchard : orchardValue s' =
    if monitored then orchard_if_added s (prio_tx e) else orchardValue s;
  added_vtx : vtx s' = vtx s ++ [prio_tx e];
  added_vTxSigOps : vTxSigOps s' = vTxSigOps s ++ [entry_sigops s e];
  added_vTxFees : length (vTxFees s') = S (length (vTxFees s));
  added_view : view s' = UpdateCoins (prio_tx e) (view s) nHeight;
  added_queue : (queue_measure s' <= queue_measure s)%nat
}.

(** Destructs the condition of the outermost [if] of a hypothesis that
    equates a conditional with a pair. *)
Ltac gate H E :=
  match type of H with
  | (if ?c then _ else _) = _ => destruct c eqn:E
  end.

Lemma select_tx_cases s e v s' :
  select s e = (v, s') ->
  match v with
  | Added => added_step s e s'
  | _ => same_but_comparator s s'
  end.
Proof.
  subst select. unfold select_tx. cbv zeta.
  fold (entry_size e). fold (entry_legacy_sigops e). fold (entry_deltas e). fold monitored.
  intros H.
  gate H Hsize. { injection H as <- <-. by left. }
  gate H Hlegacy. { injection H as <- <-. by left. }
  gate H Hfree. { injection H as <- <-. by left. }
  set (sw := negb (fSortedByFee s) && _) in H.
  set (s1 := if sw then set_fSortedByFee true s else s) in H.
  assert (Hs1 : same_but_comparator s s1) by (subst s1; destruct sw; [by right | by left]).
  assert (Hview : view s1 = view s) by (by destruct Hs1 as [-> | ->]).
  assert (Hsz : nBlockSize s1 = nBlockSize s) by (by destruct Hs1 as [-> | ->]).
  assert (Hso : nBlockSigOps s1 = nBlockSigOps s) by (by destruct Hs1 as [-> | ->]).
  assert (Htx : nBlockTx s1 = nBlockTx s) by (by destruct Hs1 as [-> | ->]).
  assert (Hsp : sproutValue s1 = sproutValue s) by (by destruct Hs1 as [-> | ->]).
  assert (Hsa : saplingValue s1 = saplingValue s) by (by destruct Hs1 as [-> | ->]).
  assert (Hor : orchardValue s1 = orchardValue s) by (by destruct Hs1 as [-> | ->]).
  assert (Hvt : vtx s1 = vtx s) by (by destruct Hs1 as [-> | ->]).
  assert (Hvs : vTxSigOps s1 = vTxSigOps s) by (by destruct Hs1 as [-> | ->]).
  assert (Hvf : vTxFees s1 = vTxFees s) by (by destruct Hs1 as [-> | ->]).
  assert (Hvp : vecPriority s1 = vecPriority s) by (by destruct Hs1 as [-> | ->]).
  assert (Hvo : vOrphan s1 = vOrphan s) by (by destruct Hs1 as [-> | ->]).
  clearbody s1. clear sw.
  gate H Hinputs. { injection H as <- <-. exact Hs1. }
  gate H Hp2sh. { injection H as <- <-. exact Hs1. }
  gate H Hctx. { injection H as <- <-. exact Hs1. }
  gate H Hsprout. { injection H as <- <-. exact Hs1. }
  gate H Hsapling. { injection H as <- <-. exact Hs1. }
  gate H Horchard. { injection H as <- <-. exact Hs1. }
  injection H as <- <-.
  rewrite Hview, Hsz, Hso in *.
  split; cbn [nBlockSize nBlockSigOps nBlockTx sproutValue saplingValue orchardValue
              vtx vTxSigOps vTxFees view].
  - apply Z.leb_gt in Hsize. exact Hsize.
  - apply Z.leb_gt in Hlegacy. exact Hlegacy.
  - apply Z.leb_gt in Hp2sh. exact Hp2sh.
  - exact Hfree.
  - intros Hm. rewrite Hm in *. cbn [andb] in *.
    apply Z.ltb_ge in Hsprout, Hsapling, Horchard.
    unfold sprout_if_added, sapling_if_added, orchard_if_added.
    rewrite Hsp, Hsa, Hor in *. done.
  - done.
  - done.
  - by rewrite Htx.
  - by rewrite Hsp.
  - by rewrite Hsa.
  - by rewrite Hor.
  - by rewrite Hvt.
  - by rewrite Hvs.
  - rewrite length_app, Hvf. simpl. lia.
  - done.
  - unfold queue_measure. cbn [vecPriority vOrphan]. rewrite <- Hvp, <- Hvo.
    destruct (mapDependers s1 !! GetHash txo (prio_tx e)) as [dependers|]; [| done].
    apply (promote_all_measure _ dependers (vOrphan s1, vecPriority s1)).
Qed.

(** A skipped transaction leaves the counters, the pool balances, the
    view, the queue and the template as they were. *)
Lemma same_but_comparator_fields s s' :
  same_but_comparator s s' ->
  nBlockSize s' = nBlockSize s /\ nBlockSigOps s' = nBlockSigOps s
  /\ nBlockTx s' = nBlockTx s /\ nFees s' = nFees s
  /\ sproutValue s' = sproutValue s /\ saplingValue s' = saplingValue s
  /\ orchardValue s' = orchardValue s
  /\ vtx s' = vtx s /\ vTxFees s' = vTxFees s /\ vTxSigOps s' = vTxSigOps s
  /\ view s' = view s /\ vecPriority s' = vecPriority s /\ vOrphan s' = vOrphan s.
Proof. by intros [-> | ->]. Qed.

(** The free-transaction gate decides an iteration exactly when the two
    gates before it let the entry pass and its condition holds. *)
Lemma select_tx_skip_free s e :
  (select s e).1 = SkipFree <->
  to_uint64 (nBlockSize s + entry_size e) < nBlockMaxSize
  /\ to_uint32 (nBlockSigOps s + entry_legacy_sigops e) < MAX_BLOCK_SIGOPS policy
  /\ free_tx_gate policy nBlockMinSize (fSortedByFee s) (entry_deltas e).1 (entry_deltas e).2
       (prio_feeRate e) (prio_feePaid e) (nBlockSize s) (entry_size e) = true.
Proof.
  subst select. unfold select_tx. cbv zeta.
  fold (entry_size e). fold (entry_legacy_sigops e). fold (entry_deltas e).
  destruct (Z.leb_spec nBlockMaxSize (to_uint64 (nBlockSize s + entry_size e))).
  { cbn [fst]. split; [discriminate | lia]. }
  destruct (Z.leb_spec (MAX_BLOCK_SIGOPS policy)
              (to_uint32 (nBlockSigOps s + entry_legacy_sigops e))).
  { cbn [fst]. split; [discriminate | lia]. }
  destruct (free_tx_gate _ _ _ _ _ _ _ _ _) eqn:Hgate.
  { cbn [fst]. done. }
  split; [| intros (_ & _ & ?); discriminate].
  repeat match goal with
         | |- context [if ?c then (?v, ?x) else _] => destruct c
         end; cbn [fst]; discriminate.
Qed.

(** The condition of the gate, spelled out. *)
Lemma free_tx_gate_true byFee dPriorityDelta nFeeDelta feeRate feePaid nBlockSize nTxSize :
  free_tx_gate policy nBlockMinSize byFee dPriorityDelta nFeeDelta feeRate feePaid
    nBlockSize nTxSize = true <->
  byFee = true
  /\ PrimFloat.leb dPriorityDelta 0 = true
  /\ nFeeDelta <= 0
  /\ feeRate < minRelayTxFee policy
  /\ feePaid < DEFAULT_FEE policy
  /\ nBlockMinSize <= to_uint64 (nBlockSize + nTxSize).
Proof.
  unfold free_tx_gate. rewrite !andb_true_iff.
  rewrite !Z.leb_le, !Z.ltb_lt. tauto.
Qed.

(** Every state the loop passes through satisfies what the start state
    satisfies and every iteration keeps. *)
Lemma selection_loop_invariant (P : SelState -> Prop) :
  (forall s v s', P s -> step s = Some (v, s') -> P s') ->
  forall fuel s, P s -> P (loop fuel s).
Proof.
  intros Hstep. induction fuel as [|fuel IH]; intros s Hs; [done |].
  subst loop. cbn [selection_loop]. fold step.
  destruct (step s) as [[v s']|] eqn:E; [| done].
  apply IH. eapply Hstep; eauto.
Qed.

(** An iteration, seen from the state it starts in. *)
Lemma selection_step_cases s v s' :
  step s = Some (v, s') ->
  exists e rest,
    pop_heap (TxPriorityCompare (fSortedByFee s)) (vecPriority s) = Some (e, rest)
    /\ select (set_vecPriority rest s) e = (v, s').
Proof.
  subst step. unfold selection_step.
  destruct (pop_heap _ _) as [[e rest]|]; [| done].
  intros [= H]. eauto.
Qed.

(** Every iteration takes one entry off the queue and brings back at
    most the orphans it promotes. *)
Lemma selection_step_measure s v s' :
  step s = Some (v, s') -> (queue_measure s' < queue_measure s)%nat.
Proof.
  intros Hs. destruct (selection_step_cases s v s' Hs) as (e & rest & Hpop & Hsel).
  apply pop_heap_length in Hpop.
  pose proof (select_tx_cases _ _ _ _ Hsel) as Hc.
  assert (Hrest : queue_measure (set_vecPriority rest s) = (length rest + waiting (vOrphan s))%nat)
    by done.
  assert (Hle : (queue_measure s' <= queue_measure (set_vecPriority rest s))%nat).
  { destruct v; try (destruct (same_but_comparator_fields _ _ Hc)
                       as (_ & _ & _ & _ & _ & _ & _ & _ & _ & _ & _ & Hq & Ho);
                     unfold queue_measure; rewrite Hq, Ho; done).
    apply Hc. }
  unfold queue_measure in *. cbn [vecPriority vOrphan] in *. lia.
Qed.

(** The loop ends: with fuel for every entry and every waiting orphan
    the queue is empty when it stops. *)
Lemma selection_loop_drains fuel : forall s,
  (queue_measure s <= fuel)%nat -> vecPriority (loop fuel s) = [].
Proof.
  induction fuel as [|fuel IH]; intros s Hs.
  - unfold queue_measure in Hs. destruct (vecPriority s) eqn:E; [done | simpl in Hs; lia].
  - subst loop. cbn [selection_loop]. fold step.
    destruct (step s) as [[v s']|] eqn:E.
    + apply IH. pose proof (selection_step_measure s v s' E). lia.
    + subst step. unfold selection_step in E.
      destruct (pop_heap _ _) as [[e rest]|] eqn:Hpop; [done |].
      by apply pop_heap_none in Hpop.
Qed.

Lemma queue_measure_fuel s : (queue_measure s <= selection_fuel s)%nat.
Proof.
  unfold queue_measure, selection_fuel. pose proof (waiting_length (vOrphan s)). lia.
Qed.

Lemma sprout_after_sum js : forall v,
  sprout_after v js
  = v + foldr (fun j acc => vpub_old j + acc) 0 js
      - foldr (fun j acc => vpub_new j + acc) 0 js.
Proof.
  unfold sprout_after. induction js as [|j js IH]; intros v; simpl; [lia |].
  rewrite IH. lia.
Qed.

(** Sum of a list of integers. *)
Definition Z_sum (l : list Z) : Z := foldr Z.add 0 l.

Lemma Z_sum_app a b : Z_sum (a ++ b) = Z_sum a + Z_sum b.
Proof. unfold Z_sum. induction a as [|x a IH]; simpl; [done | rewrite IH; lia]. Qed.

(** [nTxSize] of a transaction, as the loop reads it. *)
Definition tx_size (tx : CTransaction) : Z := to_uint32 (GetSerializeSize txo tx).

(** The running counters agree with the template: the block size is the
    coinbase reserve plus the sizes of the transactions after the dummy
    coinbase, the sigops are the reserve plus the recorded counts, and
    neither exceeds its ceiling. *)
Record counted (s : SelState) : Prop := {
  counted_size : 1000 <= nBlockSize s <= nBlockMaxSize;
  counted_sigops : 0 <= nBlockSigOps s <= MAX_BLOCK_SIGOPS policy;
  counted_vtx : exists accepted,
    vtx s = CTransaction_default :: accepted
    /\ nBlockSize s = 1000 + Z_sum (List.map tx_size accepted);
  counted_vTxSigOps : exists sigops,
    vTxSigOps s = -1 :: sigops
    /\ (Forall (fun n => n < 2^31) sigops -> nBlockSigOps s = 100 + Z_sum sigops);
  counted_lengths : length (vTxSigOps s) = length (vtx s)
}.

Lemma to_int32_of_uint32 z : to_uint32 z < 2^31 -> to_int32 z = to_uint32 z.
Proof.
  intros Hz. unfold to_int32. destruct (Z.ltb_spec (to_uint32 z) (2^31)); lia.
Qed.

Lemma counted_step s v s' :
  nBlockMaxSize < 2^32 -> MAX_BLOCK_SIGOPS policy <= 2^31 ->
  counted s -> step s = Some (v, s') -> counted s'.
Proof.
  intros Hmax Hsig [Hsize Hops (accepted & Hvtx & Hsum) (sigops & Hvs & Hopsum) Hlen] Hs.
  destruct (selection_step_cases s v s' Hs) as (e & rest & _ & Hsel).
  pose proof (select_tx_cases _ _ _ _ Hsel) as Hc.
  assert (Hskip : same_but_comparator (set_vecPriority rest s) s' -> counted s').
  { intros Hsame.
    destruct (same_but_comparator_fields _ _ Hsame)
      as (E1 & E2 & _ & _ & _ & _ & _ & E3 & _ & E4 & _).
    cbn in E1, E2, E3, E4.
    split; rewrite ?E1, ?E2, ?E3, ?E4; eauto. }
  destruct v; try (by apply Hskip).
  destruct Hc as [Hok _ Hsok _ _ Hsz Hso _ _ _ _ Hv Hvso _ _ _].
  cbn [nBlockSize nBlockSigOps vtx vTxSigOps set_vecPriority] in *.
  assert (Hrange : 0 <= entry_size e < 2^32) by apply to_uint32_range.
  assert (Hnowrap : to_uint64 (nBlockSize s + entry_size e) = nBlockSize s + entry_size e).
  { unfold to_uint64. apply Z.mod_small. lia. }
  set (n := entry_sigops (set_vecPriority rest s) e) in *.
  assert (Hn : 0 <= n < 2^32) by apply to_uint32_range.
  pose proof (to_uint32_range (nBlockSigOps s + n)) as Hsrange.
  rewrite Hnowrap in *.
  split.
  - lia.
  - rewrite Hso, to_int32_of_uint32 by lia. lia.
  - exists (accepted ++ [prio_tx e]). rewrite Hv, Hvtx. split; [done |].
    rewrite Hsz, Hsum, map_app, Z_sum_app.
    change (Z_sum (List.map tx_size [prio_tx e])) with (entry_size e + 0). lia.
  - exists (sigops ++ [n]).
    rewrite Hvso, Hvs. split; [done |].
    intros Hall. apply Forall_app in Hall as [Hall Hlast].
    apply Forall_cons in Hlast as [Hlast _].
    rewrite Hso, Z_sum_app. change (Z_sum [n]) with (n + 0).
    pose proof (Hopsum Hall) as Hsm.
    assert (Heq : to_uint32 (nBlockSigOps s + n) = nBlockSigOps s + n).
    { unfold to_uint32 at 1. apply Z.mod_small. lia. }
    rewrite to_int32_of_uint32 by lia. rewrite Heq. lia.
  - rewrite Hvso, Hv, !length_app, Hlen. done.
Qed.

(** The three pool balances are not negative. *)
Definition pools_nonneg (s : SelState) : Prop :=
  0 <= sproutValue s /\ 0 <= saplingValue s /\ 0 <= orchardValue s.

Definition pools (s : SelState) : CAmount * CAmount * CAmount :=
  (sproutValue s, saplingValue s, orchardValue s).

(** Under a watched turnstile, an accepted transaction leaves balances
    that are not negative, and a skipped one leaves them as they were. *)
Lemma pools_select s e v s' :
  monitored = true -> select s e = (v, s') ->
  (v = Added -> pools_nonneg s'
                /\ pools s' = (sprout_if_added s (prio_tx e), sapling_if_added s (prio_tx e),
                               orchard_if_added s (prio_tx e)))
  /\ (v <> Added -> pools s' = pools s).
Proof.
  intros Hm Hsel. pose proof (select_tx_cases _ _ _ _ Hsel) as Hc.
  assert (Hskip : same_but_comparator s s' -> pools s' = pools s).
  { intros Hsame.
    destruct (same_but_comparator_fields _ _ Hsame)
      as (_ & _ & _ & _ & E1 & E2 & E3 & _). unfold pools. by rewrite E1, E2, E3. }
  destruct v; (split; [intros [=] | intros Hne]); try (by apply Hskip); try done.
  destruct Hc as [_ _ _ _ Hturn _ _ _ Hsp Hsa Hor _ _ _ _ _].
  rewrite Hm in Hsp, Hsa, Hor. unfold pools_nonneg, pools.
  rewrite Hsp, Hsa, Hor. split; [by apply Hturn | done].
Qed.

Lemma pools_step (init : CAmount * CAmount * CAmount) s v s' :
  monitored = true ->
  pools s = init \/ pools_nonneg s -> step s = Some (v, s') ->
  pools s' = init \/ pools_nonneg s'.
Proof.
  intros Hm Hs Hstep.
  destruct (selection_step_cases s v s' Hstep) as (e & rest & _ & Hsel).
  destruct (pools_select _ _ _ _ Hm Hsel) as [Hadd Hskip].
  destruct (decide (v = Added)) as [->|Hne].
  - right. by apply Hadd.
  - specialize (Hskip Hne). change (pools (set_vecPriority rest s)) with (pools s) in Hskip.
    destruct Hs as [Hs|Hs]; [left; congruence |].
    right. unfold pools_nonneg, pools in *. by injection Hskip as -> -> ->.
Qed.

End SelectionFacts.

(** ** The selection loop at the parameters [CreateNewBlock] runs it with *)

Definition block_select_tx (chainparams : CChainParams) (policy : Policy) (txo : TxOracle)
    (coins : CoinsOracle) (args : Args) (pindexPrev : CBlockIndex)
    : SelState -> TxPriority -> Verdict * SelState :=
  select_tx chainparams policy txo coins (bi_nHeight pindexPrev + 1)
    (CurrentEpochBranchId chainparams (bi_nHeight pindexPrev + 1))
    (get_nBlockMaxSize policy args) (get_nBlockPrioritySize policy args)
    (get_nBlockMinSize policy args) (get_monitoring_pool_balances chainparams pindexPrev).

Definition block_selection_loop (chainparams : CChainParams) (policy : Policy)
    (txo : TxOracle) (coins : CoinsOracle) (args : Args) (pindexPrev : CBlockIndex)
    : nat -> SelState -> SelState :=
  selection_loop chainparams policy txo coins (bi_nHeight pindexPrev + 1)
    (CurrentEpochBranchId chainparams (bi_nHeight pindexPrev + 1))
    (get_nBlockMaxSize policy args) (get_nBlockPrioritySize policy args)
    (get_nBlockMinSize policy args) (get_monitoring_pool_balances chainparams pindexPrev).

Lemma get_nBlockMaxSize_range policy args : 1000 <= get_nBlockMaxSize policy args < 2^32.
Proof.
  unfold get_nBlockMaxSize.
  pose proof (to_uint32_range (arg_blockmaxsize args)).
  pose proof (to_uint32_range (MAX_BLOCK_SIZE policy - 1000)). lia.
Qed.

(** The loop of [CreateNewBlock] has ended when [selection_result] is
    taken: the queue is empty. *)
Lemma selection_result_drained chainparams policy txo coins args pindexPrev scan :
  vecPriority (selection_result chainparams policy txo coins args pindexPrev scan) = [].
Proof.
  unfold selection_result. apply selection_loop_drains, queue_measure_fuel.
Qed.

Lemma counted_start chainparams policy args txo pindexPrev scan :
  100 <= MAX_BLOCK_SIGOPS policy ->
  counted policy txo (get_nBlockMaxSize policy args)
    (selection_start chainparams policy args pindexPrev scan).
Proof.
  intros Hsig. pose proof (get_nBlockMaxSize_range policy args).
  split; cbn; try lia.
  - by exists [].
  - by exists [].
Qed.


Lemma counted_reachable chainparams policy txo coins args pindexPrev scan fuel :
  100 <= MAX_BLOCK_SIGOPS policy <= 2^31 ->
  counted policy txo (get_nBlockMaxSize policy args)
    (block_selection_loop chainparams policy txo coins args pindexPrev fuel
       (selection_start chainparams policy args pindexPrev scan)).
Proof.
  intros Hsig. pose proof (get_nBlockMaxSize_range policy args).
  unfold block_selection_loop.
  apply selection_loop_invariant; [| apply counted_start; lia].
  intros s v s' Hs Hstep. eapply counted_step; eauto; lia.
Qed.

(** The template [CreateNewBlock] returns holds the coinbase followed by
    the accepted transactions, with their sigop counts beside them, and
    stays within both ceilings. *)
Lemma CreateNewBlock_capacity chainparams prover policy txo coins hashes args
    pindexPrev sapling_tree0 scan minerAddress next_cb_mtx t :
  100 <= MAX_BLOCK_SIGOPS policy <= 2^31 ->
  CreateNewBlock chainparams prover policy txo coins hashes args
    pindexPrev sapling_tree0 scan minerAddress next_cb_mtx = Returned t ->
  exists coinbase accepted coinbase_sigops sigops,
    blk_vtx (block t) = coinbase :: accepted
    /\ tmpl_vTxSigOps t = coinbase_sigops :: sigops
    /\ length sigops = length accepted
    /\ 1000 + Z_sum (List.map (tx_size txo) accepted) <= get_nBlockMaxSize policy args
    /\ (Forall (fun n => n < 2^31) sigops ->
          100 + Z_sum sigops <= MAX_BLOCK_SIGOPS policy).
Proof.
  intros Hsig. unfold CreateNewBlock. cbv zeta.
  set (scan' := match next_cb_mtx with Some _ => MempoolScan_empty | None => scan end).
  pose proof (counted_reachable chainparams policy txo coins args pindexPrev scan'
                (selection_fuel (selection_start chainparams policy args pindexPrev scan'))
                Hsig) as Hc.
  change (block_selection_loop _ _ _ _ _ _ _ _)
    with (selection_result chainparams policy txo coins args pindexPrev scan') in Hc.
  set (s := selection_result _ _ _ _ _ _ _) in *.
  destruct Hc as [Hsize Hops (accepted & Hvtx & Hsum) (sigops & Hvs & Hopsum) Hlen].
  destruct (match next_cb_mtx with
            | Some cb => Returned cb
            | None => _
            end) as [cb|e]; [| discriminate].
  destruct (negb (TestBlockValidity hashes _ pindexPrev)); [discriminate |].
  intros [= <-]. cbn [block blk_vtx tmpl_vTxSigOps].
  rewrite Hvtx, Hvs. cbn [insert list_insert].
  eexists _, _, _, _. split; [reflexivity |]. split; [reflexivity |].
  rewrite Hvtx, Hvs in Hlen. cbn [length] in Hlen.
  split; [lia |]. split; [lia |].
  intros Hall. specialize (Hopsum Hall). lia.
Qed.

Lemma to_uint32_add_idemp a b : to_uint32 (a + to_uint32 b) = to_uint32 (a + b).
Proof. unfold to_uint32. apply Zplus_mod_idemp_r. Qed.

(** C2.  Selection starts its running counters at block size 1000 and
    sigops 100; in every state the loop passes through, the counted
    block size is at most [nBlockMaxSize] and the counted sigops at most
    [MAX_BLOCK_SIGOPS], and they are the reserve plus what the template
    records for the accepted transactions; an entry is skipped whenever
    the running size plus its size reaches [nBlockMaxSize], or the
    running sigops plus its legacy sigops reach [MAX_BLOCK_SIGOPS], or
    the running sigops plus its legacy and P2SH sigops do; the loop
    ends with an empty queue; and every template [CreateNewBlock]
    returns holds the accepted transactions within both ceilings.
    [MAX_BLOCK_SIGOPS] is a constant defined
    outside miner.cpp, taken between the reserve of 100 and 2^31; the
    sums of the skip rule are the mathematical ones for transactions
    whose sigop counts fit a signed 32-bit integer. *)
Theorem C2_selection_capacity chainparams prover policy txo coins hashes args
    pindexPrev scan :
  100 <= MAX_BLOCK_SIGOPS policy <= 2^31 ->
  let nBlockMaxSize := get_nBlockMaxSize policy args in
  let s0 := selection_start chainparams policy args pindexPrev scan in
  (nBlockSize s0 = 1000 /\ nBlockSigOps s0 = 100)
  /\ (forall fuel,
        let s := block_selection_loop chainparams policy txo coins args pindexPrev fuel s0 in
        nBlockSize s <= nBlockMaxSize
        /\ nBlockSigOps s <= MAX_BLOCK_SIGOPS policy
        /\ (exists accepted,
              vtx s = CTransaction_default :: accepted
              /\ nBlockSize s = 1000 + Z_sum (List.map (tx_size txo) accepted))
        /\ (exists sigops,
              vTxSigOps s = -1 :: sigops
              /\ (Forall (fun n => n < 2^31) sigops -> nBlockSigOps s = 100 + Z_sum sigops))
        /\ (forall e,
              entry_legacy_sigops txo e + entry_p2sh_sigops coins s e < 2^31 ->
              nBlockMaxSize <= nBlockSize s + entry_size txo e
              \/ MAX_BLOCK_SIGOPS policy <= nBlockSigOps s + entry_legacy_sigops txo e
              \/ MAX_BLOCK_SIGOPS policy
                 <= nBlockSigOps s + entry_legacy_sigops txo e + entry_p2sh_sigops coins s e ->
              exists v s',
                block_select_tx chainparams policy txo coins args pindexPrev s e = (v, s')
                /\ v <> Added /\ same_but_comparator s s'))
  /\ vecPriority (selection_result chainparams policy txo coins args pindexPrev scan) = []
  /\ (forall sapling_tree0 minerAddress next_cb_mtx t,
        CreateNewBlock chainparams prover policy txo coins hashes args
          pindexPrev sapling_tree0 scan minerAddress next_cb_mtx = Returned t ->
        exists coinbase accepted coinbase_sigops sigops,
          blk_vtx (block t) = coinbase :: accepted
          /\ tmpl_vTxSigOps t = coinbase_sigops :: sigops
          /\ length sigops = length accepted
          /\ 1000 + Z_sum (List.map (tx_size txo) accepted) <= nBlockMaxSize
          /\ (Forall (fun n => n < 2^31) sigops ->
                100 + Z_sum sigops <= MAX_BLOCK_SIGOPS policy)).
Proof.
  intros Hsig nBlockMaxSize s0.
  split; [done |].
  split; [| split; [apply selection_result_drained |
                    intros; eapply CreateNewBlock_capacity; eauto]].
  intros fuel s.
  pose proof (counted_reachable chainparams policy txo coins args pindexPrev scan fuel Hsig)
    as [Hsize Hops Hvtx Hvs].
  fold s0 in Hsize, Hops, Hvtx, Hvs. fold s in Hsize, Hops, Hvtx, Hvs.
  fold nBlockMaxSize in Hsize.
  pose proof (get_nBlockMaxSize_range policy args) as Hmax. fold nBlockMaxSize in Hmax.
  split; [lia |]. split; [lia |]. split; [exact Hvtx |]. split; [exact Hvs |].
  intros e Hfit Hcond.
  destruct (block_select_tx chainparams policy txo coins args pindexPrev s e) as [v s'] eqn:Hsel.
  exists v, s'. split; [done |].
  pose proof (select_tx_cases _ _ _ _ _ _ _ _ _ _ _ _ _ _ Hsel) as Hc.
  assert (Hsz : 0 <= entry_size txo e < 2^32) by apply to_uint32_range.
  assert (Hlg : 0 <= entry_legacy_sigops txo e < 2^32) by apply to_uint32_range.
  assert (Hp2 : 0 <= entry_p2sh_sigops coins s e < 2^32) by apply to_uint32_range.
  destruct v; try (split; [discriminate | exact Hc]).
  exfalso. destruct Hc as [Hok Hlok Hsok _ _ _ _ _ _ _ _ _ _ _ _ _].
  fold nBlockMaxSize in Hok.
  unfold to_uint64 in Hok. rewrite Z.mod_small in Hok by lia.
  assert (Hes : entry_sigops txo coins s e
                = entry_legacy_sigops txo e + entry_p2sh_sigops coins s e).
  { unfold entry_sigops. rewrite <- to_uint32_add_idemp.
    fold (entry_p2sh_sigops coins s e). unfold to_uint32 at 1. apply Z.mod_small. lia. }
  rewrite Hes in Hsok.
  unfold to_uint32 in Hlok, Hsok. rewrite Z.mod_small in Hlok, Hsok by lia.
  lia.
Qed.

(** C2 at a sample input: on top of height 120 the loop accepts
    transaction 1 (300 bytes, 5 legacy and 1 P2SH sigops) and nothing
    else, and skips transaction 2 for its 19990 sigops. *)
Lemma C2_selection_capacity_witness :
  let s0 := selection_start Sample.chainparams Sample.policy Sample.args
              (Sample.tip 120) Sample.scan in
  let s := selection_result Sample.chainparams Sample.policy Sample.txo Sample.coins
             Sample.args (Sample.tip 120) Sample.scan in
  100 <= MAX_BLOCK_SIGOPS Sample.policy <= 2^31
  /\ nBlockSize s = 1300 /\ nBlockSize s <= get_nBlockMaxSize Sample.policy Sample.args
  /\ nBlockSigOps s = 106 /\ nBlockSigOps s <= MAX_BLOCK_SIGOPS Sample.policy
  /\ vecPriority s = []
  /\ (block_select_tx Sample.chainparams Sample.policy Sample.txo Sample.coins Sample.args
        (Sample.tip 120) s0 (Sample.mk_entry (Sample.mk_tx 2 400 19990 0) 5000 2000)).1
     <> Added.
Proof.
  intros s0 s.
  assert (Hsig : 100 <= MAX_BLOCK_SIGOPS Sample.policy <= 2^31) by (cbn; lia).
  pose proof (C2_selection_capacity Sample.chainparams Sample.prover Sample.policy
                Sample.txo Sample.coins Sample.hashes Sample.args (Sample.tip 120)
                Sample.scan Hsig) as (Hinit & Hloop & Hdrain & Htemplate).
  split; [exact Hsig |].
  destruct (Hloop (selection_fuel s0)) as (Hsize & Hops & _ & _ & _).
  split; [vm_compute; reflexivity |]. split; [exact Hsize |].
  split; [vm_compute; reflexivity |]. split; [exact Hops |].
  split; [exact Hdrain |].
  destruct (Hloop 0%nat) as (_ & _ & _ & _ & Hskip).
  destruct (Hskip (Sample.mk_entry (Sample.mk_tx 2 400 19990 0) 5000 2000))
    as (v & s' & Hsel & Hv & _).
  - vm_compute. reflexivity.
  - right. left. vm_compute. discriminate.
  - cbn [block_selection_loop selection_loop] in Hsel. fold s0 in Hsel.
    rewrite Hsel. exact Hv.
Defined.

(** C3.  When ZIP209 is enabled and the previous tip carries all three
    pool totals, selection starts from these totals and keeps running
    Sprout, Sapling and Orchard balances: an accepted transaction moves
    them by [+ sum vpub_old - sum vpub_new], [- valueBalanceSapling] and
    [- the Orchard value balance], and leaves none of them negative; a
    transaction that would make any of them negative is skipped; a
    skipped transaction leaves all three unchanged; so in every state
    the loop passes through the balances are the tip's or not negative,
    and with a tip whose totals are not negative they never are. *)
Theorem C3_turnstile chainparams policy txo coins args pindexPrev scan a b c :
  ZIP209Enabled chainparams = true ->
  nChainSproutValue pindexPrev = Some a ->
  nChainSaplingValue pindexPrev = Some b ->
  nChainOrchardValue pindexPrev = Some c ->
  let s0 := selection_start chainparams policy args pindexPrev scan in
  let loop := block_selection_loop chainparams policy txo coins args pindexPrev in
  pools s0 = (a, b, c)
  /\ (forall s e v s',
        block_select_tx chainparams policy txo coins args pindexPrev s e = (v, s') ->
        let tx := prio_tx e in
        let sprout' := sproutValue s + foldr (fun j acc => vpub_old j + acc) 0 (vJoinSplit tx)
                       - foldr (fun j acc => vpub_new j + acc) 0 (vJoinSplit tx) in
        let sapling' := saplingValue s - valueBalanceSapling tx in
        let orchard' := orchardValue s - OrchardBundle_GetValueBalance (orchardBundle tx) in
        (v = Added ->
           pools s' = (sprout', sapling', orchard')
           /\ 0 <= sprout' /\ 0 <= sapling' /\ 0 <= orchard')
        /\ (sprout' < 0 \/ sapling' < 0 \/ orchard' < 0 -> v <> Added)
        /\ (v <> Added -> pools s' = pools s))
  /\ (forall fuel, pools (loop fuel s0) = (a, b, c) \/ pools_nonneg (loop fuel s0))
  /\ (0 <= a -> 0 <= b -> 0 <= c -> forall fuel, pools_nonneg (loop fuel s0)).
Proof.
  intros Hzip Ha Hb Hc s0 loop.
  assert (Hmon : monitored chainparams (get_monitoring_pool_balances chainparams pindexPrev)
                 = true).
  { unfold monitored, get_monitoring_pool_balances. by rewrite Hzip, Ha, Hb, Hc. }
  assert (Hstart : pools s0 = (a, b, c)).
  { unfold pools, s0, selection_start, initial_pool_value. cbn.
    by rewrite Hzip, Ha, Hb, Hc. }
  assert (Hinv : forall fuel, pools (loop fuel s0) = (a, b, c) \/ pools_nonneg (loop fuel s0)).
  { intros fuel. unfold loop, block_selection_loop.
    apply (selection_loop_invariant _ _ _ _ _ _ _ _ _ _
             (fun s => pools s = (a, b, c) \/ pools_nonneg s)); [| by left].
    intros s v s' Hs Hstep. eapply pools_step; eauto. }
  split; [exact Hstart |]. split; [| split; [exact Hinv |]].
  - intros s e v s' Hsel tx sprout' sapling' orchard'.
    destruct (pools_select _ _ _ _ _ _ _ _ _ _ _ _ _ _ Hmon Hsel) as [Hadd Hskip].
    assert (E1 : sprout_if_added s tx = sprout')
      by (unfold sprout_if_added; apply sprout_after_sum).
    assert (E2 : sapling_if_added s tx = sapling') by (unfold sapling_if_added; subst sapling'; lia).
    assert (E3 : orchard_if_added s tx = orchard') by (unfold orchard_if_added; subst orchard'; lia).
    fold tx in Hadd. rewrite E1, E2, E3 in Hadd.
    split; [| split; [| exact Hskip]].
    + intros Hv. destruct (Hadd Hv) as [Hnn Hp]. split; [exact Hp |].
      unfold pools_nonneg, pools in *. injection Hp as Hp1 Hp2 Hp3.
      rewrite Hp1, Hp2, Hp3 in Hnn. exact Hnn.
    + intros Hneg ->. destruct (Hadd eq_refl) as [Hnn Hp].
      unfold pools_nonneg, pools in *. injection Hp as Hp1 Hp2 Hp3. lia.
  - intros Hna Hnb Hnc fuel. destruct (Hinv fuel) as [Hp|Hp]; [| exact Hp].
    unfold pools_nonneg, pools in *. injection Hp as -> -> ->. done.
Qed.

(** C3 at a sample input: the tip carries the totals 10, 0 and 0;
    transaction 3 would take one unit out of the empty Sapling pool and
    is skipped at the Sapling turnstile, and the balances at the end are
    not negative. *)
Lemma C3_turnstile_witness :
  let s0 := selection_start Sample.chainparams Sample.policy Sample.args
              (Sample.tip 120) Sample.scan in
  let e3 := Sample.mk_entry (Sample.mk_tx 3 200 1 1) 9000 1800 in
  let r := block_select_tx Sample.chainparams Sample.policy Sample.txo Sample.coins
             Sample.args (Sample.tip 120) s0 e3 in
  pools s0 = (10, 0, 0)
  /\ r.1 = SkipSaplingTurnstile
  /\ pools r.2 = pools s0
  /\ pools_nonneg (selection_result Sample.chainparams Sample.policy Sample.txo Sample.coins
                     Sample.args (Sample.tip 120) Sample.scan).
Proof.
  intros s0 e3 r.
  pose proof (C3_turnstile Sample.chainparams Sample.policy Sample.txo Sample.coins
                Sample.args (Sample.tip 120) Sample.scan 10 0 0
                eq_refl eq_refl eq_refl eq_refl) as (Hstart & Hstep & _ & Hnn).
  split; [exact Hstart |]. split; [vm_compute; reflexivity |]. split.
  - destruct r as [v s'] eqn:Hr.
    destruct (Hstep s0 e3 v s' Hr) as (_ & Hneg & Hskip).
    apply Hskip, Hneg. right. left. vm_compute. reflexivity.
  - apply (Hnn ltac:(lia) ltac:(lia) ltac:(lia) (selection_fuel s0)).
Defined.

(** A transaction has no administrator's deltas when [ApplyDeltas] adds
    nothing to either in-out argument. *)
Definition no_admin_deltas (policy : Policy) (txo : TxOracle) (e : TxPriority) : Prop :=
  let deltas := ApplyDeltas policy (GetHash txo (prio_tx e)) 0 0 in
  PrimFloat.eqb deltas.1 0 = true /\ deltas.2 = 0.

(** The free-transaction gate as the specification states it. *)
Definition free_gate_as_stated (chainparams : CChainParams) (policy : Policy)
    (txo : TxOracle) (coins : CoinsOracle) (args : Args) (pindexPrev : CBlockIndex)
    (s : SelState) (e : TxPriority) : Prop :=
  (block_select_tx chainparams policy txo coins args pindexPrev s e).1 = SkipFree <->
  fSortedByFee s = true
  /\ no_admin_deltas policy txo e
  /\ prio_feeRate e < minRelayTxFee policy
  /\ prio_feePaid e < DEFAULT_FEE policy
  /\ get_nBlockMinSize policy args <= nBlockSize s + entry_size txo e.

(** C9, as amended.  An entry is skipped by the free-transaction gate
    exactly when it passed the size gate and the legacy sigops gate
    before it, the fee comparator is active, its administrator's
    priority delta and fee delta are both at most zero, its fee rate is
    below the minimum relay fee, its fee paid is below [DEFAULT_FEE],
    and the running block size plus its size is at least the minimum
    block size. *)
Theorem C9_free_tx_gate chainparams policy txo coins args pindexPrev s e :
  let deltas := ApplyDeltas policy (GetHash txo (prio_tx e)) 0 0 in
  let size_after := to_uint64 (nBlockSize s + entry_size txo e) in
  (block_select_tx chainparams policy txo coins args pindexPrev s e).1 = SkipFree <->
  (size_after < get_nBlockMaxSize policy args
   /\ to_uint32 (nBlockSigOps s + entry_legacy_sigops txo e) < MAX_BLOCK_SIGOPS policy)
  /\ fSortedByFee s = true
  /\ PrimFloat.leb deltas.1 0 = true
  /\ deltas.2 <= 0
  /\ prio_feeRate e < minRelayTxFee policy
  /\ prio_feePaid e < DEFAULT_FEE policy
  /\ get_nBlockMinSize policy args <= size_after.
Proof.
  intros deltas size_after. unfold block_select_tx.
  rewrite select_tx_skip_free, free_tx_gate_true.
  fold deltas size_after. unfold entry_deltas. fold deltas. tauto.
Qed.

(** C9 as stated fails twice.  With a fee delta of -1 recorded for
    transaction 7 the gate skips it, although it has an administrator's
    delta.  And a transaction of 2000000 bytes meets every condition the
    claim lists, yet it is the size gate that skips it, not this one. *)
Lemma C9_free_tx_gate_counterexample :
  let s0 := selection_start Sample.chainparams Sample.policy Sample.args
              (Sample.tip 120) Sample.scan in
  let e7 := Sample.mk_entry (Sample.mk_tx 7 250 1 0) 50 10 in
  let big := Sample.mk_entry (Sample.mk_tx 8 2000000 1 0) 50 10 in
  ((block_select_tx Sample.chainparams Sample.policy_with_delta Sample.txo Sample.coins
      Sample.args (Sample.tip 120) s0 e7).1 = SkipFree
   /\ ~ no_admin_deltas Sample.policy_with_delta Sample.txo e7
   /\ ~ free_gate_as_stated Sample.chainparams Sample.policy_with_delta Sample.txo
          Sample.coins Sample.args (Sample.tip 120) s0 e7)
  /\ ((block_select_tx Sample.chainparams Sample.policy Sample.txo Sample.coins
         Sample.args (Sample.tip 120) s0 big).1 = SkipSize
      /\ ~ free_gate_as_stated Sample.chainparams Sample.policy Sample.txo
             Sample.coins Sample.args (Sample.tip 120) s0 big).
Proof.
  intros s0 e7 big.
  assert (Hd : ~ no_admin_deltas Sample.policy_with_delta Sample.txo e7).
  { intros [_ Hfee]. vm_compute in Hfee. discriminate. }
  assert (H7 : (block_select_tx Sample.chainparams Sample.policy_with_delta Sample.txo
                  Sample.coins Sample.args (Sample.tip 120) s0 e7).1 = SkipFree)
    by (vm_compute; reflexivity).
  assert (Hbig : (block_select_tx Sample.chainparams Sample.policy Sample.txo Sample.coins
                    Sample.args (Sample.tip 120) s0 big).1 = SkipSize)
    by (vm_compute; reflexivity).
  split; [split; [exact H7 | split; [exact Hd |]] | split; [exact Hbig |]].
  - intros [Hto _]. destruct (Hto H7) as (_ & Hno & _). by apply Hd.
  - intros [_ Hfrom]. rewrite Hbig in Hfrom.
    assert (Hno : SkipSize = SkipFree); [| discriminate].
    apply Hfrom. split; [vm_compute; reflexivity |].
    split; [split; vm_compute; reflexivity |].
    split; [vm_compute; reflexivity |]. split; [vm_compute; reflexivity |].
    vm_compute. discriminate.
Qed.

(** C4 at sample inputs, one for each case: height 220 (NU5 active),
    height 50 (the Heartwood activation height), height 60 (Heartwood
    active) and height 20 (before Heartwood, with a Sapling miner whose
    output commitment is appended to a tree of two commitments). *)
Lemma C4_hashBlockCommitments_witness :
  (exists t,
     CreateNewBlock Sample.chainparams Sample.prover Sample.policy Sample.txo Sample.coins
       Sample.hashes Sample.args (Sample.tip 219) [] Sample.scan Sample.miner_script None
     = Returned t
     /\ hashBlockCommitments (block t)
        = DeriveBlockCommitmentsHash Sample.hashes
            (GetHistoryRoot Sample.coins
               (view (selection_result Sample.chainparams Sample.policy Sample.txo
                        Sample.coins Sample.args (Sample.tip 219) Sample.scan))
               (CurrentEpochBranchId Sample.chainparams 219))
            (BuildAuthDataMerkleTree Sample.hashes (blk_vtx (block t))))
  /\ (exists t,
        CreateNewBlock Sample.chainparams Sample.prover Sample.policy Sample.txo Sample.coins
          Sample.hashes Sample.args (Sample.tip 49) [] Sample.scan Sample.miner_script None
        = Returned t
        /\ hashBlockCommitments (block t) = uint256_null)
  /\ (exists t,
        CreateNewBlock Sample.chainparams Sample.prover Sample.policy Sample.txo Sample.coins
          Sample.hashes Sample.args (Sample.tip 59) [] Sample.scan Sample.miner_script None
        = Returned t
        /\ hashBlockCommitments (block t)
           = GetHistoryRoot Sample.coins
               (view (selection_result Sample.chainparams Sample.policy Sample.txo
                        Sample.coins Sample.args (Sample.tip 59) Sample.scan))
               (CurrentEpochBranchId Sample.chainparams 59))
  /\ (exists t,
        CreateNewBlock Sample.chainparams Sample.prover Sample.policy Sample.txo Sample.coins
          Sample.hashes Sample.args (Sample.tip 19) [11%N; 12%N] Sample.scan
          (MinerSapling 9%N) None
        = Returned t
        /\ hashBlockCommitments (block t)
           = SaplingMerkleTree_root Sample.hashes
               ([11%N; 12%N]
                ++ flat_map (fun tx => List.map cmu (vShieldedOutput tx)) (blk_vtx (block t)))
        /\ flat_map (fun tx => List.map cmu (vShieldedOutput tx)) (blk_vtx (block t)) = [1%N]).
Proof.
  split; [| split; [| split]].
  - destruct (CreateNewBlock _ _ _ _ _ _ _ (Sample.tip 219) _ _ _ _) as [t|e] eqn:E;
      [| vm_compute in E; discriminate].
    exists t. split; [reflexivity |].
    exact (proj1 (C4_hashBlockCommitments _ _ _ _ _ _ _ _ _ _ _ _ _ E) eq_refl).
  - destruct (CreateNewBlock _ _ _ _ _ _ _ (Sample.tip 49) _ _ _ _) as [t|e] eqn:E;
      [| vm_compute in E; discriminate].
    exists t. split; [reflexivity |].
    exact (proj1 (proj2 (C4_hashBlockCommitments _ _ _ _ _ _ _ _ _ _ _ _ _ E))
             eq_refl eq_refl).
  - destruct (CreateNewBlock _ _ _ _ _ _ _ (Sample.tip 59) _ _ _ _) as [t|e] eqn:E;
      [| vm_compute in E; discriminate].
    exists t. split; [reflexivity |].
    exact (proj1 (proj2 (proj2 (C4_hashBlockCommitments _ _ _ _ _ _ _ _ _ _ _ _ _ E)))
             eq_refl eq_refl eq_refl).
  - destruct (CreateNewBlock _ _ _ _ _ _ _ (Sample.tip 19) _ _ _ _) as [t|e] eqn:E;
      [| vm_compute in E; discriminate].
    exists t. split; [reflexivity |]. split.
    + exact (proj2 (proj2 (proj2 (C4_hashBlockCommitments _ _ _ _ _ _ _ _ _ _ _ _ _ E)))
               eq_refl eq_refl eq_refl).
    + vm_compute in E. injection E as <-. vm_compute. reflexivity.
Defined.

(** * Further properties of the code

    What follows covers the parts of miner.cpp, util/time.cpp and
    test/alert_tests.cpp beyond the statements above. *)

(** ** The selection loop: what holds of every accepted transaction *)

(** The entry taken off the queue was in it, and so was everything that
    stays. *)
Lemma pop_heap_elem comparer vec e rest :
  pop_heap comparer vec = Some (e, rest) ->
  e ∈ vec /\ (forall x, x ∈ rest -> x ∈ vec).
Proof.
  unfold pop_heap. destruct vec as [|x l]; [done |].
  set (i := heap_front_index comparer x 0 1 l).
  destruct ((x :: l) !! i) as [front|] eqn:Hf; [| done].
  intros [= <- <-]. split.
  - by apply list_elem_of_lookup_2 with i.
  - intros y Hy. apply elem_of_app in Hy as [Hy|Hy].
    + apply elem_of_take in Hy as (j & Hj & _). by apply list_elem_of_lookup_2 with j.
    + apply list_elem_of_lookup in Hy as (j & Hj). rewrite lookup_drop in Hj.
      by apply list_elem_of_lookup_2 with (S i + j)%nat.
Qed.

(** Case analysis on the condition of the outermost [if] of a hypothesis
    that equates a conditional with a result. *)
Ltac split_if H E :=
  match type of H with
  | (if ?c then _ else _) = _ => destruct c eqn:E
  end.

Section SelectionOrder.

Variable chainparams : CChainParams.
Variable policy : Policy.
Variable txo : TxOracle.
Variable coins : CoinsOracle.
Variable nHeight : Z.
Variable consensusBranchId : Z.
Variable nBlockMaxSize nBlockPrioritySize nBlockMinSize : Z.
Variable monitoring_pool_balances : bool.

Let select := select_tx chainparams policy txo coins nHeight consensusBranchId
                nBlockMaxSize nBlockPrioritySize nBlockMinSize monitoring_pool_balances.
Let step := selection_step chainparams policy txo coins nHeight consensusBranchId
              nBlockMaxSize nBlockPrioritySize nBlockMinSize monitoring_pool_balances.
Let loop := selection_loop chainparams policy txo coins nHeight consensusBranchId
              nBlockMaxSize nBlockPrioritySize nBlockMinSize monitoring_pool_balances.

(** The fee of a transaction against a view: inputs minus outputs. *)
Definition tx_fee (view : CCoinsViewCache) (tx : CTransaction) : CAmount :=
  GetValueIn coins view tx - GetValueOut txo tx.

(** The comparator switch of an iteration, as a function of the state
    the entry meets. *)
Definition switches_to_fee (s : SelState) (e : TxPriority) : bool :=
  negb (nBlockMaxSize <=? to_uint64 (nBlockSize s + entry_size txo e))
  && negb (MAX_BLOCK_SIGOPS policy <=? to_uint32 (nBlockSigOps s + entry_legacy_sigops txo e))
  && ((nBlockPrioritySize <=? to_uint64 (nBlockSize s + entry_size txo e))
      || negb (AllowFree policy (prio_dPriority e))).

(** Everything an iteration that ended with [Added] has checked and
    written, beyond the counters. *)
Record accepted_step (s : SelState) (e : TxPriority) (s' : SelState) : Prop := {
  accepted_inputs : HaveInputs coins (view s) (prio_tx e) = true;
  accepted_contextual :
    ContextualCheckInputs coins (prio_tx e) (view s) consensusBranchId = true;
  accepted_nFees : nFees s' = nFees s + tx_fee (view s) (prio_tx e);
  accepted_vTxFees : vTxFees s' = vTxFees s ++ [tx_fee (view s) (prio_tx e)];
  accepted_vtx : vtx s' = vtx s ++ [prio_tx e];
  accepted_vTxSigOps : exists n, vTxSigOps s' = vTxSigOps s ++ [n];
  accepted_view : view s' = view s ++ [prio_tx e];
  accepted_nBlockTx : nBlockTx s' = to_uint64 (nBlockTx s + 1);
  accepted_mapDependers : mapDependers s' = mapDependers s;
  accepted_promoted :
    (vOrphan s', vecPriority s') =
      foldl (promote_orphan (GetHash txo (prio_tx e))) (vOrphan s, vecPriority s)
        (default [] (mapDependers s !! GetHash txo (prio_tx e)))
}.

Lemma select_tx_accepted s e s' :
  select s e = (Added, s') -> accepted_step s e s'.
Proof.
  subst select. unfold select_tx. cbv zeta. intros H.
  split_if H Hsize; [discriminate |].
  split_if H Hlegacy; [discriminate |].
  split_if H Hfree; [discriminate |].
  set (sw := negb (fSortedByFee s) && _) in H.
  set (s1 := if sw then set_fSortedByFee true s else s) in H.
  assert (Hs1 : s1 = s \/ s1 = set_fSortedByFee true s)
    by (subst s1; destruct sw; [by right | by left]).
  assert (Hview : view s1 = view s) by (by destruct Hs1 as [-> | ->]).
  assert (Htx : nBlockTx s1 = nBlockTx s) by (by destruct Hs1 as [-> | ->]).
  assert (Hnf : nFees s1 = nFees s) by (by destruct Hs1 as [-> | ->]).
  assert (Hvt : vtx s1 = vtx s) by (by destruct Hs1 as [-> | ->]).
  assert (Hvf : vTxFees s1 = vTxFees s) by (by destruct Hs1 as [-> | ->]).
  assert (Hvs : vTxSigOps s1 = vTxSigOps s) by (by destruct Hs1 as [-> | ->]).
  assert (Hvp : vecPriority s1 = vecPriority s) by (by destruct Hs1 as [-> | ->]).
  assert (Hvo : vOrphan s1 = vOrphan s) by (by destruct Hs1 as [-> | ->]).
  assert (Hmd : mapDependers s1 = mapDependers s) by (by destruct Hs1 as [-> | ->]).
  clearbody s1. clear sw.
  split_if H Hinputs; [discriminate |].
  split_if H Hp2sh; [discriminate |].
  split_if H Hctx; [discriminate |].
  split_if H Hsprout; [discriminate |].
  split_if H Hsapling; [discriminate |].
  split_if H Horchard; [discriminate |].
  injection H as <-.
  rewrite Hview in *. unfold tx_fee, UpdateCoins.
  split; cbn [nFees vTxFees vtx view nBlockTx mapDependers vOrphan vecPriority vTxSigOps].
  - by apply negb_false_iff in Hinputs.
  - by apply negb_false_iff in Hctx.
  - by rewrite Hnf.
  - by rewrite Hvf.
  - by rewrite Hvt.
  - rewrite Hvs. by eexists.
  - done.
  - by rewrite Htx.
  - done.
  - rewrite Hmd, Hvo, Hvp.
    destruct (mapDependers s !! GetHash txo (prio_tx e)) as [dependers|]; cbn [default foldl].
    + by destruct (foldl _ _ dependers).
    + done.
Qed.

(** What an iteration does to the comparator flag. *)
Lemma select_tx_fSortedByFee s e v s' :
  select s e = (v, s') ->
  fSortedByFee s' = fSortedByFee s || switches_to_fee s e.
Proof.
  subst select. unfold select_tx, switches_to_fee, entry_size, entry_legacy_sigops.
  cbv zeta. intros H.
  split_if H Hsize. { injection H as <- <-. cbn [negb andb]. by rewrite orb_false_r. }
  split_if H Hlegacy. { injection H as <- <-. cbn [negb andb]. by rewrite orb_false_r. }
  cbn [negb andb].
  split_if H Hfree.
  { injection H as <- <-. unfold free_tx_gate in Hfree.
    destruct (fSortedByFee s); [done | discriminate]. }
  set (c := (nBlockPrioritySize <=? _) || _) in *.
  assert (Hs1 : fSortedByFee (if negb (fSortedByFee s) && c then set_fSortedByFee true s else s)
                = fSortedByFee s || c)
    by (destruct (fSortedByFee s) eqn:F, c; cbn; congruence).
  set (s1 := if negb (fSortedByFee s) && c then set_fSortedByFee true s else s) in *.
  clearbody s1.
  repeat (match type of H with
          | (if ?c then _ else _) = _ => destruct c
          end; [injection H as <- <-; exact Hs1 |]).
  injection H as <- <-. exact Hs1.
Qed.

Lemma select_tx_skipped s e v s' :
  select s e = (v, s') -> v <> Added -> same_but_comparator s s'.
Proof.
  intros Hsel Hv.
  pose proof (select_tx_cases chainparams policy txo coins nHeight consensusBranchId
                nBlockMaxSize nBlockPrioritySize nBlockMinSize monitoring_pool_balances
                s e v s' Hsel) as Hc.
  destruct v; done.
Qed.

(** *** Dependencies between the accepted transactions *)

Definition hashes_of (l : list CTransaction) : list uint256 := GetHash txo <$> l.

(** Everything the orphan waited for when the loop started is among the
    transactions [before]. *)
Definition deps_met (before : list CTransaction) (o0 : COrphan) : Prop :=
  forall h, h ∈ setDependsOn o0 -> h ∈ hashes_of before.

(** A transaction may follow [before]: it was in the queue when the loop
    started, or it is an orphan of the start state all of whose
    dependencies are in [before]. *)
Definition ready (s0 : SelState) (before : list CTransaction) (tx : CTransaction) : Prop :=
  (exists e, e ∈ vecPriority s0 /\ prio_tx e = tx)
  \/ (exists o0, o0 ∈ vOrphan s0 /\ ptx o0 = tx /\ deps_met before o0).

(** The orphans are those of the start state, and what has been erased
    from their dependency sets has been added to the block. *)
Definition orphans_track (s0 : SelState) (added : list CTransaction)
    (orphans : list COrphan) : Prop :=
  forall i o, orphans !! i = Some o ->
    exists o0, vOrphan s0 !! i = Some o0 /\ ptx o = ptx o0
      /\ forall h, h ∈ setDependsOn o0 -> h ∈ setDependsOn o \/ h ∈ hashes_of added.

Definition queue_ready (s0 : SelState) (added : list CTransaction)
    (queue : list TxPriority) : Prop :=
  forall e, e ∈ queue -> ready s0 added (prio_tx e).

Lemma hashes_of_app a b : hashes_of (a ++ b) = hashes_of a ++ hashes_of b.
Proof. unfold hashes_of. apply fmap_app. Qed.

Lemma ready_mono s0 before extra tx :
  ready s0 before tx -> ready s0 (before ++ extra) tx.
Proof.
  intros [H | (o0 & Ho & Hp & Hd)]; [by left | right].
  exists o0. split; [done |]. split; [done |].
  intros h Hh. rewrite hashes_of_app. apply elem_of_app. left. by apply Hd.
Qed.

Lemma orphans_track_mono s0 added extra orphans :
  orphans_track s0 added orphans -> orphans_track s0 (added ++ extra) orphans.
Proof.
  intros H i o Hi. destruct (H i o Hi) as (o0 & H0 & Hp & Hd).
  exists o0. split; [done |]. split; [done |].
  intros h Hh. destruct (Hd h Hh) as [Hin|Hin]; [by left | right].
  rewrite hashes_of_app. apply elem_of_app. by left.
Qed.

(** One round of the loop over [mapDependers[hash]], once [hash] is in
    the block. *)
Lemma promote_orphan_order s0 added hash acc porphan :
  hash ∈ hashes_of added ->
  orphans_track s0 added acc.1 -> queue_ready s0 added acc.2 ->
  orphans_track s0 added (promote_orphan hash acc porphan).1
  /\ queue_ready s0 added (promote_orphan hash acc porphan).2.
Proof.
  intros Hh Ho Hq. unfold promote_orphan.
  destruct (acc.1 !! porphan) as [o|] eqn:E; [| done].
  destruct (decide (setDependsOn o = ∅)); [done |].
  set (o' := {| ptx := ptx o; setDependsOn := _; feeRate := _; feePaid := _;
                dPriority := _ |}).
  destruct (Ho porphan o E) as (o0 & H0 & Hp & Hd).
  assert (Ho' : orphans_track s0 added (<[porphan := o']> acc.1)).
  { intros i x Hx.
    apply list_lookup_insert_Some in Hx as [(<- & <- & _) | (Hne & Hx)]; [| by apply Ho].
    exists o0. split; [done |]. split; [done |].
    intros h Hin. destruct (Hd h Hin) as [Hin'|]; [| by right].
    destruct (decide (h = hash)) as [->|Hneq]; [by right | left].
    cbn [setDependsOn]. apply elem_of_difference. split; [done |].
    by apply not_elem_of_singleton. }
  destruct (decide (setDependsOn o' = ∅)) as [Hempty|]; cbn [fst snd];
    (split; [exact Ho' |]); [| exact Hq].
  intros e He. apply elem_of_app in He as [He|He]; [by apply Hq |].
  apply list_elem_of_singleton in He as ->. cbn [prio_tx]. right. exists o0.
  split; [by apply list_elem_of_lookup_2 with porphan |]. split; [done |].
  intros h Hin. destruct (Hd h Hin) as [Hin'|]; [| done].
  destruct (decide (h = hash)) as [->|Hneq]; [done |].
  exfalso. cbn [setDependsOn o'] in Hempty.
  assert (Hleft : h ∈ setDependsOn o ∖ {[hash]}).
  { apply elem_of_difference. split; [done |]. by apply not_elem_of_singleton. }
  rewrite Hempty in Hleft. by apply not_elem_of_empty in Hleft.
Qed.

Lemma promote_all_order s0 added hash dependers : forall acc,
  hash ∈ hashes_of added ->
  orphans_track s0 added acc.1 -> queue_ready s0 added acc.2 ->
  orphans_track s0 added (foldl (promote_orphan hash) acc dependers).1
  /\ queue_ready s0 added (foldl (promote_orphan hash) acc dependers).2.
Proof.
  induction dependers as [|i l IH]; intros acc Hh Ho Hq; [done |].
  cbn [foldl].
  destruct (promote_orphan_order s0 added hash acc i Hh Ho Hq) as [Ho' Hq'].
  by apply IH.
Qed.

(** The state of the loop, seen from the state [s0] it started in:
    [added] is what the loop has put into the block so far. *)
Record order_inv (s0 s : SelState) (added : list CTransaction) : Prop := {
  ord_vtx : vtx s = vtx s0 ++ added;
  ord_added : forall k tx, added !! k = Some tx -> ready s0 (take k added) tx;
  ord_queue : queue_ready s0 added (vecPriority s);
  ord_orphans : orphans_track s0 added (vOrphan s)
}.

Lemma order_inv_start s0 : order_inv s0 s0 [].
Proof.
  split.
  - by rewrite app_nil_r.
  - intros k tx Hk. by rewrite lookup_nil in Hk.
  - intros e He. left. by exists e.
  - intros i o Hi. exists o. split; [done |]. split; [done |]. intros h Hh. by left.
Qed.

Lemma order_inv_step s0 s added v s' :
  order_inv s0 s added -> step s = Some (v, s') -> exists added', order_inv s0 s' added'.
Proof.
  intros [Hvtx Hadded Hqueue Horph] Hs.
  destruct (selection_step_cases chainparams policy txo coins nHeight consensusBranchId
              nBlockMaxSize nBlockPrioritySize nBlockMinSize monitoring_pool_balances
              s v s' Hs) as (e & rest & Hpop & Hsel).
  destruct (pop_heap_elem _ _ _ _ Hpop) as [He Hrest].
  destruct (decide (v = Added)) as [->|Hne].
  - destruct (select_tx_accepted _ _ _ Hsel) as [_ _ _ _ Hv _ _ _ _ Hprom].
    cbn [vtx view vOrphan vecPriority mapDependers set_vecPriority] in Hv, Hprom.
    exists (added ++ [prio_tx e]).
    set (hash := GetHash txo (prio_tx e)) in *.
    assert (Hh : hash ∈ hashes_of (added ++ [prio_tx e])).
    { rewrite hashes_of_app. apply elem_of_app. right. apply list_elem_of_here. }
    assert (Ho1 : orphans_track s0 (added ++ [prio_tx e]) (vOrphan s))
      by (by apply orphans_track_mono).
    assert (Hq1 : queue_ready s0 (added ++ [prio_tx e]) rest).
    { intros x Hx. apply ready_mono. apply Hqueue. by apply Hrest. }
    destruct (promote_all_order s0 (added ++ [prio_tx e]) hash
                (default [] (mapDependers s !! hash)) (vOrphan s, rest) Hh Ho1 Hq1)
      as [Ho2 Hq2].
    rewrite <- Hprom in Ho2, Hq2. cbn [fst snd] in Ho2, Hq2.
    split.
    + by rewrite Hv, Hvtx, app_assoc.
    + intros k tx Hk. destruct (decide (k < length added)%nat) as [Hlt|Hge].
      * rewrite lookup_app_l in Hk by lia. rewrite take_app_le by lia. by apply Hadded.
      * rewrite lookup_app_r in Hk by lia.
        destruct (k - length added)%nat eqn:Hd; [| cbn in Hk; done].
        injection Hk as <-. assert (k = length added) as -> by lia.
        rewrite take_app_length. apply Hqueue, He.
    + exact Hq2.
    + exact Ho2.
  - pose proof (select_tx_skipped _ _ _ _ Hsel Hne) as Hsame.
    destruct (same_but_comparator_fields _ _ Hsame)
      as (_ & _ & _ & _ & _ & _ & _ & E1 & _ & _ & _ & E2 & E3).
    cbn [vtx vecPriority vOrphan set_vecPriority] in E1, E2, E3.
    exists added. split.
    + by rewrite E1.
    + exact Hadded.
    + rewrite E2. intros x Hx. apply Hqueue. by apply Hrest.
    + by rewrite E3.
Qed.

Lemma order_inv_loop s0 fuel : exists added, order_inv s0 (loop fuel s0) added.
Proof.
  apply (selection_loop_invariant chainparams policy txo coins nHeight consensusBranchId
           nBlockMaxSize nBlockPrioritySize nBlockMinSize monitoring_pool_balances
           (fun s => exists added, order_inv s0 s added)).
  - intros s v s' (added & Hinv) Hstep. eapply order_inv_step; eauto.
  - exists []. apply order_inv_start.
Qed.

(** *** Validity and fees of the accepted transactions *)

Record accepted_inv (s0 s : SelState) (added : list CTransaction) (fees : list CAmount)
    : Prop := {
  acc_vtx : vtx s = vtx s0 ++ added;
  acc_view : view s = view s0 ++ added;
  acc_vTxFees : vTxFees s = vTxFees s0 ++ fees;
  acc_nFees : nFees s = nFees s0 + Z_sum fees;
  acc_nBlockTx : nBlockTx s = to_uint64 (nBlockTx s0 + Z.of_nat (length added));
  acc_length : length fees = length added;
  acc_vTxSigOps : length (vTxSigOps s) = (length (vTxSigOps s0) + length added)%nat;
  acc_checked : forall k tx, added !! k = Some tx ->
    HaveInputs coins (view s0 ++ take k added) tx = true
    /\ ContextualCheckInputs coins tx (view s0 ++ take k added) consensusBranchId = true
    /\ fees !! k = Some (tx_fee (view s0 ++ take k added) tx)
}.

Lemma accepted_inv_start s0 : 0 <= nBlockTx s0 < 2^64 -> accepted_inv s0 s0 [] [].
Proof.
  intros Hr. split; rewrite ?app_nil_r; try done.
  - cbn. lia.
  - cbn. unfold to_uint64. rewrite Z.add_0_r, Z.mod_small; lia.
Qed.

Lemma accepted_inv_step s0 s added fees v s' :
  accepted_inv s0 s added fees -> step s = Some (v, s') ->
  exists added' fees', accepted_inv s0 s' added' fees'.
Proof.
  intros [Hvtx Hview Hvf Hnf Hnt Hlen Hsl Hchk] Hs.
  destruct (selection_step_cases chainparams policy txo coins nHeight consensusBranchId
              nBlockMaxSize nBlockPrioritySize nBlockMinSize monitoring_pool_balances
              s v s' Hs) as (e & rest & Hpop & Hsel).
  destruct (decide (v = Added)) as [->|Hne].
  - destruct (select_tx_accepted _ _ _ Hsel) as [Hin Hctx Hf Hfs Hv (n & Hso) Hvw Hbt _ _].
    cbn [vtx view vTxFees nFees nBlockTx vTxSigOps set_vecPriority]
      in Hin, Hctx, Hf, Hfs, Hv, Hvw, Hbt, Hso.
    set (tx := prio_tx e) in *.
    exists (added ++ [tx]), (fees ++ [tx_fee (view s) tx]). split.
    + by rewrite Hv, Hvtx, app_assoc.
    + by rewrite Hvw, Hview, app_assoc.
    + by rewrite Hfs, Hvf, app_assoc.
    + rewrite Hf, Hnf, Z_sum_app. cbn. lia.
    + rewrite Hbt, Hnt, length_app. cbn [length]. unfold to_uint64.
      rewrite Zplus_mod_idemp_l. f_equal. lia.
    + rewrite !length_app. cbn [length]. lia.
    + rewrite Hso, !length_app. cbn [length]. lia.
    + intros k x Hk. destruct (decide (k < length added)%nat) as [Hlt|Hge].
      * rewrite lookup_app_l in Hk by lia. rewrite take_app_le by lia.
        rewrite lookup_app_l by lia. by apply Hchk.
      * rewrite lookup_app_r in Hk by lia.
        destruct (k - length added)%nat eqn:Hd; [| cbn in Hk; done].
        injection Hk as <-. assert (k = length added) as -> by lia.
        rewrite take_app_length, <- Hview.
        split; [done |]. split; [done |].
        rewrite lookup_app_r by lia. by rewrite Hlen, Nat.sub_diag.
  - pose proof (select_tx_skipped _ _ _ _ Hsel Hne) as Hsame.
    destruct (same_but_comparator_fields _ _ Hsame)
      as (_ & _ & E1 & E2 & _ & _ & _ & E3 & E4 & E6 & E5 & _ & _).
    cbn [vtx view vTxFees nFees nBlockTx vTxSigOps set_vecPriority] in E1, E2, E3, E4, E5, E6.
    exists added, fees. split; rewrite ?E1, ?E2, ?E3, ?E4, ?E5, ?E6; done.
Qed.

Lemma accepted_inv_loop s0 fuel :
  0 <= nBlockTx s0 < 2^64 ->
  exists added fees, accepted_inv s0 (loop fuel s0) added fees.
Proof.
  intros Hr.
  apply (selection_loop_invariant chainparams policy txo coins nHeight consensusBranchId
           nBlockMaxSize nBlockPrioritySize nBlockMinSize monitoring_pool_balances
           (fun s => exists added fees, accepted_inv s0 s added fees)).
  - intros s v s' (added & fees & Hinv) Hstep. eapply accepted_inv_step; eauto.
  - exists [], []. by apply accepted_inv_start.
Qed.

(** *** The comparator flag *)

Lemma fSortedByFee_step s v s' :
  step s = Some (v, s') -> fSortedByFee s = true -> fSortedByFee s' = true.
Proof.
  intros Hs Hf.
  destruct (selection_step_cases chainparams policy txo coins nHeight consensusBranchId
              nBlockMaxSize nBlockPrioritySize nBlockMinSize monitoring_pool_balances
              s v s' Hs) as (e & rest & Hpop & Hsel).
  rewrite (select_tx_fSortedByFee _ _ _ _ Hsel). cbn [fSortedByFee set_vecPriority].
  by rewrite Hf.
Qed.

End SelectionOrder.
(** ** The template, from the loop's result *)

(** What [CreateNewBlock] makes of the state the loop leaves: the
    coinbase takes the place of the dummy transaction, the negated fee
    total and the coinbase's sigops the place of the two [-1]. *)
Lemma CreateNewBlock_returns chainparams prover policy txo coins hashes args
    pindexPrev sapling_tree0 scan minerAddress next_cb_mtx t :
  CreateNewBlock chainparams prover policy txo coins hashes args
    pindexPrev sapling_tree0 scan minerAddress next_cb_mtx = Returned t ->
  let nHeight := bi_nHeight pindexPrev + 1 in
  let s := selection_result chainparams policy txo coins args pindexPrev
             (match next_cb_mtx with Some _ => MempoolScan_empty | None => scan end) in
  exists coinbase,
    match next_cb_mtx with
    | Some cb => coinbase = cb
    | None => (CreateCoinbaseTransaction chainparams prover (nFees s) minerAddress nHeight).1
              = Returned coinbase
    end
    /\ blk_vtx (block t) = <[0%nat := coinbase]> (vtx s)
    /\ tmpl_vTxFees t = <[0%nat := - nFees s]> (vTxFees s)
    /\ tmpl_vTxSigOps t =
         <[0%nat := GetLegacySigOpCount txo (hd CTransaction_default (blk_vtx (block t)))]>
           (vTxSigOps s)
    /\ hashPrevBlock (block t) = bi_hash pindexPrev
    /\ TestBlockValidity hashes (block t) pindexPrev = true.
Proof.
  unfold CreateNewBlock. cbv zeta.
  set (s := selection_result _ _ _ _ _ _ _).
  set (coinbase := match next_cb_mtx with Some cb => Returned cb | None => _ end).
  destruct coinbase as [cb|e] eqn:Hcb; [| discriminate].
  destruct (negb (TestBlockValidity hashes _ pindexPrev)) eqn:Hvalid; [discriminate |].
  intros [= <-]. exists cb. cbn [block blk_vtx tmpl_vTxFees tmpl_vTxSigOps hashPrevBlock].
  split; [| split; [done | split; [done | split; [done | split; [done |]]]]].
  - subst coinbase. destruct next_cb_mtx as [c|]; [by injection Hcb | exact Hcb].
  - by apply negb_false_iff in Hvalid.
Qed.

(** The loop of [CreateNewBlock], seen from the state it starts in. *)
Lemma selection_result_accepted chainparams policy txo coins args pindexPrev scan :
  let s := selection_result chainparams policy txo coins args pindexPrev scan in
  exists added fees,
    accepted_inv txo coins (CurrentEpochBranchId chainparams (bi_nHeight pindexPrev + 1))
      (selection_start chainparams policy args pindexPrev scan) s added fees.
Proof.
  unfold selection_result. apply accepted_inv_loop. cbn. lia.
Qed.

Lemma selection_result_empty chainparams policy txo coins args pindexPrev :
  selection_result chainparams policy txo coins args pindexPrev MempoolScan_empty
  = selection_start chainparams policy args pindexPrev MempoolScan_empty.
Proof. reflexivity. Qed.
(** X1.  The block respects the dependencies between mempool
    transactions.  Every transaction the loop of [CreateNewBlock] puts
    into the block was either in the priority queue when the loop
    started, or it is the transaction of an orphan all of whose
    dependencies ([setDependsOn], the hashes it waited for) are hashes
    of transactions placed before it in the block; and the template
    holds these transactions, in this order, after the coinbase. *)
Theorem X1_block_respects_dependencies chainparams prover policy txo coins hashes args
    pindexPrev scan :
  exists added,
    vtx (selection_result chainparams policy txo coins args pindexPrev scan)
    = CTransaction_default :: added
    /\ (forall sapling_tree0 minerAddress t,
          CreateNewBlock chainparams prover policy txo coins hashes args
            pindexPrev sapling_tree0 scan minerAddress None = Returned t ->
          exists coinbase, blk_vtx (block t) = coinbase :: added)
    /\ (forall k tx, added !! k = Some tx ->
          (exists e, e ∈ scan_vecPriority scan /\ prio_tx e = tx)
          \/ (exists o, o ∈ scan_vOrphan scan /\ ptx o = tx
                /\ forall h, h ∈ setDependsOn o ->
                     exists j parent, (j < k)%nat /\ added !! j = Some parent
                                      /\ GetHash txo parent = h)).
Proof.
  set (s0 := selection_start chainparams policy args pindexPrev scan).
  destruct (order_inv_loop chainparams policy txo coins (bi_nHeight pindexPrev + 1)
              (CurrentEpochBranchId chainparams (bi_nHeight pindexPrev + 1))
              (get_nBlockMaxSize policy args) (get_nBlockPrioritySize policy args)
              (get_nBlockMinSize policy args)
              (get_monitoring_pool_balances chainparams pindexPrev)
              s0 (selection_fuel s0)) as (added & [Hvtx Hadded _ _]).
  change (selection_loop _ _ _ _ _ _ _ _ _ _ _ s0)
    with (selection_result chainparams policy txo coins args pindexPrev scan) in Hvtx.
  exists added. split; [exact Hvtx |]. split.
  - intros sapling_tree0 minerAddress t Ht.
    destruct (CreateNewBlock_returns _ _ _ _ _ _ _ _ _ _ _ _ _ Ht)
      as (cb & _ & Hv & _). cbv zeta in Hv. rewrite Hvtx in Hv. by exists cb.
  - intros k tx Hk. destruct (Hadded k tx Hk) as [H | (o & Ho & Hp & Hd)]; [by left | right].
    exists o. split; [exact Ho |]. split; [exact Hp |].
    intros h Hh. specialize (Hd h Hh). unfold hashes_of in Hd.
    apply list_elem_of_fmap in Hd as (parent & -> & Hin).
    apply elem_of_take in Hin as (j & Hj & Hlt). by exists j, parent.
Qed.

(** X2.  Every transaction of the template was checked against the coin
    view that holds exactly the transactions before it: for the
    transaction at position [k] after the coinbase, [view.HaveInputs]
    and [ContextualCheckInputs] (at the branch id of the block's height)
    returned true on the view updated by the first [k] accepted
    transactions, in block order. *)
Theorem X2_accepted_checked_in_block_order chainparams prover policy txo coins hashes args
    pindexPrev scan :
  exists accepted,
    vtx (selection_result chainparams policy txo coins args pindexPrev scan)
    = CTransaction_default :: accepted
    /\ (forall sapling_tree0 minerAddress t,
          CreateNewBlock chainparams prover policy txo coins hashes args
            pindexPrev sapling_tree0 scan minerAddress None = Returned t ->
          exists coinbase, blk_vtx (block t) = coinbase :: accepted)
    /\ (forall k tx, accepted !! k = Some tx ->
          HaveInputs coins (take k accepted) tx = true
          /\ ContextualCheckInputs coins tx (take k accepted)
               (CurrentEpochBranchId chainparams (bi_nHeight pindexPrev + 1)) = true).
Proof.
  destruct (selection_result_accepted chainparams policy txo coins args pindexPrev scan)
    as (added & fees & [Hvtx _ _ _ _ _ _ Hchk]).
  cbn [selection_start vtx view app] in Hvtx, Hchk.
  exists added. split; [exact Hvtx |]. split.
  - intros sapling_tree0 minerAddress t Ht.
    destruct (CreateNewBlock_returns _ _ _ _ _ _ _ _ _ _ _ _ _ Ht)
      as (cb & _ & Hv & _). cbv zeta in Hv. rewrite Hvtx in Hv. by exists cb.
  - intros k tx Hk. destruct (Hchk k tx Hk) as (H1 & H2 & _). done.
Qed.

(** X3.  The fees of the template balance.  [vTxFees] holds, beside each
    accepted transaction, its fee: the value of its inputs in the view
    of the transactions before it, minus the value of its outputs; the
    first entry is minus their sum; and the coinbase that
    [CreateCoinbaseTransaction] builds for the template pays out the
    block subsidy plus exactly this sum. *)
Theorem X3_template_fees_balance chainparams prover policy txo coins hashes args
    pindexPrev scan :
  exists accepted fees,
    length fees = length accepted
    /\ (forall k tx, accepted !! k = Some tx ->
          fees !! k = Some (GetValueIn coins (take k accepted) tx - GetValueOut txo tx))
    /\ (forall sapling_tree0 minerAddress t,
          CreateNewBlock chainparams prover policy txo coins hashes args
            pindexPrev sapling_tree0 scan minerAddress None = Returned t ->
          exists coinbase,
            blk_vtx (block t) = coinbase :: accepted
            /\ tmpl_vTxFees t = - Z_sum fees :: fees
            /\ sum_vout (vout coinbase) - shielded_value_flowing_out coinbase
               = GetBlockSubsidy chainparams (bi_nHeight pindexPrev + 1) + Z_sum fees).
Proof.
  destruct (selection_result_accepted chainparams policy txo coins args pindexPrev scan)
    as (added & fees & [Hvtx _ Hvf Hnf _ Hlen _ Hchk]).
  cbn [selection_start vtx view vTxFees nFees app] in Hvtx, Hvf, Hnf, Hchk.
  exists added, fees. split; [exact Hlen |]. split.
  - intros k tx Hk. destruct (Hchk k tx Hk) as (_ & _ & H3). exact H3.
  - intros sapling_tree0 minerAddress t Ht.
    destruct (CreateNewBlock_returns _ _ _ _ _ _ _ _ _ _ _ _ _ Ht)
      as (cb & Hcb & Hv & Hf & _). cbv zeta in Hcb, Hv, Hf.
    rewrite Hvtx in Hv. rewrite Hvf, Hnf in Hf. rewrite Hnf in Hcb.
    exists cb. split; [exact Hv |]. split; [exact Hf |].
    pose proof (CreateCoinbaseTransaction_spec chainparams prover (0 + Z_sum fees)
                  minerAddress (bi_nHeight pindexPrev + 1)) as Hspec.
    destruct (CreateCoinbaseTransaction _ _ _ _ _) as [[mtx|e] tr]; [| discriminate].
    cbn [fst] in Hcb. injection Hcb as ->.
    destruct Hspec as [[_ _ Hval _ _] _].
    unfold value_out in Hval. unfold shielded_value_flowing_out. lia.
Qed.

(** X4.  The switch from the priority comparator to the fee comparator
    is one-way.  An iteration leaves [fSortedByFee] set when it was set,
    and sets it exactly when the entry passed the size gate and the
    legacy sigops gate and either the running size plus its size reached
    [nBlockPrioritySize] or [AllowFree] rejects its priority; so once
    the loop sorts by fee it does so in every later state, and with
    [-blockprioritysize] clamped to 0 it does so from the start. *)
Theorem X4_fee_comparator_is_sticky chainparams policy txo coins args pindexPrev :
  (forall s e v s',
     block_select_tx chainparams policy txo coins args pindexPrev s e = (v, s') ->
     fSortedByFee s' =
       fSortedByFee s
       || switches_to_fee policy txo (get_nBlockMaxSize policy args)
            (get_nBlockPrioritySize policy args) s e)
  /\ (forall fuel s,
        fSortedByFee s = true ->
        fSortedByFee (block_selection_loop chainparams policy txo coins args pindexPrev
                        fuel s) = true)
  /\ (forall scan fuel,
        get_nBlockPrioritySize policy args = 0 ->
        fSortedByFee (block_selection_loop chainparams policy txo coins args pindexPrev
                        fuel (selection_start chainparams policy args pindexPrev scan))
        = true).
Proof.
  assert (Hsticky : forall fuel s,
    fSortedByFee s = true ->
    fSortedByFee (block_selection_loop chainparams policy txo coins args pindexPrev
                    fuel s) = true).
  { intros fuel s Hs. unfold block_selection_loop.
    apply (selection_loop_invariant _ _ _ _ _ _ _ _ _ _
             (fun s => fSortedByFee s = true)); [| exact Hs].
    intros s1 v s2 H1 Hstep. eapply fSortedByFee_step; eauto. }
  split; [| split; [exact Hsticky |]].
  - intros s e v s' Hsel. unfold block_select_tx in Hsel.
    by apply select_tx_fSortedByFee in Hsel.
  - intros scan fuel Hzero. apply Hsticky. cbn [selection_start fSortedByFee].
    rewrite Hzero. reflexivity.
Qed.

(** X5.  The template's three vectors are parallel and the transaction
    counter agrees with them: [vTxFees] and [vTxSigOps] have one entry
    per transaction of the block, and [nBlockTx], the value published as
    [last_block_num_txs], is the number of transactions after the
    coinbase. *)
Theorem X5_template_vectors_parallel chainparams prover policy txo coins hashes args
    pindexPrev scan :
  let s := selection_result chainparams policy txo coins args pindexPrev scan in
  length (vTxFees s) = length (vtx s)
  /\ length (vTxSigOps s) = length (vtx s)
  /\ nBlockTx s = to_uint64 (Z.of_nat (length (vtx s)) - 1)
  /\ (forall sapling_tree0 minerAddress t,
        CreateNewBlock chainparams prover policy txo coins hashes args
          pindexPrev sapling_tree0 scan minerAddress None = Returned t ->
        length (blk_vtx (block t)) = length (vtx s)
        /\ length (tmpl_vTxFees t) = length (blk_vtx (block t))
        /\ length (tmpl_vTxSigOps t) = length (blk_vtx (block t))).
Proof.
  intros s.
  destruct (selection_result_accepted chainparams policy txo coins args pindexPrev scan)
    as (added & fees & [Hvtx _ Hvf _ Hnt Hlen Hso _]).
  fold s in Hvtx, Hvf, Hnt, Hso.
  cbn [selection_start vtx vTxFees vTxSigOps nBlockTx app length] in Hvtx, Hvf, Hnt, Hso.
  assert (H1 : length (vTxFees s) = length (vtx s))
    by (rewrite Hvf, Hvtx; cbn [length]; lia).
  assert (H2 : length (vTxSigOps s) = length (vtx s))
    by (rewrite Hso, Hvtx; cbn [length]; lia).
  split; [exact H1 |]. split; [exact H2 |]. split.
  - rewrite Hnt, Hvtx. cbn [length]. f_equal. lia.
  - intros sapling_tree0 minerAddress t Ht.
    destruct (CreateNewBlock_returns _ _ _ _ _ _ _ _ _ _ _ _ _ Ht)
      as (cb & _ & Hv & Hf & Hs & _). cbv zeta in Hv, Hf, Hs. fold s in Hv, Hf, Hs.
    rewrite Hv, Hf, Hs, !length_insert. done.
Qed.

(** X6.  With a precomputed coinbase the mempool is left alone.  When
    [next_cb_mtx] is given, the outcome of [CreateNewBlock] depends
    neither on what is in the mempool, nor on the miner address, nor on
    the proof system; a template it returns holds the given coinbase and
    nothing else, records the fee 0 for it and its legacy sigop count. *)
Theorem X6_precomputed_coinbase_gives_empty_block chainparams policy txo coins hashes args
    pindexPrev sapling_tree0 cb :
  (forall prover scan minerAddress prover' scan' minerAddress',
     CreateNewBlock chainparams prover policy txo coins hashes args
       pindexPrev sapling_tree0 scan minerAddress (Some cb)
     = CreateNewBlock chainparams prover' policy txo coins hashes args
         pindexPrev sapling_tree0 scan' minerAddress' (Some cb))
  /\ (forall prover scan minerAddress t,
        CreateNewBlock chainparams prover policy txo coins hashes args
          pindexPrev sapling_tree0 scan minerAddress (Some cb) = Returned t ->
        blk_vtx (block t) = [cb]
        /\ tmpl_vTxFees t = [0]
        /\ tmpl_vTxSigOps t = [GetLegacySigOpCount txo cb]).
Proof.
  split; [reflexivity |].
  intros prover scan minerAddress t Ht.
  destruct (CreateNewBlock_returns _ _ _ _ _ _ _ _ _ _ _ _ _ Ht)
    as (c & -> & Hv & Hf & Hs & _). cbv zeta in Hv, Hf, Hs.
  rewrite selection_result_empty in Hv, Hf, Hs.
  cbn [selection_start vtx vTxFees vTxSigOps nFees insert list_insert] in Hv, Hf, Hs.
  rewrite Hv in Hs. done.
Qed.

(** X7.  The three block size settings are clamped for every value of
    the command-line arguments.  With [MAX_BLOCK_SIZE] between 2000 and
    2^32, [nBlockMaxSize] lies between 1000 and [MAX_BLOCK_SIZE - 1000],
    and neither [nBlockPrioritySize] nor [nBlockMinSize] exceeds it.
    The arguments are converted to [unsigned int] first: a negative
    [-blockmaxsize] down to -2^32 + MAX_BLOCK_SIZE - 1000 therefore
    selects the largest block, not the smallest, and one up to 1000
    selects 1000. *)
Theorem X7_block_size_settings_clamped policy args :
  2000 <= MAX_BLOCK_SIZE policy < 2^32 ->
  1000 <= get_nBlockMaxSize policy args <= MAX_BLOCK_SIZE policy - 1000
  /\ 0 <= get_nBlockPrioritySize policy args <= get_nBlockMaxSize policy args
  /\ 0 <= get_nBlockMinSize policy args <= get_nBlockMaxSize policy args
  /\ (- 2^32 + MAX_BLOCK_SIZE policy - 1000 <= arg_blockmaxsize args < 0 ->
      get_nBlockMaxSize policy args = MAX_BLOCK_SIZE policy - 1000)
  /\ (0 <= arg_blockmaxsize args <= 1000 -> get_nBlockMaxSize policy args = 1000).
Proof.
  intros Hmax. unfold get_nBlockPrioritySize, get_nBlockMinSize, get_nBlockMaxSize.
  pose proof (to_uint32_range (arg_blockmaxsize args)) as H1.
  pose proof (to_uint32_range (arg_blockprioritysize args)) as H2.
  pose proof (to_uint32_range (arg_blockminsize args)) as H3.
  assert (H4 : to_uint32 (MAX_BLOCK_SIZE policy - 1000) = MAX_BLOCK_SIZE policy - 1000)
    by (unfold to_uint32; apply Z.mod_small; lia).
  rewrite H4.
  split; [lia |]. split; [lia |]. split; [lia |]. split.
  - intros Hneg.
    assert (H5 : to_uint32 (arg_blockmaxsize args) = arg_blockmaxsize args + 2^32).
    { unfold to_uint32. symmetry. apply (Z.mod_unique _ _ (-1)); lia. }
    lia.
  - intros Hsmall.
    assert (H5 : to_uint32 (arg_blockmaxsize args) = arg_blockmaxsize args)
      by (unfold to_uint32; apply Z.mod_small; lia).
    lia.
Qed.

(** X7 at the sample policy: [-blockmaxsize=-1] selects 1999000 bytes. *)
Lemma X7_block_size_settings_clamped_witness :
  get_nBlockMaxSize Sample.policy
    {| arg_blockmaxsize := -1; arg_blockprioritysize := 0; arg_blockminsize := 0 |}
  = 1999000.
Proof.
  pose proof (X7_block_size_settings_clamped Sample.policy
                {| arg_blockmaxsize := -1; arg_blockprioritysize := 0;
                   arg_blockminsize := 0 |}) as H.
  destruct H as (_ & _ & _ & Hneg & _); [cbn; lia |].
  apply Hneg. cbn. lia.
Defined.
(** ** The extra nonce and the header commitments *)

Lemma to_int32_to_uint32_height h : 0 <= h < 2^31 -> to_int32 (to_uint32 h) = h.
Proof.
  intros Hh. unfold to_int32, to_uint32. rewrite Z.mod_mod by lia.
  rewrite Z.mod_small by lia. destruct (Z.ltb_spec h (2^31)); lia.
Qed.

(** The commitments appended to the Sapling tree do not depend on the
    inputs of the first transaction. *)
Lemma append_block_commitments_set_vin tree v cb rest :
  append_block_commitments tree (set_vin v cb :: rest)
  = append_block_commitments tree (cb :: rest).
Proof. reflexivity. Qed.

(** X8.  [IncrementExtraNonce] keeps the header of a template from
    [CreateNewBlock] consistent with its transactions.  At a height that
    fits an [int], the updated template differs from the given one in
    the scriptSig of the coinbase's first input and in nothing else of
    the transaction list, the fees and the sigop counts; its
    [hashMerkleRoot] is the Merkle root of the updated list; and its
    [hashChainHistoryRoot], [hashAuthDataRoot] and
    [hashBlockCommitments] are the three roots the header branch of
    [CreateNewBlock] yields for the updated list, before and after
    NU5. *)
Theorem X8_extra_nonce_keeps_header_consistent chainparams prover policy txo coins hashes
    args pindexPrev sapling_tree0 scan minerAddress next_cb_mtx t st t' st' :
  0 <= bi_nHeight pindexPrev + 1 < 2^31 ->
  CreateNewBlock chainparams prover policy txo coins hashes args
    pindexPrev sapling_tree0 scan minerAddress next_cb_mtx = Returned t ->
  IncrementExtraNonce chainparams policy hashes t pindexPrev st = NonceUpdated t' st' ->
  let nHeight := bi_nHeight pindexPrev + 1 in
  let s := selection_result chainparams policy txo coins args pindexPrev
             (match next_cb_mtx with Some _ => MempoolScan_empty | None => scan end) in
  let vtx' := blk_vtx (block t') in
  let roots := fill_commitments chainparams coins hashes nHeight
                 (CurrentEpochBranchId chainparams (bi_nHeight pindexPrev)) (view s) vtx'
                 (append_block_commitments sapling_tree0 vtx') in
  (exists cb rest in0 ins,
     blk_vtx (block t) = cb :: rest /\ vin cb = in0 :: ins
     /\ vtx' = set_vin ({| prevout := prevout in0;
                           scriptSig := extra_nonce_scriptSig policy (to_uint32 nHeight)
                                          (nExtraNonce st');
                           nSequence := nSequence in0 |} :: ins) cb :: rest)
  /\ tmpl_vTxFees t' = tmpl_vTxFees t
  /\ tmpl_vTxSigOps t' = tmpl_vTxSigOps t
  /\ hashPrevBlock (block t') = bi_hash pindexPrev
  /\ hashMerkleRoot (block t') = BuildMerkleTree hashes vtx'
  /\ hashChainHistoryRoot t' = roots.1.1
  /\ hashAuthDataRoot t' = roots.1.2
  /\ hashBlockCommitments (block t') = roots.2.
Proof.
  intros Hh Hnew Hinc nHeight s vtx' roots.
  unfold CreateNewBlock in Hnew. cbv zeta in Hnew. fold nHeight s in Hnew.
  destruct (match next_cb_mtx with Some cb => Returned cb | None => _ end) as [cb0|e];
    [| discriminate].
  destruct (negb (TestBlockValidity hashes _ pindexPrev)); [discriminate |].
  injection Hnew as <-.
  unfold IncrementExtraNonce in Hinc. cbv zeta in Hinc.
  cbn [block blk_vtx hashPrevBlock hashBlockCommitments hashAuthDataRoot
       hashChainHistoryRoot tmpl_vTxFees tmpl_vTxSigOps static_hashPrevBlock] in Hinc.
  fold nHeight in Hinc. rewrite (to_int32_to_uint32_height nHeight Hh) in Hinc.
  destruct (<[0%nat := cb0]> (vtx s)) as [|cb rest] eqn:Hv; [discriminate |].
  destruct (vin cb) as [|in0 ins] eqn:Hvin; [discriminate |].
  destruct (negb (Z.of_nat (length _) <=? 100)); [discriminate |].
  injection Hinc as <- <-.
  subst roots vtx'.
  cbn [block blk_vtx hashPrevBlock hashMerkleRoot hashBlockCommitments hashAuthDataRoot
       hashChainHistoryRoot tmpl_vTxFees tmpl_vTxSigOps nExtraNonce].
  rewrite append_block_commitments_set_vin.
  split; [by exists cb, rest, in0, ins |].
  unfold fill_commitments.
  destruct (NetworkUpgradeActive chainparams nHeight UPGRADE_NU5); [done |].
  destruct (IsActivationHeight chainparams nHeight UPGRADE_HEARTWOOD); [done |].
  destruct (NetworkUpgradeActive chainparams nHeight UPGRADE_HEARTWOOD); done.
Qed.

(** X8 at a sample input: a template on top of height 219 (NU5 active),
    then the first extra nonce. *)
Lemma X8_extra_nonce_keeps_header_consistent_witness :
  exists t t' st',
    CreateNewBlock Sample.chainparams Sample.prover Sample.policy Sample.txo Sample.coins
      Sample.hashes Sample.args (Sample.tip 219) [] Sample.scan Sample.miner_script None
    = Returned t
    /\ IncrementExtraNonce Sample.chainparams Sample.policy Sample.hashes t (Sample.tip 219)
         {| static_hashPrevBlock := 0%N; nExtraNonce := 7 |} = NonceUpdated t' st'
    /\ nExtraNonce st' = 1
    /\ hashMerkleRoot (block t') = BuildMerkleTree Sample.hashes (blk_vtx (block t'))
    /\ hashBlockCommitments (block t')
       = DeriveBlockCommitmentsHash Sample.hashes (hashChainHistoryRoot t')
           (BuildAuthDataMerkleTree Sample.hashes (blk_vtx (block t'))).
Proof.
  destruct (CreateNewBlock Sample.chainparams Sample.prover Sample.policy Sample.txo
              Sample.coins Sample.hashes Sample.args (Sample.tip 219) [] Sample.scan
              Sample.miner_script None) as [t|e] eqn:Ht; [| vm_compute in Ht; discriminate].
  destruct (IncrementExtraNonce Sample.chainparams Sample.policy Sample.hashes t
              (Sample.tip 219) {| static_hashPrevBlock := 0%N; nExtraNonce := 7 |})
    as [t' st'| |] eqn:Hinc;
    [| vm_compute in Ht; injection Ht as <-; vm_compute in Hinc; discriminate
     | vm_compute in Ht; injection Ht as <-; vm_compute in Hinc; discriminate].
  exists t, t', st'. split; [reflexivity |]. split; [exact Hinc |].
  pose proof (X8_extra_nonce_keeps_header_consistent Sample.chainparams Sample.prover
                Sample.policy Sample.txo Sample.coins Sample.hashes Sample.args
                (Sample.tip 219) [] Sample.scan Sample.miner_script None t
                {| static_hashPrevBlock := 0%N; nExtraNonce := 7 |} t' st'
                ltac:(cbn; lia) Ht Hinc) as (_ & _ & _ & _ & Hm & Hc & Ha & Hb).
  split; [| split; [exact Hm |]].
  - vm_compute in Ht. injection Ht as <-. vm_compute in Hinc. injection Hinc as <- <-.
    reflexivity.
  - rewrite Hb, Hc. reflexivity.
Defined.
(** ** The coinbase builder: outputs, failures and use of the proof system *)

(** X9.  The transparent outputs of the coinbase are the miner's output,
    if the miner address is transparent, followed by the outputs of the
    deductions: the founders' reward output, or one output per funding
    stream with a transparent recipient, in the order of the streams.
    For a shielded miner address ([IsShieldedMinerAddress]) the
    deductions are all there is in [vout]; at a height without
    transparent deduction [vout] is empty. *)
Theorem X9_coinbase_transparent_outputs chainparams prover nFees minerAddress nHeight mtx tr :
  CreateCoinbaseTransaction chainparams prover nFees minerAddress nHeight
  = (Returned mtx, tr) ->
  (IsShieldedMinerAddress minerAddress = true ->
   vout mtx = deduction_outputs chainparams nHeight)
  /\ (forall coinbaseScript, minerAddress = MinerScript coinbaseScript ->
      vout mtx =
        {| nValue := GetBlockSubsidy chainparams nHeight
                     - coinbase_deductions chainparams nHeight + nFees;
           scriptPubKey := reserveScript coinbaseScript |}
        :: deduction_outputs chainparams nHeight)
  /\ (IsShieldedMinerAddress minerAddress = true ->
      deduction_outputs chainparams nHeight = [] -> vout mtx = []).
Proof.
  intros Hrun.
  pose proof (CreateCoinbaseTransaction_spec chainparams prover nFees minerAddress nHeight) as H.
  rewrite Hrun in H. destruct H as [[_ _ _ Hvout _] _].
  split; [| split].
  - intros Hs. rewrite Hvout. by destruct minerAddress.
  - intros cs ->. exact Hvout.
  - intros Hs Hd. rewrite Hvout, Hd. by destruct minerAddress.
Qed.

(** X9 at a sample input: a Sapling miner at height 160 of a chain whose
    funding streams have ended gets a coinbase without any transparent
    output. *)
Lemma X9_coinbase_transparent_outputs_witness :
  exists mtx tr,
    CreateCoinbaseTransaction Sample2.chainparams_no_streams Sample.prover 1000
      (MinerSapling 9%N) 160
    = (Returned mtx, tr)
    /\ vout mtx = [].
Proof.
  destruct (CreateCoinbaseTransaction Sample2.chainparams_no_streams Sample.prover 1000
              (MinerSapling 9%N) 160) as [[mtx|e] tr] eqn:E;
    [| vm_compute in E; discriminate].
  exists mtx, tr. split; [reflexivity |].
  destruct (X9_coinbase_transparent_outputs Sample2.chainparams_no_streams Sample.prover
              1000 (MinerSapling 9%N) 160 mtx tr E) as (_ & _ & Hempty).
  apply Hempty; reflexivity.
Defined.

(** A funding stream element whose recipient is a script. *)
Definition transparent_stream (e : FundingStreamElement) : Prop :=
  match e.1 with FSScript _ => True | FSSapling _ => False end.

(** At this height no deduction goes to a Sapling address. *)
Definition no_sapling_deduction (chainparams : CChainParams) (nHeight : Z) : Prop :=
  nHeight > 0 -> NetworkUpgradeActive chainparams nHeight UPGRADE_CANOPY = true ->
  Forall transparent_stream
    (GetActiveFundingStreamElements chainparams nHeight (GetBlockSubsidy chainparams nHeight)).

(** A step of the builder that left the proving context and the Sapling
    part of the transaction alone. *)
Definition sapling_untouched (w w' : World) : Prop :=
  w_trace w' = w_trace w
  /\ vShieldedOutput (w_mtx w') = vShieldedOutput (w_mtx w)
  /\ valueBalanceSapling (w_mtx w') = valueBalanceSapling (w_mtx w).

Lemma add_funding_streams_transparent chainparams prover nHeight elems : forall r w,
  Forall transparent_stream elems ->
  exists r' w',
    add_funding_streams chainparams prover nHeight elems r w = (Returned r', w')
    /\ sapling_untouched w w'.
Proof.
  induction elems as [|[addr v] elems IH]; intros r w Hall.
  - by exists r, w.
  - apply Forall_cons in Hall as [Hhead Hall].
    destruct addr as [pa|script]; [done |].
    cbn [add_funding_streams fst snd]. unfold AddFundingStreamValueToTx. run_builder.
    cbn [negb].
    destruct (IH (r - v) {| w_mtx := set_vout (vout (w_mtx w) ++
                                       [{| nValue := v; scriptPubKey := script |}]) (w_mtx w);
                            w_trace := w_trace w |} Hall)
      as (r' & w' & Hrun & Ht & Hs & Hb).
    exists r', w'. split; [exact Hrun |]. by split.
Qed.

Lemma SetFoundersRewardAndGetMinerValue_transparent chainparams prover nHeight nFees w :
  no_sapling_deduction chainparams nHeight ->
  exists r w',
    SetFoundersRewardAndGetMinerValue chainparams prover nHeight nFees w = (Returned r, w')
    /\ sapling_untouched w w'.
Proof.
  intros Hno. unfold SetFoundersRewardAndGetMinerValue. rewrite bind_run.
  destruct (Z.gtb_spec nHeight 0) as [Hpos|Hneg].
  - destruct (NetworkUpgradeActive chainparams nHeight UPGRADE_CANOPY) eqn:Hcanopy.
    + destruct (add_funding_streams_transparent chainparams prover nHeight
                  (GetActiveFundingStreamElements chainparams nHeight
                     (GetBlockSubsidy chainparams nHeight))
                  (GetBlockSubsidy chainparams nHeight) w)
        as (r & w' & -> & Hu); [apply Hno; [lia | done] |].
      by exists (r + nFees), w'.
    + destruct (nHeight <=? GetLastFoundersRewardBlockHeight chainparams nHeight);
        run_builder; eexists _, _; (split; [reflexivity | done]).
  - run_builder. eexists _, _. split; [reflexivity | done].
Qed.

Lemma AddOutputs_Transparent_no_proof chainparams prover nHeight nFees coinbaseScript w :
  no_sapling_deduction chainparams nHeight ->
  vShieldedOutput (w_mtx w) = [] ->
  exists w',
    AddOutputs_Transparent chainparams prover nHeight nFees coinbaseScript w
    = (Returned tt, w')
    /\ w_trace w' = w_trace w ++ [CtxInit; CtxFree]
    /\ vin (w_mtx w') = vin (w_mtx w)
    /\ vShieldedOutput (w_mtx w') = []
    /\ valueBalanceSapling (w_mtx w') = valueBalanceSapling (w_mtx w).
Proof.
  intros Hno Hempty. unfold AddOutputs_Transparent. rewrite bind_run.
  unfold librustzcash_sapling_proving_ctx_init, emit.
  rewrite bind_run. unfold modify_mtx at 1. cbn [w_mtx w_trace].
  set (w1 := {| w_mtx := set_vout _ (w_mtx w); w_trace := w_trace w ++ [CtxInit] |}).
  rewrite bind_run.
  pose proof (SetFoundersRewardAndGetMinerValue_spec chainparams prover nHeight nFees w1)
    as Hpays.
  destruct (SetFoundersRewardAndGetMinerValue_transparent chainparams prover nHeight nFees
              w1 Hno) as (r & w2 & Hrun & Ht & Hs & Hb).
  rewrite Hrun in Hpays |- *. destruct Hpays as [_ [Hvin _ _ _ _ _]].
  subst w1. cbn [w_mtx w_trace set_vout vShieldedOutput valueBalanceSapling vin]
    in Ht, Hs, Hb, Hvin.
  rewrite Hempty in Hs.
  rewrite bind_run. unfold modify_mtx at 1.
  rewrite bind_run. unfold get_mtx at 1. cbn [w_mtx w_trace].
  rewrite bind_run. cbn [set_vout vShieldedOutput]. rewrite Hs. cbn [length Nat.ltb Nat.leb].
  run_builder. eexists. split; [reflexivity |]. cbn [w_mtx w_trace set_vout].
  rewrite Ht, <- app_assoc. done.
Qed.

Lemma CreateCoinbaseTransaction_body_no_proof chainparams prover nFees coinbaseScript
    nHeight m0 :
  no_sapling_deduction chainparams nHeight ->
  vShieldedOutput m0 = [] -> valueBalanceSapling m0 = 0 ->
  exists mtx w',
    CreateCoinbaseTransaction_body chainparams prover nFees (MinerScript coinbaseScript)
      nHeight {| w_mtx := m0; w_trace := [] |} = (Returned mtx, w')
    /\ w_trace w' = [CtxInit; CtxFree]
    /\ vShieldedOutput mtx = []
    /\ valueBalanceSapling mtx = 0.
Proof.
  intros Hno Hs0 Hb0. unfold CreateCoinbaseTransaction_body.
  rewrite bind_run. unfold modify_mtx at 1. cbn [w_mtx w_trace].
  rewrite bind_run. unfold modify_mtx at 1. cbn [w_mtx w_trace].
  rewrite bind_run.
  set (m1 := update_vin0 _ _).
  assert (Hm1 : vShieldedOutput m1 = [] /\ valueBalanceSapling m1 = 0).
  { subst m1. unfold update_vin0. by destruct (vin _). }
  clearbody m1.
  set (expiry := if NetworkUpgradeActive chainparams nHeight UPGRADE_NU5
                 then to_uint32 nHeight else 0).
  set (w0 := {| w_mtx := set_nExpiryHeight expiry m1; w_trace := [] |}).
  assert (Hstep :
    (if NetworkUpgradeActive chainparams nHeight UPGRADE_NU5
     then modify_mtx (set_nExpiryHeight (to_uint32 nHeight))
     else modify_mtx (set_nExpiryHeight 0)) {| w_mtx := m1; w_trace := [] |}
    = (Returned tt, w0)).
  { subst w0 expiry. by destruct (NetworkUpgradeActive chainparams nHeight UPGRADE_NU5). }
  rewrite Hstep. clear Hstep. rewrite bind_run.
  cbn [AddOutputsToCoinbaseTxAndSign].
  destruct (AddOutputs_Transparent_no_proof chainparams prover nHeight nFees coinbaseScript
              w0 Hno) as (w1 & -> & Ht & _ & Hs & Hb); [apply Hm1 |].
  run_builder. eexists _, _. split; [reflexivity |]. cbn [w_trace w_mtx].
  split; [exact Ht |].
  subst w0. cbn [w_mtx set_nExpiryHeight valueBalanceSapling] in Hb.
  unfold update_vin0. destruct (vin _); cbn; rewrite ?Hs, ?Hb; split; by try apply Hm1.
Qed.

(** X10.  A transparent coinbase needs no proof.  When the miner address
    is a script and no deduction at the height goes to a Sapling
    address, [CreateCoinbaseTransaction] cannot fail, whatever the proof
    system answers: it initialises the proving context and frees it
    without using it in between, computes no binding signature, and
    returns a transaction without shielded output and with Sapling value
    balance 0. *)
Theorem X10_transparent_coinbase_needs_no_proof chainparams prover nFees coinbaseScript
    nHeight :
  no_sapling_deduction chainparams nHeight ->
  exists mtx,
    CreateCoinbaseTransaction chainparams prover nFees (MinerScript coinbaseScript) nHeight
    = (Returned mtx, [CtxInit; CtxFree])
    /\ vShieldedOutput mtx = []
    /\ valueBalanceSapling mtx = 0.
Proof.
  intros Hno. unfold CreateCoinbaseTransaction. cbv zeta.
  destruct (CreateCoinbaseTransaction_body_no_proof chainparams prover nFees coinbaseScript
              nHeight
              (CreateNewContextualCMutableTransaction chainparams nHeight
                 (negb false && (nPreferredTxVersion prover <? ZIP225_MIN_TX_VERSION prover)))
              Hno eq_refl eq_refl) as (mtx & w' & -> & Ht & Hs & Hb).
  exists mtx. cbn [fst snd]. by rewrite Ht.
Qed.

(** X10 at a sample input: height 120 of a chain whose only funding
    stream pays a script, with a proof system in which every operation
    fails. *)
Lemma X10_transparent_coinbase_needs_no_proof_witness :
  exists mtx,
    CreateCoinbaseTransaction Sample2.chainparams_script_stream
      (Sample.prover_with false false false false false) 1000 Sample.miner_script 120
    = (Returned mtx, [CtxInit; CtxFree])
    /\ vShieldedOutput mtx = []
    /\ valueBalanceSapling mtx = 0.
Proof.
  apply (X10_transparent_coinbase_needs_no_proof Sample2.chainparams_script_stream
           (Sample.prover_with false false false false false) 1000
           {| reserveScript := [0x76] |} 120).
  intros _ _. apply List.Forall_cons; [exact I | apply List.Forall_nil].
Defined.
(** *** The exceptions of the builder *)

(** Every exception a computation raises satisfies [P]. *)
Definition thrown_by {A} (m : Builder A) (P : Exception -> Prop) : Prop :=
  forall w e w', m w = (Threw e, w') -> P e.

Lemma thrown_by_ret {A} (a : A) P : thrown_by (ret a) P.
Proof. intros w e w' H. discriminate. Qed.

Lemma thrown_by_throw {A} e P : P e -> thrown_by (@throw A e) P.
Proof. intros He w e' w' [= <- _]. exact He. Qed.

Lemma thrown_by_bind {A B} (m : Builder A) (k : A -> Builder B) P :
  thrown_by m P -> (forall a, thrown_by (k a) P) -> thrown_by (bind m k) P.
Proof.
  intros Hm Hk w e w' H. rewrite bind_run in H.
  destruct (m w) as [[a|e1] w1] eqn:E.
  - by apply (Hk a w1 e w').
  - injection H as <- <-. by apply (Hm w e1 w1).
Qed.

Lemma thrown_by_modify_mtx f P : thrown_by (modify_mtx f) P.
Proof. intros w e w' H. discriminate. Qed.

Lemma thrown_by_emit ev P : thrown_by (emit ev) P.
Proof. intros w e w' H. discriminate. Qed.

Lemma thrown_by_get_mtx P : thrown_by get_mtx P.
Proof. intros w e w' H. discriminate. Qed.

Lemma thrown_by_get_trace P : thrown_by get_trace P.
Proof. intros w e w' H. discriminate. Qed.

Lemma thrown_by_catch_logic_error {A} (body handler : Builder A) P :
  thrown_by body P -> thrown_by handler P -> thrown_by (catch_logic_error body handler) P.
Proof.
  intros Hb Hh w e w' H. unfold catch_logic_error in H.
  destruct (body w) as [[a|e1] w1] eqn:E; [discriminate |].
  destruct e1; try (injection H as <- <-; by apply (Hb w _ w1)).
  by apply (Hh w1 e w').
Qed.

(** Decomposes a goal [thrown_by m P] along the structure of [m], trying
    [known] on every part first. *)
Ltac throws_with known :=
  repeat first
    [ known
    | apply thrown_by_ret
    | apply thrown_by_modify_mtx
    | apply thrown_by_emit
    | apply thrown_by_get_mtx
    | apply thrown_by_get_trace
    | apply thrown_by_throw
    | apply thrown_by_catch_logic_error
    | apply thrown_by_bind; [| intros ?]
    | match goal with
      | |- thrown_by (match ?x with _ => _ end) _ => destruct x
      end ].

Ltac throws := throws_with fail.

(** The failures of the coinbase builder: a [std::logic_error] from the
    signature hash, rethrown by value, or one of four
    [std::runtime_error] objects thrown by pointer ([throw new]). *)
Definition coinbase_failure (e : Exception) : Prop :=
  e = LogicError
  \/ e = RuntimeErrorPtr "Failed to add funding stream output."
  \/ e = RuntimeErrorPtr "Failed to create shielded output for miner"
  \/ e = RuntimeErrorPtr "Failed to create Orchard proof or signatures"
  \/ e = RuntimeErrorPtr "An error occurred computing the binding signature.".

Lemma add_funding_streams_throws chainparams prover nHeight elems : forall r,
  thrown_by (add_funding_streams chainparams prover nHeight elems r) coinbase_failure.
Proof.
  induction elems as [|[addr v] elems IH]; intros r; cbn [add_funding_streams].
  - throws.
  - unfold AddFundingStreamValueToTx, Build_output, librustzcash_sapling_proving_ctx_free.
    throws_with ltac:(apply IH); unfold coinbase_failure; tauto.
Qed.

Lemma ComputeBindingSig_throws chainparams prover nHeight ob :
  thrown_by (ComputeBindingSig chainparams prover nHeight ob) coinbase_failure.
Proof.
  unfold ComputeBindingSig, compute_dataToBeSigned, librustzcash_sapling_binding_sig,
    librustzcash_sapling_proving_ctx_free.
  throws; unfold coinbase_failure; tauto.
Qed.

Lemma SetFoundersRewardAndGetMinerValue_throws chainparams prover nHeight nFees :
  thrown_by (SetFoundersRewardAndGetMinerValue chainparams prover nHeight nFees)
    coinbase_failure.
Proof.
  unfold SetFoundersRewardAndGetMinerValue.
  throws_with ltac:(apply add_funding_streams_throws).
Qed.

Lemma CreateCoinbaseTransaction_body_throws chainparams prover nFees minerAddress nHeight :
  thrown_by (CreateCoinbaseTransaction_body chainparams prover nFees minerAddress nHeight)
    coinbase_failure.
Proof.
  unfold CreateCoinbaseTransaction_body, AddOutputsToCoinbaseTxAndSign,
    AddOutputs_Orchard, AddOutputs_Sapling, AddOutputs_Transparent, Build_output,
    OrchardBuilder_Build,
    librustzcash_sapling_proving_ctx_init, librustzcash_sapling_proving_ctx_free.
  throws_with ltac:(first [ apply SetFoundersRewardAndGetMinerValue_throws
                          | apply ComputeBindingSig_throws ]);
    unfold coinbase_failure; tauto.
Qed.

(** X11.  The failures of block assembly.  An exception that leaves
    [CreateCoinbaseTransaction] is the [std::logic_error] of the
    signature hash or one of four [std::runtime_error] objects thrown by
    pointer; it is never a [std::runtime_error] thrown by value.
    [CreateNewBlock] lets these exceptions pass, and throws a
    [std::runtime_error] by value only when the finished block fails
    [TestBlockValidity]. *)
Theorem X11_failures_of_block_assembly chainparams prover policy txo coins hashes args
    pindexPrev sapling_tree0 scan minerAddress :
  (forall nFees nHeight e tr,
     CreateCoinbaseTransaction chainparams prover nFees minerAddress nHeight = (Threw e, tr) ->
     coinbase_failure e)
  /\ (forall next_cb_mtx e,
        CreateNewBlock chainparams prover policy txo coins hashes args
          pindexPrev sapling_tree0 scan minerAddress next_cb_mtx = Threw e ->
        (next_cb_mtx = None /\ coinbase_failure e)
        \/ e = RuntimeError "CreateNewBlock(): TestBlockValidity failed")
  /\ (forall e, coinbase_failure e -> forall what, e <> RuntimeError what).
Proof.
  assert (Hcb : forall nFees nHeight e tr,
    CreateCoinbaseTransaction chainparams prover nFees minerAddress nHeight = (Threw e, tr) ->
    coinbase_failure e).
  { intros nFees nHeight e tr H. unfold CreateCoinbaseTransaction in H. cbv zeta in H.
    match type of H with
    | context [CreateCoinbaseTransaction_body ?c ?p ?f ?m ?h ?w] =>
        pose proof (CreateCoinbaseTransaction_body_throws c p f m h w) as Hb;
        destruct (CreateCoinbaseTransaction_body c p f m h w) as [[mtx|e1] w1]
    end; [discriminate |].
    injection H as <- _. by apply (Hb e1 w1). }
  split; [exact Hcb |]. split.
  - intros next_cb_mtx e H. unfold CreateNewBlock in H. cbv zeta in H.
    destruct next_cb_mtx as [cb|].
    + destruct (negb (TestBlockValidity hashes _ pindexPrev)); [| discriminate].
      injection H as <-. by right.
    + destruct (CreateCoinbaseTransaction _ _ _ _ _) as [[mtx|e1] tr] eqn:E; cbn [fst] in H.
      * destruct (negb (TestBlockValidity hashes _ pindexPrev)); [| discriminate].
        injection H as <-. by right.
      * injection H as <-. left. split; [done |]. eapply Hcb; eauto.
  - intros e He what ->. unfold coinbase_failure in He.
    destruct He as [H | [H | [H | [H | H]]]]; discriminate.
Qed.
(** ** The block time *)

Section BlockTime.

Variable consensusParams : TimeParams.
Variable pindexPrev : CBlockIndex.

Let mtp := GetMedianTimePast consensusParams pindexPrev.
Let max_future := MAX_FUTURE_BLOCK_TIME_MTP consensusParams.
Let active := FutureTimestampSoftForkActive consensusParams (bi_nHeight pindexPrev + 1).

(** The block time before it is narrowed to 32 bits. *)
Definition block_time (now : Z) : Z :=
  let t := Z.max (mtp + 1) now in
  if active then Z.min t (mtp + max_future) else t.

Lemma UpdateTime_nTime time_NULL nMockTime pblock :
  nTime (UpdateTime consensusParams time_NULL nMockTime pblock pindexPrev)
  = to_uint32 (block_time (GetTime time_NULL nMockTime)).
Proof.
  unfold UpdateTime, block_time. cbv zeta. fold mtp max_future active.
  by destruct (nPowAllowMinDifficultyBlocksAfterHeight consensusParams).
Qed.

(** X12.  [UpdateTime] puts the block time strictly after the median
    time past of the previous block, and under the future-timestamp soft
    fork at most [MAX_FUTURE_BLOCK_TIME_MTP] after it; inside this
    window it is the clock's time, and without the soft fork it is never
    before the clock.  This holds when the median time past is not
    negative, [MAX_FUTURE_BLOCK_TIME_MTP] is at least 1 and the times
    involved fit the 32-bit [nTime] field.  The difficulty is left as it
    was unless the chain has a minimum-difficulty rule. *)
Theorem X12_block_time_after_median_time_past time_NULL nMockTime pblock :
  0 <= mtp -> 1 <= max_future ->
  let now := GetTime time_NULL nMockTime in
  Z.max (mtp + 1) now < 2^32 ->
  let pblock' := UpdateTime consensusParams time_NULL nMockTime pblock pindexPrev in
  mtp < nTime pblock'
  /\ (active = true -> nTime pblock' <= mtp + max_future)
  /\ (active = false -> now <= nTime pblock')
  /\ (mtp < now -> (active = true -> now <= mtp + max_future) -> nTime pblock' = now)
  /\ (now <= mtp -> nTime pblock' = mtp + 1)
  /\ (nPowAllowMinDifficultyBlocksAfterHeight consensusParams = None ->
      nBits pblock' = nBits pblock).
Proof.
  intros Hmtp Hmax now Hfit pblock'.
  assert (Ht : nTime pblock' = block_time now).
  { subst pblock'. rewrite UpdateTime_nTime. fold now.
    unfold to_uint32. apply Z.mod_small. unfold block_time. destruct active; lia. }
  rewrite Ht. unfold block_time.
  split; [destruct active; lia |]. split; [intros ->; lia |].
  split; [intros ->; lia |]. split; [| split].
  - intros Hlt Hwin. destruct active; [specialize (Hwin eq_refl) |]; lia.
  - intros Hle. destruct active; lia.
  - intros Hnone. subst pblock'. unfold UpdateTime. cbv zeta. by rewrite Hnone.
Qed.

(** X13.  The block time follows the clock and never runs ahead of it
    or back: for two readings of the clock with the first not after the
    second, and times that fit the 32-bit field, the time [UpdateTime]
    stores at the first reading is not after the one it stores at the
    second; and the same reading gives the same time, whatever the
    header held before. *)
Theorem X13_block_time_monotone time1 time2 nMockTime pblock1 pblock2 :
  0 <= mtp -> 1 <= max_future ->
  let now1 := GetTime time1 nMockTime in
  let now2 := GetTime time2 nMockTime in
  now1 <= now2 -> Z.max (mtp + 1) now2 < 2^32 ->
  nTime (UpdateTime consensusParams time1 nMockTime pblock1 pindexPrev)
  <= nTime (UpdateTime consensusParams time2 nMockTime pblock2 pindexPrev)
  /\ (now1 = now2 ->
      nTime (UpdateTime consensusParams time1 nMockTime pblock1 pindexPrev)
      = nTime (UpdateTime consensusParams time2 nMockTime pblock2 pindexPrev)).
Proof.
  intros Hmtp Hmax now1 now2 Hle Hfit.
  rewrite !UpdateTime_nTime. fold now1 now2.
  assert (H1 : to_uint32 (block_time now1) = block_time now1)
    by (unfold to_uint32; apply Z.mod_small; unfold block_time; destruct active; lia).
  assert (H2 : to_uint32 (block_time now2) = block_time now2)
    by (unfold to_uint32; apply Z.mod_small; unfold block_time; destruct active; lia).
  rewrite H1, H2. split.
  - unfold block_time. destruct active; lia.
  - by intros ->.
Qed.

End BlockTime.

(** X12 at a sample input: median time past 1000000, the soft fork
    active, a clock two hours ahead: the block time is capped at
    1005400. *)
Lemma X12_block_time_after_median_time_past_witness :
  nTime (UpdateTime SampleTime.params 1007200 0 SampleTime.header (Sample.tip 120))
  = 1005400
  /\ 1000000 < nTime (UpdateTime SampleTime.params 1007200 0 SampleTime.header
                        (Sample.tip 120)).
Proof.
  split; [vm_compute; reflexivity |].
  apply (X12_block_time_after_median_time_past SampleTime.params (Sample.tip 120)
           1007200 0 SampleTime.header); cbn; lia.
Defined.

(** X13 at a sample input: the clock advances from 1000100 to 1000200. *)
Lemma X13_block_time_monotone_witness :
  nTime (UpdateTime SampleTime.params 1000100 0 SampleTime.header (Sample.tip 120))
  <= nTime (UpdateTime SampleTime.params 1000200 0 SampleTime.header (Sample.tip 120)).
Proof.
  apply (X13_block_time_monotone SampleTime.params (Sample.tip 120)
           1000100 1000200 0 SampleTime.header SampleTime.header); cbn; lia.
Defined.

(** X14.  Mock time.  After [SetMockTime(t)] with [t] not 0, [GetTime]
    returns [t] whatever the system clock says, and the block time
    [UpdateTime] stores does not depend on the system clock; after
    [SetMockTime(0)] [GetTime] returns the system clock again, so that 0
    itself cannot be set as a mock time; and of two calls of
    [SetMockTime] the later one decides. *)
Theorem X14_mock_time consensusParams pindexPrev pblock :
  (forall t time_NULL nMockTime,
     t <> 0 -> GetTime time_NULL (SetMockTime t nMockTime) = t)
  /\ (forall time_NULL nMockTime, GetTime time_NULL (SetMockTime 0 nMockTime) = time_NULL)
  /\ (forall t1 t2 time_NULL nMockTime,
        GetTime time_NULL (SetMockTime t2 (SetMockTime t1 nMockTime))
        = GetTime time_NULL (SetMockTime t2 nMockTime))
  /\ (forall t time1 time2 nMockTime,
        t <> 0 ->
        UpdateTime consensusParams time1 (SetMockTime t nMockTime) pblock pindexPrev
        = UpdateTime consensusParams time2 (SetMockTime t nMockTime) pblock pindexPrev).
Proof.
  assert (Hset : forall t time_NULL nMockTime,
            t <> 0 -> GetTime time_NULL (SetMockTime t nMockTime) = t).
  { intros t time_NULL nMockTime Ht. unfold GetTime, SetMockTime.
    destruct (Z.eqb_spec t 0); [done | reflexivity]. }
  split; [exact Hset |]. split; [reflexivity |]. split; [reflexivity |].
  intros t time1 time2 nMockTime Ht. unfold UpdateTime.
  by rewrite !Hset.
Qed.
(** ** The nonce *)

Lemma randomise_nonce_value rand :
  randomise_nonce rand = (rand mod 2^224) * 2^16.
Proof.
  unfold randomise_nonce, to_uint256. cbv zeta.
  rewrite Z.shiftl_mul_pow2, Z.shiftr_div_pow2 by lia.
  assert (E : (rand mod 2^256) mod 2^224 = rand mod 2^224).
  { change (2^256) with (2^224 * 2^32). rewrite Z.rem_mul_r by lia.
    rewrite (Z.mul_comm (2^224)), Z.mod_add by lia. apply Z.mod_mod. lia. }
  change (2^256) with (2^224 * 2^32) at 2.
  rewrite Z.mul_mod_distr_r by lia. rewrite E.
  change (2^32) with (2^16 * 2^16). rewrite Z.mul_assoc, Z.div_mul by lia.
  done.
Qed.

Lemma low16_is_mod n : Z.land n 0xffff = n mod 2^16.
Proof. change 0xffff with (Z.ones 16). apply Z.land_ones. lia. Qed.

Section SearchLoopFacts.

Variable consensusParams : TimeParams.
Variable solver : Solver.
Variable MineBlocksOnDemand : bool.
Variable MiningRequiresPeers : bool.
Variable pindexPrev : CBlockIndex.
Variable nTransactionsUpdatedLast : Z.
Variable nStart : Z.
Variable nMockTime : Z.

Let pass := search_pass consensusParams solver MineBlocksOnDemand MiningRequiresPeers
              pindexPrev nTransactionsUpdatedLast nStart nMockTime.
Let run := search consensusParams solver MineBlocksOnDemand MiningRequiresPeers
             pindexPrev nTransactionsUpdatedLast nStart nMockTime.

(** A pass that goes on has counted the low 16 bits of the nonce up by
    one, without carry into the bits above. *)
Lemma search_pass_next obs q c pblock nNonce' pblock' :
  0 <= q < 2^240 -> 0 <= c < 2^16 ->
  pass obs (q * 2^16 + c) pblock = inr (nNonce', pblock') ->
  c < 2^16 - 1 /\ nNonce' = q * 2^16 + (c + 1).
Proof.
  intros Hq Hc. subst pass. unfold search_pass.
  repeat match goal with
         | |- (if ?b then inl _ else _) = _ -> _ => destruct b eqn:?; [discriminate |]
         end.
  intros [= <- _].
  match goal with H : (Z.land _ _ =? _) = false |- _ => rename H into Hlow end.
  rewrite low16_is_mod in Hlow. apply Z.eqb_neq in Hlow.
  rewrite Z.add_comm, Z.mod_add, Z.mod_small in Hlow by lia.
  split; [lia |]. unfold to_uint256. rewrite Z.mod_small; lia.
Qed.

Lemma search_pass_full obs q c pblock :
  0 <= q -> c = 2^16 - 1 -> exists why, pass obs (q * 2^16 + c) pblock = inl why.
Proof.
  intros Hq ->. subst pass. unfold search_pass.
  assert (Hlow : (Z.land (q * 2^16 + (2^16 - 1)) 0xffff =? 0xffff) = true).
  { rewrite low16_is_mod. apply Z.eqb_eq.
    rewrite Z.add_comm, Z.mod_add, Z.mod_small; lia. }
  rewrite Hlow.
  repeat match goal with
         | |- exists why, (if ?b then _ else _) = _ => destruct b; [by eexists |]
         end.
  by eexists.
Qed.

Lemma search_counts observations : forall q c pblock,
  0 <= q < 2^240 -> 0 <= c < 2^16 ->
  exists c' pblock',
    (run observations (q * 2^16 + c) pblock).2 = pblock'
    /\ (run observations (q * 2^16 + c) pblock).1.2 = q * 2^16 + c'
    /\ c <= c' < 2^16
    /\ c' - c <= Z.of_nat (length observations)
    /\ ((run observations (q * 2^16 + c) pblock).1.1 = None ->
        c' - c = Z.of_nat (length observations)).
Proof.
  induction observations as [|obs rest IH]; intros q c pblock Hq Hc.
  - exists c, pblock. cbn. repeat split; lia.
  - subst run. cbn [search]. fold pass.
    destruct (pass obs (q * 2^16 + c) pblock) as [why|[nNonce' pblock']] eqn:Hp.
    + exists c, pblock. cbn [fst snd length]. repeat split; try lia. discriminate.
    + destruct (search_pass_next _ _ _ _ _ _ Hq Hc Hp) as [Hlt ->].
      destruct (IH q (c + 1) pblock' Hq ltac:(lia)) as (c' & p' & H1 & H2 & H3 & H4 & H5).
      exists c', p'. cbn [length]. repeat split; try done; try lia.
      intros Hnone. specialize (H5 Hnone). lia.
Qed.

End SearchLoopFacts.

(** X15.  The nonce of a template is the random value with its top and
    bottom 16 bits cleared: bits 16 to 239 hold the low 224 bits of
    [GetRandHash()].  The inner loop of [BitcoinMiner] uses the bottom
    16 bits as its counter: whatever the solver and the node report,
    every pass that goes on adds one to them and leaves the bits above
    untouched, and the loop is left after at most 65536 passes on a
    template. *)
Theorem X15_nonce_counter consensusParams solver MineBlocksOnDemand MiningRequiresPeers
    pindexPrev nTransactionsUpdatedLast nStart nMockTime rand observations pblock :
  let nNonce := randomise_nonce rand in
  let r := search consensusParams solver MineBlocksOnDemand MiningRequiresPeers
             pindexPrev nTransactionsUpdatedLast nStart nMockTime
             observations nNonce pblock in
  nNonce = (rand mod 2^224) * 2^16
  /\ Z.land nNonce 0xffff = 0
  /\ 0 <= nNonce < 2^240
  /\ r.1.2 / 2^16 = nNonce / 2^16
  /\ nNonce <= r.1.2 <= nNonce + 65535
  /\ r.1.2 - nNonce <= Z.of_nat (length observations)
  /\ (r.1.1 = None -> r.1.2 - nNonce = Z.of_nat (length observations))
  /\ (65536 <= Z.of_nat (length observations) -> r.1.1 <> None).
Proof.
  intros nNonce r.
  pose proof (randomise_nonce_value rand) as Hv. fold nNonce in Hv.
  set (q := rand mod 2^224) in *.
  assert (Hq : 0 <= q < 2^224) by (apply Z.mod_pos_bound; lia).
  destruct (search_counts consensusParams solver MineBlocksOnDemand MiningRequiresPeers
              pindexPrev nTransactionsUpdatedLast nStart nMockTime
              observations q 0 pblock ltac:(lia) ltac:(lia))
    as (c' & p' & _ & H2 & H3 & H4 & H5).
  rewrite Z.add_0_r, <- Hv in H2, H5. fold r in H2, H5.
  split; [exact Hv |]. split.
  { rewrite low16_is_mod, Hv. apply Z.mod_mul. lia. }
  split; [lia |]. split.
  { rewrite H2, Hv. rewrite Z.div_add_l, Z.div_mul, Z.div_small by lia. lia. }
  rewrite H2, Hv. split; [lia |]. split; [lia |]. split.
  - intros Hnone. specialize (H5 Hnone). lia.
  - intros Hlen Hnone. specialize (H5 Hnone). lia.
Qed.
(** ** The mining driver *)

(** X16.  What [ProcessBlockFound] does with a block of the miner.  For
    a block made by [CreateNewBlock] and [IncrementExtraNonce]: with a
    transparent miner address the "generated" log line shows the miner's
    reward, the subsidy less the deductions plus the fees; with a
    shielded miner address it shows the first transparent deduction
    instead, and where there is none the element [vtx[0].vout[0]] it
    reads does not exist.  When it returns, it returns true exactly when
    the block builds on the current tip and [ProcessNewBlock] accepted
    it; a stale block is neither announced nor submitted, and a block is
    tracked as mined exactly when it was accepted. *)
Theorem X16_process_block_found chainparams prover policy txo coins hashes args
    pindexPrev sapling_tree0 scan minerAddress t st t' st' node tip_hash :
  CreateNewBlock chainparams prover policy txo coins hashes args
    pindexPrev sapling_tree0 scan minerAddress None = Returned t ->
  IncrementExtraNonce chainparams policy hashes t pindexPrev st = NonceUpdated t' st' ->
  let nHeight := bi_nHeight pindexPrev + 1 in
  let s := selection_result chainparams policy txo coins args pindexPrev scan in
  let reward := GetBlockSubsidy chainparams nHeight
                - coinbase_deductions chainparams nHeight + nFees s in
  let r := ProcessBlockFound node tip_hash (block t') in
  let hash := CBlock_GetHash node (block t') in
  (forall coinbaseScript, minerAddress = MinerScript coinbaseScript ->
     exists ok log, r = Some (ok, LogBlock :: LogGenerated reward :: log))
  /\ (IsShieldedMinerAddress minerAddress = true ->
      match deduction_outputs chainparams nHeight with
      | [] => r = None
      | out0 :: _ => exists ok log, r = Some (ok, LogBlock :: LogGenerated (nValue out0) :: log)
      end)
  /\ (forall ok log, r = Some (ok, log) ->
        (ok = true <->
         tip_hash = bi_hash pindexPrev /\ ProcessNewBlock node (block t') = true)
        /\ (tip_hash <> bi_hash pindexPrev ->
            (SignalBlockFound hash ∉ log) /\ (CallProcessNewBlock ∉ log))
        /\ (CallTrackMinedBlock hash ∈ log <-> ok = true)).
Proof.
  intros Hnew Hinc nHeight s reward r hash.
  destruct (CreateNewBlock_returns _ _ _ _ _ _ _ _ _ _ _ _ _ Hnew)
    as (cb & Hcb & Hv & _ & _ & Hprev & _).
  cbv zeta in Hcb, Hv. fold nHeight s in Hcb, Hv.
  pose proof (CreateCoinbaseTransaction_spec chainparams prover (nFees s) minerAddress
                nHeight) as Hspec.
  destruct (CreateCoinbaseTransaction _ _ _ _ _) as [[mtx|e] tr]; [| discriminate].
  cbn [fst] in Hcb. injection Hcb as ->.
  destruct Hspec as [[_ _ _ Hvout _] _]. fold reward in Hvout.
  unfold IncrementExtraNonce in Hinc. cbv zeta in Hinc.
  destruct (blk_vtx (block t)) as [|cb0 rest] eqn:Hvtx; [discriminate |].
  assert (Hcb0 : cb0 = cb).
  { destruct (vtx s); cbn in Hv; [discriminate | congruence]. }
  subst cb0.
  destruct (vin cb) as [|in0 ins]; [discriminate |].
  destruct (negb (Z.of_nat (length _) <=? 100)); [discriminate |].
  injection Hinc as <- <-.
  subst r hash. unfold ProcessBlockFound.
  cbn [block blk_vtx hashPrevBlock set_vin vout]. rewrite Hprev, Hvout.
  set (b := {| hashPrevBlock := bi_hash pindexPrev; hashMerkleRoot := _;
               hashBlockCommitments := _; blk_vtx := _ |}).
  assert (Hcases : forall out0 : CTxOut,
    let r := (let log := [LogBlock; LogGenerated (nValue out0)] in
              if negb (N.eqb (bi_hash pindexPrev) tip_hash) then
                Some (false, log ++ [LogError "ZcashMiner: generated block is stale"])
              else
                let log := log ++ [SignalBlockFound (CBlock_GetHash node b)] in
                if negb (ProcessNewBlock node b) then
                  Some (false, log ++ [CallProcessNewBlock;
                           LogError "ZcashMiner: ProcessNewBlock, block not accepted"])
                else
                  Some (true, log ++ [CallProcessNewBlock;
                                      CallTrackMinedBlock (CBlock_GetHash node b)])) in
    (exists ok log, r = Some (ok, LogBlock :: LogGenerated (nValue out0) :: log))
    /\ (forall ok log, r = Some (ok, log) ->
          (ok = true <-> tip_hash = bi_hash pindexPrev /\ ProcessNewBlock node b = true)
          /\ (tip_hash <> bi_hash pindexPrev ->
              (SignalBlockFound (CBlock_GetHash node b) ∉ log) /\ (CallProcessNewBlock ∉ log))
          /\ (CallTrackMinedBlock (CBlock_GetHash node b) ∈ log <-> ok = true))).
  { intros out0. cbv zeta.
    destruct (N.eqb_spec (bi_hash pindexPrev) tip_hash) as [Heq|Hne]; cbn [negb].
    - destruct (ProcessNewBlock node b) eqn:Hp; cbn [negb app].
      + split; [by eexists _, _ |]. intros ok log [= <- <-].
        split; [done |]. split; [congruence |].
        split; [done |]. intros _. repeat constructor.
      + split; [by eexists _, _ |]. intros ok log [= <- <-].
        split; [split; [discriminate | intros [_ ?]; discriminate] |].
        split; [congruence |].
        split; [| discriminate]. intros Hin.
        repeat (apply elem_of_cons in Hin as [Hin|Hin]; [discriminate |]).
        by apply elem_of_nil in Hin.
    - cbn [app]. split; [by eexists _, _ |]. intros ok log [= <- <-].
      split; [split; [discriminate | intros [? _]; congruence] |].
      split.
      + intros _. split; intros Hin;
          repeat (apply elem_of_cons in Hin as [Hin|Hin]; [discriminate |]);
          by apply elem_of_nil in Hin.
      + split; [| discriminate]. intros Hin.
        repeat (apply elem_of_cons in Hin as [Hin|Hin]; [discriminate |]).
        by apply elem_of_nil in Hin. }
  split; [| split].
  - intros cs ->. cbn [app]. apply (Hcases {| nValue := reward; scriptPubKey := reserveScript cs |}).
  - intros Hsh. destruct minerAddress as [to|pa|cs]; [| | discriminate]; cbn [app];
      (destruct (deduction_outputs chainparams nHeight) as [|out0 outs];
       [reflexivity | apply (Hcases out0)]).
  - destruct (match minerAddress with MinerScript _ => _ | _ => [] end
              ++ deduction_outputs chainparams nHeight) as [|out0 outs]; [discriminate |].
    apply (Hcases out0).
Qed.
(** X16 at a sample input: a Sapling miner on a chain whose funding
    streams have ended, on top of height 219.  The coinbase has no
    transparent output, and the log line of [ProcessBlockFound] reads an
    element that does not exist. *)
Lemma X16_process_block_found_witness :
  exists t t' st',
    CreateNewBlock Sample2.chainparams_no_streams Sample.prover Sample.policy Sample.txo
      Sample.coins Sample.hashes Sample.args (Sample.tip 219) [] Sample.scan
      (MinerSapling 9%N) None = Returned t
    /\ IncrementExtraNonce Sample2.chainparams_no_streams Sample.policy Sample.hashes t
         (Sample.tip 219) {| static_hashPrevBlock := 0%N; nExtraNonce := 0 |}
       = NonceUpdated t' st'
    /\ ProcessBlockFound SampleNode.node 42%N (block t') = None.
Proof.
  destruct (CreateNewBlock Sample2.chainparams_no_streams Sample.prover Sample.policy
              Sample.txo Sample.coins Sample.hashes Sample.args (Sample.tip 219) []
              Sample.scan (MinerSapling 9%N) None) as [t|e] eqn:Ht;
    [| vm_compute in Ht; discriminate].
  destruct (IncrementExtraNonce Sample2.chainparams_no_streams Sample.policy Sample.hashes t
              (Sample.tip 219) {| static_hashPrevBlock := 0%N; nExtraNonce := 0 |})
    as [t' st'| |] eqn:Hinc;
    [| vm_compute in Ht; injection Ht as <-; vm_compute in Hinc; discriminate
     | vm_compute in Ht; injection Ht as <-; vm_compute in Hinc; discriminate].
  exists t, t', st'. split; [reflexivity |]. split; [exact Hinc |].
  destruct (X16_process_block_found Sample2.chainparams_no_streams Sample.prover
              Sample.policy Sample.txo Sample.coins Sample.hashes Sample.args
              (Sample.tip 219) [] Sample.scan (MinerSapling 9%N) t
              {| static_hashPrevBlock := 0%N; nExtraNonce := 0 |} t' st'
              SampleNode.node 42%N Ht Hinc) as (_ & Hshielded & _).
  exact (Hshielded eq_refl).
Defined.

(** X17.  [GetMinerAddress] never takes an address away.  It leaves the
    caller's value as it was unless [-mineraddress] decodes to a payment
    address from which [ExtractMinerAddress] extracts a miner address at
    the height of the next block, and then it stores that address: a
    P2SH or Sprout address in [-mineraddress], or one that does not
    decode, is ignored without notice, and a value the caller had is
    never replaced by none. *)
Theorem X17_miner_address_from_argument consensus DecodePaymentAddress chain_height
    mAddrArg minerAddress :
  let r := GetMinerAddress consensus DecodePaymentAddress chain_height mAddrArg
             minerAddress in
  (r = minerAddress
   \/ exists zaddr0 zaddr,
        DecodePaymentAddress mAddrArg = Some zaddr0
        /\ ExtractMinerAddress consensus (chain_height + 1) zaddr0 = Some zaddr
        /\ r = Some zaddr)
  /\ (minerAddress <> None -> r <> None)
  /\ (DecodePaymentAddress mAddrArg = None -> r = minerAddress)
  /\ (forall zaddr0,
        DecodePaymentAddress mAddrArg = Some zaddr0 ->
        match zaddr0 with
        | PaymentScriptID _ | PaymentSprout _ => r = minerAddress
        | PaymentSapling addr => r = Some (MinerSapling addr)
        | PaymentKeyID keyID =>
            r = Some (MinerScript {| reserveScript := P2PKH_script keyID |})
        | PaymentUnified addr =>
            GetPreferredRecipientAddress consensus addr (chain_height + 1) = None ->
            r = minerAddress
        end).
Proof.
  intros r. subst r. unfold GetMinerAddress. cbv zeta.
  destruct (DecodePaymentAddress mAddrArg) as [zaddr0|] eqn:Hdec.
  - destruct (ExtractMinerAddress consensus (chain_height + 1) zaddr0) as [zaddr|] eqn:Hex.
    + split; [right; by exists zaddr0, zaddr |]. split; [done |]. split; [done |].
      intros z [= <-]. destruct zaddr0 as [keyID|sid|sp|sa|ua]; cbn in Hex; try discriminate.
      * rewrite <- Hex. apply ExtractMinerAddress_KeyID_script.
      * by rewrite <- Hex.
      * intros Hnone. rewrite Hnone in Hex. discriminate.
    + split; [by left |]. split; [done |]. split; [done |].
      intros z [= <-]. destruct zaddr0 as [keyID|sid|sp|sa|ua]; cbn in Hex; try done.
  - split; [by left |]. split; [done |]. split; [done |]. intros z [=].
Qed.
(** ** The hex dump of the alert test generator *)

(** The five characters written for a byte. *)
Definition hex_item (x : Z) : list ascii :=
  let val := to_uint8 x in
  ["0"; "x"; hexmap_at (Z.shiftr val 4); hexmap_at (Z.land val 15); ","]%char.

Lemma HexStrArray_from_app lineLength data : forall first i rv,
  HexStrArray_from lineLength first i data rv
  = (rv ++.) <$> HexStrArray_from lineLength first i data [].
Proof.
  induction data as [|x rest IH]; intros first i rv; cbn [HexStrArray_from].
  - cbn. by rewrite app_nil_r.
  - destruct (if first then Some [] else _) as [sep|]; [| done].
    rewrite IH. rewrite (IH false (i + 1) ([] ++ _)).
    destruct (HexStrArray_from lineLength false (i + 1) rest []) as [s|]; [| done].
    cbn. by rewrite <- !app_assoc.
Qed.

(** The value of a hex digit. *)
Definition hex_value (c : ascii) : Z :=
  let n := Z.of_nat (nat_of_ascii c) in
  if (48 <=? n) && (n <=? 57) then n - 48
  else if (97 <=? n) && (n <=? 102) then n - 87
  else 0.

(** Reads a dump back: ["0x"], two digits and a comma give a byte;
    any other character is passed over. *)
Fixpoint HexStrArray_parse (s : list ascii) : list Z :=
  match s with
  | [] => []
  | c0 :: rest0 =>
      match rest0 with
      | c1 :: hi :: lo :: c4 :: rest =>
          if Ascii.eqb c0 "0" && Ascii.eqb c1 "x" && Ascii.eqb c4 ","
          then 16 * hex_value hi + hex_value lo :: HexStrArray_parse rest
          else HexStrArray_parse rest0
      | _ => HexStrArray_parse rest0
      end
  end.

Lemma hex_value_hexmap_at i : 0 <= i < 16 -> hex_value (hexmap_at i) = i.
Proof.
  intros Hi.
  assert (H : List.In i [0; 1; 2; 3; 4; 5; 6; 7; 8; 9; 10; 11; 12; 13; 14; 15])
    by (cbn; lia).
  cbn in H. repeat destruct H as [<-|H]; try reflexivity. done.
Qed.

Lemma hex_item_value x :
  let val := to_uint8 x in
  16 * hex_value (hexmap_at (Z.shiftr val 4)) + hex_value (hexmap_at (Z.land val 15)) = val.
Proof.
  intros val. assert (Hv : 0 <= val < 2^8) by (apply Z.mod_pos_bound; lia).
  rewrite Z.shiftr_div_pow2 by lia.
  change 15 with (Z.ones 4). rewrite Z.land_ones by lia.
  rewrite !hex_value_hexmap_at.
  - change (2^4) with 16. pose proof (Z.div_mod val 16). lia.
  - apply Z.mod_pos_bound. lia.
  - split; [apply Z.div_pos; lia | apply Z.div_lt_upper_bound; lia].
Qed.

Lemma HexStrArray_parse_item x s :
  HexStrArray_parse (hex_item x ++ s) = to_uint8 x :: HexStrArray_parse s.
Proof.
  unfold hex_item. cbn [app HexStrArray_parse]. cbn [Ascii.eqb Bool.eqb andb].
  by rewrite hex_item_value.
Qed.

Lemma HexStrArray_parse_separator c x s :
  c = " "%char \/ c = "010"%char ->
  HexStrArray_parse (c :: hex_item x ++ s) = HexStrArray_parse (hex_item x ++ s).
Proof.
  intros [-> | ->]; unfold hex_item; cbn [app]; reflexivity.
Qed.

(** The dump from position [i] on: it succeeds when the line length is
    not 0 or there is no separator to write, has five characters per
    byte and one separator between two bytes, and reads back as the
    bytes. *)
Lemma HexStrArray_from_spec lineLength data : forall first i,
  (lineLength <> 0 \/ (first = true /\ (length data <= 1)%nat)) ->
  exists s,
    HexStrArray_from lineLength first i data [] = Some s
    /\ (length s + (if first then 1 else 0) = 6 * length data
        \/ (data = [] /\ s = []))%nat
    /\ HexStrArray_parse s = to_uint8 <$> data.
Proof.
  induction data as [|x rest IH]; intros first i Hok.
  - exists []. split; [done |]. split; [by right | done].
  - cbn [HexStrArray_from].
    assert (Hsep : exists sep,
      (if first then Some []
       else if lineLength =? 0 then None
            else if Z.rem i lineLength =? 0 then Some ["010"%char] else Some [" "%char])
      = Some sep
      /\ (sep = [] /\ first = true
          \/ first = false /\ exists c, sep = [c] /\ (c = " "%char \/ c = "010"%char))).
    { destruct first; [exists []; split; [done | by left] |].
      destruct Hok as [Hne | [? _]]; [| discriminate].
      destruct (Z.eqb_spec lineLength 0); [done |].
      destruct (Z.rem i lineLength =? 0); eexists; (split; [reflexivity |]); right;
        (split; [done |]); eexists; (split; [reflexivity |]); tauto. }
    destruct Hsep as (sep & -> & Hshape).
    rewrite HexStrArray_from_app. fold (hex_item x).
    assert (Hrest : lineLength <> 0 \/ false = true /\ (length rest <= 1)%nat \/ rest = []).
    { destruct Hok as [Hne | [_ Hlen]]; [by left |]. right. right.
      destruct rest; [done | cbn in Hlen; lia]. }
    destruct Hrest as [Hne | [[? _] | ->]]; [| discriminate |].
    + destruct (IH false (i + 1) (or_introl Hne)) as (s & -> & Hlen & Hparse).
      exists (([] ++ sep ++ hex_item x) ++ s). split; [done |]. cbn [app].
      split.
      * left. rewrite !length_app. change (length (hex_item x)) with 5%nat.
        destruct Hshape as [[-> ->] | (-> & c & -> & _)];
          destruct Hlen as [Hlen | [-> ->]]; cbn [length] in *; lia.
      * rewrite <- app_assoc.
        destruct Hshape as [[-> _] | (_ & c & -> & Hc)]; cbn [app fmap list_fmap].
        -- by rewrite HexStrArray_parse_item, Hparse.
        -- by rewrite (HexStrArray_parse_separator c x s Hc), HexStrArray_parse_item, Hparse.
    + cbn [HexStrArray_from fmap option_fmap option_map].
      exists (([] ++ sep ++ hex_item x) ++ []). split; [done |]. rewrite app_nil_r. cbn [app].
      split.
      * left. rewrite !length_app. change (length (hex_item x)) with 5%nat.
        destruct Hshape as [[-> ->] | (-> & c & -> & _)]; cbn [length]; lia.
      * destruct Hshape as [[-> _] | (_ & c & -> & Hc)]; cbn [app fmap list_fmap].
        -- rewrite <- (app_nil_r (hex_item x)). by rewrite HexStrArray_parse_item.
        -- rewrite <- (app_nil_r (hex_item x)).
           by rewrite (HexStrArray_parse_separator c x [] Hc), HexStrArray_parse_item.
Qed.

(** X18.  The hex dump of the alert test generator has five characters
    for every byte and one separator between two bytes, [6 n - 1]
    characters for [n] bytes and none for none.  It is defined for every
    line length but 0; with line length 0 the remainder [i % lineLength]
    that chooses the separator divides by zero, so that only the dumps
    of at most one byte, which need no separator, are defined. *)
Theorem X18_hex_dump_length data :
  (forall lineLength, lineLength <> 0 ->
     exists s, HexStrArray data lineLength = Some s
               /\ length s = (6 * length data - 1)%nat)
  /\ (HexStrArray data 0 = None <-> (2 <= length data)%nat)
  /\ HexStrArray [] 0 = Some [].
Proof.
  split; [| split; [| reflexivity]].
  - intros lineLength Hne.
    destruct (HexStrArray_from_spec lineLength data true 0 (or_introl Hne))
      as (s & Hs & Hlen & _).
    exists s. split; [exact Hs |]. destruct Hlen as [Hlen | [-> ->]]; [lia | done].
  - split.
    + intros Hnone. destruct (le_lt_dec (length data) 1) as [Hle|Hgt]; [| lia].
      destruct (HexStrArray_from_spec 0 data true 0 (or_intror (conj eq_refl Hle)))
        as (s & Hs & _). unfold HexStrArray in Hnone. congruence.
    + intros Hlen. destruct data as [|x [|y rest]]; cbn in Hlen; try lia. reflexivity.
Qed.

(** X19.  The hex dump can be read back.  Whatever the line length, the
    dump that [HexStrArray] produces holds, between its separators, the
    two lower-case hex digits of each element as an [unsigned char], in
    order: parsing it returns the bytes, so that two byte strings with
    the same dump are equal. *)
Theorem X19_hex_dump_reads_back data lineLength s :
  HexStrArray data lineLength = Some s ->
  HexStrArray_parse s = to_uint8 <$> data
  /\ (forall data', HexStrArray data' lineLength = Some s ->
        to_uint8 <$> data' = to_uint8 <$> data).
Proof.
  assert (Hparse : forall d s', HexStrArray d lineLength = Some s' ->
                                HexStrArray_parse s' = to_uint8 <$> d).
  { intros d s' Hs.
    assert (Hok : lineLength <> 0 \/ true = true /\ (length d <= 1)%nat).
    { destruct (Z.eq_dec lineLength 0) as [->|Hne]; [right | by left].
      split; [done |]. destruct d as [|x [|y rest]]; cbn; try lia. discriminate. }
    destruct (HexStrArray_from_spec lineLength d true 0 Hok) as (s0 & Hs0 & _ & Hp).
    unfold HexStrArray in Hs. congruence. }
  intros Hs. split; [by apply Hparse |].
  intros data' Hs'. rewrite <- (Hparse data' s Hs'). by apply Hparse.
Qed.

(** X19 at a sample input: three bytes, two to a line. *)
Lemma X19_hex_dump_reads_back_witness :
  HexStrArray [0x00; 0xab; 0x7f] 2
  = Some (list_ascii_of_string "0x00, 0xab,
0x7f,")
  /\ HexStrArray_parse (list_ascii_of_string "0x00, 0xab,
0x7f,") = [0x00; 0xab; 0x7f].
Proof.
  split; [vm_compute; reflexivity |].
  apply (X19_hex_dump_reads_back [0x00; 0xab; 0x7f] 2). vm_compute. reflexivity.
Defined.
(** ** The scan of the mempool *)

Section MempoolScanFacts.

Variable policy : Policy.
Variable txo : TxOracle.
Variable mp : MempoolView.
Variable nHeight : Z.

(** The hashes of the transactions whose outputs a transaction spends. *)
Definition input_hashes (tx : CTransaction) : list uint256 :=
  List.map (fun txin => prevout_hash (prevout txin)) (vin tx).

(** Those of them the view of the tip has no coins for. *)
Definition missing_from_chain (hashes : list uint256) : list uint256 :=
  List.filter (fun h => negb (HaveCoins mp h)) hashes.

(** The transaction spends an output that is not in the chain. *)
Definition waits_for_parent (tx : CTransaction) : bool :=
  match missing_from_chain (input_hashes tx) with [] => false | _ => true end.

(** Every input of the transaction is in the chain or in the mempool. *)
Definition inputs_known (tx : CTransaction) : Prop :=
  forall h, In h (missing_from_chain (input_hashes tx)) -> mapTx_find txo mp h <> None.

(** The pointers between orphans and [mapDependers] agree: every hash an
    orphan waits for lists the orphan, and every pointer listed under a
    hash points to an orphan that waits for it. *)
Definition links_ok (vOrphan : list COrphan) (mapDependers : gmap N (list nat)) : Prop :=
  (forall i o h, vOrphan !! i = Some o -> h ∈ setDependsOn o ->
     exists l, mapDependers !! h = Some l /\ i ∈ l)
  /\ (forall h l p, mapDependers !! h = Some l -> p ∈ l ->
        exists o, vOrphan !! p = Some o /\ h ∈ setDependsOn o).

(** The state of the loop over the inputs of [tx], after the inputs with
    the hashes [done]: no orphan yet and nothing missing, or the orphan
    of [tx] at the end of the list, waiting for what is missing. *)
Definition pending_ok (tx : CTransaction) (vOrphan0 : list COrphan)
    (done : list uint256) (st : InputLoop) : Prop :=
  il_fMissingInputs st = false
  /\ match il_porphan st with
     | None => il_vOrphan st = vOrphan0 /\ missing_from_chain done = []
     | Some p =>
         p = length vOrphan0
         /\ exists o, il_vOrphan st = vOrphan0 ++ [o] /\ ptx o = tx
                      /\ missing_from_chain done <> []
                      /\ forall h, h ∈ setDependsOn o <-> In h (missing_from_chain done)
     end.

Lemma missing_from_chain_app a b :
  missing_from_chain (a ++ b) = missing_from_chain a ++ missing_from_chain b.
Proof. apply List.filter_app. Qed.

(** Registering the orphan at [p] under [hash] keeps the pointers in
    agreement. *)
Lemma links_ok_register vOrphan mapDependers (hash : N) p o :
  vOrphan !! p = Some o ->
  links_ok vOrphan mapDependers ->
  links_ok (alter (COrphan_depend hash) p vOrphan)
    (<[hash := default [] (mapDependers !! hash) ++ [p]]> mapDependers).
Proof.
  intros Hp [Hreg Hvalid]. split.
  - intros i x h Hi Hh. rewrite list_lookup_alter in Hi.
    destruct (decide (p = i)) as [<-|Hne].
    + rewrite Hp in Hi. cbn in Hi. injection Hi as <-. cbn [setDependsOn COrphan_depend] in Hh.
      apply elem_of_union in Hh as [Hh|Hh].
      * apply elem_of_singleton in Hh as ->. eexists. rewrite lookup_insert_eq.
        split; [reflexivity |]. apply elem_of_app. right. apply list_elem_of_here.
      * destruct (Hreg p o h Hp Hh) as (l & Hl & Hin).
        destruct (decide (hash = h)) as [Heq|Hnh]; [subst h |].
        -- eexists. rewrite lookup_insert_eq. split; [reflexivity |].
           rewrite Hl. cbn. apply elem_of_app. by left.
        -- exists l. by rewrite lookup_insert_ne.
    + destruct (Hreg i x h Hi Hh) as (l & Hl & Hin).
      destruct (decide (hash = h)) as [Heq|Hnh]; [subst h |].
      * eexists. rewrite lookup_insert_eq. split; [reflexivity |].
        rewrite Hl. cbn. apply elem_of_app. by left.
      * exists l. by rewrite lookup_insert_ne.
  - intros h l q Hl Hq.
    destruct (decide (hash = h)) as [Heq|Hnh]; [subst h |].
    + rewrite lookup_insert_eq in Hl. injection Hl as <-.
      apply elem_of_app in Hq as [Hq|Hq].
      * destruct (mapDependers !! hash) as [l0|] eqn:Hl0; [| by apply elem_of_nil in Hq].
        cbn in Hq. destruct (Hvalid hash l0 q Hl0 Hq) as (x & Hx & Hin).
        rewrite list_lookup_alter. destruct (decide (p = q)) as [->|Hne].
        -- rewrite Hx. cbn. eexists. split; [reflexivity |].
           cbn. apply elem_of_union. by right.
        -- by exists x.
      * apply list_elem_of_singleton in Hq as ->.
        rewrite list_lookup_alter_eq, Hp. cbn. eexists. split; [reflexivity |].
        cbn. apply elem_of_union. left. by apply elem_of_singleton.
    + rewrite lookup_insert_ne in Hl by done.
      destruct (Hvalid h l q Hl Hq) as (x & Hx & Hin).
      rewrite list_lookup_alter. destruct (decide (p = q)) as [->|Hne].
      * rewrite Hx. cbn. eexists. split; [reflexivity |].
        cbn. apply elem_of_union. by right.
      * by exists x.
Qed.

(** A new orphan, which waits for nothing yet, keeps them in agreement. *)
Lemma links_ok_push vOrphan mapDependers tx :
  links_ok vOrphan mapDependers -> links_ok (vOrphan ++ [COrphan_new tx]) mapDependers.
Proof.
  intros [Hreg Hvalid]. split.
  - intros i o h Hi Hh. apply lookup_app_Some in Hi as [Hi | [_ Hi]]; [by eapply Hreg |].
    destruct (i - length vOrphan)%nat; cbn in Hi; [| done].
    injection Hi as <-. cbn in Hh. by apply not_elem_of_empty in Hh.
  - intros h l p Hl Hp. destruct (Hvalid h l p Hl Hp) as (o & Ho & Hin).
    exists o. split; [| done]. by apply lookup_app_l_Some.
Qed.

(** Writing the priority and the fees of an orphan does so, too. *)
Lemma links_ok_alter_fees vOrphan mapDependers p f :
  (forall o, setDependsOn (f o) = setDependsOn o) ->
  links_ok vOrphan mapDependers -> links_ok (alter f p vOrphan) mapDependers.
Proof.
  intros Hf [Hreg Hvalid]. split.
  - intros i o h Hi Hh. rewrite list_lookup_alter in Hi.
    destruct (decide (p = i)) as [<-|Hne]; [| by eapply Hreg].
    destruct (vOrphan !! p) as [x|] eqn:Hx; [| done]. cbn in Hi. injection Hi as <-.
    rewrite Hf in Hh. by eapply Hreg.
  - intros h l q Hl Hq. destruct (Hvalid h l q Hl Hq) as (o & Ho & Hin).
    rewrite list_lookup_alter. destruct (decide (p = q)) as [->|Hne]; [| by exists o].
    rewrite Ho. cbn. exists (f o). split; [done |]. by rewrite Hf.
Qed.

(** One input. *)
Lemma scan_input_spec tx vOrphan0 done txin st :
  let hash := prevout_hash (prevout txin) in
  (HaveCoins mp hash = false -> mapTx_find txo mp hash <> None) ->
  pending_ok tx vOrphan0 done st ->
  links_ok (il_vOrphan st) (il_mapDependers st) ->
  match scan_input txo mp nHeight tx txin st with
  | inl fault => fault <> AssertMissingInput
  | inr (stop, st') =>
      stop = false
      /\ pending_ok tx vOrphan0 (done ++ [hash]) st'
      /\ links_ok (il_vOrphan st') (il_mapDependers st')
  end.
Proof.
  intros hash Hknown [Hnot Hpend] Hlinks. unfold scan_input. fold hash.
  destruct (HaveCoins mp hash) eqn:Hhave; cbn [negb].
  - destruct (AccessCoins mp hash) as [coins|]; [| done].
    destruct (coins_vout coins !! _) as [out|]; [| done].
    split; [done |]. split; [| exact Hlinks].
    split; [exact Hnot |]. cbn [il_porphan il_vOrphan].
    rewrite missing_from_chain_app. cbn [missing_from_chain List.filter].
    rewrite Hhave. cbn [negb]. by rewrite app_nil_r.
  - specialize (Hknown eq_refl).
    destruct (mapTx_find txo mp hash) as [parent|]; [| done].
    assert (Hmiss : missing_from_chain (done ++ [hash]) = missing_from_chain done ++ [hash]).
    { rewrite missing_from_chain_app. cbn [missing_from_chain List.filter].
      by rewrite Hhave. }
    destruct (il_porphan st) as [p|] eqn:Hporphan.
    + destruct Hpend as (-> & o & Hvo & Hptx & Hne & Hdeps).
      cbn [fst snd].
      assert (Hat : il_vOrphan st !! length vOrphan0 = Some o).
      { rewrite Hvo. rewrite lookup_app_r by lia. by rewrite Nat.sub_diag. }
      destruct (vout parent !! _) as [out|]; [| done].
      split; [done |]. split.
      * split; [exact Hnot |]. cbn [il_porphan il_vOrphan]. split; [done |].
        exists (COrphan_depend hash o). split.
        { rewrite Hvo. rewrite <- (Nat.add_0_r (length vOrphan0)) at 1.
          by rewrite alter_app_r. }
        split; [exact Hptx |]. rewrite Hmiss. split.
        { by destruct (missing_from_chain done). }
        intros h. cbn [setDependsOn COrphan_depend].
        rewrite elem_of_union, elem_of_singleton, in_app_iff, Hdeps. cbn.
        intuition congruence.
      * cbn [il_vOrphan il_mapDependers]. by apply (links_ok_register _ _ _ _ o).
    + destruct Hpend as [Hvo Hnone]. cbn [fst snd].
      destruct (vout parent !! _) as [out|]; [| done].
      split; [done |]. split.
      * split; [exact Hnot |]. cbn [il_porphan il_vOrphan]. rewrite Hvo.
        split; [done |]. exists (COrphan_depend hash (COrphan_new tx)). split.
        { rewrite <- (Nat.add_0_r (length vOrphan0)) at 1. by rewrite alter_app_r. }
        split; [done |]. rewrite Hmiss, Hnone. split; [done |].
        intros h. cbn. rewrite elem_of_union, elem_of_singleton.
        split; [intros [-> | Hin]; [by left | by apply not_elem_of_empty in Hin] |].
        intros [-> | []]. by left.
      * cbn [il_vOrphan il_mapDependers].
        apply (links_ok_register _ _ _ _ (COrphan_new tx)).
        -- rewrite Hvo. rewrite lookup_app_r by lia. by rewrite Nat.sub_diag.
        -- by apply links_ok_push.
Qed.
(** The loop over the inputs. *)
Lemma scan_inputs_spec tx vOrphan0 : forall inputs done st,
  (forall h, In h (missing_from_chain
                     (List.map (fun txin => prevout_hash (prevout txin)) inputs)) ->
             mapTx_find txo mp h <> None) ->
  pending_ok tx vOrphan0 done st ->
  links_ok (il_vOrphan st) (il_mapDependers st) ->
  match scan_inputs txo mp nHeight tx inputs st with
  | inl fault => fault <> AssertMissingInput
  | inr st' =>
      pending_ok tx vOrphan0
        (done ++ List.map (fun txin => prevout_hash (prevout txin)) inputs) st'
      /\ links_ok (il_vOrphan st') (il_mapDependers st')
  end.
Proof.
  induction inputs as [|txin rest IH]; intros done st Hknown Hpend Hlinks.
  - cbn. by rewrite app_nil_r.
  - cbn [scan_inputs List.map].
    pose proof (scan_input_spec tx vOrphan0 done txin st) as Hstep. cbv zeta in Hstep.
    assert (Hhead : HaveCoins mp (prevout_hash (prevout txin)) = false ->
                    mapTx_find txo mp (prevout_hash (prevout txin)) <> None).
    { intros Hno. apply Hknown. cbn [List.map missing_from_chain List.filter].
      rewrite Hno. cbn. by left. }
    specialize (Hstep Hhead Hpend Hlinks).
    destruct (scan_input txo mp nHeight tx txin st) as [fault|[stop st1]]; [done |].
    destruct Hstep as (-> & Hpend1 & Hlinks1).
    specialize (IH (done ++ [prevout_hash (prevout txin)]) st1).
    rewrite <- app_assoc in IH. cbn [app] in IH. apply IH; [| done | done].
    intros h Hin. apply Hknown. cbn [List.map missing_from_chain List.filter].
    destruct (negb (HaveCoins mp (prevout_hash (prevout txin)))); [by right | done].
Qed.

(** The value of the output an input spends, read from the coins of
    the chain or from the parent in the mempool. *)
Definition input_value (txin : CTxIn) : option CAmount :=
  let hash := prevout_hash (prevout txin) in
  let n := Z.to_nat (prevout_n (prevout txin)) in
  if HaveCoins mp hash then
    match AccessCoins mp hash with
    | Some coins => option_map nValue (coins_vout coins !! n)
    | None => None
    end
  else
    match mapTx_find txo mp hash with
    | Some parent => option_map nValue (vout parent !! n)
    | None => None
    end.

(** The sum of the values of the outputs a list of inputs spends. *)
Fixpoint inputs_value (inputs : list CTxIn) : option CAmount :=
  match inputs with
  | [] => Some 0
  | txin :: rest =>
      match input_value txin, inputs_value rest with
      | Some v, Some w => Some (v + w)
      | _, _ => None
      end
  end.

(** The fee delta the administrator recorded for a transaction. *)
Definition fee_delta (hash : uint256) : CAmount :=
  match mapDeltas policy !! hash with Some deltas => deltas.2 | None => 0 end.

(** [fee] is what the transaction pays_fee: the transparent and shielded
    value it takes in, with its fee delta, less the value it puts out. *)
Definition pays_fee (tx : CTransaction) (fee : CAmount) : Prop :=
  exists v, inputs_value (vin tx) = Some v
            /\ fee = v + GetShieldedValueIn mp tx + fee_delta (GetHash txo tx)
                     - GetValueOut txo tx.

Lemma ApplyDeltas_fee hash d n : (ApplyDeltas policy hash d n).2 = n + fee_delta hash.
Proof.
  unfold ApplyDeltas, fee_delta. destruct (mapDeltas policy !! hash) as [[a b]|]; cbn [snd]; [reflexivity | lia].
Qed.

(** An input whose value is found is counted and the loop goes on. *)
Lemma scan_input_value tx txin st v :
  input_value txin = Some v ->
  exists st', scan_input txo mp nHeight tx txin st = inr (false, st')
              /\ il_nTotalIn st' = il_nTotalIn st + v
              /\ il_fMissingInputs st' = il_fMissingInputs st.
Proof.
  unfold input_value, scan_input. intros Hv.
  destruct (HaveCoins mp (prevout_hash (prevout txin))); cbn [negb].
  - destruct (AccessCoins mp (prevout_hash (prevout txin))) as [coins|]; [| done].
    destruct (coins_vout coins !! Z.to_nat (prevout_n (prevout txin))) as [out|]; [| done].
    injection Hv as <-. by eexists.
  - destruct (mapTx_find txo mp (prevout_hash (prevout txin))) as [parent|]; [| done].
    destruct (vout parent !! Z.to_nat (prevout_n (prevout txin))) as [out|]; [| done].
    injection Hv as <-. by eexists.
Qed.

(** An input after which the loop goes on had its value found and
    counted; one at which the loop breaks sets [fMissingInputs]. *)
Lemma scan_input_result tx txin st stop st' :
  scan_input txo mp nHeight tx txin st = inr (stop, st') ->
  if stop then il_fMissingInputs st' = true
  else exists v, input_value txin = Some v
                 /\ il_nTotalIn st' = il_nTotalIn st + v
                 /\ il_fMissingInputs st' = il_fMissingInputs st.
Proof.
  unfold input_value, scan_input. intros Hs.
  destruct (HaveCoins mp (prevout_hash (prevout txin))); cbn [negb] in Hs.
  - destruct (AccessCoins mp (prevout_hash (prevout txin))) as [coins|]; [| done].
    destruct (coins_vout coins !! Z.to_nat (prevout_n (prevout txin))) as [out|]; [| done].
    injection Hs as <- <-. by eexists.
  - destruct (mapTx_find txo mp (prevout_hash (prevout txin))) as [parent|].
    + destruct (vout parent !! Z.to_nat (prevout_n (prevout txin))) as [out|]; [| done].
      injection Hs as <- <-. by eexists.
    + destruct (fDebug mp); [done |]. by injection Hs as <- <-.
Qed.

Lemma scan_inputs_value tx : forall inputs st v,
  inputs_value inputs = Some v ->
  exists st', scan_inputs txo mp nHeight tx inputs st = inr st'
              /\ il_nTotalIn st' = il_nTotalIn st + v
              /\ il_fMissingInputs st' = il_fMissingInputs st.
Proof.
  induction inputs as [|txin rest IH]; intros st v Hv; cbn in Hv.
  - injection Hv as <-. exists st. cbn. split; [done |]. split; [lia | done].
  - destruct (input_value txin) as [v1|] eqn:H1; [| done].
    destruct (inputs_value rest) as [v2|] eqn:H2; [| done]. injection Hv as <-.
    destruct (scan_input_value tx txin st v1 H1) as (st1 & Hs & Ht & Hm).
    destruct (IH st1 v2 eq_refl) as (st2 & Hs2 & Ht2 & Hm2).
    exists st2. cbn [scan_inputs]. rewrite Hs. split; [done |]. split; [lia | congruence].
Qed.

Lemma scan_inputs_result tx : forall inputs st st',
  scan_inputs txo mp nHeight tx inputs st = inr st' ->
  il_fMissingInputs st = false ->
  il_fMissingInputs st' = false ->
  exists v, inputs_value inputs = Some v /\ il_nTotalIn st' = il_nTotalIn st + v.
Proof.
  induction inputs as [|txin rest IH]; intros st st' Hs Hm Hm'; cbn [scan_inputs] in Hs.
  - injection Hs as <-. exists 0. split; [done | lia].
  - destruct (scan_input txo mp nHeight tx txin st) as [fault|[stop st1]] eqn:H1; [done |].
    pose proof (scan_input_result tx txin st stop st1 H1) as Hr.
    destruct stop.
    + injection Hs as <-. congruence.
    + destruct Hr as (v1 & Hv1 & Ht1 & Hm1).
      destruct (IH st1 st' Hs) as (v2 & Hv2 & Ht2); [congruence | done |].
      exists (v1 + v2). cbn [inputs_value]. rewrite Hv1, Hv2. split; [done | lia].
Qed.

(** The transaction is not passed over by the first [continue]. *)
Definition scanned (tx : CTransaction) : bool := negb (scan_skips mp nHeight tx).

(** What the scan has made of the transactions [seen]: the queue holds
    those that wait for no parent, the orphans those that do, each in
    the order of the mempool; an orphan waits for the hashes of its
    inputs that the chain has no coins for; and the pointers agree. *)
Record scan_inv (seen : list CTransaction) (s : MempoolScan) : Prop := {
  inv_queue :
    List.map prio_tx (scan_vecPriority s)
    = List.filter (fun tx => scanned tx && negb (waits_for_parent tx)) seen;
  inv_orphans :
    List.map ptx (scan_vOrphan s)
    = List.filter (fun tx => scanned tx && waits_for_parent tx) seen;
  inv_deps : forall i o, scan_vOrphan s !! i = Some o ->
    forall h, h ∈ setDependsOn o <-> In h (missing_from_chain (input_hashes (ptx o)));
  inv_links : links_ok (scan_vOrphan s) (scan_mapDependers s);
  inv_queue_fee : forall e, e ∈ scan_vecPriority s ->
    pays_fee (prio_tx e) (prio_feePaid e)
    /\ prio_feeRate e
       = CFeeRate_of mp (prio_feePaid e) (to_uint32 (GetSerializeSize txo (prio_tx e)));
  inv_orphan_fee : forall o, o ∈ scan_vOrphan s ->
    pays_fee (ptx o) (feePaid o)
    /\ feeRate o = CFeeRate_of mp (feePaid o) (to_uint32 (GetSerializeSize txo (ptx o)))
}.

Lemma scan_inv_start : scan_inv [] MempoolScan_empty.
Proof.
  split; try done; intros x Hx; by apply elem_of_nil in Hx.
Qed.

Lemma scan_tx_spec seen s tx :
  (scanned tx = true -> inputs_known tx) ->
  scan_inv seen s ->
  match scan_tx policy txo mp nHeight s tx with
  | inl fault => fault <> AssertMissingInput
  | inr s' => scan_inv (seen ++ [tx]) s'
  end.
Proof.
  intros Hknown [Hq Ho Hd Hl Hqf Hof]. unfold scan_tx.
  destruct (scan_skips mp nHeight tx) eqn:Hskip.
  { split; rewrite ?List.filter_app; cbn [List.filter]; unfold scanned;
      rewrite ?Hskip; cbn [negb andb]; rewrite ?app_nil_r; done. }
  assert (Hsc : scanned tx = true) by (unfold scanned; by rewrite Hskip).
  specialize (Hknown Hsc).
  set (st0 := {| il_porphan := None; il_dPriority := 0%float; il_nTotalIn := 0;
                 il_fMissingInputs := false; il_vOrphan := scan_vOrphan s;
                 il_mapDependers := scan_mapDependers s |}).
  pose proof (scan_inputs_spec tx (scan_vOrphan s) (vin tx) [] st0 Hknown) as Hin.
  cbn [app] in Hin. fold (input_hashes tx) in Hin.
  assert (Hp0 : pending_ok tx (scan_vOrphan s) [] st0) by done.
  specialize (Hin Hp0 Hl).
  destruct (scan_inputs txo mp nHeight tx (vin tx) st0) as [fault|st1] eqn:Hsi; [done |].
  destruct Hin as [[Hnot Hpend] Hlinks]. rewrite Hnot.
  destruct (scan_inputs_result tx (vin tx) st0 st1 Hsi eq_refl Hnot) as (v & Hv & Ht).
  cbn [il_nTotalIn st0] in Ht.
  assert (Hfee : pays_fee tx
            ((ApplyDeltas policy (GetHash txo tx)
                (ComputePriority mp tx (il_dPriority st1)
                   (to_uint32 (GetSerializeSize txo tx)))
                (il_nTotalIn st1 + GetShieldedValueIn mp tx)).2 - GetValueOut txo tx)).
  { exists v. split; [exact Hv |]. rewrite ApplyDeltas_fee. lia. }
  destruct (il_porphan st1) as [p|].
  - destruct Hpend as (-> & o & Hvo & Hptx & Hne & Hdeps).
    assert (Hwait : waits_for_parent tx = true).
    { unfold waits_for_parent. by destruct (missing_from_chain (input_hashes tx)). }
    set (f := fun o : COrphan => {| ptx := ptx o; setDependsOn := setDependsOn o;
                                    feeRate := _; feePaid := _; dPriority := _ |}).
    assert (Halter : alter f (length (scan_vOrphan s)) (il_vOrphan st1)
                     = scan_vOrphan s ++ [f o]).
    { rewrite Hvo. rewrite <- (Nat.add_0_r (length (scan_vOrphan s))) at 1.
      by rewrite alter_app_r. }
    split; cbn [scan_vecPriority scan_vOrphan scan_mapDependers].
    + rewrite Hq, List.filter_app. cbn [List.filter]. rewrite Hsc, Hwait. cbn.
      by rewrite app_nil_r.
    + rewrite Halter, List.map_app, Ho, List.filter_app. cbn [List.filter List.map].
      rewrite Hsc, Hwait. cbn. by rewrite Hptx.
    + rewrite Halter. intros i x Hi.
      apply lookup_app_Some in Hi as [Hi | [_ Hi]]; [by apply (Hd i) |].
      destruct (i - length (scan_vOrphan s))%nat; cbn in Hi; [| done].
      injection Hi as <-. cbn [ptx setDependsOn f]. by rewrite Hptx.
    + by apply links_ok_alter_fees.
    + exact Hqf.
    + rewrite Halter. intros x Hx. apply elem_of_app in Hx as [Hx|Hx]; [by apply Hof |].
      apply list_elem_of_singleton in Hx as ->. cbn [ptx feePaid feeRate f].
      rewrite Hptx. by split.
  - destruct Hpend as [Hvo Hnone].
    assert (Hwait : waits_for_parent tx = false)
      by (unfold waits_for_parent; by rewrite Hnone).
    split; cbn [scan_vecPriority scan_vOrphan scan_mapDependers].
    + rewrite List.map_app, Hq, List.filter_app. cbn [List.filter List.map].
      by rewrite Hsc, Hwait.
    + rewrite Hvo, Ho, List.filter_app. cbn [List.filter]. rewrite Hsc, Hwait. cbn.
      by rewrite app_nil_r.
    + by rewrite Hvo.
    + exact Hlinks.
    + intros x Hx. apply elem_of_app in Hx as [Hx|Hx]; [by apply Hqf |].
      apply list_elem_of_singleton in Hx as ->.
      cbn [prio_tx prio_feePaid prio_feeRate]. by split.
    + by rewrite Hvo.
Qed.

Lemma scan_from_spec : forall txs seen s,
  (forall tx, In tx txs -> scanned tx = true -> inputs_known tx) ->
  scan_inv seen s ->
  match scan_from policy txo mp nHeight s txs with
  | inl fault => fault <> AssertMissingInput
  | inr s' => scan_inv (seen ++ txs) s'
  end.
Proof.
  induction txs as [|tx rest IH]; intros seen s Hknown Hinv.
  - cbn. by rewrite app_nil_r.
  - cbn [scan_from].
    pose proof (scan_tx_spec seen s tx (Hknown tx (or_introl eq_refl)) Hinv) as Hstep.
    destruct (scan_tx policy txo mp nHeight s tx) as [fault|s1]; [done |].
    specialize (IH (seen ++ [tx]) s1). rewrite <- app_assoc in IH. apply IH; [| done].
    intros x Hx. apply Hknown. by right.
Qed.

(** The mempool connects: every input of every transaction the scan
    looks at is in the chain or in the mempool. *)
Definition mempool_connects : Prop :=
  forall tx, In tx (mapTx mp) -> scanned tx = true -> inputs_known tx.

Lemma scan_mempool_spec scan :
  mempool_connects ->
  scan_mempool policy txo mp nHeight = inr scan -> scan_inv (mapTx mp) scan.
Proof.
  intros Hknown Hscan.
  pose proof (scan_from_spec (mapTx mp) [] MempoolScan_empty Hknown scan_inv_start) as H.
  unfold scan_mempool in Hscan. by rewrite Hscan in H.
Qed.

(** The value of every input of every transaction the scan looks at is
    found, in the chain or in the mempool. *)
Definition mempool_consistent : Prop :=
  forall tx, In tx (mapTx mp) -> scanned tx = true -> inputs_value (vin tx) <> None.

Lemma inputs_value_known : forall inputs,
  inputs_value inputs <> None ->
  forall h, In h (missing_from_chain
                    (List.map (fun txin => prevout_hash (prevout txin)) inputs)) ->
            mapTx_find txo mp h <> None.
Proof.
  induction inputs as [|txin rest IH]; intros Hv h Hin; [done |].
  cbn [inputs_value] in Hv. cbn [List.map missing_from_chain List.filter] in Hin.
  destruct (input_value txin) as [v|] eqn:H1; [| done].
  destruct (inputs_value rest) as [w|] eqn:H2; [| done].
  destruct (HaveCoins mp (prevout_hash (prevout txin))) eqn:Hc; cbn [negb] in Hin.
  - by apply IH.
  - destruct Hin as [<-|Hin]; [| by apply IH].
    unfold input_value in H1. rewrite Hc in H1.
    by destruct (mapTx_find txo mp (prevout_hash (prevout txin))).
Qed.

Lemma mempool_consistent_connects : mempool_consistent -> mempool_connects.
Proof.
  intros Hc tx Hin Hs. unfold inputs_known, input_hashes.
  apply inputs_value_known. by apply Hc.
Qed.

Lemma scan_tx_returns s tx :
  (scanned tx = true -> inputs_value (vin tx) <> None) ->
  exists s', scan_tx policy txo mp nHeight s tx = inr s'.
Proof.
  intros Hv. unfold scan_tx, scanned in *.
  destruct (scan_skips mp nHeight tx); [by eexists |].
  destruct (inputs_value (vin tx)) as [v|] eqn:Hval; [| by destruct Hv].
  edestruct (scan_inputs_value tx (vin tx)) as (st1 & -> & _ & _); [exact Hval |].
  destruct (il_fMissingInputs st1); [by eexists |].
  destruct (il_porphan st1); by eexists.
Qed.

Lemma scan_from_returns : forall txs s,
  (forall tx, In tx txs -> scanned tx = true -> inputs_value (vin tx) <> None) ->
  exists s', scan_from policy txo mp nHeight s txs = inr s'.
Proof.
  induction txs as [|tx rest IH]; intros s Hv; [by eexists |].
  cbn [scan_from].
  destruct (scan_tx_returns s tx (Hv tx (or_introl eq_refl))) as (s1 & ->).
  apply IH. intros x Hx. apply Hv. by right.
Qed.

End MempoolScanFacts.

(** X20.  On a mempool in which the value of every input is found, in
    the chain or in the mempool, the scan of [CreateNewBlock] runs to its
    end and sorts every transaction that is not a coinbase, is final and
    has not expired: into the priority queue when the chain has coins
    for all its inputs, into the orphans otherwise, each in the order of
    the mempool; and an orphan waits for exactly the hashes of its inputs
    that the chain has no coins for. *)
Theorem X20_scan_sorts_mempool policy txo mp nHeight :
  mempool_consistent txo mp nHeight ->
  exists scan,
    scan_mempool policy txo mp nHeight = inr scan
    /\ List.map prio_tx (scan_vecPriority scan)
       = List.filter (fun tx => negb (scan_skips mp nHeight tx)
                                && negb (waits_for_parent mp tx)) (mapTx mp)
    /\ List.map ptx (scan_vOrphan scan)
       = List.filter (fun tx => negb (scan_skips mp nHeight tx)
                                && waits_for_parent mp tx) (mapTx mp)
    /\ (forall o, o ∈ scan_vOrphan scan ->
          forall h, h ∈ setDependsOn o
                    <-> In h (input_hashes (ptx o)) /\ HaveCoins mp h = false).
Proof.
  intros Hc.
  destruct (scan_from_returns policy txo mp nHeight (mapTx mp) MempoolScan_empty Hc)
    as (scan & Hscan).
  exists scan. split; [exact Hscan |].
  destruct (scan_mempool_spec policy txo mp nHeight scan
              (mempool_consistent_connects txo mp nHeight Hc) Hscan)
    as [Hq Ho Hd _ _ _].
  split; [exact Hq |]. split; [exact Ho |].
  intros o Hin h. apply list_elem_of_lookup in Hin as (i & Hi).
  rewrite (Hd i o Hi h). unfold missing_from_chain. rewrite List.filter_In.
  by rewrite negb_true_iff.
Qed.

(** X20 on the sample mempool, which iterates over transaction 3 (it
    spends 2 and the chain), then 1 (it spends the chain), then 2 (it
    spends 1). *)
Lemma X20_scan_sorts_mempool_witness :
  exists scan,
    scan_mempool Sample.policy Sample.txo SampleMempool.mempool 220 = inr scan
    /\ List.map prio_tx (scan_vecPriority scan) = [SampleMempool.tx1]
    /\ List.map ptx (scan_vOrphan scan) = [SampleMempool.tx3; SampleMempool.tx2]
    /\ (forall o, o ∈ scan_vOrphan scan ->
          forall h, h ∈ setDependsOn o
                    <-> In h (input_hashes (ptx o))
                        /\ HaveCoins SampleMempool.mempool h = false).
Proof.
  assert (Hc : mempool_consistent Sample.txo SampleMempool.mempool 220).
  { intros tx [<-|[<-|[<-|[]]]] _; vm_compute; discriminate. }
  destruct (X20_scan_sorts_mempool Sample.policy Sample.txo SampleMempool.mempool 220 Hc)
    as (scan & Hscan & Hq & Ho & Hd).
  exists scan. split; [exact Hscan |]. split; [exact Hq |]. split; [exact Ho |]. exact Hd.
Defined.

(** X21.  On a mempool whose transactions connect (every input is in the
    chain or in the mempool), the pointers the scan leaves agree: every
    hash an orphan waits for lists the orphan in [mapDependers], and
    every pointer listed under a hash points to an orphan of [vOrphan]
    that waits for this hash. *)
Theorem X21_scan_pointers_agree policy txo mp nHeight scan :
  mempool_connects txo mp nHeight ->
  scan_mempool policy txo mp nHeight = inr scan ->
  (forall i o h, scan_vOrphan scan !! i = Some o -> h ∈ setDependsOn o ->
     exists l, scan_mapDependers scan !! h = Some l /\ i ∈ l)
  /\ (forall h l p, scan_mapDependers scan !! h = Some l -> p ∈ l ->
        exists o, scan_vOrphan scan !! p = Some o /\ h ∈ setDependsOn o).
Proof.
  intros Hc Hscan.
  exact (inv_links _ _ _ _ _ _ (scan_mempool_spec policy txo mp nHeight scan Hc Hscan)).
Qed.

(** X21 on the sample mempool. *)
Lemma X21_scan_pointers_agree_witness :
  exists scan,
    scan_mempool Sample.policy Sample.txo SampleMempool.mempool 220 = inr scan
    /\ (forall i o h, scan_vOrphan scan !! i = Some o -> h ∈ setDependsOn o ->
          exists l, scan_mapDependers scan !! h = Some l /\ i ∈ l)
    /\ (forall h l p, scan_mapDependers scan !! h = Some l -> p ∈ l ->
          exists o, scan_vOrphan scan !! p = Some o /\ h ∈ setDependsOn o).
Proof.
  assert (Hc : mempool_connects Sample.txo SampleMempool.mempool 220).
  { intros tx [<-|[<-|[<-|[]]]] _ h Hin; vm_compute in Hin;
      repeat (destruct Hin as [<-|Hin]; [vm_compute; discriminate |]); destruct Hin. }
  destruct (scan_mempool Sample.policy Sample.txo SampleMempool.mempool 220)
    as [fault|scan] eqn:Hscan; [vm_compute in Hscan; discriminate |].
  exists scan. split; [reflexivity |].
  exact (X21_scan_pointers_agree Sample.policy Sample.txo SampleMempool.mempool 220 scan
           Hc Hscan).
Defined.

(** X22.  A block assembled from the scan of a mempool whose
    transactions connect spends only what is there: every transaction
    after the coinbase is a transaction of the mempool, and each of its
    inputs that the chain has no coins for spends a transaction placed
    before it in the block. *)
Theorem X22_block_spends_only_earlier_outputs chainparams prover policy txo coins hashes
    args pindexPrev mp scan :
  mempool_connects txo mp (bi_nHeight pindexPrev + 1) ->
  scan_mempool policy txo mp (bi_nHeight pindexPrev + 1) = inr scan ->
  exists added,
    vtx (selection_result chainparams policy txo coins args pindexPrev scan)
    = CTransaction_default :: added
    /\ (forall sapling_tree0 minerAddress t,
          CreateNewBlock chainparams prover policy txo coins hashes args
            pindexPrev sapling_tree0 scan minerAddress None = Returned t ->
          exists coinbase, blk_vtx (block t) = coinbase :: added)
    /\ (forall k tx, added !! k = Some tx ->
          In tx (mapTx mp)
          /\ forall h, In h (input_hashes tx) -> HaveCoins mp h = false ->
               exists j parent, (j < k)%nat /\ added !! j = Some parent
                                /\ GetHash txo parent = h).
Proof.
  intros Hc Hscan.
  destruct (scan_mempool_spec policy txo mp _ scan Hc Hscan) as [Hq Ho Hd _ _ _].
  set (s0 := selection_start chainparams policy args pindexPrev scan).
  destruct (order_inv_loop chainparams policy txo coins (bi_nHeight pindexPrev + 1)
              (CurrentEpochBranchId chainparams (bi_nHeight pindexPrev + 1))
              (get_nBlockMaxSize policy args) (get_nBlockPrioritySize policy args)
              (get_nBlockMinSize policy args)
              (get_monitoring_pool_balances chainparams pindexPrev)
              s0 (selection_fuel s0)) as (added & [Hvtx Hadded _ _]).
  change (selection_loop _ _ _ _ _ _ _ _ _ _ _ s0)
    with (selection_result chainparams policy txo coins args pindexPrev scan) in Hvtx.
  exists added. split; [exact Hvtx |]. split.
  - intros sapling_tree0 minerAddress t Ht.
    destruct (CreateNewBlock_returns _ _ _ _ _ _ _ _ _ _ _ _ _ Ht)
      as (cb & _ & Hv & _). cbv zeta in Hv. rewrite Hvtx in Hv. by exists cb.
  - intros k tx Hk.
    destruct (Hadded k tx Hk) as [(e & He & Hp) | (o & Hin & Hp & Hdeps)].
    + assert (Hf : In tx (List.map prio_tx (scan_vecPriority scan))).
      { apply List.in_map_iff. exists e. split; [exact Hp |].
        by apply list_elem_of_In. }
      rewrite Hq in Hf. apply List.filter_In in Hf as [Hmem Hf].
      apply andb_true_iff in Hf as [_ Hw]. apply negb_true_iff in Hw.
      split; [exact Hmem |]. intros h Hh Hno. exfalso.
      unfold waits_for_parent in Hw.
      assert (Hm : In h (missing_from_chain mp (input_hashes tx))).
      { unfold missing_from_chain. apply List.filter_In. by rewrite Hno. }
      by destruct (missing_from_chain mp (input_hashes tx)).
    + assert (Hf : In tx (List.map ptx (scan_vOrphan scan))).
      { apply List.in_map_iff. exists o. split; [exact Hp |].
        by apply list_elem_of_In. }
      rewrite Ho in Hf. apply List.filter_In in Hf as [Hmem _].
      split; [exact Hmem |]. intros h Hh Hno.
      apply list_elem_of_lookup in Hin as (i & Hi).
      assert (Hset : h ∈ setDependsOn o).
      { apply (Hd i o Hi h). rewrite Hp. unfold missing_from_chain.
        apply List.filter_In. by rewrite Hno. }
      specialize (Hdeps h Hset). unfold hashes_of in Hdeps.
      apply list_elem_of_fmap in Hdeps as (parent & -> & Hpar).
      apply elem_of_take in Hpar as (j & Hj & Hlt). by exists j, parent.
Qed.

(** X22 on the sample mempool, on top of height 219: the mempool
    iterates over 3, 1, 2 and the block holds 1, 2, 3. *)
Lemma X22_block_spends_only_earlier_outputs_witness :
  exists scan,
    scan_mempool Sample.policy Sample.txo SampleMempool.mempool 220 = inr scan
    /\ vtx (selection_result Sample.chainparams Sample.policy Sample.txo Sample.coins
              Sample.args (Sample.tip 219) scan)
       = [CTransaction_default; SampleMempool.tx1; SampleMempool.tx2; SampleMempool.tx3]
    /\ (forall k tx,
          [SampleMempool.tx1; SampleMempool.tx2; SampleMempool.tx3] !! k = Some tx ->
          In tx (mapTx SampleMempool.mempool)
          /\ forall h, In h (input_hashes tx) -> HaveCoins SampleMempool.mempool h = false ->
               exists j parent,
                 (j < k)%nat
                 /\ [SampleMempool.tx1; SampleMempool.tx2; SampleMempool.tx3] !! j
                    = Some parent
                 /\ GetHash Sample.txo parent = h).
Proof.
  assert (Hc : mempool_connects Sample.txo SampleMempool.mempool
                 (bi_nHeight (Sample.tip 219) + 1)).
  { intros tx [<-|[<-|[<-|[]]]] _ h Hin; vm_compute in Hin;
      repeat (destruct Hin as [<-|Hin]; [vm_compute; discriminate |]); destruct Hin. }
  destruct (scan_mempool Sample.policy Sample.txo SampleMempool.mempool 220)
    as [fault|scan] eqn:Hscan; [vm_compute in Hscan; discriminate |].
  exists scan. split; [reflexivity |].
  destruct (X22_block_spends_only_earlier_outputs Sample.chainparams Sample.prover
              Sample.policy Sample.txo Sample.coins Sample.hashes Sample.args
              (Sample.tip 219) SampleMempool.mempool scan Hc Hscan)
    as (added & Hvtx & _ & Hdeps).
  assert (Hadded : added
                   = [SampleMempool.tx1; SampleMempool.tx2; SampleMempool.tx3]).
  { vm_compute in Hscan. injection Hscan as <-. vm_compute in Hvtx.
    injection Hvtx as <-. reflexivity. }
  rewrite Hadded in Hvtx, Hdeps. split; [exact Hvtx | exact Hdeps].
Defined.

(** X23.  The fee the scan records for a transaction, in the queue or
    among the orphans, is what it takes in less what it puts out: the
    values of the outputs its inputs spend (read from the coins of the
    chain, or from the parent in the mempool), its shielded value in and
    its fee delta, less [GetValueOut]; and the fee rate is computed from
    this fee and the serialized size, taken as an [unsigned int].
    ([CAmount] sums are taken without overflow, which the source leaves
    undefined.) *)
Theorem X23_scan_records_fees policy txo mp nHeight scan :
  mempool_connects txo mp nHeight ->
  scan_mempool policy txo mp nHeight = inr scan ->
  (forall e, e ∈ scan_vecPriority scan ->
     (exists v, inputs_value txo mp (vin (prio_tx e)) = Some v
                /\ prio_feePaid e
                   = v + GetShieldedValueIn mp (prio_tx e)
                     + fee_delta policy (GetHash txo (prio_tx e))
                     - GetValueOut txo (prio_tx e))
     /\ prio_feeRate e
        = CFeeRate_of mp (prio_feePaid e) (to_uint32 (GetSerializeSize txo (prio_tx e))))
  /\ (forall o, o ∈ scan_vOrphan scan ->
        (exists v, inputs_value txo mp (vin (ptx o)) = Some v
                   /\ feePaid o
                      = v + GetShieldedValueIn mp (ptx o)
                        + fee_delta policy (GetHash txo (ptx o))
                        - GetValueOut txo (ptx o))
        /\ feeRate o
           = CFeeRate_of mp (feePaid o) (to_uint32 (GetSerializeSize txo (ptx o)))).
Proof.
  intros Hc Hscan.
  destruct (scan_mempool_spec policy txo mp nHeight scan Hc Hscan) as [_ _ _ _ Hqf Hof].
  split; [exact Hqf | exact Hof].
Qed.

(** X23 on the sample mempool. *)
Lemma X23_scan_records_fees_witness :
  exists scan,
    scan_mempool Sample.policy Sample.txo SampleMempool.mempool 220 = inr scan
    /\ List.map feePaid (scan_vOrphan scan) = [500; 1000]
    /\ (forall o, o ∈ scan_vOrphan scan ->
          (exists v, inputs_value Sample.txo SampleMempool.mempool (vin (ptx o)) = Some v
                     /\ feePaid o
                        = v + GetShieldedValueIn SampleMempool.mempool (ptx o)
                          + fee_delta Sample.policy (GetHash Sample.txo (ptx o))
                          - GetValueOut Sample.txo (ptx o))
          /\ feeRate o
             = CFeeRate_of SampleMempool.mempool (feePaid o)
                 (to_uint32 (GetSerializeSize Sample.txo (ptx o)))).
Proof.
  assert (Hc : mempool_connects Sample.txo SampleMempool.mempool 220).
  { intros tx [<-|[<-|[<-|[]]]] _ h Hin; vm_compute in Hin;
      repeat (destruct Hin as [<-|Hin]; [vm_compute; discriminate |]); destruct Hin. }
  destruct (scan_mempool Sample.policy Sample.txo SampleMempool.mempool 220)
    as [fault|scan] eqn:Hscan; [vm_compute in Hscan; discriminate |].
  exists scan. split; [reflexivity |].
  split; [vm_compute in Hscan; injection Hscan as <-; reflexivity |].
  exact (proj2 (X23_scan_records_fees Sample.policy Sample.txo SampleMempool.mempool 220
                  scan Hc Hscan)).
Defined.

(** X24.  What the scan does with a transaction that does not connect,
    when [fDebug] is off: if the first input spends a transaction of the
    mempool and the second one a transaction that is neither in the chain
    nor in the mempool, the transaction is dropped (the queue and the
    orphans are as before), but the pointer to its orphan, registered in
    [mapDependers] under the hash of the first input, stays behind and
    points to no orphan of [vOrphan]. *)
Theorem X24_unknown_input_leaves_pointer policy txo mp nHeight s tx in1 in2 rest
    parent out :
  scan_skips mp nHeight tx = false ->
  fDebug mp = false ->
  vin tx = in1 :: in2 :: rest ->
  HaveCoins mp (prevout_hash (prevout in1)) = false ->
  mapTx_find txo mp (prevout_hash (prevout in1)) = Some parent ->
  vout parent !! Z.to_nat (prevout_n (prevout in1)) = Some out ->
  HaveCoins mp (prevout_hash (prevout in2)) = false ->
  mapTx_find txo mp (prevout_hash (prevout in2)) = None ->
  exists s',
    scan_tx policy txo mp nHeight s tx = inr s'
    /\ scan_vecPriority s' = scan_vecPriority s
    /\ scan_vOrphan s' = scan_vOrphan s
    /\ exists l, scan_mapDependers s' !! prevout_hash (prevout in1) = Some l
                 /\ length (scan_vOrphan s) ∈ l
                 /\ scan_vOrphan s' !! length (scan_vOrphan s) = None.
Proof.
  intros Hskip Hdebug Hvin Hc1 Hf1 Hout Hc2 Hf2.
  unfold scan_tx. rewrite Hskip, Hvin. cbn [scan_inputs].
  unfold scan_input at 1. rewrite Hc1, Hf1. cbn [negb il_porphan fst snd].
  rewrite Hout. unfold scan_input at 1. rewrite Hc2, Hf2, Hdebug.
  cbn [negb il_porphan il_fMissingInputs il_vOrphan il_mapDependers].
  eexists. split; [reflexivity |].
  cbn [scan_vecPriority scan_vOrphan scan_mapDependers].
  assert (Hpop : removelast
                   (alter (COrphan_depend (prevout_hash (prevout in1)))
                      (length (scan_vOrphan s)) (scan_vOrphan s ++ [COrphan_new tx]))
                 = scan_vOrphan s).
  { rewrite <- (Nat.add_0_r (length (scan_vOrphan s))) at 1.
    rewrite alter_app_r. cbn. apply List.removelast_last. }
  split; [reflexivity |]. split; [exact Hpop |].
  eexists. rewrite lookup_insert_eq. split; [reflexivity |].
  split; [apply elem_of_app; right; apply list_elem_of_here |].
  rewrite Hpop. by apply lookup_ge_None.
Qed.

(** X24 on a mempool with transactions 1 and 4, where 4 spends 1 and an
    output nobody knows; the scan has seen transaction 1. *)
Lemma X24_unknown_input_leaves_pointer_witness :
  exists s s',
    scan_tx Sample.policy Sample.txo
      (SampleMempool.mempool_of [SampleMempool.tx1; SampleMempool.tx4]) 220
      MempoolScan_empty SampleMempool.tx1 = inr s
    /\ scan_tx Sample.policy Sample.txo
         (SampleMempool.mempool_of [SampleMempool.tx1; SampleMempool.tx4]) 220
         s SampleMempool.tx4 = inr s'
    /\ scan_vecPriority s' = scan_vecPriority s
    /\ scan_vOrphan s' = []
    /\ scan_mapDependers s' !! 1%N = Some [0%nat].
Proof.
  destruct (scan_tx Sample.policy Sample.txo
              (SampleMempool.mempool_of [SampleMempool.tx1; SampleMempool.tx4]) 220
              MempoolScan_empty SampleMempool.tx1) as [fault|s] eqn:Hs;
    [vm_compute in Hs; discriminate |].
  destruct (X24_unknown_input_leaves_pointer Sample.policy Sample.txo
              (SampleMempool.mempool_of [SampleMempool.tx1; SampleMempool.tx4]) 220
              s SampleMempool.tx4 (SampleMempool.spend 1%N 0)
              (SampleMempool.spend 999%N 0) [] SampleMempool.tx1 (SampleMempool.pay 4000)
              eq_refl eq_refl eq_refl eq_refl eq_refl eq_refl eq_refl eq_refl)
    as (s' & Hs' & Hq & Ho & l & Hl & _ & _).
  exists s, s'. split; [reflexivity |]. split; [exact Hs' |]. split; [exact Hq |].
  vm_compute in Hs. injection Hs as <-. split; [exact Ho |].
  vm_compute in Hs'. injection Hs' as <-. vm_compute. reflexivity.
Defined.

(** ** The scan and the selection loop together *)

(** One round of the loop over [mapDependers[hash]] erases [hash] from
    the orphan it is given and leaves the others. *)
Lemma promote_orphan_erases hash acc p i o :
  acc.1 !! i = Some o ->
  exists o', (promote_orphan hash acc p).1 !! i = Some o' /\ ptx o' = ptx o
    /\ forall h, h ∈ setDependsOn o' <-> h ∈ setDependsOn o /\ (i = p -> h <> hash).
Proof.
  intros Hi. unfold promote_orphan.
  destruct (acc.1 !! p) as [x|] eqn:Hp.
  - destruct (decide (setDependsOn x = ∅)) as [Hempty|Hne].
    + exists o. split; [done |]. split; [done |]. intros h. split; [| tauto].
      intros Hh. split; [done |]. intros ->. rewrite Hp in Hi. injection Hi as <-.
      rewrite Hempty in Hh. by apply not_elem_of_empty in Hh.
    + set (x' := {| ptx := ptx x; setDependsOn := _; feeRate := _; feePaid := _;
                    dPriority := _ |}).
      assert (Hres : exists o', <[p := x']> acc.1 !! i = Some o' /\ ptx o' = ptx o
                /\ forall h, h ∈ setDependsOn o'
                             <-> h ∈ setDependsOn o /\ (i = p -> h <> hash)).
      { destruct (decide (i = p)) as [->|Hip].
        - rewrite Hp in Hi. injection Hi as <-. exists x'.
          split; [apply list_lookup_insert_Some; left; split; [done |];
                  split; [done |]; by apply lookup_lt_Some with x |].
          split; [done |]. intros h. cbn [setDependsOn x'].
          rewrite elem_of_difference, not_elem_of_singleton. tauto.
        - exists o. rewrite list_lookup_insert_ne by done.
          split; [done |]. split; [done |]. intros h. tauto. }
      by destruct (decide (setDependsOn x' = ∅)).
  - exists o. split; [done |]. split; [done |]. intros h. split; [| tauto].
    intros Hh. split; [done |]. intros ->. by rewrite Hp in Hi.
Qed.

(** The whole loop erases [hash] from the orphans listed and leaves the
    others. *)
Lemma promote_all_erases hash dependers : forall acc i o,
  acc.1 !! i = Some o ->
  exists o', (foldl (promote_orphan hash) acc dependers).1 !! i = Some o'
    /\ ptx o' = ptx o
    /\ forall h, h ∈ setDependsOn o'
                 <-> h ∈ setDependsOn o /\ (i ∈ dependers -> h <> hash).
Proof.
  induction dependers as [|p l IH]; intros acc i o Hi.
  - exists o. split; [done |]. split; [done |]. intros h. split; [| tauto].
    intros Hh. split; [done |]. intros Hin. by apply elem_of_nil in Hin.
  - cbn [foldl].
    destruct (promote_orphan_erases hash acc p i o Hi) as (o1 & H1 & Hp1 & Hd1).
    destruct (IH (promote_orphan hash acc p) i o1 H1) as (o2 & H2 & Hp2 & Hd2).
    exists o2. split; [done |]. split; [congruence |]. intros h.
    rewrite Hd2, Hd1, elem_of_cons. intuition congruence.
Qed.

Section SelectionComplete.

Variable chainparams : CChainParams.
Variable policy : Policy.
Variable txo : TxOracle.
Variable coins : CoinsOracle.
Variable nHeight : Z.
Variable consensusBranchId : Z.
Variable nBlockMaxSize nBlockPrioritySize nBlockMinSize : Z.
Variable monitoring_pool_balances : bool.

(** Seen from the state [s0] the loop started in: every orphan is still
    there, and waits for what it waited for less the hashes of the
    transactions [added] to the block. *)
Record waiting_inv (s0 s : SelState) (added : list CTransaction) : Prop := {
  wait_vtx : vtx s = vtx s0 ++ added;
  wait_mapDependers : mapDependers s = mapDependers s0;
  wait_orphans : forall i o0, vOrphan s0 !! i = Some o0 ->
    exists o, vOrphan s !! i = Some o /\ ptx o = ptx o0
      /\ forall h, h ∈ setDependsOn o
                   <-> h ∈ setDependsOn o0 /\ h ∉ hashes_of txo added
}.

Lemma waiting_inv_start s0 : waiting_inv s0 s0 [].
Proof.
  split; [by rewrite app_nil_r | done |].
  intros i o0 Hi. exists o0. split; [done |]. split; [done |].
  intros h. split; [| tauto]. intros Hh. split; [done |].
  intros Hin. by apply elem_of_nil in Hin.
Qed.

Lemma waiting_inv_step s0 s added v s' :
  links_ok (vOrphan s0) (mapDependers s0) ->
  waiting_inv s0 s added ->
  selection_step chainparams policy txo coins nHeight consensusBranchId
    nBlockMaxSize nBlockPrioritySize nBlockMinSize monitoring_pool_balances s
  = Some (v, s') ->
  exists added', waiting_inv s0 s' added'.
Proof.
  intros [Hreg _] [Hvtx Hmd Horph] Hs.
  destruct (selection_step_cases chainparams policy txo coins nHeight consensusBranchId
              nBlockMaxSize nBlockPrioritySize nBlockMinSize monitoring_pool_balances
              s v s' Hs) as (e & rest & Hpop & Hsel).
  destruct (decide (v = Added)) as [->|Hne].
  - destruct (select_tx_accepted _ _ _ _ _ _ _ _ _ _ _ _ _ Hsel)
      as [_ _ _ _ Hv _ _ _ Hm Hprom].
    cbn [vtx view vOrphan vecPriority mapDependers set_vecPriority] in Hv, Hm, Hprom.
    exists (added ++ [prio_tx e]).
    set (hash := GetHash txo (prio_tx e)) in *.
    split.
    + by rewrite Hv, Hvtx, app_assoc.
    + by rewrite Hm.
    + intros i o0 Hi. destruct (Horph i o0 Hi) as (o & Ho & Hp & Hd).
      destruct (promote_all_erases hash (default [] (mapDependers s !! hash))
                  (vOrphan s, rest) i o Ho) as (o' & Ho' & Hp' & Hd').
      rewrite <- Hprom in Ho'. cbn [fst] in Ho'.
      exists o'. split; [done |]. split; [congruence |]. intros h.
      rewrite Hd', Hd, hashes_of_app, not_elem_of_app.
      change (hashes_of txo [prio_tx e]) with [hash].
      rewrite list_elem_of_singleton. split; [| tauto].
      intros [[Hh Hnot] Himp]. split; [done |]. split; [done |].
      intros ->. destruct (Hreg i o0 hash Hi Hh) as (l & Hl & Hin).
      apply Himp; [| reflexivity]. rewrite Hmd.
      by replace (mapDependers s0 !! hash) with (Some l).
  - pose proof (select_tx_skipped _ _ _ _ _ _ _ _ _ _ _ _ _ _ Hsel Hne) as Hsame.
    exists added. destruct Hsame as [-> | ->]; by split.
Qed.

Lemma waiting_inv_loop s0 fuel :
  links_ok (vOrphan s0) (mapDependers s0) ->
  exists added,
    waiting_inv s0
      (selection_loop chainparams policy txo coins nHeight consensusBranchId
         nBlockMaxSize nBlockPrioritySize nBlockMinSize monitoring_pool_balances fuel s0)
      added.
Proof.
  intros Hl.
  apply (selection_loop_invariant chainparams policy txo coins nHeight consensusBranchId
           nBlockMaxSize nBlockPrioritySize nBlockMinSize monitoring_pool_balances
           (fun s => exists added, waiting_inv s0 s added)).
  - intros s v s' (added & Hinv) Hstep. eapply waiting_inv_step; eauto.
  - exists []. apply waiting_inv_start.
Qed.

End SelectionComplete.

(** X25.  No orphan is held back without reason.  When the block is
    assembled from the scan of a mempool whose transactions connect, the
    queue is empty at the end of the selection loop, every orphan of the
    scan is still in [vOrphan], and what it still waits for are exactly
    the hashes of its inputs that are neither in the chain nor among the
    transactions of the block: a hash is erased from every orphan that
    waits for it as soon as its transaction is accepted. *)
Theorem X25_orphans_wait_only_for_absent_parents chainparams policy txo coins args
    pindexPrev mp scan :
  mempool_connects txo mp (bi_nHeight pindexPrev + 1) ->
  scan_mempool policy txo mp (bi_nHeight pindexPrev + 1) = inr scan ->
  exists added,
    vtx (selection_result chainparams policy txo coins args pindexPrev scan)
    = CTransaction_default :: added
    /\ vecPriority (selection_result chainparams policy txo coins args pindexPrev scan)
       = []
    /\ forall i o0, scan_vOrphan scan !! i = Some o0 ->
         exists o,
           vOrphan (selection_result chainparams policy txo coins args pindexPrev scan)
             !! i = Some o
           /\ ptx o = ptx o0
           /\ forall h, h ∈ setDependsOn o
                        <-> In h (input_hashes (ptx o0))
                            /\ HaveCoins mp h = false
                            /\ forall parent, parent ∈ added -> GetHash txo parent <> h.
Proof.
  intros Hc Hscan.
  destruct (scan_mempool_spec policy txo mp _ scan Hc Hscan) as [_ _ Hd Hl _ _].
  set (s0 := selection_start chainparams policy args pindexPrev scan).
  destruct (waiting_inv_loop chainparams policy txo coins (bi_nHeight pindexPrev + 1)
              (CurrentEpochBranchId chainparams (bi_nHeight pindexPrev + 1))
              (get_nBlockMaxSize policy args) (get_nBlockPrioritySize policy args)
              (get_nBlockMinSize policy args)
              (get_monitoring_pool_balances chainparams pindexPrev)
              s0 (selection_fuel s0) Hl) as (added & [Hvtx _ Horph]).
  change (selection_loop _ _ _ _ _ _ _ _ _ _ _ s0)
    with (selection_result chainparams policy txo coins args pindexPrev scan)
    in Hvtx, Horph.
  exists added. split; [exact Hvtx |]. split; [apply selection_result_drained |].
  intros i o0 Hi. destruct (Horph i o0 Hi) as (o & Ho & Hp & Hw).
  exists o. split; [exact Ho |]. split; [exact Hp |]. intros h.
  rewrite Hw, (Hd i o0 Hi h). unfold missing_from_chain.
  rewrite List.filter_In, negb_true_iff. unfold hashes_of.
  rewrite list_elem_of_fmap. split.
  - intros [[Hin Hno] Hnot]. split; [done |]. split; [done |].
    intros parent Hpar Heq. apply Hnot. by exists parent.
  - intros (Hin & Hno & Hnot). split; [done |].
    intros (parent & -> & Hpar). by apply (Hnot parent).
Qed.

(** X25 on the sample mempool, on top of height 219: all three
    transactions are in the block, and the two orphans wait for nothing. *)
Lemma X25_orphans_wait_only_for_absent_parents_witness :
  exists scan added,
    scan_mempool Sample.policy Sample.txo SampleMempool.mempool 220 = inr scan
    /\ vtx (selection_result Sample.chainparams Sample.policy Sample.txo Sample.coins
              Sample.args (Sample.tip 219) scan)
       = CTransaction_default :: added
    /\ forall i o0, scan_vOrphan scan !! i = Some o0 ->
         exists o,
           vOrphan (selection_result Sample.chainparams Sample.policy Sample.txo
                      Sample.coins Sample.args (Sample.tip 219) scan) !! i = Some o
           /\ ptx o = ptx o0
           /\ forall h, h ∈ setDependsOn o
                        <-> In h (input_hashes (ptx o0))
                            /\ HaveCoins SampleMempool.mempool h = false
                            /\ forall parent, parent ∈ added
                                              -> GetHash Sample.txo parent <> h.
Proof.
  assert (Hc : mempool_connects Sample.txo SampleMempool.mempool
                 (bi_nHeight (Sample.tip 219) + 1)).
  { intros tx [<-|[<-|[<-|[]]]] _ h Hin; vm_compute in Hin;
      repeat (destruct Hin as [<-|Hin]; [vm_compute; discriminate |]); destruct Hin. }
  destruct (scan_mempool Sample.policy Sample.txo SampleMempool.mempool 220)
    as [fault|scan] eqn:Hscan; [vm_compute in Hscan; discriminate |].
  destruct (X25_orphans_wait_only_for_absent_parents Sample.chainparams Sample.policy
              Sample.txo Sample.coins Sample.args (Sample.tip 219)
              SampleMempool.mempool scan Hc Hscan) as (added & Hvtx & _ & Horph).
  exists scan, added. split; [reflexivity |]. split; [exact Hvtx | exact Horph].
Defined.

(** ** The order of the queue *)

(** Case analysis on the comparisons of exponents and mantissas. *)
Ltac cmp_cases :=
  repeat match goal with
  | H : context [Z.compare ?a ?b] |- _ => destruct (Z.compare_spec a b)
  | |- context [Z.compare ?a ?b] => destruct (Z.compare_spec a b)
  | H : context [Pos.compare_cont Eq ?a ?b] |- _ =>
      change (Pos.compare_cont Eq a b) with (Pos.compare a b) in H;
      destruct (Pos.compare_spec a b)
  | |- context [Pos.compare_cont Eq ?a ?b] =>
      change (Pos.compare_cont Eq a b) with (Pos.compare a b);
      destruct (Pos.compare_spec a b)
  end.

(** The comparison of binary64 values composes: less or equal, then less
    or equal, is less unless both are equal. *)
Lemma SFcompare_trans a b c r1 r2 :
  SpecFloat.SFcompare a b = Some r1 -> SpecFloat.SFcompare b c = Some r2 ->
  (r1 = Lt \/ r1 = Eq) -> (r2 = Lt \/ r2 = Eq) ->
  SpecFloat.SFcompare a c = Some (match r1, r2 with Eq, Eq => Eq | _, _ => Lt end).
Proof.
  intros H1 H2 Hr1 Hr2.
  destruct a as [[]|[]| |[] m1 e1], b as [[]|[]| |[] m2 e2], c as [[]|[]| |[] m3 e3];
    cbn in *; try discriminate;
    injection H1 as <-; injection H2 as <-;
    try (destruct Hr1 as [Hr1|Hr1], Hr2 as [Hr2|Hr2]; discriminate || reflexivity);
    cmp_cases; cbn in *;
    destruct Hr1 as [Hr1|Hr1], Hr2 as [Hr2|Hr2]; try discriminate; try reflexivity;
    subst; try lia.
Qed.

Lemma SFcompare_irrefl a : SpecFloat.SFcompare a a <> Some Lt.
Proof.
  destruct a as [[]|[]| |[] m e]; cbn; try discriminate;
    rewrite Z.compare_refl; change (Pos.compare_cont Eq m m) with (Pos.compare m m);
    rewrite Pos.compare_refl; discriminate.
Qed.

(** [<] and [==] on [double], by their comparison. *)
Lemma float_ltb_compare x y :
  PrimFloat.ltb x y = true
  <-> SpecFloat.SFcompare (FloatOps.Prim2SF x) (FloatOps.Prim2SF y) = Some Lt.
Proof.
  rewrite FloatAxioms.ltb_spec. unfold SpecFloat.SFltb.
  destruct (SpecFloat.SFcompare _ _) as [[]|]; split; congruence.
Qed.

Lemma float_eqb_compare x y :
  PrimFloat.eqb x y = true
  <-> SpecFloat.SFcompare (FloatOps.Prim2SF x) (FloatOps.Prim2SF y) = Some Eq.
Proof.
  rewrite FloatAxioms.eqb_spec. unfold SpecFloat.SFeqb.
  destruct (SpecFloat.SFcompare _ _) as [[]|]; split; congruence.
Qed.

Lemma float_ltb_irrefl x : PrimFloat.ltb x x = false.
Proof.
  apply not_true_is_false. rewrite float_ltb_compare. apply SFcompare_irrefl.
Qed.

Lemma float_ltb_trans x y z :
  PrimFloat.ltb x y = true -> PrimFloat.ltb y z = true -> PrimFloat.ltb x z = true.
Proof.
  rewrite !float_ltb_compare. intros H1 H2.
  apply (SFcompare_trans _ _ _ _ _ H1 H2); by left.
Qed.

Lemma float_eqb_ltb x y z :
  PrimFloat.eqb x y = true -> PrimFloat.ltb y z = true -> PrimFloat.ltb x z = true.
Proof.
  rewrite !float_ltb_compare, float_eqb_compare. intros H1 H2.
  apply (SFcompare_trans _ _ _ _ _ H1 H2); [by right | by left].
Qed.

Lemma float_ltb_eqb x y z :
  PrimFloat.ltb x y = true -> PrimFloat.eqb y z = true -> PrimFloat.ltb x z = true.
Proof.
  rewrite !float_ltb_compare, float_eqb_compare. intros H1 H2.
  apply (SFcompare_trans _ _ _ _ _ H1 H2); [by left | by right].
Qed.

Lemma float_eqb_trans x y z :
  PrimFloat.eqb x y = true -> PrimFloat.eqb y z = true -> PrimFloat.eqb x z = true.
Proof.
  rewrite !float_eqb_compare. intros H1 H2.
  apply (SFcompare_trans _ _ _ _ _ H1 H2); by right.
Qed.

Lemma float_ltb_not_eqb x y : PrimFloat.ltb x y = true -> PrimFloat.eqb x y = false.
Proof.
  rewrite float_ltb_compare. intros H. apply not_true_is_false.
  rewrite float_eqb_compare. congruence.
Qed.

Lemma TxPriorityCompare_irrefl byFee a : TxPriorityCompare byFee a a = false.
Proof.
  unfold TxPriorityCompare. destruct byFee.
  - rewrite Z.eqb_refl. apply float_ltb_irrefl.
  - destruct (PrimFloat.eqb _ _); [apply Z.ltb_irrefl | apply float_ltb_irrefl].
Qed.

Lemma TxPriorityCompare_trans byFee a b c :
  TxPriorityCompare byFee a b = true -> TxPriorityCompare byFee b c = true ->
  TxPriorityCompare byFee a c = true.
Proof.
  unfold TxPriorityCompare. destruct byFee.
  - destruct (Z.eqb_spec (prio_feeRate a) (prio_feeRate b)) as [Hab|Hab],
             (Z.eqb_spec (prio_feeRate b) (prio_feeRate c)) as [Hbc|Hbc],
             (Z.eqb_spec (prio_feeRate a) (prio_feeRate c)) as [Hac|Hac];
      rewrite ?Z.ltb_lt; intros H1 H2; try lia.
    by apply float_ltb_trans with (prio_dPriority b).
  - destruct (PrimFloat.eqb (prio_dPriority a) (prio_dPriority b)) eqn:Hab,
             (PrimFloat.eqb (prio_dPriority b) (prio_dPriority c)) eqn:Hbc;
      intros H1 H2.
    + rewrite (float_eqb_trans _ _ _ Hab Hbc). apply Z.ltb_lt in H1, H2.
      apply Z.ltb_lt. lia.
    + pose proof (float_eqb_ltb _ _ _ Hab H2) as Hlt.
      by rewrite (float_ltb_not_eqb _ _ Hlt).
    + pose proof (float_ltb_eqb _ _ _ H1 Hbc) as Hlt.
      by rewrite (float_ltb_not_eqb _ _ Hlt).
    + pose proof (float_ltb_trans _ _ _ H1 H2) as Hlt.
      by rewrite (float_ltb_not_eqb _ _ Hlt).
Qed.

(** X26.  [TxPriorityCompare] is a strict order in both of its modes, as
    the heap functions of the standard library require of a comparator:
    no entry is below itself, of two entries at most one is below the
    other, and below is transitive.  This holds for every [double],
    infinities and NaN included. *)
Theorem X26_comparator_is_strict_order byFee :
  (forall a, TxPriorityCompare byFee a a = false)
  /\ (forall a b, TxPriorityCompare byFee a b = true ->
                  TxPriorityCompare byFee b a = false)
  /\ (forall a b c, TxPriorityCompare byFee a b = true ->
                    TxPriorityCompare byFee b c = true ->
                    TxPriorityCompare byFee a c = true).
Proof.
  split; [apply TxPriorityCompare_irrefl |]. split; [| apply TxPriorityCompare_trans].
  intros a b Hab. apply not_true_is_false. intros Hba.
  pose proof (TxPriorityCompare_trans _ _ _ _ Hab Hba) as Haa.
  by rewrite TxPriorityCompare_irrefl in Haa.
Qed.

(** Neither of two entries is below the other. *)
Definition equivalent (byFee : bool) (a b : TxPriority) : Prop :=
  TxPriorityCompare byFee a b = false /\ TxPriorityCompare byFee b a = false.

(** The priority of the entry is not NaN: it equals itself. *)
Definition priority_is_number (e : TxPriority) : Prop :=
  PrimFloat.eqb (prio_dPriority e) (prio_dPriority e) = true.

(** Two binary64 values of which the second is not NaN compare, unless
    the first is NaN. *)
Lemma SFcompare_total a b :
  SpecFloat.SFcompare a a = Some Eq -> SpecFloat.SFcompare b b = Some Eq ->
  SpecFloat.SFcompare a b = Some Lt \/ SpecFloat.SFcompare a b = Some Eq
  \/ SpecFloat.SFcompare b a = Some Lt.
Proof.
  destruct a as [[]|[]| |[] m1 e1], b as [[]|[]| |[] m2 e2];
    cbn; intros Ha Hb; try discriminate; auto;
    clear Ha Hb; cmp_cases; cbn; auto; subst; lia.
Qed.

Lemma SFcompare_eq_sym a b :
  SpecFloat.SFcompare a b = Some Eq -> SpecFloat.SFcompare b a = Some Eq.
Proof.
  destruct a as [[]|[]| |[] m1 e1], b as [[]|[]| |[] m2 e2];
    cbn; try discriminate; auto;
    cmp_cases; cbn; intros Hcmp; try discriminate; auto; subst; lia.
Qed.

Lemma float_total x y :
  PrimFloat.eqb x x = true -> PrimFloat.eqb y y = true ->
  PrimFloat.ltb x y = true \/ PrimFloat.eqb x y = true \/ PrimFloat.ltb y x = true.
Proof.
  rewrite !float_ltb_compare, !float_eqb_compare. apply SFcompare_total.
Qed.

Lemma float_eqb_sym x y : PrimFloat.eqb x y = true -> PrimFloat.eqb y x = true.
Proof. rewrite !float_eqb_compare. apply SFcompare_eq_sym. Qed.

(** Entries whose priorities are numbers are equivalent exactly when
    they have equal priorities and equal fee rates, in both modes. *)
Lemma equivalent_iff byFee a b :
  priority_is_number a -> priority_is_number b ->
  equivalent byFee a b
  <-> PrimFloat.eqb (prio_dPriority a) (prio_dPriority b) = true
      /\ prio_feeRate a = prio_feeRate b.
Proof.
  unfold priority_is_number, equivalent, TxPriorityCompare. intros Ha Hb.
  destruct (float_total _ _ Ha Hb) as [Hlt | [Heq | Hgt]].
  - pose proof (float_ltb_not_eqb _ _ Hlt) as Hne.
    split.
    + intros [H1 H2]. exfalso. destruct byFee.
      * destruct (Z.eqb_spec (prio_feeRate a) (prio_feeRate b)) as [E|E];
          [congruence |].
        rewrite (proj2 (Z.eqb_neq _ _)) in H2 by congruence.
        apply Z.ltb_ge in H1, H2. lia.
      * rewrite Hne in H1. congruence.
    + intros [H _]. congruence.
  - pose proof (float_eqb_sym _ _ Heq) as Heq'.
    assert (Hab : PrimFloat.ltb (prio_dPriority a) (prio_dPriority b) = false).
    { apply not_true_is_false. intros E.
      pose proof (float_ltb_not_eqb _ _ E). congruence. }
    assert (Hba : PrimFloat.ltb (prio_dPriority b) (prio_dPriority a) = false).
    { apply not_true_is_false. intros E.
      pose proof (float_ltb_not_eqb _ _ E). congruence. }
    split.
    + intros [H1 H2]. split; [done |]. destruct byFee.
      * destruct (Z.eqb_spec (prio_feeRate a) (prio_feeRate b)) as [E|E]; [done |].
        rewrite (proj2 (Z.eqb_neq _ _)) in H2 by congruence.
        apply Z.ltb_ge in H1, H2. lia.
      * rewrite Heq in H1. rewrite Heq' in H2. apply Z.ltb_ge in H1, H2. lia.
    + intros [_ E]. rewrite E. destruct byFee.
      * by rewrite Z.eqb_refl.
      * rewrite Heq, Heq', Z.ltb_irrefl. done.
  - pose proof (float_ltb_not_eqb _ _ Hgt) as Hne.
    split.
    + intros [H1 H2]. exfalso. destruct byFee.
      * destruct (Z.eqb_spec (prio_feeRate b) (prio_feeRate a)) as [E|E];
          [congruence |].
        rewrite (proj2 (Z.eqb_neq _ _)) in H1 by congruence.
        apply Z.ltb_ge in H1, H2. lia.
      * rewrite Hne in H2. congruence.
    + intros [H _]. apply float_eqb_sym in H. congruence.
Qed.

(** X27.  When is [TxPriorityCompare] the strict weak ordering that
    [std::make_heap], [std::push_heap] and [std::pop_heap] require?  On
    entries whose priority is not NaN it is one, in both modes: being
    neither below nor above one another is transitive, because it means
    equal priority and equal fee rate.  With a NaN priority it is not:
    an entry with priority NaN is neither below nor above two entries of
    which one is below the other. *)
Theorem X27_comparator_weak_order_unless_nan byFee :
  (forall a b c,
     priority_is_number a -> priority_is_number b -> priority_is_number c ->
     equivalent byFee a b -> equivalent byFee b c -> equivalent byFee a c)
  /\ (forall a b,
        priority_is_number a -> priority_is_number b ->
        (equivalent byFee a b
         <-> PrimFloat.eqb (prio_dPriority a) (prio_dPriority b) = true
             /\ prio_feeRate a = prio_feeRate b))
  /\ (exists a b c,
        priority_is_number a /\ priority_is_number c
        /\ equivalent byFee a b /\ equivalent byFee b c
        /\ TxPriorityCompare byFee a c = true).
Proof.
  split; [| split; [apply equivalent_iff |]].
  - intros a b c Ha Hb Hc Hab Hbc.
    apply (equivalent_iff byFee a b Ha Hb) in Hab as [E1 F1].
    apply (equivalent_iff byFee b c Hb Hc) in Hbc as [E2 F2].
    apply (equivalent_iff byFee a c Ha Hc).
    split; [by apply float_eqb_trans with (prio_dPriority b) | congruence].
  - exists {| prio_dPriority := 1%float; prio_feeRate := 0; prio_feePaid := 0;
              prio_tx := CTransaction_default |},
           {| prio_dPriority := PrimFloat.nan; prio_feeRate := 0; prio_feePaid := 0;
              prio_tx := CTransaction_default |},
           {| prio_dPriority := 2%float; prio_feeRate := 0; prio_feePaid := 0;
              prio_tx := CTransaction_default |}.
    unfold priority_is_number, equivalent.
    destruct byFee; vm_compute; repeat split; reflexivity.
Qed.
